(** * python-cjson: a shallow embedding of [cjson.c]

    The development follows the layout of the C file: the decoder
    ([decode_null] .. [decode_json], [JSON_decode]) comes first, then the
    encoder ([encode_string] .. [encode_object], [JSON_encode]).  The
    properties come after the two models: those of the decoder, those of
    the encoder, and the round trip of the two.

    Data representation.
    - A C [char] buffer is a [list ascii]; it is NUL terminated, so reading at
      its end yields the NUL byte ([peek]).  A cursor ([char *ptr]) into the
      buffer is the suffix that starts at the cursor, and the offset
      [ptr - str] is the difference of the two lengths.
    - Python [int]/[long] objects are [Z]; [Py_UNICODE] code units are [Z].
    - Python [float] objects are IEEE-754 values ([SpecFloat.spec_float]);
      the two text conversions of the interpreter on finite doubles are
      fields of the [host] record.
    - Objects freshly built by the decoder form a tree ([pyvalue]); the
      encoder reads objects of the interpreter ([pyobj]), where lists and
      dicts live in a heap, have an identity, may be cyclic and may be
      changed by the code of the program that the encoder calls.
    - A C function of the encoder returns an object or NULL; the exception
      it raises is the error indicator of the thread, a part of the state
      ([enc_state]).  The calls into the interpreter that may run code of
      the program ([repr], [str], the number conversions, [isinstance],
      [strftime], the [default] callable) are fields of the [interp] record:
      they read and change the heap and the error indicator.

    What is left out.
    - Allocation succeeds: the paths on which [PyString_FromString],
      [PyList_New] and the like return NULL for lack of memory are not
      modelled, nor are reference counts.
    - The module was loaded on an interpreter that has the [datetime]
      module, so the three types [encode_object] tests are not NULL, and
      [PyArg_ParseTupleAndKeywords] has accepted the arguments. *)

From Stdlib Require Import ZArith Ascii String List Lia Bool.
From Stdlib Require Import Floats.SpecFloat.
From stdpp Require Import base option list gmap.

Import ListNotations.
#[local] Set Warnings "-register-all".
Local Open Scope Z_scope.
Local Open Scope list_scope.

(** ** Bytes and characters *)

Abbreviation bytes := (list ascii).

Definition bytes_of (s : string) : bytes := list_ascii_of_string s.
Definition text_of (b : bytes) : string := string_of_list_ascii b.

Definition NUL : ascii := "000"%char.
Definition DQUOTE : ascii := "034"%char.
Definition BACKSLASH : ascii := "\"%char.

Definition code (c : ascii) : Z := Z.of_N (N_of_ascii c).
Definition chr (n : Z) : ascii := ascii_of_N (Z.to_N n).

(** Reading the byte under the cursor of a NUL-terminated buffer. *)
Definition peek (p : bytes) : ascii :=
  match p with
  | [] => NUL
  | c :: _ => c
  end.

(** [ptr++]; never past the terminator in the code below. *)
Definition advance (p : bytes) : bytes := tail p.

(** <ctype.h>, "C" locale. *)
Definition isspace (c : ascii) : bool :=
  (code c =? 32) || ((9 <=? code c) && (code c <=? 13)).

Definition isdigit (c : ascii) : bool :=
  (48 <=? code c) && (code c <=? 57).

Definition isascii (c : ascii) : bool := code c <? 128.

Definition is_char (c d : ascii) : bool := Ascii.eqb c d.

(** The [skipSpaces] macro: advance the cursor while [isspace] holds. *)
Fixpoint skipSpaces (p : bytes) : bytes :=
  match p with
  | c :: p' => if isspace c then skipSpaces p' else p
  | [] => []
  end.

(** The [skipDigits] macro: advance the cursor while [isdigit] holds. *)
Fixpoint skipDigits (p : bytes) : bytes :=
  match p with
  | c :: p' => if isdigit c then skipDigits p' else p
  | [] => []
  end.

(** The bytes a [%s] conversion prints: up to the first NUL. *)
Fixpoint c_str (p : bytes) : bytes :=
  match p with
  | c :: p' => if is_char c NUL then [] else c :: c_str p'
  | [] => []
  end.

(** [left >= n && strncmp(ptr, word, n) == 0], [n] the length of [word]. *)
Definition starts_with (word p : bytes) : bool :=
  (length word <=? length p)%nat && bool_decide (take (length word) p = word).

(** ** Decimal text of integers

    [PyErr_Format] with [%zd], [PyObject_Str] on an [int]/[long] and
    [PyInt_FromString] in base 10. *)

Definition digit_char (d : Z) : ascii := chr (48 + d).
Definition digit_val (c : ascii) : Z := code c - 48.

Fixpoint pos_digits (fuel : nat) (n : Z) (acc : bytes) : bytes :=
  match fuel with
  | O => acc
  | S fuel' =>
      let acc' := digit_char (n mod 10) :: acc in
      if n / 10 =? 0 then acc' else pos_digits fuel' (n / 10) acc'
  end.

Definition nat_digits (n : Z) : bytes :=
  pos_digits (S (Z.to_nat (Z.log2 n))) n [].

Definition Z_to_bytes (z : Z) : bytes :=
  if z <? 0 then "-"%char :: nat_digits (- z) else nat_digits z.

Definition parse_digits (ds : bytes) : Z :=
  fold_left (fun acc c => 10 * acc + digit_val c) ds 0.

Definition all_digits (ds : bytes) : bool := forallb isdigit ds.

(** ** Exceptions *)

Inductive pyerr : Type :=
| JSON_DecodeError (msg : string)
| JSON_EncodeError (msg : string)
| PyExc_ValueError (msg : string)
| PyExc_TypeError (msg : string)
| PyExc_RuntimeError (msg : string)
| PyExc_OverflowError (msg : string)
| PyExc_UnicodeDecodeError (reason : string)
| PyExc_SystemError (msg : string)
| PyExc_Other (msg : string).

Inductive pyres (A : Type) : Type :=
| Ok (a : A)
| Err (e : pyerr).
Arguments Ok {A} a.
Arguments Err {A} e.

Definition is_DecodeError {A} (r : pyres A) : Prop :=
  match r with
  | Err (JSON_DecodeError _) => True
  | _ => False
  end.

Definition is_EncodeError {A} (r : pyres A) : Prop :=
  match r with
  | Err (JSON_EncodeError _) => True
  | _ => False
  end.

Definition is_ValueError {A} (r : pyres A) : Prop :=
  match r with
  | Err (PyExc_ValueError _) => True
  | _ => False
  end.

Definition is_Ok {A} (r : pyres A) : Prop :=
  match r with
  | Ok _ => True
  | Err _ => False
  end.

(** [PyErr_Format(exc, fmt SSIZE_T_F, pos)] *)
Definition fmt_pos (prefix : string) (pos : nat) : string :=
  (prefix ++ text_of (Z_to_bytes (Z.of_nat pos)))%string.

(** [Py_EnterRecursiveCall(where)] of the interpreter (Python.h): it fails
    once the thread's recursion depth passes the recursion limit and then
    sets [RuntimeError] with this text.  The embedding carries the number of
    calls that may still be entered; [Py_LeaveRecursiveCall] gives one
    back. *)
Definition recursion_error (where_ : string) : pyerr :=
  PyExc_RuntimeError ("maximum recursion depth exceeded" ++ where_)%string.

(** ** The interpreter as seen by cjson.c *)

Record host : Type := Host {
  (** [PyFloat_FromString] on a token accepted by [decode_number]. *)
  PyFloat_FromString : bytes -> option spec_float;
  (** [PyObject_Repr] on a finite [float]. *)
  float_repr : spec_float -> bytes;
  (** [PY_SSIZE_T_MAX] *)
  PY_SSIZE_T_MAX : Z;
  (** [#ifdef Py_UNICODE_WIDE] *)
  Py_UNICODE_WIDE : bool
}.

(** ** Values built by the decoder *)

Inductive pyvalue : Type :=
| VNone
| VBool (b : bool)
| VInt (z : Z)
| VFloat (f : spec_float)
| VString (s : bytes)
| VUnicode (u : list Z)
| VList (items : list pyvalue)
| VDict (entries : list (pyvalue * pyvalue)).

(** ** Decoding *)

Record JSONData : Type := mkJSONData {
  str : bytes;          (* the actual json string *)
  ptr : bytes;          (* the current parsing position, as a suffix of [str] *)
  all_unicode : bool    (* make all output strings unicode if true *)
}.

Definition set_ptr (d : JSONData) (p : bytes) : JSONData :=
  mkJSONData (str d) p (all_unicode d).

(** [jsondata->ptr - jsondata->str] *)
Definition offset (d : JSONData) (p : bytes) : nat :=
  (length (str d) - length p)%nat.

Definition decoded : Type := pyres (pyvalue * JSONData).

(** [PyErr_Format(JSON_DecodeError, "cannot parse JSON description: %.20s", ptr)] *)
Definition cannot_parse (d : JSONData) : pyerr :=
  JSON_DecodeError
    ("cannot parse JSON description: " ++ text_of (take 20 (c_str (ptr d))))%string.

Definition decode_null (d : JSONData) : decoded :=
  if starts_with (bytes_of "null") (ptr d) then
    Ok (VNone, set_ptr d (drop 4 (ptr d)))
  else Err (cannot_parse d).

Definition decode_bool (d : JSONData) : decoded :=
  if starts_with (bytes_of "true") (ptr d) then
    Ok (VBool true, set_ptr d (drop 4 (ptr d)))
  else if starts_with (bytes_of "false") (ptr d) then
    Ok (VBool false, set_ptr d (drop 5 (ptr d)))
  else Err (cannot_parse d).

Definition INFINITY : spec_float := S754_infinity false.
Definition NEG_INFINITY : spec_float := S754_infinity true.
Definition NAN : spec_float := S754_nan.

Definition decode_inf (d : JSONData) : decoded :=
  if starts_with (bytes_of "Infinity") (ptr d) then
    Ok (VFloat INFINITY, set_ptr d (drop 8 (ptr d)))
  else if starts_with (bytes_of "+Infinity") (ptr d) then
    Ok (VFloat INFINITY, set_ptr d (drop 9 (ptr d)))
  else if starts_with (bytes_of "-Infinity") (ptr d) then
    Ok (VFloat NEG_INFINITY, set_ptr d (drop 9 (ptr d)))
  else Err (cannot_parse d).

Definition decode_nan (d : JSONData) : decoded :=
  if starts_with (bytes_of "NaN") (ptr d) then
    Ok (VFloat NAN, set_ptr d (drop 3 (ptr d)))
  else Err (cannot_parse d).

(** *** Strings *)

(** The escape letters of the [switch] in the scanning loop of
    [decode_string] that set [string_escape]. *)
Definition is_simple_escape (c : ascii) : bool :=
  is_char c DQUOTE || is_char c "r" || is_char c "n" || is_char c "t"
  || is_char c "b" || is_char c "f" || is_char c BACKSLASH.

Record string_scan : Type := mkScan {
  scan_ptr : bytes;        (* the cursor, at the closing quote *)
  has_unicode : bool;
  string_escape : bool
}.

(** The loop "look for the closing quote" of [decode_string]; [None] is the
    exit through [c == 0]. *)
Fixpoint scan_string (p : bytes) (escaping has_unicode string_escape : bool)
  : option string_scan :=
  match p with
  | [] => None
  | c :: p' =>
      if is_char c NUL then None
      else if negb escaping then
        if is_char c BACKSLASH then scan_string p' true has_unicode string_escape
        else if is_char c DQUOTE then Some (mkScan p has_unicode string_escape)
        else if negb (isascii c) then scan_string p' false true string_escape
        else scan_string p' false has_unicode string_escape
      else
        if is_char c "u" then scan_string p' false true string_escape
        else if is_simple_escape c then scan_string p' false has_unicode true
        else scan_string p' false has_unicode string_escape
  end.

(** Modelled from the spec: the interpreter's [PyString_DecodeEscape] is not
    part of cjson.c.  It interprets the simple escapes (backslash followed by
    a double quote, a backslash, b, f, n, r or t); a backslash before any
    other byte is kept, as the interpreter does for an escape it does not
    know. *)
Definition simple_escape (c : ascii) : option ascii :=
  if is_char c DQUOTE then Some DQUOTE
  else if is_char c BACKSLASH then Some BACKSLASH
  else if is_char c "b" then Some "008"%char
  else if is_char c "f" then Some "012"%char
  else if is_char c "n" then Some "010"%char
  else if is_char c "r" then Some "013"%char
  else if is_char c "t" then Some "009"%char
  else None.

Definition res_cons {A} (x : A) (r : pyres (list A)) : pyres (list A) :=
  match r with
  | Ok l => Ok (x :: l)
  | Err e => Err e
  end.

Fixpoint PyString_DecodeEscape (s : bytes) : pyres bytes :=
  match s with
  | [] => Ok []
  | c :: s1 =>
      if is_char c BACKSLASH then
        match s1 with
        | [] => Err (PyExc_ValueError "Trailing \ in string")
        | e :: s2 =>
            match simple_escape e with
            | Some x => res_cons x (PyString_DecodeEscape s2)
            | None => res_cons BACKSLASH (res_cons e (PyString_DecodeEscape s2))
            end
        end
      else res_cons c (PyString_DecodeEscape s1)
  end.

Definition hex_val (c : ascii) : option Z :=
  let n := code c in
  if (48 <=? n) && (n <=? 57) then Some (n - 48)
  else if (97 <=? n) && (n <=? 102) then Some (n - 87)
  else if (65 <=? n) && (n <=? 70) then Some (n - 55)
  else None.

Definition hex4_val (a b c d : ascii) : option Z :=
  match hex_val a, hex_val b, hex_val c, hex_val d with
  | Some x3, Some x2, Some x1, Some x0 => Some (4096 * x3 + 256 * x2 + 16 * x1 + x0)
  | _, _, _, _ => None
  end.

(** Modelled from the spec: the interpreter's [PyUnicode_DecodeUnicodeEscape]
    is not part of cjson.c.  First pass: every byte outside an escape is the
    code point of that value, a simple escape is its character, and a
    backslash-u escape with four hex digits is the 16-bit unit they denote. *)
Fixpoint unicode_escape_units (s : bytes) : pyres (list Z) :=
  match s with
  | [] => Ok []
  | c :: s1 =>
      if is_char c BACKSLASH then
        match s1 with
        | [] => Err (PyExc_UnicodeDecodeError "\ at end of string")
        | e :: s2 =>
            if is_char e "u" then
              match s2 with
              | x3 :: x2 :: x1 :: x0 :: s3 =>
                  match hex4_val x3 x2 x1 x0 with
                  | Some u => res_cons u (unicode_escape_units s3)
                  | None => Err (PyExc_UnicodeDecodeError "truncated \uXXXX escape")
                  end
              | _ => Err (PyExc_UnicodeDecodeError "truncated \uXXXX escape")
              end
            else
              match simple_escape e with
              | Some x => res_cons (code x) (unicode_escape_units s2)
              | None =>
                  res_cons (code BACKSLASH) (res_cons (code e) (unicode_escape_units s2))
              end
        end
      else res_cons (code c) (unicode_escape_units s1)
  end.

Definition is_high_surrogate (u : Z) : bool := (0xD800 <=? u) && (u <=? 0xDBFF).
Definition is_low_surrogate (u : Z) : bool := (0xDC00 <=? u) && (u <=? 0xDFFF).

(** Modelled from the spec: surrogate-pair handling of the Unicode-escape
    decoder, "\uD800-\uDBFF followed by \uDC00-\uDFFF becomes one scalar value
    above U+FFFF".  Only units that come from backslash-u escapes can be
    surrogates, bytes being below 256. *)
Fixpoint join_surrogates (us : list Z) : list Z :=
  match us with
  | [] => []
  | hi :: us1 =>
      match us1 with
      | lo :: us2 =>
          if is_high_surrogate hi && is_low_surrogate lo then
            (0x10000 + 1024 * (hi - 0xD800) + (lo - 0xDC00)) :: join_surrogates us2
          else hi :: join_surrogates us1
      | [] => [hi]
      end
  end.

Definition PyUnicode_DecodeUnicodeEscape (wide : bool) (s : bytes) : pyres (list Z) :=
  match unicode_escape_units s with
  | Ok us => Ok (if wide then join_surrogates us else us)
  | Err e => Err e
  end.

Section Decoder.

Variable h : host.

(** The three-way choice of the interior decoder in [decode_string]. *)
Definition decode_interior (d : JSONData) (sc : string_scan) (interior : bytes)
  : pyres pyvalue :=
  if has_unicode sc || all_unicode d then
    match PyUnicode_DecodeUnicodeEscape (Py_UNICODE_WIDE h) interior with
    | Ok u => Ok (VUnicode u)
    | Err e => Err e
    end
  else if string_escape sc then
    match PyString_DecodeEscape interior with
    | Ok b => Ok (VString b)
    | Err e => Err e
    end
  else Ok (VString interior).

Definition decode_string (d : JSONData) : decoded :=
  match scan_string (advance (ptr d)) false false false with
  | None =>
      Err (JSON_DecodeError
             (fmt_pos "unterminated string starting at position " (offset d (ptr d))))
  | Some sc =>
      let len := (length (ptr d) - length (scan_ptr sc) - 1)%nat in
      let interior := take len (advance (ptr d)) in
      match decode_interior d sc interior with
      | Ok object => Ok (object, set_ptr d (advance (scan_ptr sc)))
      | Err (PyExc_UnicodeDecodeError reason) =>
          Err (JSON_DecodeError
                 (fmt_pos "cannot decode string starting at position "
                    (offset d (ptr d)) ++ ": " ++ reason)%string)
      | Err _ =>
          Err (JSON_DecodeError
                 (fmt_pos "invalid string starting at position " (offset d (ptr d))))
      end
  end.

(** *** Numbers *)

(** [PyInt_FromString(s, NULL, 10)] on a token of [decode_number]: a sign and
    decimal digits; the interpreter switches to a [long] on overflow, so the
    result is unbounded. *)
Definition PyInt_FromString (tok : bytes) : option Z :=
  let signed (neg : bool) (ds : bytes) :=
    if negb (bool_decide (ds = [])) && all_digits ds then
      Some (if neg then - parse_digits ds else parse_digits ds)
    else None in
  match tok with
  | c :: ds =>
      if is_char c "-" then signed true ds
      else if is_char c "+" then signed false ds
      else signed false tok
  | [] => None
  end.

Record number_scan : Type := mkNumber {
  num_ptr : bytes;      (* the cursor after the token *)
  is_float : bool
}.

(** The validation part of [decode_number], up to the construction of
    [str]; [None] is [goto number_error]. *)
Definition scan_number (p0 : bytes) : option number_scan :=
  let p1 := if is_char (peek p0) "-" || is_char (peek p0) "+" then advance p0 else p0 in
  let int_part :=
    if is_char (peek p1) "0" then
      let p := advance p1 in
      if isdigit (peek p) then None else Some p
    else if isdigit (peek p1) then Some (skipDigits p1)
    else None in
  match int_part with
  | None => None
  | Some p2 =>
      let frac_part :=
        if is_char (peek p2) "." then
          let p := advance p2 in
          if negb (isdigit (peek p)) then None else Some (skipDigits p, true)
        else Some (p2, false) in
      match frac_part with
      | None => None
      | Some (p3, fl) =>
          if is_char (peek p3) "e" || is_char (peek p3) "E" then
            let p := advance p3 in
            let p := if is_char (peek p) "+" || is_char (peek p) "-" then advance p else p in
            if negb (isdigit (peek p)) then None
            else Some (mkNumber (skipDigits p) true)
          else Some (mkNumber p3 fl)
      end
  end.

Definition number_error (d : JSONData) : pyerr :=
  JSON_DecodeError (fmt_pos "invalid number starting at position " (offset d (ptr d))).

Definition decode_number (d : JSONData) : decoded :=
  match scan_number (ptr d) with
  | None => Err (number_error d)
  | Some n =>
      let tok := take (length (ptr d) - length (num_ptr n))%nat (ptr d) in
      let object :=
        if is_float n then
          match PyFloat_FromString h tok with
          | Some f => Some (VFloat f)
          | None => None
          end
        else
          match PyInt_FromString tok with
          | Some z => Some (VInt z)
          | None => None
          end in
      match object with
      | None => Err (number_error d)
      | Some v => Ok (v, set_ptr d (num_ptr n))
      end
  end.

(** *** Containers *)

Inductive ArrayState : Type :=
| ArrayItem_or_ClosingBracket
| Comma_or_ClosingBracket
| ArrayItem
| ArrayDone.

Inductive DictionaryState : Type :=
| DictionaryKey_or_ClosingBrace
| Comma_or_ClosingBrace
| DictionaryKey
| DictionaryDone.

Definition skip (d : JSONData) : JSONData := set_ptr d (skipSpaces (ptr d)).
Definition next (d : JSONData) : JSONData := set_ptr d (advance (ptr d)).

(** Equality of two keys as [PyDict_SetItem] sees it: a [str] and a [unicode]
    are the same key when the [str] is 7-bit and spells the same code
    points. *)
Definition key_eqb (k1 k2 : pyvalue) : bool :=
  match k1, k2 with
  | VString a, VString b => bool_decide (a = b)
  | VUnicode a, VUnicode b => bool_decide (a = b)
  | VString a, VUnicode u | VUnicode u, VString a =>
      forallb isascii a && bool_decide (map code a = u)
  | _, _ => false
  end.

(** [PyDict_SetItem]: the last value of a key wins; a new key is entered
    after the existing ones. *)
Fixpoint PyDict_SetItem (entries : list (pyvalue * pyvalue)) (key value : pyvalue)
  : list (pyvalue * pyvalue) :=
  match entries with
  | [] => [(key, value)]
  | (k, v) :: rest =>
      if key_eqb k key then (k, value) :: rest
      else (k, v) :: PyDict_SetItem rest key value
  end.

(** The loops of [decode_array] and [decode_object] end because every turn
    consumes input; [loop_exhausted] is the result of a loop that has used
    one turn per byte of its input and is not done, which [decode_json]
    never produces (lemma [decode_json_not_exhausted]). *)
Definition loop_exhausted : pyerr := PyExc_Other "loop_exhausted".

Section Containers.

Variable decode_json : JSONData -> decoded.

Fixpoint decode_array_loop (turns : nat) (start : bytes) (next_state : ArrayState)
  (object : list pyvalue) (d : JSONData) : decoded :=
  match next_state with
  | ArrayDone => Ok (VList object, d)
  | _ =>
    match turns with
    | O => Err loop_exhausted
    | S turns' =>
      let d := skip d in
      let c := peek (ptr d) in
      let item (_ : unit) : decoded :=
        if is_char c "," || is_char c "]" then
          Err (JSON_DecodeError
                 (fmt_pos "expecting array item at position " (offset d (ptr d))))
        else
          match decode_json d with
          | Err e => Err e
          | Ok (item, d') =>
              decode_array_loop turns' start Comma_or_ClosingBracket (object ++ [item]) d'
          end in
      if is_char c NUL then
        Err (JSON_DecodeError
               (fmt_pos "unterminated array starting at position " (offset d start)))
      else
        match next_state with
        | ArrayItem_or_ClosingBracket =>
            if is_char c "]" then decode_array_loop turns' start ArrayDone object (next d)
            else item tt
        | ArrayItem => item tt
        | Comma_or_ClosingBracket =>
            if is_char c "]" then decode_array_loop turns' start ArrayDone object (next d)
            else if is_char c "," then decode_array_loop turns' start ArrayItem object (next d)
            else
              Err (JSON_DecodeError
                     (fmt_pos "expecting ',' or ']' at position " (offset d (ptr d))))
        | ArrayDone => Ok (VList object, d)
        end
    end
  end.

Definition decode_array (d : JSONData) : decoded :=
  let start := ptr d in
  decode_array_loop (S (length (ptr d))) start ArrayItem_or_ClosingBracket [] (next d).

Fixpoint decode_object_loop (turns : nat) (start : bytes) (next_state : DictionaryState)
  (object : list (pyvalue * pyvalue)) (d : JSONData) : decoded :=
  match next_state with
  | DictionaryDone => Ok (VDict object, d)
  | _ =>
    match turns with
    | O => Err loop_exhausted
    | S turns' =>
      let d := skip d in
      let c := peek (ptr d) in
      let pair (_ : unit) : decoded :=
        if negb (is_char c DQUOTE) then
          Err (JSON_DecodeError
                 (fmt_pos "expecting object property name at position " (offset d (ptr d))))
        else
          match decode_json d with
          | Err e => Err e
          | Ok (key, d1) =>
              let d1 := skip d1 in
              if negb (is_char (peek (ptr d1)) ":") then
                Err (JSON_DecodeError
                       (fmt_pos "missing colon after object property name at position "
                          (offset d1 (ptr d1))))
              else
                let d2 := skip (next d1) in
                if is_char (peek (ptr d2)) "," || is_char (peek (ptr d2)) "}" then
                  Err (JSON_DecodeError
                         (fmt_pos "expecting object property value at position "
                            (offset d2 (ptr d2))))
                else
                  match decode_json d2 with
                  | Err e => Err e
                  | Ok (value, d3) =>
                      decode_object_loop turns' start Comma_or_ClosingBrace
                        (PyDict_SetItem object key value) d3
                  end
          end in
      if is_char c NUL then
        Err (JSON_DecodeError
               (fmt_pos "unterminated object starting at position " (offset d start)))
      else
        match next_state with
        | DictionaryKey_or_ClosingBrace =>
            if is_char c "}" then decode_object_loop turns' start DictionaryDone object (next d)
            else pair tt
        | DictionaryKey => pair tt
        | Comma_or_ClosingBrace =>
            if is_char c "}" then decode_object_loop turns' start DictionaryDone object (next d)
            else if is_char c "," then
              decode_object_loop turns' start DictionaryKey object (next d)
            else
              Err (JSON_DecodeError
                     (fmt_pos "expecting ',' or '}' at position " (offset d (ptr d))))
        | DictionaryDone => Ok (VDict object, d)
        end
    end
  end.

Definition decode_object (d : JSONData) : decoded :=
  let start := ptr d in
  decode_object_loop (S (length (ptr d))) start DictionaryKey_or_ClosingBrace [] (next d).

End Containers.

(** [decode_json]; [depth] is the number of [Py_EnterRecursiveCall]s that
    may still succeed. *)
Fixpoint decode_json (depth : nat) (d : JSONData) : decoded :=
  let d := skip d in
  let c := peek (ptr d) in
  if is_char c NUL then Err (JSON_DecodeError "empty JSON description")
  else if is_char c "{" then
    match depth with
    | O => Err (recursion_error " while decoding a JSON object")
    | S depth' => decode_object (decode_json depth') d
    end
  else if is_char c "[" then
    match depth with
    | O => Err (recursion_error " while decoding a JSON array")
    | S depth' => decode_array (decode_json depth') d
    end
  else if is_char c DQUOTE then decode_string d
  else if is_char c "t" || is_char c "f" then decode_bool d
  else if is_char c "n" then decode_null d
  else if is_char c "N" then decode_nan d
  else if is_char c "I" then decode_inf d
  else if (is_char c "+" || is_char c "-") && is_char (peek (advance (ptr d))) "I" then
    decode_inf d
  else if is_char c "+" || is_char c "-" || isdigit c then decode_number d
  else Err (JSON_DecodeError "cannot parse JSON description").

(** [JSON_decode] on a [str] argument.  A [unicode] argument is first turned
    into a [str] by the interpreter (raw-unicode-escape), which is then
    decoded in the same way.  [PyString_AsStringAndSize] refuses a string
    that contains a NUL byte. *)
Definition JSON_decode (depth : nat) (string : bytes) (all_unicode : bool)
  : pyres pyvalue :=
  if existsb (fun c => is_char c NUL) string then
    Err (PyExc_TypeError "expected string without null bytes")
  else
    let jsondata := mkJSONData string string all_unicode in
    match decode_json depth jsondata with
    | Err e => Err e
    | Ok (object, jsondata) =>
        let jsondata := skip jsondata in
        if (0 <? length (ptr jsondata))%nat then
          Err (JSON_DecodeError
                 (fmt_pos "extra data after JSON description at position "
                    (offset jsondata (ptr jsondata))))
        else Ok object
    end.

End Decoder.

(** * Encoding *)

(** ** Objects of the interpreter

    Lists and dicts are mutable and have an identity: they live in the heap
    and are referred to by their address.  Tuples are immutable and carry
    their items.  [PyString], [PyUnicode], [PyRef] and [PyTuple] stand for
    the instances of [str], [unicode], [list], [dict] and [tuple] and of
    their subclasses, of which the encoder reads the C fields.  [PyFloat]
    and [PyInt] are the objects whose type is exactly [float], [int] or
    [long]; [PySubFloat] and [PySubInt] are the instances of subclasses of
    these, whose [__repr__] and [__str__] are code of the program.
    [PyNumber] is an object of another type that passes [PyNumber_Check],
    [PyTemporal] an object whose type is exactly [datetime], [date] or
    [time], and [PyInstance] any other object; [callable] is what
    [PyCallable_Check] tests.  [id] is the identity of the object. *)

Abbreviation loc := nat.

Inductive temporal : Type := TDateTime | TDate | TTime.

Inductive pyobj : Type :=
| PyNone
| PyBool (b : bool)
| PyString (s : bytes)
| PyUnicode (u : list Z)
| PyFloat (f : spec_float)
| PyInt (z : Z)
| PyRef (l : loc)
| PyTuple (ob_item : list pyobj)
| PySubFloat (id : nat) (f : spec_float)
| PySubInt (id : nat)
| PyNumber (id : nat)
| PyTemporal (kind : temporal) (id : nat) (truth : bool)
| PyInstance (id : nat) (callable : bool).

(** A dict is its hash table: the slots in the order of the table, an unused
    slot being [None].  [PyDict_Next] walks the slots. *)
Inductive heap_obj : Type :=
| ob_list (ob_item : list pyobj)
| ob_dict (ma_table : list (option (pyobj * pyobj))).

(** The entries of a table, in the order of the slots. *)
Fixpoint table_entries (ma_table : list (option (pyobj * pyobj))) : list (pyobj * pyobj) :=
  match ma_table with
  | [] => []
  | Some entry :: rest => entry :: table_entries rest
  | None :: rest => table_entries rest
  end.

(** ** The state of the thread

    [objects] is the heap, [curexc] the error indicator ([PyErr_Occurred]),
    [Py_Repr] the interpreter's list of the objects whose representation is
    being computed, used by [Py_ReprEnter] and [Py_ReprLeave].  [calls]
    records the arguments of the calls made to the [default] callable, in
    order; the code does not read it. *)
Record enc_state : Type := mkState {
  objects : gmap loc heap_obj;
  curexc : option pyerr;
  Py_Repr : list loc;
  calls : list pyobj
}.

Definition set_objects (o : gmap loc heap_obj) (st : enc_state) : enc_state :=
  mkState o (curexc st) (Py_Repr st) (calls st).

Definition PyErr_SetString (e : pyerr) (st : enc_state) : enc_state :=
  mkState (objects st) (Some e) (Py_Repr st) (calls st).

Definition PyErr_Clear (st : enc_state) : enc_state :=
  mkState (objects st) None (Py_Repr st) (calls st).

Definition set_Py_Repr (r : list loc) (st : enc_state) : enc_state :=
  mkState (objects st) (curexc st) r (calls st).

Definition log_call (o : pyobj) (st : enc_state) : enc_state :=
  mkState (objects st) (curexc st) (Py_Repr st) (calls st ++ [o]).

(** ** Code of the interpreter and of the program

    A call into the interpreter that may run code of the program: given the
    number of recursive calls the recursion guard still allows and the state
    of the thread, it returns an object or NULL ([None]) and the state it
    leaves.  It may do anything to the heap and to the error indicator. *)
Definition pycode (A : Type) : Type := nat -> enc_state -> option A * enc_state.

Record interp : Type := mkInterp {
  (** [PyObject_Repr] on an object other than a [float] *)
  PyObject_Repr : pyobj -> pycode bytes;
  (** the [tp_str] slot and the conversion of its result to [str], as
      [PyObject_Str] runs them below the recursion guard; on other objects
      than an [int] or [long] *)
  tp_str : pyobj -> pycode bytes;
  (** [PyObject_IsTrue] on an object whose truth is code of the program *)
  nb_nonzero : pyobj -> pycode bool;
  PyNumber_Float : pyobj -> pycode pyobj;
  PyNumber_Long : pyobj -> pycode pyobj;
  (** [PyObject_Cmp(a, b, &cmp)]: NULL stands for the result -1, and the
      value is [cmp] *)
  PyObject_Cmp : pyobj -> pyobj -> pycode Z;
  (** [PyObject_IsInstance(object, type)] where [type] is not the type of
      [object]: the [__instancecheck__] path; NULL stands for -1 *)
  instancecheck : pyobj -> temporal -> pycode bool;
  (** [PyObject_CallMethodObjArgs(object, "strftime", fmt, NULL)] *)
  strftime : pyobj -> bytes -> pycode pyobj;
  (** the [tp_call] slot of a callable, on one argument *)
  tp_call : pyobj -> pyobj -> pycode pyobj
}.

(** The code runs and returns; it leaves [Py_Repr] as it found it, every
    [Py_ReprEnter] of the interpreter being followed by its
    [Py_ReprLeave]. *)
Definition run {A} (code : pycode A) (depth : nat) (st : enc_state) : option A * enc_state :=
  let (r, st') := code depth st in
  (r, mkState (objects st') (curexc st') (Py_Repr st) (calls st)).

(** ** Results of the C functions

    A function of [cjson.c] returns an object ([Value]) or NULL ([Null]);
    the exception is [curexc].  [Stuck undefined] is a run that has undefined
    behaviour in C (a NULL or a foreign object is dereferenced), and
    [Stuck exhausted] a loop that needs more turns than the embedding was
    given: the list and dict loops have no bound of their own, because the
    code they call may add items. *)
Inductive stuck : Type := undefined | exhausted.

Inductive outcome (A : Type) : Type :=
| Value (a : A)
| Null
| Stuck (why : stuck).
Arguments Value {A} a.
Arguments Null {A}.
Arguments Stuck {A} why.

Definition enc (A : Type) : Type := enc_state -> outcome A * enc_state.

Definition ret {A} (a : A) : enc A := fun st => (Value a, st).

(** [PyErr_SetString(e); return NULL;] *)
Definition raise {A} (e : pyerr) : enc A := fun st => (Null, PyErr_SetString e st).

Definition bind {A B} (m : enc A) (k : A -> enc B) : enc B :=
  fun st =>
    match m st with
    | (Value a, st') => k a st'
    | (Null, st') => (Null, st')
    | (Stuck why, st') => (Stuck why, st')
    end.

Notation "'let*' x ':=' m 'in' k" := (bind m (fun x => k))
  (at level 10, x name, m at level 100, k at level 200).

Definition lift {A} (r : pyres A) : enc A :=
  match r with
  | Ok a => ret a
  | Err e => raise e
  end.

(** [Py_ReprEnter]: 1 when the object is already in the list, else the
    object is appended and the result is 0. *)
Definition Py_ReprEnter (l : loc) (st : enc_state) : Z * enc_state :=
  if bool_decide (l ∈ Py_Repr st) then (1, st)
  else (0, set_Py_Repr (Py_Repr st ++ [l]) st).

(** [Py_ReprLeave]: the last occurrence of the object is removed. *)
Fixpoint remove_last (l : loc) (r : list loc) : list loc :=
  match r with
  | [] => []
  | x :: r' =>
      if bool_decide (l ∈ r') then x :: remove_last l r'
      else if bool_decide (x = l) then r' else x :: r'
  end.

Definition Py_ReprLeave (l : loc) (st : enc_state) : enc_state :=
  set_Py_Repr (remove_last l (Py_Repr st)) st.

(** ** Strings *)

Definition hexdigit (i : Z) : ascii :=
  nth (Z.to_nat i) (bytes_of "0123456789abcdef") NUL.

(** One turn of the loop of [encode_string]. *)
Definition encode_string_char (c : ascii) : bytes :=
  if is_char c DQUOTE || is_char c BACKSLASH then [BACKSLASH; c]
  else if is_char c "009" then bytes_of "\t"
  else if is_char c "010" then bytes_of "\n"
  else if is_char c "013" then bytes_of "\r"
  else if is_char c "012" then bytes_of "\f"
  else if is_char c "008" then bytes_of "\b"
  else if (code c <? 32) || (127 <=? code c) then
    (* sprintf(p, "\\u%04x", c & 0xff) *)
    bytes_of "\u00" ++ [hexdigit (Z.shiftr (code c) 4); hexdigit (Z.land (code c) 15)]
  else [c].

(** The conversion [(int) n] of a [Py_ssize_t]: [int] has 32 bits, and the
    value wraps around. *)
Definition INT_MAX : Z := 2 ^ 31 - 1.

Definition int_cast (n : Z) : Z := (n + 2 ^ 31) mod 2 ^ 32 - 2 ^ 31.

(** [_PyString_Resize(&v, newsize)] on a string that was just allocated: a
    negative size is refused with [PyErr_BadInternalCall], which leaves [v]
    NULL; otherwise the string keeps its first [newsize] bytes.  (The
    interpreter writes the file and the line of its source before the text of
    the SystemError.) *)
Definition _PyString_Resize (v : bytes) (newsize : Z) : pyres bytes :=
  if newsize <? 0 then Err (PyExc_SystemError "bad argument to internal function")
  else Ok (take (Z.to_nat newsize) v).

Section Encoder.

Variable h : host.

Definition encode_string (s : bytes) : pyres bytes :=
  if (PY_SSIZE_T_MAX h - 2) / 6 <? Z.of_nat (length s) then
    Err (PyExc_OverflowError "string is too large to make repr")
  else
    let v := DQUOTE :: concat (map encode_string_char s) ++ [DQUOTE] in
    (* _PyString_Resize(&v, (int) (p - PyString_AS_STRING(v))) *)
    _PyString_Resize v (int_cast (Z.of_nat (length v))).

(** One turn of the loop of [encode_unicode]. *)
Definition encode_unicode_char (ch : Z) : bytes :=
  if (ch =? code DQUOTE) || (ch =? code BACKSLASH) then [BACKSLASH; chr ch]
  else if Py_UNICODE_WIDE h && (0x10000 <=? ch) then
    let ucs1 := Z.land (Z.shiftr (ch - 0x10000) 10) 0x03FF + 0xD800 in
    let ucs2 := Z.land (ch - 0x10000) 0x03FF + 0xDC00 in
    [BACKSLASH; "u"%char;
     hexdigit (Z.land (Z.shiftr ucs1 12) 0x000F);
     hexdigit (Z.land (Z.shiftr ucs1 8) 0x000F);
     hexdigit (Z.land (Z.shiftr ucs1 4) 0x000F);
     hexdigit (Z.land ucs1 0x000F);
     BACKSLASH; "u"%char;
     hexdigit (Z.land (Z.shiftr ucs2 12) 0x000F);
     hexdigit (Z.land (Z.shiftr ucs2 8) 0x000F);
     hexdigit (Z.land (Z.shiftr ucs2 4) 0x000F);
     hexdigit (Z.land ucs2 0x000F)]
  else if 256 <=? ch then
    [BACKSLASH; "u"%char;
     hexdigit (Z.land (Z.shiftr ch 12) 0x000F);
     hexdigit (Z.land (Z.shiftr ch 8) 0x000F);
     hexdigit (Z.land (Z.shiftr ch 4) 0x000F);
     hexdigit (Z.land ch 0x000F)]
  else if ch =? 9 then bytes_of "\t"
  else if ch =? 10 then bytes_of "\n"
  else if ch =? 13 then bytes_of "\r"
  else if ch =? 12 then bytes_of "\f"
  else if ch =? 8 then bytes_of "\b"
  else if (ch <? 32) || (127 <=? ch) then
    [BACKSLASH; "u"%char; "0"%char; "0"%char;
     hexdigit (Z.land (Z.shiftr ch 4) 0x000F);
     hexdigit (Z.land ch 0x000F)]
  else [chr ch].

Definition expandsize : Z := if Py_UNICODE_WIDE h then 12 else 6.

Definition encode_unicode (u : list Z) : pyres bytes :=
  if (PY_SSIZE_T_MAX h - 2 - 1) / expandsize <? Z.of_nat (length u) then
    Err (PyExc_OverflowError "unicode object is too large to make repr")
  else Ok (DQUOTE :: concat (map encode_unicode_char u) ++ [DQUOTE]).

(** ** Containers *)

(** [_PyString_Join(sep, pieces)] *)
Fixpoint PyString_Join (sep : bytes) (pieces : list bytes) : bytes :=
  match pieces with
  | [] => []
  | [p] => p
  | p :: ps => p ++ sep ++ PyString_Join sep ps
  end.

(** "Add decorations to the first and last items", then "paste them all
    together with ', ' between". *)
Definition decorate (open_ close : bytes) (pieces : list bytes) : bytes :=
  let pieces := alter (fun p => open_ ++ p) 0%nat pieces in
  let pieces := alter (fun p => p ++ close) (length pieces - 1)%nat pieces in
  PyString_Join (bytes_of ", ") pieces.

Variable w : interp.

(** [raise_encoding_error(object); return NULL;].  The result of
    [PyObject_Repr] is not checked: when it is NULL, [PyString_AsString]
    dereferences it.  The [%s] conversion prints the text up to its first
    NUL. *)
Definition raise_encoding_error {A} (object : pyobj) (depth : nat) : enc A :=
  fun st =>
    let (repr, st) := run (PyObject_Repr w object) depth st in
    match repr with
    | Some repr =>
        raise (JSON_EncodeError
                 ("object " ++ text_of (c_str repr) ++ " is not JSON encodable")%string) st
    | None => (Stuck undefined, st)
    end.

(** [encode_float]: [PyFloat_AS_DOUBLE] reads the double of a [float]
    object; the text of a finite double is its [PyObject_Repr]. *)
Definition encode_float (object : pyobj) (depth : nat) : enc bytes :=
  let text (f : spec_float) (repr : enc bytes) : enc bytes :=
    match f with
    | S754_nan => ret (bytes_of "NaN")
    | S754_infinity false => ret (bytes_of "Infinity")
    | S754_infinity true => ret (bytes_of "-Infinity")
    | _ => repr
    end in
  match object with
  | PyFloat f => text f (ret (float_repr h f))
  | PySubFloat _ f =>
      text f (fun st =>
                let (repr, st) := run (PyObject_Repr w object) depth st in
                (match repr with Some repr => Value repr | None => Null end, st))
  | _ => fun st => (Stuck undefined, st)
  end.

(** [PyObject_Str] on an [int] or [long] object or an instance of a subclass:
    the [tp_str] slot is called below the recursion guard; the slot of [int]
    and [long] writes the decimal digits. *)
Definition PyObject_Str (object : pyobj) (depth : nat) : enc bytes :=
  match depth with
  | O => raise (recursion_error " while getting the str of an object")
  | S depth' =>
      match object with
      | PyInt z => ret (Z_to_bytes z)
      | _ =>
          fun st =>
            let (s, st) := run (tp_str w object) depth' st in
            (match s with Some s => Value s | None => Null end, st)
      end
  end.

(** The arm of [encode_object] for the objects that pass [PyNumber_Check].
    A conversion that fails leaves its exception in the error indicator,
    also when the arm returns a text. *)
Definition encode_number (object : pyobj) (depth : nat) : enc bytes :=
  fun st =>
    let (decimal, st) := run (PyNumber_Float w object) depth st in
    match decimal with
    | Some decimal =>
        let (integer, st) := run (PyNumber_Long w decimal) depth st in
        match integer with
        | Some integer =>
            let (cmp, st) := run (PyObject_Cmp w integer decimal) depth st in
            match cmp with
            | None =>
                (* Cannot compare, fall back to float *)
                encode_float decimal depth st
            | Some cmp =>
                if cmp =? 0 then PyObject_Str integer depth st
                else encode_float decimal depth st
            end
        | None => encode_float decimal depth st
        end
    | None =>
        let (integer, st) := run (PyNumber_Long w object) depth st in
        match integer with
        | Some integer => PyObject_Str integer depth st
        | None => raise_encoding_error object depth st
        end
    end.

(** [type && PyObject_IsInstance(object, type)] as a C condition: the result
    -1 of a failed check counts as true.  An object whose type is [type]
    itself is recognized at once. *)
Definition temporal_eqb (a b : temporal) : bool :=
  match a, b with
  | TDateTime, TDateTime | TDate, TDate | TTime, TTime => true
  | _, _ => false
  end.

Definition PyObject_IsInstance (object : pyobj) (type : temporal) (depth : nat)
  : enc_state -> bool * enc_state :=
  fun st =>
    let slow :=
      let (r, st) := run (instancecheck w object type) depth st in
      (match r with Some r => r | None => true end, st) in
    match object with
    | PyTemporal kind _ _ => if temporal_eqb kind type then (true, st) else slow
    | _ => slow
    end.

(** The value that [strftime] returns is taken to be a [str] object and
    handed to [encode_string]. *)
Definition encode_datetime (object : pyobj) (fmt : bytes) (depth : nat) : enc bytes :=
  fun st =>
    let (value, st) := run (strftime w object fmt) depth st in
    match value with
    | Some (PyString value) => lift (encode_string value) st
    | Some _ => (Stuck undefined, st)
    | None => raise_encoding_error object depth st
    end.

Record EncodingParams : Type := mkParams {
  fallback : option pyobj;   (* Function called for unknown object types *)
  fmt_datetime : bytes;      (* Format string for the datetime objects *)
  fmt_date : bytes;
  fmt_time : bytes
}.

(** [PyObject_CallObject(params.fallback, args)]: [PyObject_Call] enters the
    recursion guard around the [tp_call] slot, and turns a NULL result that
    comes with no exception into a SystemError. *)
Definition PyObject_CallObject (f object : pyobj) (depth : nat)
  : enc_state -> option pyobj * enc_state :=
  fun st =>
    match f with
    | PyInstance _ true =>
        match depth with
        | O => (None, PyErr_SetString (recursion_error " while calling a Python object") st)
        | S depth' =>
            let (r, st) := run (tp_call w f object) depth' (log_call object st) in
            match r, curexc st with
            | None, None =>
                (None, PyErr_SetString
                         (PyExc_SystemError "NULL result without error in PyObject_Call") st)
            | _, _ => (r, st)
            end
        end
    | _ => (None, PyErr_SetString (PyExc_TypeError "object is not callable") st)
    end.

Definition list_items (st : enc_state) (l : loc) : list pyobj :=
  match objects st !! l with
  | Some (ob_list ob_item) => ob_item
  | _ => []
  end.

Definition dict_table (st : enc_state) (l : loc) : list (option (pyobj * pyobj)) :=
  match objects st !! l with
  | Some (ob_dict ma_table) => ma_table
  | _ => []
  end.

(** [PyDict_Next(mp, &pos, &key, &value)]: the first used slot at or after
    [pos], and the position after it. *)
Fixpoint next_entry (slots : list (option (pyobj * pyobj))) (i : nat)
  : option (nat * (pyobj * pyobj)) :=
  match slots with
  | [] => None
  | Some entry :: _ => Some (S i, entry)
  | None :: rest => next_entry rest (S i)
  end.

Definition PyDict_Next (ma_table : list (option (pyobj * pyobj))) (pos : nat)
  : option (nat * (pyobj * pyobj)) :=
  next_entry (drop pos ma_table) pos.

Definition is_string_key (key : pyobj) : bool :=
  match key with
  | PyString _ | PyUnicode _ => true
  | _ => false
  end.

Definition list_cycle_error : pyerr :=
  JSON_EncodeError "a list with references to itself is not JSON encodable".
Definition dict_cycle_error : pyerr :=
  JSON_EncodeError "a dict with references to itself is not JSON encodable".

Section Recursion.

(** [encode_object] as called from the container encoders. *)
Variable encode_object : pyobj -> enc bytes.

(** "Do repr() on each element" of a tuple. *)
Fixpoint encode_items (items : list pyobj) : enc (list bytes) :=
  match items with
  | [] => ret []
  | x :: xs =>
      let* s := encode_object x in
      let* pieces := encode_items xs in
      ret (s :: pieces)
  end.

Definition encode_tuple (ob_item : list pyobj) : enc bytes :=
  if bool_decide (ob_item = []) then ret (bytes_of "[]")
  else
    let* pieces := encode_items ob_item in
    ret (decorate (bytes_of "[") (bytes_of "]") pieces).

(** "Do repr() on each element.  Note that this may mutate the list, so must
    refetch the list size on each iteration."  [i] is the index and [pieces]
    the texts appended so far. *)
Fixpoint encode_list_loop (turns : nat) (l : loc) (i : nat) (pieces : list bytes)
  : enc (list bytes) :=
  fun st =>
    match list_items st l !! i with
    | Some item =>
        match turns with
        | O => (Stuck exhausted, st)
        | S turns' =>
            match encode_object item st with
            | (Value s, st) => encode_list_loop turns' l (S i) (pieces ++ [s]) st
            | (Null, st) => (Null, st)
            | (Stuck why, st) => (Stuck why, st)
            end
        end
    | None => (Value pieces, st)
    end.

Definition encode_list (turns : nat) (l : loc) : enc bytes :=
  fun st =>
    let (i, st) := Py_ReprEnter l st in
    if negb (i =? 0) then (Null, PyErr_SetString list_cycle_error st)
    else
      let (result, st) :=
        (if bool_decide (list_items st l = []) then ret (bytes_of "[]")
         else
           let* pieces := encode_list_loop turns l 0 [] in
           ret (decorate (bytes_of "[") (bytes_of "]") pieces)) st in
      (* Done: *)
      (result, Py_ReprLeave l st).

(** The body of the [PyDict_Next] loop, after the test of the key.  The
    value is encoded even when the key was not, and the text is NULL when
    one of the two is. *)
Definition encode_pair (key value : pyobj) : enc bytes :=
  fun st =>
    match encode_object key st with
    | (Stuck why, st) => (Stuck why, st)
    | (s, st) =>
        match encode_object value st with
        | (Stuck why, st) => (Stuck why, st)
        | (v, st) =>
            match s, v with
            | Value s, Value v => (Value (s ++ bytes_of ": " ++ v), st)
            | _, _ => (Null, st)
            end
        end
    end.

(** "Do repr() on each key+value pair, and insert ": " between them.  Note
    that repr may mutate the dict." *)
Fixpoint encode_dict_loop (turns : nat) (l : loc) (i : nat) (pieces : list bytes)
  : enc (list bytes) :=
  fun st =>
    match PyDict_Next (dict_table st l) i with
    | Some (i, (key, value)) =>
        match turns with
        | O => (Stuck exhausted, st)
        | S turns' =>
            if negb (is_string_key key) then
              raise (JSON_EncodeError
                       "JSON encodable dictionaries must have string/unicode keys") st
            else
              match encode_pair key value st with
              | (Value s, st) => encode_dict_loop turns' l i (pieces ++ [s]) st
              | (Null, st) => (Null, st)
              | (Stuck why, st) => (Stuck why, st)
              end
        end
    | None => (Value pieces, st)
    end.

Definition encode_dict (turns : nat) (l : loc) : enc bytes :=
  fun st =>
    let (i, st) := Py_ReprEnter l st in
    if negb (i =? 0) then (Null, PyErr_SetString dict_cycle_error st)
    else
      let (result, st) :=
        (if bool_decide (table_entries (dict_table st l) = []) then ret (bytes_of "{}")
         else
           let* pieces := encode_dict_loop turns l 0 [] in
           ret (decorate (bytes_of "{") (bytes_of "}") pieces)) st in
      (* Done: *)
      (result, Py_ReprLeave l st).

End Recursion.

Variable params : EncodingParams.

(** The bound on the number of turns of each list and dict loop. *)
Variable turns : nat.

(** [encode_object]; [depth] is the number of [Py_EnterRecursiveCall]s that
    may still succeed.  Every recursive call is made below such a call. *)
Fixpoint encode_object (depth : nat) (object : pyobj) : enc bytes :=
  let guarded (where_ : string) (body : nat -> enc bytes) : enc bytes :=
    match depth with
    | O => raise (recursion_error where_)
    | S depth' => body depth'
    end in
  match object with
  | PyBool true => ret (bytes_of "true")
  | PyBool false => ret (bytes_of "false")
  | PyNone => ret (bytes_of "null")
  | PyString s => lift (encode_string s)
  | PyUnicode u => lift (encode_unicode u)
  | PyFloat _ | PySubFloat _ _ => encode_float object depth
  | PyInt _ | PySubInt _ => PyObject_Str object depth
  | PyRef l =>
      fun st =>
        match objects st !! l with
        | Some (ob_list _) =>
            guarded " while encoding a JSON array from a Python list"%string
              (fun depth' => encode_list (encode_object depth') turns l) st
        | Some (ob_dict _) =>
            guarded " while encoding a JSON object"%string
              (fun depth' => encode_dict (encode_object depth') turns l) st
        | None => (Stuck undefined, st)
        end
  | PyTuple ob_item =>
      guarded " while encoding a JSON array from a Python tuple"%string
        (fun depth' => encode_tuple (encode_object depth') ob_item)
  | PyNumber _ => encode_number object depth
  | PyTemporal _ _ _ | PyInstance _ _ =>
      fun st =>
        let (is_datetime, st) := PyObject_IsInstance object TDateTime depth st in
        if is_datetime then encode_datetime object (fmt_datetime params) depth st
        else
          let (is_date, st) := PyObject_IsInstance object TDate depth st in
          if is_date then encode_datetime object (fmt_date params) depth st
          else
            let (is_time, st) := PyObject_IsInstance object TTime depth st in
            if is_time then encode_datetime object (fmt_time params) depth st
            else
              match fallback params with
              | Some f =>
                  guarded " while encoding a non-primitive Python object"%string
                    (fun depth' st =>
                       let (resolve, st) := PyObject_CallObject f object depth' st in
                       (* result = PyErr_Occurred() ? NULL : encode_object(resolve, params) *)
                       match curexc st with
                       | Some _ => (Null, st)
                       | None =>
                           match resolve with
                           | Some resolve => encode_object depth' resolve st
                           | None => (Stuck undefined, st)
                           end
                       end) st
              | None => raise_encoding_error object depth st
              end
  end.

End Encoder.

(** ** The entry point *)

(** [PyObject_Not]: NULL stands for the result -1.  The truth of a string,
    a list, a tuple or a dict is the one of the built-in type: it is empty
    or not. *)
Definition PyObject_Not (w : interp) (o : pyobj) (depth : nat)
  : enc_state -> option bool * enc_state :=
  fun st =>
    match o with
    | PyNone => (Some true, st)
    | PyBool b => (Some (negb b), st)
    | PyString s => (Some (bool_decide (s = [])), st)
    | PyUnicode u => (Some (bool_decide (u = [])), st)
    | PyFloat (S754_zero _) => (Some true, st)
    | PyFloat _ => (Some false, st)
    | PyInt z => (Some (z =? 0), st)
    | PyRef l =>
        match objects st !! l with
        | Some (ob_list ob_item) => (Some (bool_decide (ob_item = [])), st)
        | Some (ob_dict ma_table) => (Some (bool_decide (table_entries ma_table = [])), st)
        | None => (Some false, st)
        end
    | PyTuple ob_item => (Some (bool_decide (ob_item = [])), st)
    | PyTemporal _ _ truth => (Some (negb truth), st)
    | PySubFloat _ _ | PySubInt _ | PyNumber _ | PyInstance _ _ =>
        let (r, st) := run (nb_nonzero w o) depth st in
        (option_map negb r, st)
    end.

(** [PyCallable_Check] *)
Definition PyCallable_Check (o : pyobj) : bool :=
  match o with
  | PyInstance _ callable => callable
  | _ => false
  end.

Definition DEFAULT_DATE_FORMAT : bytes := bytes_of "%Y-%m-%d".
Definition DEFAULT_TIME_FORMAT : bytes := bytes_of "%H:%M:%S".

(** [JSON_encode(obj, default, fmt_datetime, fmt_date, fmt_time)]; an
    argument that was not passed is [None], and a format that was passed is a
    [str] object.  [PyString_FromFormat("%s %s", ...)] copies each of the two
    formats up to its first NUL. *)
Definition JSON_encode (h : host) (w : interp) (turns depth : nat) (object : pyobj)
  (default : option pyobj) (fmt_datetime fmt_date fmt_time : option bytes) : enc bytes :=
  fun st =>
    let (fallback, st) :=
      match default with
      | Some f =>
          (* params.fallback && PyObject_Not(params.fallback) *)
          let (r, st) := PyObject_Not w f depth st in
          (match r with Some false => Some f | _ => None end, st)
      | None => (None, st)
      end in
    let not_callable :=
      match fallback with
      | Some f => if negb (PyCallable_Check f) then Some f else None
      | None => None
      end in
    match not_callable with
    | Some f =>
        let (result, st) := run (PyObject_Repr w f) depth st in
        match result with
        | Some result =>
            raise (PyExc_ValueError
                     ("The 'default' argument " ++ text_of (c_str result)
                      ++ " is not callable")%string) st
        | None => (Stuck undefined, st)
        end
    | None =>
        let or_default (fmt : option bytes) (dflt : bytes) :=
          match fmt with
          | Some s => if bool_decide (s = []) then dflt else s
          | None => dflt
          end in
        let fmt_date := or_default fmt_date DEFAULT_DATE_FORMAT in
        let fmt_time := or_default fmt_time DEFAULT_TIME_FORMAT in
        let fmt_datetime :=
          or_default fmt_datetime (c_str fmt_date ++ bytes_of " " ++ c_str fmt_time) in
        encode_object h w (mkParams fallback fmt_datetime fmt_date fmt_time) turns depth
          object st
    end.

(** * Reference inputs *)

(** A reference interpreter for running the code on concrete inputs: 64-bit
    sizes, a wide Unicode build, and float conversions that only know the
    text ["0.0"]. *)
Definition host0 : host :=
  Host (fun tok => if bool_decide (tok = bytes_of "0.0") then Some (S754_zero false) else None)
       (fun _ => bytes_of "0.0")
       (2 ^ 63 - 1)
       true.

Definition q (s : string) : bytes := DQUOTE :: bytes_of s ++ [DQUOTE].

(** Code that fails with the exception [e]. *)
Definition fails {A} (e : pyerr) : pycode A := fun _ st => (None, PyErr_SetString e st).

(** The [__instancecheck__] path on an object that is no instance of the
    type: [PyObject_IsInstance] enters the recursion guard, and so does the
    call of the check. *)
Definition no_instance : pycode bool :=
  fun depth st =>
    match depth with
    | O => (None, PyErr_SetString (recursion_error " in __instancecheck__") st)
    | 1%nat => (None, PyErr_SetString (recursion_error " while calling a Python object") st)
    | _ => (Some false, st)
    end.

(** An interpreter with no number objects, no dates and no callables: [repr]
    writes an [int] in decimal digits and any other object as [<object>]. *)
Definition interp0 : interp :=
  {| PyObject_Repr := fun o _ st =>
       (Some (match o with PyInt z => Z_to_bytes z | _ => bytes_of "<object>" end), st);
     tp_str := fun _ _ st => (Some (bytes_of "<object>"), st);
     nb_nonzero := fun _ _ st => (Some true, st);
     PyNumber_Float := fun _ => fails (PyExc_TypeError "float() argument must be a string or a number");
     PyNumber_Long := fun _ => fails (PyExc_TypeError "long() argument must be a string or a number");
     PyObject_Cmp := fun _ _ _ st => (Some 1, st);
     instancecheck := fun _ _ => no_instance;
     strftime := fun _ _ => fails (PyExc_Other "AttributeError: strftime");
     tp_call := fun _ _ => fails (PyExc_TypeError "object is not callable") |}.

(** The interpreter [w] with [f] as the code of its callables. *)
Definition with_call (f : pyobj -> pyobj -> pycode pyobj) (w : interp) : interp :=
  {| PyObject_Repr := PyObject_Repr w;
     tp_str := tp_str w;
     nb_nonzero := nb_nonzero w;
     PyNumber_Float := PyNumber_Float w;
     PyNumber_Long := PyNumber_Long w;
     PyObject_Cmp := PyObject_Cmp w;
     instancecheck := instancecheck w;
     strftime := strftime w;
     tp_call := f |}.

(** A thread with the heap [o], no exception set and nothing being
    encoded. *)
Definition state_of (o : gmap loc heap_obj) : enc_state := mkState o None [] [].

Definition st0 : enc_state := state_of ∅.

(** * Properties of the decoder *)

(** ** Examples *)

Example Decode_null : JSON_decode host0 10 (bytes_of "  null  ") false = Ok VNone.
Proof. reflexivity. Qed.

Example Decode_array :
  JSON_decode host0 10 (bytes_of "[1, [true, -20], {}]") false
  = Ok (VList [VInt 1; VList [VBool true; VInt (-20)]; VDict []]).
Proof. vm_compute. reflexivity. Qed.

(** ** Cursors only move forward *)

Lemma skipSpaces_split (p : bytes) :
  exists ws, p = ws ++ skipSpaces p /\ forallb isspace ws = true.
Proof.
  induction p as [|c p IH]; simpl.
  - exists []. auto.
  - destruct (isspace c) eqn:E.
    + destruct IH as (ws & Hp & Hws). exists (c :: ws). simpl.
      rewrite E, Hws. split; [congruence | reflexivity].
    + exists []. auto.
Qed.

Lemma skipSpaces_head (p : bytes) : isspace (peek (skipSpaces p)) = false.
Proof.
  induction p as [|c p IH]; simpl; [reflexivity|].
  destruct (isspace c) eqn:E; [exact IH | simpl; exact E].
Qed.

Lemma skipSpaces_length (p : bytes) : (length (skipSpaces p) <= length p)%nat.
Proof.
  destruct (skipSpaces_split p) as (ws & Hp & _).
  rewrite Hp at 2. rewrite length_app. lia.
Qed.

Lemma skipDigits_split (p : bytes) :
  exists ds, p = ds ++ skipDigits p /\ all_digits ds = true.
Proof.
  induction p as [|c p IH]; simpl.
  - exists []. auto.
  - destruct (isdigit c) eqn:E.
    + destruct IH as (ds & Hp & Hds). exists (c :: ds). simpl.
      rewrite E, Hds. split; [congruence | reflexivity].
    + exists []. auto.
Qed.

Lemma skipDigits_head (p : bytes) : isdigit (peek (skipDigits p)) = false.
Proof.
  induction p as [|c p IH]; simpl; [reflexivity|].
  destruct (isdigit c) eqn:E; [exact IH | simpl; exact E].
Qed.

Lemma is_char_eq (c d : ascii) : is_char c d = true <-> c = d.
Proof. apply Ascii.eqb_eq. Qed.

Lemma peek_cons (p : bytes) (c : ascii) :
  peek p = c -> c <> NUL -> p = c :: advance p.
Proof. destruct p; simpl; intros; subst; [congruence | reflexivity]. Qed.

Lemma peek_is_char (p : bytes) (c : ascii) :
  is_char (peek p) c = true -> c <> NUL -> p = c :: advance p.
Proof. intros H Hc. apply is_char_eq in H. apply peek_cons; auto. Qed.

Lemma starts_with_split (word p : bytes) :
  starts_with word p = true -> p = word ++ drop (length word) p.
Proof.
  unfold starts_with. intros H. apply andb_true_iff in H as [_ H].
  apply bool_decide_eq_true in H.
  rewrite <- H at 1. symmetry. apply take_drop.
Qed.

Lemma starts_with_app (word rest : bytes) : starts_with word (word ++ rest) = true.
Proof.
  unfold starts_with. apply andb_true_iff. split.
  - apply Nat.leb_le. rewrite length_app. lia.
  - apply bool_decide_eq_true. rewrite take_app_length. reflexivity.
Qed.

(** [moved d d'] : the cursor of [d'] is that of [d] moved forward by at
    least one byte, in the same buffer. *)
Definition moved (d d' : JSONData) : Prop :=
  str d' = str d /\ all_unicode d' = all_unicode d /\
  exists pre, pre <> [] /\ ptr d = pre ++ ptr d'.

Lemma moved_length (d d' : JSONData) :
  moved d d' -> (length (ptr d') < length (ptr d))%nat.
Proof.
  intros (_ & _ & pre & Hne & Hp). rewrite Hp, length_app.
  destruct pre; [congruence | simpl; lia].
Qed.

Lemma moved_skip_l (d d' : JSONData) : moved (skip d) d' -> moved d d'.
Proof.
  intros (Hs & Ha & pre & Hne & Hp). simpl in *.
  destruct (skipSpaces_split (ptr d)) as (ws & Hw & _).
  repeat split; auto. exists (ws ++ pre). split.
  - destruct ws; simpl; [assumption | discriminate].
  - rewrite Hw at 1. rewrite Hp. apply app_assoc.
Qed.

Lemma moved_trans (d1 d2 d3 : JSONData) : moved d1 d2 -> moved d2 d3 -> moved d1 d3.
Proof.
  intros (Hs & Ha & pre & Hne & Hp) (Hs' & Ha' & pre' & Hne' & Hp').
  repeat split; try congruence. exists (pre ++ pre'). split.
  - destruct pre; simpl; [congruence | discriminate].
  - rewrite Hp, Hp'. apply app_assoc.
Qed.

Lemma moved_drop (d : JSONData) (word : bytes) :
  word <> [] -> starts_with word (ptr d) = true ->
  moved d (set_ptr d (drop (length word) (ptr d))).
Proof.
  intros Hne H. repeat split. exists word. split; [assumption|].
  simpl. apply starts_with_split, H.
Qed.

Lemma moved_next (d : JSONData) (c : ascii) :
  is_char (peek (ptr d)) c = true -> c <> NUL -> moved d (next d).
Proof.
  intros H Hc. repeat split. exists [c]. split; [discriminate|].
  simpl. apply peek_is_char; assumption.
Qed.

Lemma moved_next_nonnul (d : JSONData) :
  is_char (peek (ptr d)) NUL = false -> moved d (next d).
Proof.
  intros H. repeat split. destruct (ptr d) as [|c p] eqn:E.
  - simpl in H. discriminate.
  - exists [c]. split; [discriminate|]. simpl. rewrite E. reflexivity.
Qed.

(** ** The number grammar *)

Definition sign_part (s : bytes) : Prop :=
  s = [] \/ s = ["-"%char] \/ s = ["+"%char].

(** A single [0], or one non-zero digit followed by zero or more digits. *)
Definition int_part (i : bytes) : Prop :=
  i = ["0"%char] \/
  exists c ds, i = c :: ds /\ isdigit c = true /\ c <> "0"%char /\ all_digits ds = true.

(** Absent, or a dot followed by one or more digits. *)
Definition frac_part (f : bytes) : Prop :=
  f = [] \/ exists ds, f = "."%char :: ds /\ ds <> [] /\ all_digits ds = true.

(** Absent, or [e]/[E], an optional sign and one or more digits. *)
Definition exp_part (e : bytes) : Prop :=
  e = [] \/
  exists c s ds, e = c :: s ++ ds /\ (c = "e"%char \/ c = "E"%char) /\
                 sign_part s /\ ds <> [] /\ all_digits ds = true.

Inductive number_token : bytes -> Prop :=
| number_token_intro (s i f e : bytes) :
    sign_part s -> int_part i -> frac_part f -> exp_part e ->
    number_token (s ++ i ++ f ++ e).

Definition is_float_char (c : ascii) : bool :=
  is_char c "." || is_char c "e" || is_char c "E".

Definition contains_float_char (tok : bytes) : bool := existsb is_float_char tok.

Lemma digits_no_float_char (ds : bytes) :
  all_digits ds = true -> contains_float_char ds = false.
Proof.
  induction ds as [|c ds IH]; simpl; [reflexivity|].
  intros H. apply andb_true_iff in H as [Hc Hds].
  rewrite (IH Hds), orb_false_r.
  destruct c as [[] [] [] [] [] [] [] []]; try discriminate Hc; reflexivity.
Qed.

Lemma sign_no_float_char (s : bytes) : sign_part s -> contains_float_char s = false.
Proof. intros [-> | [-> | ->]]; reflexivity. Qed.

Lemma int_no_float_char (i : bytes) : int_part i -> contains_float_char i = false.
Proof.
  intros [-> | (c & ds & -> & Hc & _ & Hds)]; [reflexivity|].
  apply (digits_no_float_char (c :: ds)). simpl. rewrite Hc, Hds. reflexivity.
Qed.

Lemma contains_float_char_app (a b : bytes) :
  contains_float_char (a ++ b) = contains_float_char a || contains_float_char b.
Proof. apply existsb_app. Qed.

Lemma skipDigits_nonempty (p : bytes) :
  isdigit (peek p) = true ->
  exists ds, p = ds ++ skipDigits p /\ ds <> [] /\ all_digits ds = true.
Proof.
  intros H. destruct p as [|c p]; simpl in *; [discriminate|].
  rewrite H. destruct (skipDigits_split p) as (ds & Hp & Hds).
  exists (c :: ds). simpl. rewrite H, Hds. repeat split; [congruence | discriminate].
Qed.

Lemma sign_scan (p : bytes) :
  let p1 := if is_char (peek p) "-" || is_char (peek p) "+" then advance p else p in
  exists s, p = s ++ p1 /\ sign_part s.
Proof.
  simpl. destruct (is_char (peek p) "-") eqn:E1; simpl.
  - exists ["-"%char]. split; [apply (peek_is_char p "-" E1); discriminate|].
    right; left; reflexivity.
  - destruct (is_char (peek p) "+") eqn:E2.
    + exists ["+"%char]. split; [apply (peek_is_char p "+" E2); discriminate|].
      right; right; reflexivity.
    + exists []. split; [reflexivity | left; reflexivity].
Qed.

Lemma exp_sign_scan (p : bytes) :
  let p1 := if is_char (peek p) "+" || is_char (peek p) "-" then advance p else p in
  exists s, p = s ++ p1 /\ sign_part s.
Proof.
  simpl. destruct (is_char (peek p) "+") eqn:E1; simpl.
  - exists ["+"%char]. split; [apply (peek_is_char p "+" E1); discriminate|].
    right; right; reflexivity.
  - destruct (is_char (peek p) "-") eqn:E2.
    + exists ["-"%char]. split; [apply (peek_is_char p "-" E2); discriminate|].
      right; left; reflexivity.
    + exists []. split; [reflexivity | left; reflexivity].
Qed.

Lemma isdigit_nonzero (c : ascii) : is_char c "0" = false -> c <> "0"%char.
Proof. intros H Hc. subst. discriminate. Qed.

Lemma not_digit_chars (c : ascii) :
  isdigit c = false \/
  (is_char c "." = false /\ is_char c "e" = false /\ is_char c "E" = false
   /\ is_char c NUL = false).
Proof.
  destruct (isdigit c) eqn:E; [right | left; reflexivity].
  destruct c as [[] [] [] [] [] [] [] []]; try discriminate E; repeat split.
Qed.

(** What a successful validation in [decode_number] has read. *)
Lemma scan_number_spec (p : bytes) (n : number_scan) :
  scan_number p = Some n ->
  exists s i f e,
    p = (s ++ i ++ f ++ e) ++ num_ptr n /\
    sign_part s /\ int_part i /\ frac_part f /\ exp_part e /\
    is_float n = negb (bool_decide (f = []) && bool_decide (e = [])) /\
    isdigit (peek (num_ptr n)) = false.
Proof.
  unfold scan_number.
  destruct (sign_scan p) as (s & Hs & Hsign). simpl in Hs.
  set (p1 := if is_char (peek p) "-" || is_char (peek p) "+" then advance p else p) in *.
  clearbody p1.
  (* integer part *)
  assert (Hint : forall p2,
    (if is_char (peek p1) "0"
     then if isdigit (peek (advance p1)) then None else Some (advance p1)
     else if isdigit (peek p1) then Some (skipDigits p1) else None) = Some p2 ->
    exists i, p1 = i ++ p2 /\ int_part i /\ isdigit (peek p2) = false).
  { intros p2. destruct (is_char (peek p1) "0") eqn:E0.
    - destruct (isdigit (peek (advance p1))) eqn:Ed; [discriminate|].
      intros [= <-]. exists ["0"%char]. split; [|split; [left; reflexivity | exact Ed]].
      apply (peek_is_char p1 "0" E0). discriminate.
    - destruct (isdigit (peek p1)) eqn:Ed; [|discriminate].
      intros [= <-]. destruct p1 as [|c p1]; [discriminate|]. simpl in *.
      rewrite Ed. destruct (skipDigits_split p1) as (ds & Hp & Hds).
      exists (c :: ds). split; [simpl; congruence|]. split.
      + right. exists c, ds. repeat split; auto. apply isdigit_nonzero, E0.
      + apply skipDigits_head. }
  destruct (if is_char (peek p1) "0"
     then if isdigit (peek (advance p1)) then None else Some (advance p1)
     else if isdigit (peek p1) then Some (skipDigits p1) else None) as [p2|] eqn:E2;
    [|discriminate].
  destruct (Hint p2 eq_refl) as (i & Hi & Hipart & Hnd2). clear Hint E2.
  (* fraction *)
  assert (Hfrac : forall p3 fl,
    (if is_char (peek p2) "."
     then if negb (isdigit (peek (advance p2))) then None
          else Some (skipDigits (advance p2), true)
     else Some (p2, false)) = Some (p3, fl) ->
    exists f, p2 = f ++ p3 /\ frac_part f /\ fl = negb (bool_decide (f = []))
              /\ isdigit (peek p3) = false).
  { intros p3 fl. destruct (is_char (peek p2) ".") eqn:Ed.
    - destruct (isdigit (peek (advance p2))) eqn:Edd; simpl; [|discriminate].
      intros [= <- <-].
      destruct (skipDigits_nonempty _ Edd) as (ds & Hds & Hne & Hall).
      exists ("."%char :: ds). split; [|split; [|split]].
      + rewrite (peek_is_char p2 "." Ed) at 1 by discriminate. simpl. congruence.
      + right. exists ds. auto.
      + reflexivity.
      + apply skipDigits_head.
    - intros [= <- <-]. exists []. repeat split; auto. left; reflexivity. }
  destruct (if is_char (peek p2) "."
     then if negb (isdigit (peek (advance p2))) then None
          else Some (skipDigits (advance p2), true)
     else Some (p2, false)) as [[p3 fl]|] eqn:E3; [|discriminate].
  destruct (Hfrac p3 fl eq_refl) as (f & Hf & Hfpart & Hfl & Hnd3). clear Hfrac E3.
  (* exponent *)
  destruct (is_char (peek p3) "e" || is_char (peek p3) "E") eqn:Ee.
  - destruct (exp_sign_scan (advance p3)) as (es & Hes & Hesign). simpl in Hes.
    set (p4 := if is_char (peek (advance p3)) "+" || is_char (peek (advance p3)) "-"
               then advance (advance p3) else advance p3) in *.
    clearbody p4.
    destruct (isdigit (peek p4)) eqn:Ed4; simpl; [|discriminate].
    intros [= <-]. simpl.
    destruct (skipDigits_nonempty _ Ed4) as (ds & Hds & Hne & Hall).
    assert (Hc : exists c, (c = "e"%char \/ c = "E"%char) /\ p3 = c :: advance p3).
    { apply orb_true_iff in Ee as [E | E].
      - exists "e"%char. split; [auto|]. apply (peek_is_char _ _ E). discriminate.
      - exists "E"%char. split; [auto|]. apply (peek_is_char _ _ E). discriminate. }
    destruct Hc as (c & Hc & Hp3).
    exists s, i, f, (c :: es ++ ds). split; [|repeat split; auto].
    + rewrite Hs, Hi, Hf, Hp3, Hes. rewrite Hds at 1. simpl.
      repeat rewrite <- app_assoc. simpl. repeat rewrite <- app_assoc. reflexivity.
    + right. exists c, es, ds. auto.
    + rewrite andb_false_r. reflexivity.
    + apply skipDigits_head.
  - intros [= <-]. simpl. exists s, i, f, []. split; [|repeat split; auto].
    + rewrite Hs, Hi, Hf at 1. rewrite app_nil_r. repeat rewrite <- app_assoc. reflexivity.
    + left; reflexivity.
    + rewrite Hfl. simpl. rewrite andb_true_r. reflexivity.
Qed.

Lemma int_part_digits (i : bytes) :
  int_part i ->
  i <> [] /\ all_digits i = true /\ is_char (peek i) "-" = false
  /\ is_char (peek i) "+" = false.
Proof.
  intros [-> | (c & ds & -> & Hc & _ & Hds)].
  - repeat split. discriminate.
  - split; [discriminate|]. split; [simpl; rewrite Hc, Hds; reflexivity|].
    simpl. destruct c as [[] [] [] [] [] [] [] []]; try discriminate Hc; split; reflexivity.
Qed.

Lemma int_token_converts (s i : bytes) :
  sign_part s -> int_part i -> exists z, PyInt_FromString (s ++ i) = Some z.
Proof.
  intros Hs Hi. destruct (int_part_digits i Hi) as (Hne & Hall & Hm & Hp).
  assert (Hb : bool_decide (i = []) = false) by (apply bool_decide_eq_false; exact Hne).
  destruct Hs as [-> | [-> | ->]]; simpl.
  - destruct i as [|c ds]; [congruence|]. unfold PyInt_FromString.
    simpl in Hm, Hp. rewrite Hm, Hp, Hb, Hall. simpl. eauto.
  - unfold PyInt_FromString. simpl. rewrite Hb, Hall. simpl. eauto.
  - unfold PyInt_FromString. simpl. rewrite Hb, Hall. simpl. eauto.
Qed.

Lemma frac_float_char (f : bytes) :
  frac_part f -> contains_float_char f = negb (bool_decide (f = [])).
Proof. intros [-> | (ds & -> & _)]; reflexivity. Qed.

Lemma exp_float_char (e : bytes) :
  exp_part e -> contains_float_char e = negb (bool_decide (e = [])).
Proof.
  intros [-> | (c & s & ds & -> & [-> | ->] & _)]; reflexivity.
Qed.

Lemma token_float_char (s i f e : bytes) :
  sign_part s -> int_part i -> frac_part f -> exp_part e ->
  contains_float_char (s ++ i ++ f ++ e)
  = negb (bool_decide (f = []) && bool_decide (e = [])).
Proof.
  intros Hs Hi Hf He. rewrite !contains_float_char_app.
  rewrite (sign_no_float_char s Hs), (int_no_float_char i Hi).
  rewrite (frac_float_char f Hf), (exp_float_char e He). simpl.
  rewrite negb_andb. reflexivity.
Qed.

(** The token [decode_number] hands to the conversion, when the validation
    succeeds. *)
Definition matched_number (p : bytes) : option bytes :=
  match scan_number p with
  | Some n => Some (take (length p - length (num_ptr n))%nat p)
  | None => None
  end.

(** C2.  Every input accepted by [decode_number] starts with a token of the
    number grammar (optional sign; a single [0] not followed by a digit, or a
    non-zero digit and more digits; optional fraction; optional exponent),
    which is what the cursor has moved over.  The result is a Float exactly
    when the token contains [.], [e] or [E], and otherwise an unbounded
    Integer.  Every failure is a DecodeError "invalid number starting at
    position N": in particular when no prefix of the input is a token of the
    grammar, and when the conversion of the matched token fails. *)
Theorem decode_number_grammar (h : host) (d : JSONData) :
  match decode_number h d with
  | Ok (v, d') =>
      exists tok,
        ptr d = tok ++ ptr d' /\ str d' = str d /\ number_token tok /\
        isdigit (peek (ptr d')) = false /\
        matched_number (ptr d) = Some tok /\
        if contains_float_char tok
        then exists f, PyFloat_FromString h tok = Some f /\ v = VFloat f
        else exists z, PyInt_FromString tok = Some z /\ v = VInt z
  | Err e =>
      e = JSON_DecodeError
            (fmt_pos "invalid number starting at position " (offset d (ptr d)))
  end
  /\ ((forall tok rest, ptr d = tok ++ rest -> ~ number_token tok) ->
      is_DecodeError (decode_number h d))
  /\ (forall tok, matched_number (ptr d) = Some tok ->
      (if contains_float_char tok
       then PyFloat_FromString h tok = None
       else PyInt_FromString tok = None) ->
      is_DecodeError (decode_number h d)).
Proof.
  assert (Hscan : forall n, scan_number (ptr d) = Some n ->
    exists tok, ptr d = tok ++ num_ptr n /\ number_token tok /\
      isdigit (peek (num_ptr n)) = false /\
      take (length (ptr d) - length (num_ptr n))%nat (ptr d) = tok /\
      contains_float_char tok = is_float n /\
      (is_float n = false -> exists z, PyInt_FromString tok = Some z)).
  { intros n Hn. destruct (scan_number_spec _ _ Hn)
      as (s & i & f & e & Hp & Hs & Hi & Hf & He & Hfl & Hnd).
    exists (s ++ i ++ f ++ e). split_and!; auto.
    - constructor; auto.
    - rewrite Hp at 1 2. rewrite length_app, Nat.add_sub.
      apply take_app_length.
    - rewrite Hfl. apply token_float_char; auto.
    - rewrite Hfl. intros Hz. apply negb_false_iff, andb_true_iff in Hz as [Hz1 Hz2].
      apply bool_decide_eq_true in Hz1, Hz2. subst f e.
      rewrite !app_nil_r. apply int_token_converts; auto. }
  assert (Hmain :
    match decode_number h d with
    | Ok (v, d') =>
        exists tok,
          ptr d = tok ++ ptr d' /\ str d' = str d /\ number_token tok /\
          isdigit (peek (ptr d')) = false /\
          matched_number (ptr d) = Some tok /\
          if contains_float_char tok
          then exists f, PyFloat_FromString h tok = Some f /\ v = VFloat f
          else exists z, PyInt_FromString tok = Some z /\ v = VInt z
    | Err e =>
        e = JSON_DecodeError
              (fmt_pos "invalid number starting at position " (offset d (ptr d)))
    end).
  { unfold decode_number, matched_number.
    destruct (scan_number (ptr d)) as [n|] eqn:En; [|reflexivity].
    destruct (Hscan n eq_refl) as (tok & Hp & Htok & Hnd & Htake & Hfc & Hint).
    rewrite Htake. destruct (is_float n) eqn:Efl.
    - destruct (PyFloat_FromString h tok) as [f|] eqn:Ef; [|reflexivity].
      exists tok. simpl. rewrite Hfc. repeat split; auto. eauto.
    - destruct (Hint eq_refl) as (z & Hz). rewrite Hz.
      exists tok. simpl. rewrite Hfc. repeat split; auto. eauto. }
  split; [exact Hmain|]. split.
  - intros Hno. destruct (decode_number h d) as [[v d']|e].
    + destruct Hmain as (tok & Hp & _ & Htok & _). exfalso. exact (Hno _ _ Hp Htok).
    + subst e. exact I.
  - intros tok Hm Hconv. unfold decode_number. unfold matched_number in Hm.
    destruct (scan_number (ptr d)) as [n|] eqn:En; [|exact I].
    destruct (Hscan n eq_refl) as (tok' & Hp & Htok & Hnd & Htake & Hfc & Hint).
    rewrite Htake in *. injection Hm as <-. rewrite Hfc in Hconv.
    destruct (is_float n); rewrite Hconv; exact I.
Qed.

Example decode_number_int :
  decode_number host0 (mkJSONData (bytes_of "-120,") (bytes_of "-120,") false)
  = Ok (VInt (-120), mkJSONData (bytes_of "-120,") (bytes_of ",") false).
Proof. vm_compute. reflexivity. Qed.

Example decode_number_leading_zero :
  decode_number host0 (mkJSONData (bytes_of "012") (bytes_of "012") false)
  = Err (JSON_DecodeError "invalid number starting at position 0").
Proof. vm_compute. reflexivity. Qed.

(** ** Progress of the decoders *)

Lemma scan_string_split (p : bytes) (esc hu se : bool) (sc : string_scan) :
  scan_string p esc hu se = Some sc ->
  exists pre, p = pre ++ scan_ptr sc /\ peek (scan_ptr sc) = DQUOTE
              /\ scan_ptr sc = DQUOTE :: advance (scan_ptr sc).
Proof.
  revert esc hu se. induction p as [|c p IH]; intros esc hu se; simpl; [discriminate|].
  destruct (is_char c NUL); [discriminate|].
  assert (Hrec : forall e' hu' se', scan_string p e' hu' se' = Some sc ->
            exists pre, c :: p = pre ++ scan_ptr sc /\ peek (scan_ptr sc) = DQUOTE
                        /\ scan_ptr sc = DQUOTE :: advance (scan_ptr sc)).
  { intros e' hu' se' H. destruct (IH _ _ _ H) as (pre & Hp & Hq).
    exists (c :: pre). simpl. split; [congruence | exact Hq]. }
  destruct esc; simpl.
  - destruct (is_char c "u"); [eauto|]. destruct (is_simple_escape c); eauto.
  - destruct (is_char c BACKSLASH); [eauto|].
    destruct (is_char c DQUOTE) eqn:Eq.
    + intros [= <-]. apply is_char_eq in Eq. subst c. exists []. simpl. auto.
    + destruct (negb (isascii c)); eauto.
Qed.

Section Progress.

Variable h : host.

Lemma decode_keyword_moved (d : JSONData) (v : pyvalue) (d' : JSONData) :
  decode_null d = Ok (v, d') \/ decode_bool d = Ok (v, d') \/
  decode_inf d = Ok (v, d') \/ decode_nan d = Ok (v, d') ->
  moved d d'.
Proof.
  unfold decode_null, decode_bool, decode_inf, decode_nan.
  intros [H | [H | [H | H]]];
    repeat match type of H with
    | (if starts_with ?w ?p then _ else _) = _ =>
        let E := fresh "E" in
        destruct (starts_with w p) eqn:E;
        [ revert H; intros [= <- <-]; apply (moved_drop d w); [discriminate | exact E] | ]
    end; discriminate.
Qed.

Lemma decode_string_moved (d : JSONData) (v : pyvalue) (d' : JSONData) :
  decode_string h d = Ok (v, d') -> moved d d'.
Proof.
  unfold decode_string.
  destruct (scan_string (advance (ptr d)) false false false) as [sc|] eqn:E;
    [|discriminate].
  destruct (scan_string_split _ _ _ _ _ E) as (pre & Hp & _ & Hq).
  destruct (decode_interior h d sc _) as [o|[]]; try discriminate.
  intros [= <- <-]. repeat split. simpl.
  destruct (ptr d) as [|c p] eqn:Ed.
  - simpl in Hp. destruct pre; discriminate.
  - simpl in Hp. exists (c :: pre ++ [DQUOTE]). split; [discriminate|].
    rewrite Hp. rewrite Hq at 1. simpl. rewrite <- app_assoc. reflexivity.
Qed.

Lemma decode_number_accepts (d : JSONData) (v : pyvalue) (d' : JSONData) :
  decode_number h d = Ok (v, d') ->
  exists tok, ptr d = tok ++ ptr d' /\ str d' = str d /\ number_token tok.
Proof.
  intros H. unfold decode_number in H.
  destruct (scan_number (ptr d)) as [n|] eqn:En; [|discriminate].
  destruct (scan_number_spec _ _ En) as (s & i & f & e & Hp & Hs & Hi & Hf & He & _).
  cbv zeta in H. destruct (if is_float n then _ else _); [|discriminate].
  inversion H; subst. exists (s ++ i ++ f ++ e).
  split; [exact Hp | split; [reflexivity | constructor; auto]].
Qed.

Lemma decode_number_moved (d : JSONData) (v : pyvalue) (d' : JSONData) :
  decode_number h d = Ok (v, d') -> moved d d'.
Proof.
  intros H. destruct (decode_number_accepts d v d' H) as (tok & Hp & Hs & Htok).
  split; [exact Hs|]. split.
  - unfold decode_number in H. destruct (scan_number (ptr d)); [|discriminate].
    destruct (if is_float _ then _ else _); [|discriminate].
    inversion H; subst; reflexivity.
  - exists tok. split; [|exact Hp].
    destruct Htok as [s i f e Hsn Hi _ _].
    destruct (int_part_digits i Hi) as (Hne & _).
    destruct s, i; simpl; try discriminate. congruence.
Qed.

Definition not_exhausted (r : decoded) : Prop := r <> Err loop_exhausted.

Section Loops.

Variable decode_item : JSONData -> decoded.
Hypothesis item_moved : forall d v d', decode_item d = Ok (v, d') -> moved d d'.
Hypothesis item_not_exhausted : forall d, not_exhausted (decode_item d).

Definition array_item (turns : nat) (start : bytes) (object : list pyvalue)
  (d : JSONData) : decoded :=
  if is_char (peek (ptr d)) "," || is_char (peek (ptr d)) "]" then
    Err (JSON_DecodeError
           (fmt_pos "expecting array item at position " (offset d (ptr d))))
  else
    match decode_item d with
    | Err e => Err e
    | Ok (item, d') =>
        decode_array_loop decode_item turns start Comma_or_ClosingBracket
          (object ++ [item]) d'
    end.

(** One turn of the loop of [decode_array]. *)
Lemma decode_array_loop_S (turns : nat) (start : bytes) (st : ArrayState)
  (object : list pyvalue) (d : JSONData) :
  decode_array_loop decode_item (S turns) start st object d =
  if is_char (peek (ptr (skip d))) NUL then
    match st with
    | ArrayDone => Ok (VList object, d)
    | _ => Err (JSON_DecodeError
                  (fmt_pos "unterminated array starting at position "
                     (offset (skip d) start)))
    end
  else
    match st with
    | ArrayItem_or_ClosingBracket =>
        if is_char (peek (ptr (skip d))) "]"
        then decode_array_loop decode_item turns start ArrayDone object (next (skip d))
        else array_item turns start object (skip d)
    | ArrayItem => array_item turns start object (skip d)
    | Comma_or_ClosingBracket =>
        if is_char (peek (ptr (skip d))) "]"
        then decode_array_loop decode_item turns start ArrayDone object (next (skip d))
        else if is_char (peek (ptr (skip d))) ","
        then decode_array_loop decode_item turns start ArrayItem object (next (skip d))
        else Err (JSON_DecodeError
                    (fmt_pos "expecting ',' or ']' at position "
                       (offset (skip d) (ptr (skip d)))))
    | ArrayDone => Ok (VList object, d)
    end.
Proof. destruct st; try reflexivity. destruct (is_char _ _); reflexivity. Qed.

Lemma decode_array_loop_moved (turns : nat) (start : bytes) (st : ArrayState)
  (object : list pyvalue) (d : JSONData) (v : pyvalue) (d' : JSONData) :
  decode_array_loop decode_item turns start st object d = Ok (v, d') ->
  d' = d \/ moved d d'.
Proof.
  revert st object d. induction turns as [|turns IH]; intros st object d.
  - destruct st; simpl; try discriminate. intros [= <- <-]. left; reflexivity.
  - assert (Hnext : forall st' o c, is_char (peek (ptr (skip d))) c = true -> c <> NUL ->
        decode_array_loop decode_item turns start st' o (next (skip d)) = Ok (v, d') ->
        d' = d \/ moved d d').
    { intros st' o c Hc Hnz H. right. apply moved_skip_l.
      pose proof (moved_next (skip d) c Hc Hnz) as Hm.
      destruct (IH _ _ _ H) as [-> | H']; [exact Hm | eapply moved_trans; eauto]. }
    assert (Hitem : array_item turns start object (skip d) = Ok (v, d') ->
                    d' = d \/ moved d d').
    { unfold array_item. destruct (_ || _); [discriminate|].
      destruct (decode_item (skip d)) as [[item d1]|] eqn:Ei; [|discriminate].
      intros H. right. apply moved_skip_l. apply item_moved in Ei.
      destruct (IH _ _ _ H) as [-> | H']; [exact Ei | eapply moved_trans; eauto]. }
    rewrite decode_array_loop_S.
    destruct (is_char (peek (ptr (skip d))) NUL).
    { destruct st; try discriminate. intros [= <- <-]. left; reflexivity. }
    destruct st.
    + destruct (is_char (peek (ptr (skip d))) "]") eqn:Ec; [|exact Hitem].
      apply (Hnext _ _ _ Ec). discriminate.
    + destruct (is_char (peek (ptr (skip d))) "]") eqn:Ec.
      * apply (Hnext _ _ _ Ec). discriminate.
      * destruct (is_char (peek (ptr (skip d))) ",") eqn:Ec2; [|discriminate].
        apply (Hnext _ _ _ Ec2). discriminate.
    + exact Hitem.
    + intros [= <- <-]. left; reflexivity.
Qed.

Lemma decode_array_loop_not_exhausted (turns : nat) (start : bytes) (st : ArrayState)
  (object : list pyvalue) (d : JSONData) :
  (length (ptr d) < turns)%nat ->
  not_exhausted (decode_array_loop decode_item turns start st object d).
Proof.
  revert st object d. induction turns as [|turns IH]; intros st object d Hlen; [lia|].
  assert (Hskip : (length (ptr (skip d)) <= length (ptr d))%nat)
    by apply skipSpaces_length.
  assert (Hdone : forall o d1,
            not_exhausted (decode_array_loop decode_item turns start ArrayDone o d1)).
  { intros o d1. destruct turns; discriminate. }
  assert (Hnext : forall st' o, is_char (peek (ptr (skip d))) NUL = false ->
    not_exhausted (decode_array_loop decode_item turns start st' o (next (skip d)))).
  { intros st' o Hc. apply IH.
    pose proof (moved_length _ _ (moved_next_nonnul _ Hc)). lia. }
  assert (Hitem : not_exhausted (array_item turns start object (skip d))).
  { unfold array_item. destruct (_ || _); [discriminate|].
    destruct (decode_item (skip d)) as [[item d1]|e] eqn:Ei.
    - apply IH. apply item_moved, moved_length in Ei. lia.
    - rewrite <- Ei. apply item_not_exhausted. }
  rewrite decode_array_loop_S.
  destruct (is_char (peek (ptr (skip d))) NUL) eqn:En.
  { destruct st; discriminate. }
  destruct st; auto.
  - destruct (is_char (peek (ptr (skip d))) "]"); auto.
  - destruct (is_char (peek (ptr (skip d))) "]"); auto.
    destruct (is_char (peek (ptr (skip d))) ","); auto. discriminate.
  - discriminate.
Qed.

Lemma decode_array_moved (d : JSONData) (v : pyvalue) (d' : JSONData) :
  is_char (peek (ptr d)) "[" = true ->
  decode_array decode_item d = Ok (v, d') -> moved d d'.
Proof.
  intros Hc H. unfold decode_array in H.
  pose proof (moved_next d "[" Hc ltac:(discriminate)) as Hm.
  destruct (decode_array_loop_moved _ _ _ _ _ _ _ H) as [-> | H'];
    [exact Hm | eapply moved_trans; eauto].
Qed.

Lemma decode_array_not_exhausted (d : JSONData) :
  not_exhausted (decode_array decode_item d).
Proof.
  unfold decode_array. apply decode_array_loop_not_exhausted.
  unfold next. simpl. destruct (ptr d); simpl; lia.
Qed.

Definition object_pair (turns : nat) (start : bytes) (object : list (pyvalue * pyvalue))
  (d : JSONData) : decoded :=
  if negb (is_char (peek (ptr d)) DQUOTE) then
    Err (JSON_DecodeError
           (fmt_pos "expecting object property name at position " (offset d (ptr d))))
  else
    match decode_item d with
    | Err e => Err e
    | Ok (key, d1) =>
        if negb (is_char (peek (ptr (skip d1))) ":") then
          Err (JSON_DecodeError
                 (fmt_pos "missing colon after object property name at position "
                    (offset (skip d1) (ptr (skip d1)))))
        else
          if is_char (peek (ptr (skip (next (skip d1))))) ","
             || is_char (peek (ptr (skip (next (skip d1))))) "}" then
            Err (JSON_DecodeError
                   (fmt_pos "expecting object property value at position "
                      (offset (skip (next (skip d1))) (ptr (skip (next (skip d1)))))))
          else
            match decode_item (skip (next (skip d1))) with
            | Err e => Err e
            | Ok (value, d3) =>
                decode_object_loop decode_item turns start Comma_or_ClosingBrace
                  (PyDict_SetItem object key value) d3
            end
    end.

(** One turn of the loop of [decode_object]. *)
Lemma decode_object_loop_S (turns : nat) (start : bytes) (st : DictionaryState)
  (object : list (pyvalue * pyvalue)) (d : JSONData) :
  decode_object_loop decode_item (S turns) start st object d =
  if is_char (peek (ptr (skip d))) NUL then
    match st with
    | DictionaryDone => Ok (VDict object, d)
    | _ => Err (JSON_DecodeError
                  (fmt_pos "unterminated object starting at position "
                     (offset (skip d) start)))
    end
  else
    match st with
    | DictionaryKey_or_ClosingBrace =>
        if is_char (peek (ptr (skip d))) "}"
        then decode_object_loop decode_item turns start DictionaryDone object (next (skip d))
        else object_pair turns start object (skip d)
    | DictionaryKey => object_pair turns start object (skip d)
    | Comma_or_ClosingBrace =>
        if is_char (peek (ptr (skip d))) "}"
        then decode_object_loop decode_item turns start DictionaryDone object (next (skip d))
        else if is_char (peek (ptr (skip d))) ","
        then decode_object_loop decode_item turns start DictionaryKey object (next (skip d))
        else Err (JSON_DecodeError
                    (fmt_pos "expecting ',' or '}' at position "
                       (offset (skip d) (ptr (skip d)))))
    | DictionaryDone => Ok (VDict object, d)
    end.
Proof. destruct st; try reflexivity. destruct (is_char _ _); reflexivity. Qed.

Lemma moved_colon (d1 d3 : JSONData) :
  is_char (peek (ptr (skip d1))) ":" = true ->
  moved (skip (next (skip d1))) d3 -> moved d1 d3.
Proof.
  intros Hc H. apply moved_skip_l. eapply moved_trans.
  - apply (moved_next _ _ Hc). discriminate.
  - apply moved_skip_l, H.
Qed.

Lemma decode_object_loop_moved (turns : nat) (start : bytes) (st : DictionaryState)
  (object : list (pyvalue * pyvalue)) (d : JSONData) (v : pyvalue) (d' : JSONData) :
  decode_object_loop decode_item turns start st object d = Ok (v, d') ->
  d' = d \/ moved d d'.
Proof.
  revert st object d. induction turns as [|turns IH]; intros st object d.
  - destruct st; simpl; try discriminate. intros [= <- <-]. left; reflexivity.
  - assert (Hnext : forall st' o c, is_char (peek (ptr (skip d))) c = true -> c <> NUL ->
        decode_object_loop decode_item turns start st' o (next (skip d)) = Ok (v, d') ->
        d' = d \/ moved d d').
    { intros st' o c Hc Hnz H. right. apply moved_skip_l.
      pose proof (moved_next (skip d) c Hc Hnz) as Hm.
      destruct (IH _ _ _ H) as [-> | H']; [exact Hm | eapply moved_trans; eauto]. }
    assert (Hpair : object_pair turns start object (skip d) = Ok (v, d') ->
                    d' = d \/ moved d d').
    { unfold object_pair. destruct (negb _); [discriminate|].
      destruct (decode_item (skip d)) as [[key d1]|] eqn:Ek; [|discriminate].
      destruct (is_char (peek (ptr (skip d1))) ":") eqn:Ecol; [|discriminate]. simpl.
      destruct (_ || _); [discriminate|].
      destruct (decode_item (skip (next (skip d1)))) as [[value d3]|] eqn:Ev;
        [|discriminate].
      intros H. right. apply moved_skip_l. apply item_moved in Ek, Ev.
      apply (moved_colon _ _ Ecol) in Ev.
      assert (moved (skip d) d3) by (eapply moved_trans; eauto).
      destruct (IH _ _ _ H) as [-> | H']; [assumption | eapply moved_trans; eauto]. }
    rewrite decode_object_loop_S.
    destruct (is_char (peek (ptr (skip d))) NUL).
    { destruct st; try discriminate. intros [= <- <-]. left; reflexivity. }
    destruct st.
    + destruct (is_char (peek (ptr (skip d))) "}") eqn:Ec; [|exact Hpair].
      apply (Hnext _ _ _ Ec). discriminate.
    + destruct (is_char (peek (ptr (skip d))) "}") eqn:Ec.
      * apply (Hnext _ _ _ Ec). discriminate.
      * destruct (is_char (peek (ptr (skip d))) ",") eqn:Ec2; [|discriminate].
        apply (Hnext _ _ _ Ec2). discriminate.
    + exact Hpair.
    + intros [= <- <-]. left; reflexivity.
Qed.

Lemma decode_object_loop_not_exhausted (turns : nat) (start : bytes)
  (st : DictionaryState) (object : list (pyvalue * pyvalue)) (d : JSONData) :
  (length (ptr d) < turns)%nat ->
  not_exhausted (decode_object_loop decode_item turns start st object d).
Proof.
  revert st object d. induction turns as [|turns IH]; intros st object d Hlen; [lia|].
  assert (Hskip : (length (ptr (skip d)) <= length (ptr d))%nat)
    by apply skipSpaces_length.
  assert (Hdone : forall o d1,
            not_exhausted (decode_object_loop decode_item turns start DictionaryDone o d1)).
  { intros o d1. destruct turns; discriminate. }
  assert (Hnext : forall st' o, is_char (peek (ptr (skip d))) NUL = false ->
    not_exhausted (decode_object_loop decode_item turns start st' o (next (skip d)))).
  { intros st' o Hc. apply IH.
    pose proof (moved_length _ _ (moved_next_nonnul _ Hc)). lia. }
  assert (Hpair : not_exhausted (object_pair turns start object (skip d))).
  { unfold object_pair. destruct (negb _); [discriminate|].
    destruct (decode_item (skip d)) as [[key d1]|e] eqn:Ek;
      [|rewrite <- Ek; apply item_not_exhausted].
    destruct (is_char (peek (ptr (skip d1))) ":") eqn:Ecol; [|discriminate]. simpl.
    destruct (_ || _); [discriminate|].
    destruct (decode_item (skip (next (skip d1)))) as [[value d3]|e] eqn:Ev;
      [|rewrite <- Ev; apply item_not_exhausted].
    apply IH. apply item_moved in Ek, Ev. apply (moved_colon _ _ Ecol) in Ev.
    apply moved_length in Ek, Ev. lia. }
  rewrite decode_object_loop_S.
  destruct (is_char (peek (ptr (skip d))) NUL) eqn:En.
  { destruct st; discriminate. }
  destruct st; auto.
  - destruct (is_char (peek (ptr (skip d))) "}"); auto.
  - destruct (is_char (peek (ptr (skip d))) "}"); auto.
    destruct (is_char (peek (ptr (skip d))) ","); auto. discriminate.
  - discriminate.
Qed.

Lemma decode_object_moved (d : JSONData) (v : pyvalue) (d' : JSONData) :
  is_char (peek (ptr d)) "{" = true ->
  decode_object decode_item d = Ok (v, d') -> moved d d'.
Proof.
  intros Hc H. unfold decode_object in H.
  pose proof (moved_next d "{" Hc ltac:(discriminate)) as Hm.
  destruct (decode_object_loop_moved _ _ _ _ _ _ _ H) as [-> | H'];
    [exact Hm | eapply moved_trans; eauto].
Qed.

Lemma decode_object_not_exhausted (d : JSONData) :
  not_exhausted (decode_object decode_item d).
Proof.
  unfold decode_object. apply decode_object_loop_not_exhausted.
  unfold next. simpl. destruct (ptr d); simpl; lia.
Qed.

End Loops.

(** One step of the dispatcher. *)
Lemma decode_json_unfold (depth : nat) (d : JSONData) :
  decode_json h depth d =
  let d := skip d in
  let c := peek (ptr d) in
  if is_char c NUL then Err (JSON_DecodeError "empty JSON description")
  else if is_char c "{" then
    match depth with
    | O => Err (recursion_error " while decoding a JSON object")
    | S depth' => decode_object (decode_json h depth') d
    end
  else if is_char c "[" then
    match depth with
    | O => Err (recursion_error " while decoding a JSON array")
    | S depth' => decode_array (decode_json h depth') d
    end
  else if is_char c DQUOTE then decode_string h d
  else if is_char c "t" || is_char c "f" then decode_bool d
  else if is_char c "n" then decode_null d
  else if is_char c "N" then decode_nan d
  else if is_char c "I" then decode_inf d
  else if (is_char c "+" || is_char c "-") && is_char (peek (advance (ptr d))) "I" then
    decode_inf d
  else if is_char c "+" || is_char c "-" || isdigit c then decode_number h d
  else Err (JSON_DecodeError "cannot parse JSON description").
Proof. destruct depth; reflexivity. Qed.

Lemma decode_scalar_not_exhausted (d : JSONData) :
  not_exhausted (decode_string h d) /\ not_exhausted (decode_bool d) /\
  not_exhausted (decode_null d) /\ not_exhausted (decode_nan d) /\
  not_exhausted (decode_inf d) /\ not_exhausted (decode_number h d).
Proof.
  unfold not_exhausted. split_and!.
  - unfold decode_string. destruct (scan_string _ _ _ _); [|discriminate].
    destruct (decode_interior _ _ _ _) as [|[]]; discriminate.
  - unfold decode_bool. repeat destruct (starts_with _ _); discriminate.
  - unfold decode_null. repeat destruct (starts_with _ _); discriminate.
  - unfold decode_nan. repeat destruct (starts_with _ _); discriminate.
  - unfold decode_inf. repeat destruct (starts_with _ _); discriminate.
  - unfold decode_number. destruct (scan_number _) as [n|]; [|discriminate].
    cbv zeta. destruct (is_float n).
    + destruct (PyFloat_FromString _ _); discriminate.
    + destruct (PyInt_FromString _); discriminate.
Qed.

(** Case analysis following the [switch] of [decode_json]. *)
Lemma decode_json_cases (P : decoded -> Prop) (depth : nat) (d : JSONData) :
  (forall msg, P (Err (JSON_DecodeError msg))) ->
  (forall where_, depth = O -> P (Err (recursion_error where_))) ->
  (forall depth', depth = S depth' -> is_char (peek (ptr (skip d))) "{" = true ->
     P (decode_object (decode_json h depth') (skip d))) ->
  (forall depth', depth = S depth' -> is_char (peek (ptr (skip d))) "[" = true ->
     P (decode_array (decode_json h depth') (skip d))) ->
  P (decode_string h (skip d)) -> P (decode_bool (skip d)) ->
  P (decode_null (skip d)) -> P (decode_nan (skip d)) ->
  P (decode_inf (skip d)) -> P (decode_number h (skip d)) ->
  P (decode_json h depth d).
Proof.
  intros Herr Hrec Hobj Harr Hstr Hbool Hnull Hnan Hinf Hnum.
  rewrite decode_json_unfold. cbv zeta.
  destruct (is_char (peek (ptr (skip d))) NUL); [apply Herr|].
  destruct (is_char (peek (ptr (skip d))) "{") eqn:Eo.
  { destruct depth; [apply Hrec | apply Hobj]; auto. }
  destruct (is_char (peek (ptr (skip d))) "[") eqn:Ea.
  { destruct depth; [apply Hrec | apply Harr]; auto. }
  repeat match goal with
         | |- P (if ?b then _ else _) => destruct b; [assumption|]
         end.
  apply Herr.
Qed.

Lemma decode_json_progress (depth : nat) :
  (forall d v d', decode_json h depth d = Ok (v, d') -> moved d d') /\
  (forall d, not_exhausted (decode_json h depth d)).
Proof.
  induction depth as [|depth [IHm IHe]].
  - split.
    + intros d v d'.
      apply (decode_json_cases (fun r => r = Ok (v, d') -> moved d d'));
        try discriminate; try (intros; discriminate);
        intros H; apply moved_skip_l;
        first [ apply (decode_string_moved _ _ _ H)
              | apply (decode_number_moved _ _ _ H)
              | apply (decode_keyword_moved _ v _); tauto ].
    + intros d.
      pose proof (decode_scalar_not_exhausted (skip d)) as (? & ? & ? & ? & ? & ?).
      apply (decode_json_cases not_exhausted); try assumption;
        try discriminate; intros; discriminate.
  - split.
    + intros d v d'.
      apply (decode_json_cases (fun r => r = Ok (v, d') -> moved d d'));
        try discriminate; try (intros; discriminate).
      * intros depth' [= <-] Hc H. apply moved_skip_l.
        eapply decode_object_moved; eauto.
      * intros depth' [= <-] Hc H. apply moved_skip_l.
        eapply decode_array_moved; eauto.
      * intros H; apply moved_skip_l; apply (decode_string_moved _ _ _ H).
      * intros H; apply moved_skip_l; apply (decode_keyword_moved _ v _); tauto.
      * intros H; apply moved_skip_l; apply (decode_keyword_moved _ v _); tauto.
      * intros H; apply moved_skip_l; apply (decode_keyword_moved _ v _); tauto.
      * intros H; apply moved_skip_l; apply (decode_keyword_moved _ v _); tauto.
      * intros H; apply moved_skip_l; apply (decode_number_moved _ _ _ H).
    + intros d.
      pose proof (decode_scalar_not_exhausted (skip d)) as (? & ? & ? & ? & ? & ?).
      apply (decode_json_cases not_exhausted); try assumption;
        try discriminate; try (intros; discriminate).
      * intros depth' [= <-] _. apply decode_object_not_exhausted; auto.
      * intros depth' [= <-] _. apply decode_array_not_exhausted; auto.
Qed.

Lemma decode_json_moved (depth : nat) (d : JSONData) (v : pyvalue) (d' : JSONData) :
  decode_json h depth d = Ok (v, d') -> moved d d'.
Proof. apply decode_json_progress. Qed.

(** The loops of the container decoders never run out of turns. *)
Lemma decode_json_not_exhausted (depth : nat) (d : JSONData) :
  decode_json h depth d <> Err loop_exhausted.
Proof. apply decode_json_progress. Qed.

End Progress.

(** ** Trailing data *)

(** C7.  When the top-level value decodes successfully, [JSON_decode] skips
    whitespace and requires the end of the buffer: the input is the bytes
    consumed by the value, then whitespace [ws], then the rest; with an empty
    rest the value is returned, and otherwise the value is dropped and the
    result is the DecodeError "extra data after JSON description at position
    N", where N is the offset of the first byte after the whitespace, which is
    not a whitespace byte. *)
Theorem JSON_decode_trailing (h : host) (depth : nat) (s : bytes) (au : bool)
  (v : pyvalue) (d' : JSONData) :
  existsb (fun c => is_char c NUL) s = false ->
  decode_json h depth (mkJSONData s s au) = Ok (v, d') ->
  exists consumed ws,
    s = consumed ++ ws ++ skipSpaces (ptr d') /\
    ptr d' = ws ++ skipSpaces (ptr d') /\
    forallb isspace ws = true /\
    match skipSpaces (ptr d') with
    | [] => JSON_decode h depth s au = Ok v
    | c :: _ =>
        isspace c = false /\
        JSON_decode h depth s au =
        Err (JSON_DecodeError
               (fmt_pos "extra data after JSON description at position "
                  (length (consumed ++ ws))))
    end.
Proof.
  intros Hnul H. destruct (decode_json_moved _ _ _ _ _ H) as (Hs & _ & pre & _ & Hp).
  cbn [str ptr] in Hs, Hp. destruct (skipSpaces_split (ptr d')) as (ws & Hw & Hws).
  exists pre, ws. split_and!; auto.
  - rewrite Hp at 1. rewrite Hw at 1. reflexivity.
  - unfold JSON_decode. rewrite Hnul, H. unfold skip, offset, set_ptr.
    cbn [str ptr all_unicode].
    pose proof (skipSpaces_head (ptr d')) as Hh.
    destruct (skipSpaces (ptr d')) as [|c rest] eqn:E; [reflexivity|].
    split; [exact Hh|].
    change (0 <? length (c :: rest))%nat with true. cbv iota.
    do 3 f_equal.
    rewrite Hs. rewrite Hp at 1. rewrite Hw at 1.
    rewrite !length_app. cbn [length]. lia.
Qed.

Lemma JSON_decode_trailing_witness :
  existsb (fun c => is_char c NUL) (bytes_of "null x") = false /\
  decode_json host0 10 (mkJSONData (bytes_of "null x") (bytes_of "null x") false)
  = Ok (VNone, mkJSONData (bytes_of "null x") (bytes_of " x") false) /\
  exists consumed ws,
    bytes_of "null x" = consumed ++ ws ++ skipSpaces (bytes_of " x") /\
    bytes_of " x" = ws ++ skipSpaces (bytes_of " x") /\
    forallb isspace ws = true /\
    match skipSpaces (bytes_of " x") with
    | [] => JSON_decode host0 10 (bytes_of "null x") false = Ok VNone
    | c :: _ =>
        isspace c = false /\
        JSON_decode host0 10 (bytes_of "null x") false =
        Err (JSON_DecodeError
               (fmt_pos "extra data after JSON description at position "
                  (length (consumed ++ ws))))
    end.
Proof.
  split; [reflexivity|]. split; [reflexivity|].
  exact (JSON_decode_trailing host0 10 (bytes_of "null x") false VNone
           (mkJSONData (bytes_of "null x") (bytes_of " x") false) eq_refl eq_refl).
Defined.

Example Decode_trailing_garbage :
  JSON_decode host0 10 (bytes_of "null x") false
  = Err (JSON_DecodeError "extra data after JSON description at position 5").
Proof. vm_compute. reflexivity. Qed.

(** ** The recursion bound *)

Definition nested_brackets (n : nat) : bytes := repeat "["%char n ++ repeat "]"%char n.

(** The value of [n + 1] nested empty arrays. *)
Fixpoint nested_value (n : nat) : pyvalue :=
  match n with
  | O => VList []
  | S n' => VList [nested_value n']
  end.

Lemma repeat_snoc {A} (x : A) (n : nat) (l : list A) :
  repeat x (S n) ++ l = repeat x n ++ x :: l.
Proof.
  induction n as [|n IH]; [reflexivity|].
  change (repeat x (S (S n)) ++ l) with (x :: (repeat x (S n) ++ l)).
  rewrite IH. reflexivity.
Qed.

Lemma skip_bracket (s p : bytes) (au : bool) (c : ascii) :
  isspace c = false ->
  skip (mkJSONData s (c :: p) au) = mkJSONData s (c :: p) au.
Proof. intros H. unfold skip, set_ptr. cbn [ptr str all_unicode skipSpaces]. rewrite H. reflexivity. Qed.

Section Depth.

Variable h : host.

Lemma decode_json_open_bracket (depth : nat) (s p : bytes) (au : bool) :
  decode_json h depth (mkJSONData s ("["%char :: p) au) =
  match depth with
  | O => Err (recursion_error " while decoding a JSON array")
  | S depth' =>
      decode_array_loop (decode_json h depth') (S (S (length p))) ("["%char :: p)
        ArrayItem_or_ClosingBracket [] (mkJSONData s p au)
  end.
Proof.
  rewrite decode_json_unfold. rewrite skip_bracket by reflexivity.
  cbv zeta. cbn [ptr peek].
  change (is_char "[" NUL) with false. change (is_char "[" "{") with false.
  change (is_char "[" "[") with true. cbv iota.
  destruct depth; reflexivity.
Qed.

Lemma nested_decodes (n : nat) :
  forall (depth : nat) (s rest : bytes) (au : bool),
    (n < depth)%nat ->
    decode_json h depth
      (mkJSONData s (repeat "["%char (S n) ++ repeat "]"%char (S n) ++ rest) au)
    = Ok (nested_value n, mkJSONData s rest au).
Proof.
  induction n as [|n IH]; intros depth s rest au Hd.
  - destruct depth as [|depth]; [lia|].
    cbn [repeat app]. rewrite decode_json_open_bracket.
    rewrite decode_array_loop_S. rewrite skip_bracket by reflexivity.
    cbn [ptr peek].
    change (is_char "]" NUL) with false. change (is_char "]" "]") with true.
    cbv iota. reflexivity.
  - destruct depth as [|depth]; [lia|].
    change (repeat "["%char (S (S n)) ++ repeat "]"%char (S (S n)) ++ rest)
      with ("["%char :: (repeat "["%char (S n) ++ repeat "]"%char (S (S n)) ++ rest)).
    rewrite decode_json_open_bracket.
    rewrite (repeat_snoc "]"%char (S n) rest).
    rewrite decode_array_loop_S.
    change (repeat "["%char (S n) ++ repeat "]"%char (S n) ++ "]"%char :: rest)
      with ("["%char :: (repeat "["%char n ++ repeat "]"%char (S n) ++ "]"%char :: rest)).
    rewrite skip_bracket by reflexivity. cbn [ptr peek].
    change (is_char "[" NUL) with false. change (is_char "[" "]") with false.
    cbv iota. unfold array_item. cbn [ptr peek].
    change (is_char "[" ",") with false. change (is_char "[" "]") with false.
    cbn [orb]. cbv iota.
    change ("["%char :: (repeat "["%char n ++ repeat "]"%char (S n) ++ "]"%char :: rest))
      with (repeat "["%char (S n) ++ repeat "]"%char (S n) ++ "]"%char :: rest).
    rewrite IH by lia. cbv iota beta.
    rewrite !length_app, !repeat_length. cbn [length].
    replace (n + (S n + S (length rest)))%nat with (S (n + (n + S (length rest))))%nat by lia.
    rewrite decode_array_loop_S. rewrite skip_bracket by reflexivity.
    cbn [ptr peek].
    change (is_char "]" NUL) with false. change (is_char "]" "]") with true.
    cbv iota. destruct (n + (n + S (length rest)))%nat; reflexivity.
Qed.

Lemma nested_too_deep (depth : nat) :
  forall (n : nat) (s rest : bytes) (au : bool),
    (depth <= n)%nat ->
    decode_json h depth
      (mkJSONData s (repeat "["%char (S n) ++ repeat "]"%char (S n) ++ rest) au)
    = Err (recursion_error " while decoding a JSON array").
Proof.
  induction depth as [|depth IH]; intros n s rest au Hd.
  - cbn [repeat app]. rewrite decode_json_open_bracket. reflexivity.
  - destruct n as [|n]; [lia|].
    change (repeat "["%char (S (S n)) ++ repeat "]"%char (S (S n)) ++ rest)
      with ("["%char :: (repeat "["%char (S n) ++ repeat "]"%char (S (S n)) ++ rest)).
    rewrite decode_json_open_bracket.
    rewrite (repeat_snoc "]"%char (S n) rest).
    rewrite decode_array_loop_S.
    change (repeat "["%char (S n) ++ repeat "]"%char (S n) ++ "]"%char :: rest)
      with ("["%char :: (repeat "["%char n ++ repeat "]"%char (S n) ++ "]"%char :: rest)).
    rewrite skip_bracket by reflexivity. cbn [ptr peek].
    change (is_char "[" NUL) with false. change (is_char "[" "]") with false.
    cbv iota. unfold array_item. cbn [ptr peek].
    change (is_char "[" ",") with false. change (is_char "[" "]") with false.
    cbn [orb]. cbv iota.
    change ("["%char :: (repeat "["%char n ++ repeat "]"%char (S n) ++ "]"%char :: rest))
      with (repeat "["%char (S n) ++ repeat "]"%char (S n) ++ "]"%char :: rest).
    rewrite IH by lia. reflexivity.
Qed.

End Depth.

Lemma existsb_repeat {A} (f : A -> bool) (x : A) (n : nat) :
  f x = false -> existsb f (repeat x n) = false.
Proof. intros H. induction n as [|n IH]; simpl; [reflexivity | rewrite H; exact IH]. Qed.

Lemma nested_brackets_no_nul (n : nat) :
  existsb (fun c => is_char c NUL) (nested_brackets n) = false.
Proof.
  unfold nested_brackets. rewrite existsb_app, !existsb_repeat by reflexivity.
  reflexivity.
Qed.

(** C5, as the code has it.  [decode_json] asks the interpreter's recursion
    guard before it enters [decode_array] or [decode_object].  With [limit]
    calls left, [N = n + 1] nested brackets decode to the nested arrays when
    [N <= limit]; when [N > limit] the call fails with the error the guard
    has set, RuntimeError "maximum recursion depth exceeded while decoding a
    JSON array", which is not a DecodeError.  At a guard with no call left
    every array or object is refused in this way. *)
Theorem decode_depth_bound (h : host) (au : bool) (limit n : nat) :
  JSON_decode h limit (nested_brackets (S n)) au =
  (if (n <? limit)%nat then Ok (nested_value n)
   else Err (PyExc_RuntimeError
               "maximum recursion depth exceeded while decoding a JSON array"))
  /\ (forall d, is_char (peek (ptr (skip d))) "[" = true ->
        decode_json h 0 d = Err (recursion_error " while decoding a JSON array"))
  /\ (forall d, is_char (peek (ptr (skip d))) "{" = true ->
        decode_json h 0 d = Err (recursion_error " while decoding a JSON object")).
Proof.
  split_and!.
  - unfold JSON_decode. rewrite nested_brackets_no_nul.
    unfold nested_brackets.
    rewrite <- (app_nil_r (repeat "]"%char (S n))).
    destruct (n <? limit)%nat eqn:E.
    + apply Nat.ltb_lt in E. rewrite nested_decodes by exact E. reflexivity.
    + apply Nat.ltb_ge in E. rewrite nested_too_deep by exact E. reflexivity.
  - intros d Hc. rewrite decode_json_unfold. cbv zeta.
    apply is_char_eq in Hc. rewrite Hc. reflexivity.
  - intros d Hc. rewrite decode_json_unfold. cbv zeta.
    apply is_char_eq in Hc. rewrite Hc. reflexivity.
Qed.

Lemma decode_depth_bound_witness :
  JSON_decode host0 2 (bytes_of "[[]]") false = Ok (VList [VList []]) /\
  JSON_decode host0 2 (bytes_of "[[[]]]") false =
    Err (PyExc_RuntimeError
           "maximum recursion depth exceeded while decoding a JSON array") /\
  is_char (peek (ptr (skip (mkJSONData (bytes_of " [1]") (bytes_of " [1]") false)))) "["
  = true /\
  decode_json host0 0 (mkJSONData (bytes_of " [1]") (bytes_of " [1]") false)
  = Err (recursion_error " while decoding a JSON array").
Proof.
  split; [exact (proj1 (decode_depth_bound host0 false 2 1))|].
  split; [exact (proj1 (decode_depth_bound host0 false 2 2))|].
  split; [reflexivity|].
  apply (proj1 (proj2 (decode_depth_bound host0 false 2 2))). reflexivity.
Defined.

(** The claim C5 as stated fails: three nested arrays under a guard with two
    calls left do not raise DecodeError. *)
Lemma decode_depth_not_DecodeError :
  ~ is_DecodeError (JSON_decode host0 2 (bytes_of "[[[]]]") false).
Proof. vm_compute. exact (fun H => H). Qed.

(** ** String tokens *)

(** The bytes of a string interior that are not part of an escape, and the
    letters that follow an escaping backslash.  [esc] tells whether the
    first byte is already escaped. *)
Fixpoint plain_bytes (esc : bool) (s : bytes) : bytes :=
  match s with
  | [] => []
  | c :: s' =>
      if esc then plain_bytes false s'
      else if is_char c BACKSLASH then plain_bytes true s'
      else c :: plain_bytes false s'
  end.

Fixpoint escape_letters (esc : bool) (s : bytes) : bytes :=
  match s with
  | [] => []
  | c :: s' =>
      if esc then c :: escape_letters false s'
      else if is_char c BACKSLASH then escape_letters true s'
      else escape_letters false s'
  end.

(** The interior ends in a backslash that escapes nothing. *)
Fixpoint dangling (esc : bool) (s : bytes) : bool :=
  match s with
  | [] => esc
  | c :: s' => if esc then dangling false s' else dangling (is_char c BACKSLASH) s'
  end.

Definition non_ascii (c : ascii) : bool := negb (isascii c).

(** An interior as [decode_string] delimits it: no NUL byte, no double quote
    outside an escape, no dangling backslash. *)
Definition interior_ok (esc : bool) (s : bytes) : bool :=
  negb (existsb (fun c => is_char c NUL) s)
  && negb (existsb (fun c => is_char c DQUOTE) (plain_bytes esc s))
  && negb (dangling esc s).

(** The two flags, read off the interior. *)
Definition unicode_flag (esc : bool) (s : bytes) : bool :=
  existsb non_ascii (plain_bytes esc s) || existsb (fun c => is_char c "u") (escape_letters esc s).

Definition escape_flag (esc : bool) (s : bytes) : bool :=
  existsb is_simple_escape (escape_letters esc s).

Lemma scan_string_sound (p : bytes) :
  forall (esc hu se : bool) (sc : string_scan),
    scan_string p esc hu se = Some sc ->
    exists body,
      p = body ++ scan_ptr sc /\ interior_ok esc body = true /\
      has_unicode sc = hu || unicode_flag esc body /\
      string_escape sc = se || escape_flag esc body.
Proof.
  induction p as [|c p IH]; intros esc hu se sc; cbn [scan_string]; [discriminate|].
  destruct (is_char c NUL) eqn:En; [discriminate|].
  assert (Hstep : forall esc' hu' se',
    scan_string p esc' hu' se' = Some sc ->
    (esc = true \/ is_char c DQUOTE = false) ->
    (if esc then esc' = false else esc' = is_char c BACKSLASH) ->
    hu' = hu || (if esc then is_char c "u"
                 else if is_char c BACKSLASH then false else non_ascii c) ->
    se' = se || (if esc then is_simple_escape c else false) ->
    exists body,
      c :: p = body ++ scan_ptr sc /\ interior_ok esc body = true /\
      has_unicode sc = hu || unicode_flag esc body /\
      string_escape sc = se || escape_flag esc body).
  { intros esc' hu' se' H Hq Hesc Hhu Hse.
    destruct (IH _ _ _ _ H) as (body & Hp & Hok & Hu & He).
    exists (c :: body). split; [simpl; congruence|].
    unfold interior_ok, unicode_flag, escape_flag in *.
    rewrite Hu, He, Hhu, Hse. clear Hu He Hhu Hse H IH.
    cbn [existsb plain_bytes escape_letters dangling]. rewrite En.
    destruct esc; subst esc'.
    - cbn [existsb orb]. split; [exact Hok|].
      split; [rewrite <- !orb_assoc; f_equal; rewrite !orb_assoc;
              f_equal; apply orb_comm | rewrite orb_assoc; reflexivity].
    - destruct Hq as [Hq | Hq]; [discriminate|].
      destruct (is_char c BACKSLASH); cbn [existsb orb].
      + split; [exact Hok|]. rewrite !orb_false_r. auto.
      + rewrite Hq. cbn [orb]. split; [exact Hok|].
        rewrite !orb_false_r, !orb_assoc. auto. }
  destruct esc; cbn [negb].
  - destruct (is_char c "u") eqn:Eu.
    + intros H. apply (Hstep false true se H); auto.
      * rewrite orb_true_r. reflexivity.
      * assert (is_simple_escape c = false) as ->
          by (apply is_char_eq in Eu; subst c; reflexivity).
        rewrite orb_false_r. reflexivity.
    + destruct (is_simple_escape c) eqn:Es; intros H.
      * apply (Hstep false hu true H); auto.
        -- rewrite orb_false_r; reflexivity.
        -- rewrite orb_true_r; reflexivity.
      * apply (Hstep false hu se H); auto; rewrite orb_false_r; reflexivity.
  - destruct (is_char c BACKSLASH) eqn:Eb.
    + intros H. assert (is_char c DQUOTE = false)
        by (apply is_char_eq in Eb; subst c; reflexivity).
      apply (Hstep true hu se H); auto; rewrite orb_false_r; reflexivity.
    + destruct (is_char c DQUOTE) eqn:Eq.
      * intros [= <-]. exists []. cbn. rewrite !orb_false_r. auto.
      * unfold non_ascii in Hstep. destruct (negb (isascii c)) eqn:Ea; intros H.
        -- apply (Hstep false true se H); auto.
           ++ rewrite orb_true_r; reflexivity.
           ++ rewrite orb_false_r; reflexivity.
        -- apply (Hstep false hu se H); auto; rewrite orb_false_r; reflexivity.
Qed.

Lemma scan_string_complete (body rest : bytes) :
  forall (esc hu se : bool),
    interior_ok esc body = true ->
    scan_string (body ++ DQUOTE :: rest) esc hu se
    = Some (mkScan (DQUOTE :: rest) (hu || unicode_flag esc body)
                   (se || escape_flag esc body)).
Proof.
  induction body as [|c body IH]; intros esc hu se Hok.
  - unfold interior_ok in Hok. cbn in Hok. destruct esc; [discriminate|].
    cbn. rewrite !orb_false_r. reflexivity.
  - unfold interior_ok, unicode_flag, escape_flag in *.
    cbn [app scan_string existsb plain_bytes escape_letters dangling] in *.
    destruct (is_char c NUL) eqn:En; [discriminate Hok|].
    destruct esc; cbn [negb].
    + cbn [existsb].
      destruct (is_char c "u") eqn:Eu.
      * rewrite IH by exact Hok. f_equal. f_equal.
        -- rewrite !orb_true_r. reflexivity.
        -- assert (is_simple_escape c = false) as ->
             by (apply is_char_eq in Eu; subst c; reflexivity).
           reflexivity.
      * destruct (is_simple_escape c) eqn:Es; rewrite IH by exact Hok; f_equal.
        f_equal. rewrite orb_true_r. reflexivity.
    + destruct (is_char c BACKSLASH) eqn:Eb.
      * rewrite IH by exact Hok. reflexivity.
      * cbn [existsb] in Hok.
        destruct (is_char c DQUOTE) eqn:Eq;
          [exfalso; revert Hok; cbn [orb negb]; rewrite andb_false_r; cbn [andb];
           discriminate|].
        cbn [existsb]. fold (non_ascii c).
        destruct (non_ascii c); rewrite IH by exact Hok; f_equal.
        f_equal. rewrite orb_true_r. reflexivity.
Qed.

Section StringTokens.

Variable h : host.

(** [decode_string] on a token: the opening quote [c0], an interior, the
    closing quote. *)
Lemma decode_string_token (s rest interior : bytes) (c0 : ascii) (au : bool) :
  interior_ok false interior = true ->
  let d := mkJSONData s (c0 :: interior ++ DQUOTE :: rest) au in
  let sc := mkScan (DQUOTE :: rest) (unicode_flag false interior)
                   (escape_flag false interior) in
  decode_string h d =
  match decode_interior h d sc interior with
  | Ok object => Ok (object, mkJSONData s rest au)
  | Err (PyExc_UnicodeDecodeError reason) =>
      Err (JSON_DecodeError
             (fmt_pos "cannot decode string starting at position "
                (offset d (ptr d)) ++ ": " ++ reason)%string)
  | Err _ =>
      Err (JSON_DecodeError
             (fmt_pos "invalid string starting at position " (offset d (ptr d))))
  end.
Proof.
  intros Hok d sc. unfold decode_string. subst d. cbn [ptr advance tail].
  rewrite (scan_string_complete interior rest false false false Hok).
  cbn [orb scan_ptr]. fold sc.
  replace (length (c0 :: interior ++ DQUOTE :: rest) - length (DQUOTE :: rest) - 1)%nat
    with (length interior) by (cbn [length]; rewrite length_app; cbn [length]; lia).
  rewrite take_app_length. reflexivity.
Qed.

(** The interior decoder is chosen by the two flags and the option. *)
Lemma decode_string_dispatch (d : JSONData) (v : pyvalue) (d' : JSONData) :
  decode_string h d = Ok (v, d') ->
  exists c0 interior,
    ptr d = c0 :: interior ++ DQUOTE :: ptr d' /\
    interior_ok false interior = true /\
    if unicode_flag false interior || all_unicode d then
      exists u, PyUnicode_DecodeUnicodeEscape (Py_UNICODE_WIDE h) interior = Ok u
                /\ v = VUnicode u
    else if escape_flag false interior then
      exists b, PyString_DecodeEscape interior = Ok b /\ v = VString b
    else v = VString interior.
Proof.
  intros H. pose proof H as H0. unfold decode_string in H.
  destruct (scan_string (advance (ptr d)) false false false) as [sc|] eqn:E;
    [|discriminate].
  destruct (scan_string_sound _ _ _ _ _ E) as (body & Hp & Hok & Hu & He).
  destruct (scan_string_split _ _ _ _ _ E) as (_ & _ & _ & Hq).
  cbn [orb] in Hu, He.
  destruct (ptr d) as [|c0 p] eqn:Ep;
    [cbn [advance tail] in Hp; rewrite Hq in Hp; destruct body; discriminate Hp|].
  cbn [advance tail] in *.
  assert (Hlen : (length (c0 :: p) - length (scan_ptr sc) - 1)%nat = length body)
    by (rewrite Hp; cbn [length]; rewrite length_app; lia).
  rewrite Hlen in H. rewrite Hp in H at 1. rewrite take_app_length in H.
  exists c0, body.
  destruct (decode_interior h d sc body) as [o|e] eqn:Ei;
    [|destruct e; discriminate].
  injection H as <- <-. cbn [ptr set_ptr].
  split; [rewrite Hp; rewrite Hq at 1; reflexivity|]. split; [exact Hok|].
  unfold decode_interior in Ei. rewrite Hu, He in Ei.
  destruct (unicode_flag false body || all_unicode d).
  - destruct (PyUnicode_DecodeUnicodeEscape _ body); [|discriminate].
    injection Ei as <-. eauto.
  - destruct (escape_flag false body).
    + destruct (PyString_DecodeEscape body); [|discriminate].
      injection Ei as <-. eauto.
    + injection Ei as <-. reflexivity.
Qed.

End StringTokens.

(** The flag as the specification words it: the token has a non-ASCII byte
    or a backslash-u escape. *)
Definition token_has_unicode (interior : bytes) : bool :=
  existsb non_ascii interior
  || existsb (fun c => is_char c "u") (escape_letters false interior).

Lemma existsb_non_ascii_split (esc : bool) (s : bytes) :
  existsb non_ascii s
  = existsb non_ascii (plain_bytes esc s) || existsb non_ascii (escape_letters esc s).
Proof.
  revert esc. induction s as [|c s IH]; intros esc; [reflexivity|].
  cbn [existsb plain_bytes escape_letters]. destruct esc.
  - cbn [existsb]. rewrite (IH false).
    destruct (non_ascii c), (existsb non_ascii (plain_bytes false s)); reflexivity.
  - destruct (is_char c BACKSLASH) eqn:Eb.
    + apply is_char_eq in Eb. subst c. rewrite (IH true). reflexivity.
    + cbn [existsb]. rewrite (IH false). rewrite orb_assoc. reflexivity.
Qed.

(** The flag of the scanning loop is the flag of the specification on every
    interior in which no backslash escapes a non-ASCII byte. *)
Lemma unicode_flag_token (interior : bytes) :
  existsb non_ascii (escape_letters false interior) = false ->
  unicode_flag false interior = token_has_unicode interior.
Proof.
  intros H. unfold unicode_flag, token_has_unicode.
  rewrite (existsb_non_ascii_split false interior), H, orb_false_r. reflexivity.
Qed.

(** C3 at the input of four bytes: quote, backslash, the byte 0xE9, quote.
    The token has a non-ASCII byte, so the claim asks for a Unicode String;
    the scanning loop looks at an escaped byte only for the escape letters,
    leaves [has_unicode] unset, and the interior comes back verbatim as a
    byte String that is not ASCII. *)
Theorem decode_string_escaped_non_ascii :
  let interior := [BACKSLASH; "233"%char] in
  let token := DQUOTE :: interior ++ [DQUOTE] in
  token_has_unicode interior = true /\
  unicode_flag false interior = false /\
  forallb isascii interior = false /\
  JSON_decode host0 10 token false = Ok (VString interior).
Proof. vm_compute. auto. Qed.

Example Decode_unicode_escape :
  JSON_decode host0 10 (q "\u00e9") false = Ok (VUnicode [233]).
Proof. vm_compute. reflexivity. Qed.

Example Decode_surrogate_pair :
  JSON_decode host0 10 (q "\uD834\uDD1E") false = Ok (VUnicode [0x1D11E]).
Proof. vm_compute. reflexivity. Qed.

(** * Properties of the encoder *)

(** The exception that a call raises: the error indicator, when the call
    returns NULL. *)
Definition raised {A} (r : outcome A * enc_state) : option pyerr :=
  match fst r with
  | Null => curexc (snd r)
  | _ => None
  end.

(** ** Examples *)

Example Encode_string_escapes :
  JSON_encode host0 interp0 10 10 (PyString (bytes_of "a" ++ [DQUOTE; "b"; "010"; "c"]%char))
    None None None None st0
  = (Value (DQUOTE :: bytes_of "a\" ++ DQUOTE :: bytes_of "b\nc" ++ [DQUOTE]), st0).
Proof. vm_compute. reflexivity. Qed.

Example Encode_tuple :
  JSON_encode host0 interp0 10 10 (PyTuple [PyInt 1; PyNone; PyTuple []; PyBool true])
    None None None None st0
  = (Value (bytes_of "[1, null, [], true]"), st0).
Proof. vm_compute. reflexivity. Qed.

(** ** The default argument *)

(** C9, as the code has it.  A [default] argument that is true and not
    callable makes [JSON_encode] raise ValueError before anything is encoded;
    the text of the exception holds the [repr] of the argument, and the state
    is the one the truth test and [repr] leave, with the exception set.  (The
    result of [repr] is not checked: were it NULL, the behaviour would be
    undefined.)  A [default] argument that is false (None, 0, an empty string
    or container, ...), or whose truth test fails, is dropped first, and the
    call behaves as if no [default] had been passed. *)
Theorem JSON_encode_default (h : host) (w : interp) (turns depth : nat) (object f : pyobj)
  (fdt fd ft : option bytes) (st : enc_state) :
  (forall st1 repr st2,
     PyObject_Not w f depth st = (Some false, st1) -> PyCallable_Check f = false ->
     run (PyObject_Repr w f) depth st1 = (Some repr, st2) ->
     JSON_encode h w turns depth object (Some f) fdt fd ft st =
     (Null,
      PyErr_SetString
        (PyExc_ValueError
           ("The 'default' argument " ++ text_of (c_str repr) ++ " is not callable")%string)
        st2))
  /\ (forall st1 st2,
        PyObject_Not w f depth st = (Some false, st1) -> PyCallable_Check f = false ->
        run (PyObject_Repr w f) depth st1 = (None, st2) ->
        JSON_encode h w turns depth object (Some f) fdt fd ft st = (Stuck undefined, st2))
  /\ (forall r st1,
        PyObject_Not w f depth st = (r, st1) -> r <> Some false ->
        JSON_encode h w turns depth object (Some f) fdt fd ft st =
        JSON_encode h w turns depth object None fdt fd ft st1).
Proof.
  split; [|split].
  - intros st1 repr st2 Hn Hc Hr. unfold JSON_encode. rewrite Hn, Hc. cbn [negb].
    rewrite Hr. reflexivity.
  - intros st1 st2 Hn Hc Hr. unfold JSON_encode. rewrite Hn, Hc. cbn [negb].
    rewrite Hr. reflexivity.
  - intros r st1 Hn Hr. unfold JSON_encode. rewrite Hn.
    destruct r as [[|]|]; [reflexivity | congruence | reflexivity].
Qed.

Lemma JSON_encode_default_witness :
  (PyObject_Not interp0 (PyInt 5) 10 st0 = (Some false, st0) /\
   PyCallable_Check (PyInt 5) = false /\
   run (PyObject_Repr interp0 (PyInt 5)) 10 st0 = (Some (bytes_of "5"), st0) /\
   JSON_encode host0 interp0 10 10 PyNone (Some (PyInt 5)) None None None st0 =
   (Null,
    PyErr_SetString (PyExc_ValueError "The 'default' argument 5 is not callable") st0))
  /\ (PyObject_Not interp0 (PyString []) 10 st0 = (Some true, st0) /\
      Some true <> Some false /\
      JSON_encode host0 interp0 10 10 PyNone (Some (PyString [])) None None None st0 =
      JSON_encode host0 interp0 10 10 PyNone None None None None st0).
Proof.
  split.
  - split; [reflexivity|]. split; [reflexivity|]. split; [reflexivity|].
    exact (proj1 (JSON_encode_default host0 interp0 10 10 PyNone (PyInt 5) None None None
                    st0) st0 (bytes_of "5") st0 eq_refl eq_refl eq_refl).
  - split; [reflexivity|]. split; [discriminate|].
    exact (proj2 (proj2 (JSON_encode_default host0 interp0 10 10 PyNone (PyString [])
                           None None None st0))
             (Some true) st0 eq_refl ltac:(discriminate)).
Defined.

(** The claim C9 as stated fails: [default=0] is supplied and is not
    callable, and the call returns the encoding. *)
Lemma JSON_encode_default_zero :
  PyCallable_Check (PyInt 0) = false /\
  JSON_encode host0 interp0 10 10 (PyBool true) (Some (PyInt 0)) None None None st0
  = (Value (bytes_of "true"), st0) /\
  raised (JSON_encode host0 interp0 10 10 (PyBool true) (Some (PyInt 0)) None None None st0)
  = None.
Proof. vm_compute. auto. Qed.

(** ** Unicode escapes *)

(** The escape of a 16-bit value as the specification writes it: backslash,
    [u], and four lowercase hexadecimal digits, most significant first. *)
Definition lower_hex_digit (d : Z) : ascii :=
  if d <? 10 then chr (48 + d) else chr (87 + d).

Definition hex4 (n : Z) : bytes :=
  [lower_hex_digit (n / 4096 mod 16); lower_hex_digit (n / 256 mod 16);
   lower_hex_digit (n / 16 mod 16); lower_hex_digit (n mod 16)].

Definition u_escape (n : Z) : bytes := BACKSLASH :: "u"%char :: hex4 n.

Definition high_surrogate (cp : Z) : Z := 0xD800 + Z.shiftr (cp - 0x10000) 10.
Definition low_surrogate (cp : Z) : Z := 0xDC00 + Z.land (cp - 0x10000) 0x3FF.

Lemma hexdigit_lower (d : Z) : 0 <= d < 16 -> hexdigit d = lower_hex_digit d.
Proof.
  intros H.
  assert (Hd : d = 0 \/ d = 1 \/ d = 2 \/ d = 3 \/ d = 4 \/ d = 5 \/ d = 6 \/ d = 7 \/
               d = 8 \/ d = 9 \/ d = 10 \/ d = 11 \/ d = 12 \/ d = 13 \/ d = 14 \/ d = 15)
    by lia.
  repeat (destruct Hd as [-> | Hd]; [reflexivity|]). subst d. reflexivity.
Qed.

Lemma land_15 (x : Z) : Z.land x 15 = x mod 16.
Proof. change 15 with (Z.ones 4). rewrite Z.land_ones by lia. reflexivity. Qed.

Lemma hex_nibbles (x : Z) :
  0 <= x ->
  [hexdigit (Z.land (Z.shiftr x 12) 15); hexdigit (Z.land (Z.shiftr x 8) 15);
   hexdigit (Z.land (Z.shiftr x 4) 15); hexdigit (Z.land x 15)] = hex4 x.
Proof.
  intros Hx. unfold hex4. rewrite !land_15, !Z.shiftr_div_pow2 by lia.
  change (2 ^ 12) with 4096. change (2 ^ 8) with 256. change (2 ^ 4) with 16.
  rewrite !hexdigit_lower by (apply Z.mod_pos_bound; lia). reflexivity.
Qed.

Lemma surrogate_high_mask (cp : Z) :
  0x10000 <= cp <= 0x10FFFF ->
  Z.land (Z.shiftr (cp - 0x10000) 10) 0x03FF + 0xD800 = high_surrogate cp.
Proof.
  intros H. unfold high_surrogate.
  change 0x03FF with (Z.ones 10). rewrite Z.land_ones by lia.
  rewrite Z.shiftr_div_pow2 by lia. change (2 ^ 10) with 1024.
  rewrite Z.mod_small; [lia|].
  split; [apply Z.div_pos; lia|]. apply Z.div_lt_upper_bound; lia.
Qed.

(** C8.  In the text [encode_unicode] returns, between the two quotes there
    is one piece per code point of the string, in order.  In a wide build
    (the only one whose code units reach 0x10000) the piece of a code point
    in [0x10000, 0x10FFFF] is the surrogate pair: two [\uXXXX] escapes, of
    [0xD800 + ((cp - 0x10000) >> 10)] and of [0xDC00 + ((cp - 0x10000) &
    0x3FF)].  The piece of a code point in [0x100, 0x10000) is the single
    lowercase-hex escape [\uXXXX] of the code point. *)
Theorem encode_unicode_escapes (h : host) (u : list Z) (out : bytes) :
  encode_unicode h u = Ok out ->
  exists pieces,
    out = DQUOTE :: concat pieces ++ [DQUOTE] /\
    Forall2 (fun cp piece =>
               (Py_UNICODE_WIDE h = true -> 0x10000 <= cp <= 0x10FFFF ->
                piece = u_escape (high_surrogate cp) ++ u_escape (low_surrogate cp))
               /\ (0x100 <= cp < 0x10000 -> piece = u_escape cp))
            u pieces.
Proof.
  unfold encode_unicode. destruct (_ <? _); [discriminate|]. intros [= <-].
  exists (map (encode_unicode_char h) u). split; [reflexivity|].
  induction u as [|cp u IH]; [constructor|]. cbn [map]. constructor; [|exact IH].
  unfold encode_unicode_char. split.
  - intros Hw Hcp. rewrite Hw.
    change (code DQUOTE) with 34. change (code BACKSLASH) with 92.
    assert ((cp =? 34) = false) as -> by (apply Z.eqb_neq; lia).
    assert ((cp =? 92) = false) as -> by (apply Z.eqb_neq; lia).
    assert ((0x10000 <=? cp) = true) as -> by (apply Z.leb_le; lia).
    cbn [orb andb]. cbv zeta. rewrite surrogate_high_mask by exact Hcp.
    unfold u_escape.
    rewrite <- (hex_nibbles (high_surrogate cp))
      by (unfold high_surrogate; pose proof (Z.shiftr_nonneg (cp - 0x10000) 10); lia).
    fold (low_surrogate cp).
    assert (Hlow : Z.land (cp - 65536) 1023 + 56320 = low_surrogate cp)
      by (unfold low_surrogate; lia).
    rewrite Hlow.
    rewrite <- (hex_nibbles (low_surrogate cp))
      by (unfold low_surrogate;
          pose proof (proj2 (Z.land_nonneg (cp - 0x10000) 0x3FF)); lia).
    reflexivity.
  - intros Hcp.
    change (code DQUOTE) with 34. change (code BACKSLASH) with 92.
    assert ((cp =? 34) = false) as -> by (apply Z.eqb_neq; lia).
    assert ((cp =? 92) = false) as -> by (apply Z.eqb_neq; lia).
    assert ((0x10000 <=? cp) = false) as -> by (apply Z.leb_gt; lia).
    assert ((256 <=? cp) = true) as -> by (apply Z.leb_le; lia).
    rewrite andb_false_r. cbn [orb]. cbv iota.
    unfold u_escape. rewrite <- (hex_nibbles cp) by lia. reflexivity.
Qed.

Lemma encode_unicode_escapes_witness :
  encode_unicode host0 [0x1D11E; 0x20AC]
  = Ok (DQUOTE :: bytes_of "\ud834\udd1e\u20ac" ++ [DQUOTE]) /\
  exists pieces,
    DQUOTE :: bytes_of "\ud834\udd1e\u20ac" ++ [DQUOTE]
    = DQUOTE :: concat pieces ++ [DQUOTE] /\
    Forall2 (fun cp piece =>
               (Py_UNICODE_WIDE host0 = true -> 0x10000 <= cp <= 0x10FFFF ->
                piece = u_escape (high_surrogate cp) ++ u_escape (low_surrogate cp))
               /\ (0x100 <= cp < 0x10000 -> piece = u_escape cp))
            [0x1D11E; 0x20AC] pieces.
Proof.
  split; [reflexivity|].
  exact (encode_unicode_escapes host0 [0x1D11E; 0x20AC] _ eq_refl).
Defined.

(** ** Cycle detection *)

Lemma remove_last_fresh (l : loc) (r : list loc) :
  l ∉ r -> remove_last l (r ++ [l]) = r.
Proof.
  induction r as [|x r IH]; intros Hl; cbn [app remove_last].
  - rewrite bool_decide_eq_false_2 by (intros H; inversion H).
    rewrite bool_decide_eq_true_2; reflexivity.
  - apply not_elem_of_cons in Hl as [Hx Hl].
    rewrite bool_decide_eq_true_2 by (apply elem_of_app; right; constructor).
    rewrite IH by exact Hl. reflexivity.
Qed.

Lemma Py_ReprEnter_registered (l : loc) (st : enc_state) :
  l ∈ Py_Repr st -> Py_ReprEnter l st = (1, st).
Proof. intros H. unfold Py_ReprEnter. rewrite bool_decide_eq_true_2; auto. Qed.

Lemma Py_ReprEnter_fresh (l : loc) (st : enc_state) :
  l ∉ Py_Repr st -> Py_ReprEnter l st = (0, set_Py_Repr (Py_Repr st ++ [l]) st).
Proof. intros H. unfold Py_ReprEnter. rewrite bool_decide_eq_false_2; auto. Qed.

Lemma Py_ReprLeave_entered (l : loc) (st st' : enc_state) :
  l ∉ Py_Repr st -> Py_Repr st' = Py_Repr st ++ [l] ->
  Py_ReprLeave l st' = set_Py_Repr (Py_Repr st) st'.
Proof.
  intros Hout Hst. unfold Py_ReprLeave. rewrite Hst, remove_last_fresh by exact Hout.
  reflexivity.
Qed.

(** [untouched m]: whatever the outcome, [m] leaves [Py_Repr] and the log
    of the calls as it found them. *)
Definition untouched {R} (m : enc_state -> R * enc_state) : Prop :=
  forall st, Py_Repr (snd (m st)) = Py_Repr st /\ calls (snd (m st)) = calls st.

Lemma untouched_ret {A} (a : A) : untouched (ret a).
Proof. intros st. split; reflexivity. Qed.

Lemma untouched_raise {A} (e : pyerr) : untouched (raise e : enc A).
Proof. intros st. split; reflexivity. Qed.

Lemma untouched_lift {A} (r : pyres A) : untouched (lift r).
Proof. destruct r; [apply untouched_ret | apply untouched_raise]. Qed.

Lemma untouched_const {R} (r : R) : untouched (fun st => (r, st)).
Proof. intros st. split; reflexivity. Qed.

Lemma untouched_run {A} (code : pycode A) (depth : nat) : untouched (run code depth).
Proof. intros st. unfold run. destruct (code depth st). split; reflexivity. Qed.

Lemma untouched_seq {R B} (m : enc_state -> R * enc_state)
  (k : R -> enc_state -> B * enc_state) :
  untouched m -> (forall r, untouched (k r)) ->
  untouched (fun st => let (r, st') := m st in k r st').
Proof.
  intros Hm Hk st. specialize (Hm st). destruct (m st) as [r st']. cbn [snd] in Hm.
  destruct (Hk r st') as [H1 H2]. destruct Hm as [H3 H4]. split; congruence.
Qed.

(** [keeps m]: whatever the outcome, [m] leaves [Py_Repr] as it found it. *)
Definition keeps {R} (m : enc_state -> R * enc_state) : Prop :=
  forall st, Py_Repr (snd (m st)) = Py_Repr st.

Lemma untouched_keeps {R} (m : enc_state -> R * enc_state) : untouched m -> keeps m.
Proof. intros H st. apply H. Qed.

Lemma keeps_ret {A} (a : A) : keeps (ret a).
Proof. intros st. reflexivity. Qed.

Lemma keeps_raise {A} (e : pyerr) : keeps (raise e : enc A).
Proof. intros st. reflexivity. Qed.

Lemma keeps_lift {A} (r : pyres A) : keeps (lift r).
Proof. destruct r; [apply keeps_ret | apply keeps_raise]. Qed.

Lemma keeps_seq {R B} (m : enc_state -> R * enc_state) (k : R -> enc_state -> B * enc_state) :
  keeps m -> (forall r, keeps (k r)) -> keeps (fun st => let (r, st') := m st in k r st').
Proof.
  intros Hm Hk st. specialize (Hm st). destruct (m st) as [r st']. cbn [snd] in Hm.
  rewrite Hk. exact Hm.
Qed.

Lemma keeps_bind {A B} (m : enc A) (k : A -> enc B) :
  keeps m -> (forall a, keeps (k a)) -> keeps (bind m k).
Proof.
  intros Hm Hk st. unfold bind. specialize (Hm st).
  destruct (m st) as [[a| |why] st']; cbn [snd] in *.
  - rewrite Hk. exact Hm.
  - exact Hm.
  - exact Hm.
Qed.

Section Frame.

Variable h : host.
Variable w : interp.

Lemma raise_encoding_error_untouched {A} (o : pyobj) (depth : nat) :
  untouched (raise_encoding_error w o depth : enc A).
Proof.
  unfold raise_encoding_error. apply untouched_seq; [apply untouched_run|].
  intros [repr|]; [apply untouched_raise | apply untouched_const].
Qed.

Lemma encode_float_untouched (o : pyobj) (depth : nat) :
  untouched (encode_float h w o depth).
Proof.
  unfold encode_float.
  destruct o; try apply untouched_const.
  - destruct f as [| [] | |]; apply untouched_ret.
  - destruct f as [| [] | |]; try apply untouched_ret;
      (apply untouched_seq; [apply untouched_run | intros r; apply untouched_const]).
Qed.

Lemma PyObject_Str_untouched (o : pyobj) (depth : nat) :
  untouched (PyObject_Str w o depth).
Proof.
  unfold PyObject_Str. destruct depth; [apply untouched_raise|].
  destruct o; try apply untouched_ret;
    (apply untouched_seq; [apply untouched_run | intros r; apply untouched_const]).
Qed.

Lemma encode_number_untouched (o : pyobj) (depth : nat) :
  untouched (encode_number h w o depth).
Proof.
  unfold encode_number. apply untouched_seq; [apply untouched_run|].
  intros [decimal|].
  - apply untouched_seq; [apply untouched_run|].
    intros [integer|]; [|apply encode_float_untouched].
    apply untouched_seq; [apply untouched_run|].
    intros [cmp|]; [|apply encode_float_untouched].
    destruct (cmp =? 0); [apply PyObject_Str_untouched | apply encode_float_untouched].
  - apply untouched_seq; [apply untouched_run|].
    intros [integer|]; [apply PyObject_Str_untouched | apply raise_encoding_error_untouched].
Qed.

Lemma PyObject_IsInstance_untouched (o : pyobj) (type : temporal) (depth : nat) :
  untouched (PyObject_IsInstance w o type depth).
Proof.
  assert (Hslow : untouched (fun st =>
                    let (r, st) := run (instancecheck w o type) depth st in
                    (match r with Some r => r | None => true end, st))).
  { apply untouched_seq; [apply untouched_run | intros r; apply untouched_const]. }
  intros st. unfold PyObject_IsInstance.
  destruct o; try apply Hslow.
  destruct (temporal_eqb kind type); [split; reflexivity | apply Hslow].
Qed.

Lemma encode_datetime_untouched (o : pyobj) (fmt : bytes) (depth : nat) :
  untouched (encode_datetime h w o fmt depth).
Proof.
  unfold encode_datetime. apply untouched_seq; [apply untouched_run|].
  intros [value|]; [|apply raise_encoding_error_untouched].
  destruct value; try apply untouched_const. apply untouched_lift.
Qed.

Lemma PyObject_CallObject_keeps (f o : pyobj) (depth : nat) :
  keeps (PyObject_CallObject w f o depth).
Proof.
  intros st. unfold PyObject_CallObject. destruct f; try reflexivity.
  destruct callable; [|reflexivity]. destruct depth; [reflexivity|].
  pose proof (untouched_run (tp_call w (PyInstance id true) o) depth (log_call o st))
    as [Hk _].
  destruct (run _ depth (log_call o st)) as [r st']. cbn [snd] in Hk.
  destruct r, (curexc st'); exact Hk.
Qed.

Variable rec : pyobj -> enc bytes.
Hypothesis rec_keeps : forall o, keeps (rec o).

Lemma encode_items_keeps (items : list pyobj) : keeps (encode_items rec items).
Proof.
  induction items as [|x xs IH]; cbn [encode_items]; [apply keeps_ret|].
  apply keeps_bind; [apply rec_keeps|]. intros s.
  apply keeps_bind; [exact IH|]. intros ss. apply keeps_ret.
Qed.

Lemma encode_tuple_keeps (items : list pyobj) : keeps (encode_tuple rec items).
Proof.
  unfold encode_tuple. destruct (bool_decide _); [apply keeps_ret|].
  apply keeps_bind; [apply encode_items_keeps|]. intros; apply keeps_ret.
Qed.

Lemma encode_list_loop_keeps (turns : nat) (l : loc) :
  forall i pieces, keeps (encode_list_loop rec turns l i pieces).
Proof.
  induction turns as [|turns IH]; intros i pieces st; cbn [encode_list_loop];
    destruct (list_items st l !! i) as [item|]; try reflexivity.
  pose proof (rec_keeps item st) as Hk.
  destruct (rec item st) as [[s| |why] st']; cbn [snd] in *; try exact Hk.
  rewrite IH. exact Hk.
Qed.

(** The body of [encode_list] and of [encode_dict] between [Py_ReprEnter]
    and [Py_ReprLeave]. *)
Lemma entered_keeps (l : loc) (body : enc bytes) (e : pyerr) :
  keeps body ->
  keeps (fun st =>
           let (i, st) := Py_ReprEnter l st in
           if negb (i =? 0) then (Null, PyErr_SetString e st)
           else let (result, st) := body st in (result, Py_ReprLeave l st)).
Proof.
  intros Hbody st.
  destruct (decide (l ∈ Py_Repr st)) as [Hin | Hout].
  - rewrite Py_ReprEnter_registered by exact Hin. reflexivity.
  - rewrite Py_ReprEnter_fresh by exact Hout. cbn [Z.eqb negb].
    specialize (Hbody (set_Py_Repr (Py_Repr st ++ [l]) st)).
    destruct (body _) as [r st']. cbn [snd Py_Repr set_Py_Repr] in *.
    rewrite (Py_ReprLeave_entered l st st' Hout Hbody). reflexivity.
Qed.

Lemma encode_list_keeps (turns : nat) (l : loc) : keeps (encode_list rec turns l).
Proof.
  apply (entered_keeps l
           (fun st => (if bool_decide (list_items st l = []) then ret (bytes_of "[]")
                       else let* pieces := encode_list_loop rec turns l 0 [] in
                            ret (decorate (bytes_of "[") (bytes_of "]") pieces)) st)).
  intros st. destruct (bool_decide _); [reflexivity|].
  apply keeps_bind; [apply encode_list_loop_keeps | intros; apply keeps_ret].
Qed.

Lemma encode_pair_keeps (key value : pyobj) : keeps (encode_pair rec key value).
Proof.
  intros st. unfold encode_pair.
  pose proof (rec_keeps key st) as Hk. destruct (rec key st) as [s st1].
  pose proof (rec_keeps value st1) as Hv. destruct (rec value st1) as [v st2].
  cbn [snd] in *. destruct s as [s| |?], v as [v| |?]; cbn [snd]; congruence.
Qed.

Lemma encode_dict_loop_keeps (turns : nat) (l : loc) :
  forall i pieces, keeps (encode_dict_loop rec turns l i pieces).
Proof.
  induction turns as [|turns IH]; intros i pieces st; cbn [encode_dict_loop];
    destruct (PyDict_Next (dict_table st l) i) as [[i' [key value]]|]; try reflexivity.
  destruct (negb (is_string_key key)); [reflexivity|].
  pose proof (encode_pair_keeps key value st) as Hk.
  destruct (encode_pair rec key value st) as [[s| |why] st']; cbn [snd] in *; try exact Hk.
  rewrite IH. exact Hk.
Qed.

Lemma encode_dict_keeps (turns : nat) (l : loc) : keeps (encode_dict rec turns l).
Proof.
  apply (entered_keeps l
           (fun st => (if bool_decide (table_entries (dict_table st l) = [])
                       then ret (bytes_of "{}")
                       else let* pieces := encode_dict_loop rec turns l 0 [] in
                            ret (decorate (bytes_of "{") (bytes_of "}") pieces)) st)).
  intros st. destruct (bool_decide _); [reflexivity|].
  apply keeps_bind; [apply encode_dict_loop_keeps | intros; apply keeps_ret].
Qed.

End Frame.

(** Every call of [encode_object] returns with [Py_Repr] as it was, whatever
    it returns and whatever the code it calls does. *)
Lemma encode_object_keeps (h : host) (w : interp) (params : EncodingParams)
  (turns depth : nat) (o : pyobj) :
  keeps (encode_object h w params turns depth o).
Proof.
  revert o.
  assert (Hscalar : forall depth o,
            match o with
            | PyRef _ | PyTuple _ | PyTemporal _ _ _ | PyInstance _ _ => True
            | _ => keeps (encode_object h w params turns depth o)
            end).
  { intros d o. destruct o; try exact I; destruct d; cbn [encode_object];
      try apply keeps_ret; try apply keeps_lift; try apply untouched_keeps, encode_float_untouched;
      try apply untouched_keeps, PyObject_Str_untouched; try apply untouched_keeps, encode_number_untouched;
      destruct b; apply keeps_ret. }
  assert (Hother : forall depth o,
            (forall f depth' st, depth = S depth' ->
               Py_Repr (snd (let (resolve, st) := PyObject_CallObject w f o depth' st in
                             match curexc st with
                             | Some _ => (Null, st)
                             | None =>
                                 match resolve with
                                 | Some resolve =>
                                     encode_object h w params turns depth' resolve st
                                 | None => (Stuck undefined, st)
                                 end
                             end)) = Py_Repr st) ->
            match o with
            | PyTemporal _ _ _ | PyInstance _ _ =>
                keeps (encode_object h w params turns depth o)
            | _ => True
            end).
  { intros d o Hcall.
    assert (Hk : keeps (fun st =>
      let (is_datetime, st) := PyObject_IsInstance w o TDateTime d st in
      if is_datetime then encode_datetime h w o (fmt_datetime params) d st
      else
        let (is_date, st) := PyObject_IsInstance w o TDate d st in
        if is_date then encode_datetime h w o (fmt_date params) d st
        else
          let (is_time, st) := PyObject_IsInstance w o TTime d st in
          if is_time then encode_datetime h w o (fmt_time params) d st
          else
            match fallback params with
            | Some f =>
                match d with
                | O => raise (recursion_error " while encoding a non-primitive Python object")
                         st
                | S depth' =>
                    let (resolve, st) := PyObject_CallObject w f o depth' st in
                    match curexc st with
                    | Some _ => (Null, st)
                    | None =>
                        match resolve with
                        | Some resolve => encode_object h w params turns depth' resolve st
                        | None => (Stuck undefined, st)
                        end
                    end
                end
            | None => raise_encoding_error w o d st
            end)).
    { apply keeps_seq; [apply untouched_keeps, PyObject_IsInstance_untouched|].
      intros [|]; [apply untouched_keeps, encode_datetime_untouched|].
      apply keeps_seq; [apply untouched_keeps, PyObject_IsInstance_untouched|].
      intros [|]; [apply untouched_keeps, encode_datetime_untouched|].
      apply keeps_seq; [apply untouched_keeps, PyObject_IsInstance_untouched|].
      intros [|]; [apply untouched_keeps, encode_datetime_untouched|].
      destruct (fallback params) as [f|]; [|apply untouched_keeps, raise_encoding_error_untouched].
      destruct d as [|depth']; [apply keeps_raise|].
      intros st. apply Hcall. reflexivity. }
    destruct o; try exact I; destruct d; exact Hk. }
  induction depth as [|depth IH]; intros o.
  - pose proof (Hscalar 0%nat o) as Hs. pose proof (Hother 0%nat o) as Ho.
    destruct o; try exact Hs; try (apply Ho; intros; discriminate).
    + intros st. cbn [encode_object]. destruct (objects st !! l) as [[]|]; reflexivity.
    + apply keeps_raise.
  - pose proof (Hscalar (S depth) o) as Hs. pose proof (Hother (S depth) o) as Ho.
    destruct o; try exact Hs.
    + intros st. cbn [encode_object]. destruct (objects st !! l) as [[]|]; [| |reflexivity].
      * apply encode_list_keeps, IH.
      * apply encode_dict_keeps, IH.
    + apply encode_tuple_keeps, IH.
    + apply Ho. intros f depth' st [= <-].
      pose proof (PyObject_CallObject_keeps w f (PyTemporal kind id truth) depth st) as Hk.
      destruct (PyObject_CallObject w f _ depth st) as [resolve st']. cbn [snd] in Hk.
      destruct (curexc st'); [exact Hk|]. destruct resolve; [|exact Hk].
      rewrite IH. exact Hk.
    + apply Ho. intros f depth' st [= <-].
      pose proof (PyObject_CallObject_keeps w f (PyInstance id callable) depth st) as Hk.
      destruct (PyObject_CallObject w f _ depth st) as [resolve st']. cbn [snd] in Hk.
      destruct (curexc st'); [exact Hk|]. destruct resolve; [|exact Hk].
      rewrite IH. exact Hk.
Qed.

(** A list that is not being encoded yet: its items are encoded with the
    list registered, and the registration is dropped afterwards. *)
Lemma encode_object_list (h : host) (w : interp) (params : EncodingParams)
  (turns depth : nat) (l : loc) (items : list pyobj) (st : enc_state) :
  objects st !! l = Some (ob_list items) -> l ∉ Py_Repr st -> items <> [] ->
  encode_object h w params turns (S depth) (PyRef l) st =
  match encode_list_loop (encode_object h w params turns depth) turns l 0 []
          (set_Py_Repr (Py_Repr st ++ [l]) st) with
  | (Value pieces, st') =>
      (Value (decorate (bytes_of "[") (bytes_of "]") pieces), set_Py_Repr (Py_Repr st) st')
  | (Null, st') => (Null, set_Py_Repr (Py_Repr st) st')
  | (Stuck why, st') => (Stuck why, set_Py_Repr (Py_Repr st) st')
  end.
Proof.
  intros Hl Hout Hne. cbn [encode_object]. rewrite Hl.
  unfold encode_list. rewrite Py_ReprEnter_fresh by exact Hout. cbn [Z.eqb negb].
  assert (Hitems : list_items (set_Py_Repr (Py_Repr st ++ [l]) st) l = items)
    by (unfold list_items; cbn [objects set_Py_Repr]; rewrite Hl; reflexivity).
  rewrite Hitems, bool_decide_eq_false_2 by exact Hne. unfold bind, ret.
  pose proof (encode_list_loop_keeps _ (encode_object_keeps h w params turns depth)
                turns l 0%nat [] (set_Py_Repr (Py_Repr st ++ [l]) st)) as Hk.
  destruct (encode_list_loop _ turns l 0 [] _) as [[pieces| |why] st'];
    cbn [snd Py_Repr set_Py_Repr] in Hk;
    rewrite (Py_ReprLeave_entered l st st' Hout Hk); reflexivity.
Qed.

Lemma encode_object_dict (h : host) (w : interp) (params : EncodingParams)
  (turns depth : nat) (l : loc) (ma_table : list (option (pyobj * pyobj)))
  (st : enc_state) :
  objects st !! l = Some (ob_dict ma_table) -> l ∉ Py_Repr st ->
  table_entries ma_table <> [] ->
  encode_object h w params turns (S depth) (PyRef l) st =
  match encode_dict_loop (encode_object h w params turns depth) turns l 0 []
          (set_Py_Repr (Py_Repr st ++ [l]) st) with
  | (Value pieces, st') =>
      (Value (decorate (bytes_of "{") (bytes_of "}") pieces), set_Py_Repr (Py_Repr st) st')
  | (Null, st') => (Null, set_Py_Repr (Py_Repr st) st')
  | (Stuck why, st') => (Stuck why, set_Py_Repr (Py_Repr st) st')
  end.
Proof.
  intros Hl Hout Hne. cbn [encode_object]. rewrite Hl.
  unfold encode_dict. rewrite Py_ReprEnter_fresh by exact Hout. cbn [Z.eqb negb].
  assert (Htable : dict_table (set_Py_Repr (Py_Repr st ++ [l]) st) l = ma_table)
    by (unfold dict_table; cbn [objects set_Py_Repr]; rewrite Hl; reflexivity).
  rewrite Htable, bool_decide_eq_false_2 by exact Hne. unfold bind, ret.
  pose proof (encode_dict_loop_keeps _ (encode_object_keeps h w params turns depth)
                turns l 0%nat [] (set_Py_Repr (Py_Repr st ++ [l]) st)) as Hk.
  destruct (encode_dict_loop _ turns l 0 [] _) as [[pieces| |why] st'];
    cbn [snd Py_Repr set_Py_Repr] in Hk;
    rewrite (Py_ReprLeave_entered l st st' Hout Hk); reflexivity.
Qed.

Lemma set_Py_Repr_same (st : enc_state) : set_Py_Repr (Py_Repr st) st = st.
Proof. destruct st; reflexivity. Qed.

(** An empty list that is not being encoded yet. *)
Lemma encode_object_empty_list (h : host) (w : interp) (params : EncodingParams)
  (turns depth : nat) (l : loc) (st : enc_state) :
  objects st !! l = Some (ob_list []) -> l ∉ Py_Repr st ->
  encode_object h w params turns (S depth) (PyRef l) st = (Value (bytes_of "[]"), st).
Proof.
  intros Hl Hout. cbn [encode_object]. rewrite Hl.
  unfold encode_list. rewrite Py_ReprEnter_fresh by exact Hout. cbn [Z.eqb negb].
  assert (Hitems : list_items (set_Py_Repr (Py_Repr st ++ [l]) st) l = [])
    by (unfold list_items; cbn [objects set_Py_Repr]; rewrite Hl; reflexivity).
  rewrite Hitems, bool_decide_eq_true_2 by reflexivity. unfold ret.
  rewrite (Py_ReprLeave_entered l st (set_Py_Repr (Py_Repr st ++ [l]) st) Hout eq_refl).
  destruct st; reflexivity.
Qed.

Lemma encode_object_empty_dict (h : host) (w : interp) (params : EncodingParams)
  (turns depth : nat) (l : loc) (ma_table : list (option (pyobj * pyobj)))
  (st : enc_state) :
  objects st !! l = Some (ob_dict ma_table) -> table_entries ma_table = [] ->
  l ∉ Py_Repr st ->
  encode_object h w params turns (S depth) (PyRef l) st = (Value (bytes_of "{}"), st).
Proof.
  intros Hl Hempty Hout. cbn [encode_object]. rewrite Hl.
  unfold encode_dict. rewrite Py_ReprEnter_fresh by exact Hout. cbn [Z.eqb negb].
  assert (Htable : dict_table (set_Py_Repr (Py_Repr st ++ [l]) st) l = ma_table)
    by (unfold dict_table; cbn [objects set_Py_Repr]; rewrite Hl; reflexivity).
  rewrite Htable, bool_decide_eq_true_2 by exact Hempty. unfold ret.
  rewrite (Py_ReprLeave_entered l st (set_Py_Repr (Py_Repr st ++ [l]) st) Hout eq_refl).
  destruct st; reflexivity.
Qed.

(** C4.  (1) Whatever [encode_object] returns, value or NULL, and whatever
    the code it calls does to the heap, [Py_Repr] is back to what it was
    before the call.  (2, 3) A list or dict whose identity is already in
    [Py_Repr] is refused with EncodeError and nothing else is done.  (4, 5) A
    list or dict that is not yet in [Py_Repr] has its children encoded with
    its identity registered, and the registration is dropped afterwards on
    every outcome.  (6, 7) Hence a list that contains itself, or a dict that
    has itself as a value, is refused with EncodeError as soon as the
    recursion guard lets the inner call through, and the state after the
    failed call is the state before it with the exception set; (8) so a later
    call on the same list, once it has been emptied and the exception
    handled, returns "[]", with nothing left registered. *)
Theorem encode_cycle_detection (h : host) (w : interp) (params : EncodingParams)
  (turns : nat) :
  (forall depth o st,
     Py_Repr (snd (encode_object h w params turns depth o st)) = Py_Repr st)
  /\ (forall depth l items st,
        objects st !! l = Some (ob_list items) -> l ∈ Py_Repr st ->
        encode_object h w params turns (S depth) (PyRef l) st
        = (Null, PyErr_SetString list_cycle_error st))
  /\ (forall depth l ma_table st,
        objects st !! l = Some (ob_dict ma_table) -> l ∈ Py_Repr st ->
        encode_object h w params turns (S depth) (PyRef l) st
        = (Null, PyErr_SetString dict_cycle_error st))
  /\ (forall depth l items st,
        objects st !! l = Some (ob_list items) -> l ∉ Py_Repr st -> items <> [] ->
        encode_object h w params turns (S depth) (PyRef l) st =
        match encode_list_loop (encode_object h w params turns depth) turns l 0 []
                (set_Py_Repr (Py_Repr st ++ [l]) st) with
        | (Value pieces, st') =>
            (Value (decorate (bytes_of "[") (bytes_of "]") pieces),
             set_Py_Repr (Py_Repr st) st')
        | (Null, st') => (Null, set_Py_Repr (Py_Repr st) st')
        | (Stuck why, st') => (Stuck why, set_Py_Repr (Py_Repr st) st')
        end)
  /\ (forall depth l ma_table st,
        objects st !! l = Some (ob_dict ma_table) -> l ∉ Py_Repr st ->
        table_entries ma_table <> [] ->
        encode_object h w params turns (S depth) (PyRef l) st =
        match encode_dict_loop (encode_object h w params turns depth) turns l 0 []
                (set_Py_Repr (Py_Repr st ++ [l]) st) with
        | (Value pieces, st') =>
            (Value (decorate (bytes_of "{") (bytes_of "}") pieces),
             set_Py_Repr (Py_Repr st) st')
        | (Null, st') => (Null, set_Py_Repr (Py_Repr st) st')
        | (Stuck why, st') => (Stuck why, set_Py_Repr (Py_Repr st) st')
        end)
  /\ (forall depth l rest st,
        objects st !! l = Some (ob_list (PyRef l :: rest)) -> l ∉ Py_Repr st ->
        (0 < turns)%nat ->
        encode_object h w params turns (S (S depth)) (PyRef l) st
        = (Null, PyErr_SetString list_cycle_error st))
  /\ (forall depth l key rest st,
        objects st !! l = Some (ob_dict (Some (key, PyRef l) :: rest)) ->
        is_string_key key = true -> l ∉ Py_Repr st -> (0 < turns)%nat ->
        encode_object h w params turns (S (S depth)) (PyRef l) st
        = (Null, PyErr_SetString dict_cycle_error st))
  /\ (forall depth depth' l rest st,
        objects st !! l = Some (ob_list (PyRef l :: rest)) -> l ∉ Py_Repr st ->
        (0 < turns)%nat ->
        let failed := snd (encode_object h w params turns (S (S depth)) (PyRef l) st) in
        let later := PyErr_Clear (set_objects (<[l := ob_list []]> (objects failed)) failed) in
        encode_object h w params turns (S depth') (PyRef l) later
        = (Value (bytes_of "[]"), later)
        /\ Py_Repr later = Py_Repr st).
Proof.
  assert (Hkeep := encode_object_keeps h w params turns).
  assert (Hreg_list : forall depth l items st,
        objects st !! l = Some (ob_list items) -> l ∈ Py_Repr st ->
        encode_object h w params turns (S depth) (PyRef l) st
        = (Null, PyErr_SetString list_cycle_error st)).
  { intros depth l items st Hl Hin. cbn [encode_object]. rewrite Hl.
    unfold encode_list. rewrite Py_ReprEnter_registered by exact Hin. reflexivity. }
  assert (Hreg_dict : forall depth l ma_table st,
        objects st !! l = Some (ob_dict ma_table) -> l ∈ Py_Repr st ->
        encode_object h w params turns (S depth) (PyRef l) st
        = (Null, PyErr_SetString dict_cycle_error st)).
  { intros depth l ma_table st Hl Hin. cbn [encode_object]. rewrite Hl.
    unfold encode_dict. rewrite Py_ReprEnter_registered by exact Hin. reflexivity. }
  assert (Hself_list : forall depth l rest st,
        objects st !! l = Some (ob_list (PyRef l :: rest)) -> l ∉ Py_Repr st ->
        (0 < turns)%nat ->
        encode_object h w params turns (S (S depth)) (PyRef l) st
        = (Null, PyErr_SetString list_cycle_error st)).
  { intros depth l rest st Hl Hout Hturns.
    rewrite (encode_object_list h w params turns (S depth) l _ st Hl Hout) by discriminate.
    destruct turns as [|turns']; [lia|]. cbn [encode_list_loop].
    unfold list_items at 1. cbn [objects set_Py_Repr]. rewrite Hl.
    change ((PyRef l :: rest) !! 0%nat) with (Some (PyRef l)). cbv iota.
    rewrite (Hreg_list depth l (PyRef l :: rest))
      by (cbn [objects Py_Repr set_Py_Repr];
          first [exact Hl | apply elem_of_app; right; constructor]).
    destruct st; reflexivity. }
  split_and!.
  - intros depth o st. apply Hkeep.
  - exact Hreg_list.
  - exact Hreg_dict.
  - intros depth l items st Hl Hout Hne.
    apply (encode_object_list h w params turns depth l items st); assumption.
  - intros depth l ma_table st Hl Hout Hne.
    apply (encode_object_dict h w params turns depth l ma_table st); assumption.
  - exact Hself_list.
  - intros depth l key rest st Hl Hkey Hout Hturns.
    rewrite (encode_object_dict h w params turns (S depth) l _ st Hl Hout) by discriminate.
    destruct turns as [|turns']; [lia|]. cbn [encode_dict_loop].
    unfold dict_table at 1. cbn [objects set_Py_Repr]. rewrite Hl.
    change (PyDict_Next (Some (key, PyRef l) :: rest) 0) with (Some (1%nat, (key, PyRef l))).
    cbv iota. rewrite Hkey. cbn [negb]. unfold encode_pair.
    set (st1 := set_Py_Repr (Py_Repr st ++ [l]) st).
    assert (Hks : exists r e,
               encode_object h w params (S turns') (S depth) key st1
               = (r, match e with Some e => PyErr_SetString e st1 | None => st1 end)
               /\ forall why, r <> Stuck why).
    { destruct key; try discriminate Hkey; cbn [encode_object]; unfold lift.
      - destruct (encode_string h s); [exists (Value a), None | exists Null, (Some e)];
          (split; [reflexivity | discriminate]).
      - destruct (encode_unicode h u); [exists (Value a), None | exists Null, (Some e)];
          (split; [reflexivity | discriminate]). }
    destruct Hks as (r & e & Hks & Hr). rewrite Hks.
    assert (Hval : forall st2, objects st2 = objects st1 -> Py_Repr st2 = Py_Repr st1 ->
               encode_object h w params (S turns') (S depth) (PyRef l) st2
               = (Null, PyErr_SetString dict_cycle_error st2)).
    { intros st2 Ho Hp. apply (Hreg_dict depth l (Some (key, PyRef l) :: rest)).
      - rewrite Ho. exact Hl.
      - rewrite Hp. cbn [Py_Repr st1 set_Py_Repr]. apply elem_of_app; right; constructor. }
    destruct r as [s| |why]; [| |exfalso; exact (Hr why eq_refl)];
      (rewrite Hval by (destruct e; reflexivity));
      destruct e, st; reflexivity.
  - intros depth depth' l rest st Hl Hout Hturns. cbv zeta.
    rewrite (Hself_list depth l rest st Hl Hout Hturns). cbn [snd].
    split; [|reflexivity].
    apply encode_object_empty_list.
    + cbn [objects PyErr_Clear set_objects]. apply lookup_insert_eq.
    + exact Hout.
Qed.

(** The list [v = [v]] at address 0. *)
Definition self_list : enc_state := state_of {[ 0%nat := ob_list [PyRef 0] ]}.

Definition params0 : EncodingParams :=
  mkParams None (bytes_of "%Y-%m-%d %H:%M:%S") DEFAULT_DATE_FORMAT DEFAULT_TIME_FORMAT.

Lemma encode_cycle_detection_witness :
  objects self_list !! 0%nat = Some (ob_list [PyRef 0]) /\
  (0%nat ∉ Py_Repr self_list) /\
  (0 < 10)%nat /\
  encode_object host0 interp0 params0 10 2 (PyRef 0) self_list
  = (Null, PyErr_SetString list_cycle_error self_list) /\
  let failed := snd (encode_object host0 interp0 params0 10 2 (PyRef 0) self_list) in
  let later := PyErr_Clear (set_objects (<[0%nat := ob_list []]> (objects failed)) failed) in
  encode_object host0 interp0 params0 10 1 (PyRef 0) later = (Value (bytes_of "[]"), later)
  /\ Py_Repr later = Py_Repr self_list.
Proof.
  assert (H1 : objects self_list !! 0%nat = Some (ob_list [PyRef 0]))
    by apply lookup_singleton_eq.
  assert (H2 : 0%nat ∉ Py_Repr self_list) by apply not_elem_of_nil.
  assert (H3 : (0 < 10)%nat) by lia.
  destruct (encode_cycle_detection host0 interp0 params0 10)
    as (_ & _ & _ & _ & _ & Hself & _ & Hlater).
  exact (conj H1 (conj H2 (conj H3 (conj (Hself 0%nat 0%nat [] self_list H1 H2 H3)
           (Hlater 0%nat 0%nat 0%nat [] self_list H1 H2 H3))))).
Defined.

Example Encode_self_list :
  JSON_encode host0 interp0 100 100 (PyRef 0) None None None None self_list
  = (Null, PyErr_SetString list_cycle_error self_list).
Proof. vm_compute. reflexivity. Qed.

(** ** The fallback *)

Lemma PyObject_IsInstance_calls (w : interp) (o : pyobj) (type : temporal) (depth : nat)
  (st : enc_state) :
  calls (snd (PyObject_IsInstance w o type depth st)) = calls st.
Proof. apply PyObject_IsInstance_untouched. Qed.

(** A call of the callable that returns an object has been made, and is in
    the log. *)
Lemma PyObject_CallObject_calls (w : interp) (f o : pyobj) (depth : nat)
  (st st' : enc_state) (r : pyobj) :
  PyObject_CallObject w f o depth st = (Some r, st') ->
  calls st' = calls st ++ [o].
Proof.
  unfold PyObject_CallObject. destruct f; try discriminate.
  destruct callable; [|discriminate]. destruct depth; [discriminate|].
  pose proof (untouched_run (tp_call w (PyInstance id true) o) depth (log_call o st))
    as [_ H].
  destruct (run _ depth (log_call o st)) as [r' st1]. cbn [snd] in H.
  destruct r' as [r'|]; [|destruct (curexc st1); discriminate].
  destruct (curexc st1); intros [= <- <-]; exact H.
Qed.

(** [opaque o]: [o] is of none of the types that [encode_object] tests
    before it comes to the dates and times. *)
Definition opaque (o : pyobj) : bool :=
  match o with
  | PyTemporal _ _ _ | PyInstance _ _ => true
  | _ => false
  end.

(** The three [isinstance] tests of [encode_object] on [o] answer no, and
    lead from the state [st] to [st']. *)
Definition declined (w : interp) (o : pyobj) (depth : nat) (st st' : enc_state) : Prop :=
  exists st1 st2,
    PyObject_IsInstance w o TDateTime depth st = (false, st1) /\
    PyObject_IsInstance w o TDate depth st1 = (false, st2) /\
    PyObject_IsInstance w o TTime depth st2 = (false, st').

(** [resolves w f depth o st os depth' r st']: from the state [st] and with
    [depth] recursive calls left, [encode_object] finds [o] to be of no type
    it knows and calls [f] on it, then does the same with the object that
    [f] returns, and so on along the objects [os], until [f] returns [r]; the
    state is then [st'], with [depth'] recursive calls left. *)
Inductive resolves (w : interp) (f : pyobj)
  : nat -> pyobj -> enc_state -> list pyobj -> nat -> pyobj -> enc_state -> Prop :=
| resolves_done (depth : nat) (r : pyobj) (st : enc_state) :
    resolves w f depth r st [] depth r st
| resolves_call (depth : nat) (o o' : pyobj) (st st1 st2 : enc_state) (os : list pyobj)
    (depth' : nat) (r : pyobj) (st' : enc_state) :
    opaque o = true ->
    declined w o (S depth) st st1 ->
    PyObject_CallObject w f o depth st1 = (Some o', st2) ->
    curexc st2 = None ->
    resolves w f depth o' st2 os depth' r st' ->
    resolves w f (S depth) o st (o :: os) depth' r st'.

(** One step: encoding an object of no known type is encoding what the
    callable returns for it. *)
Lemma encode_object_resolve (h : host) (w : interp) (params : EncodingParams)
  (turns depth : nat) (f o o' : pyobj) (st st1 st2 : enc_state) :
  fallback params = Some f ->
  opaque o = true ->
  declined w o (S depth) st st1 ->
  PyObject_CallObject w f o depth st1 = (Some o', st2) ->
  curexc st2 = None ->
  encode_object h w params turns (S depth) o st
  = encode_object h w params turns depth o' st2.
Proof.
  intros Hf Ho (sa & sb & H1 & H2 & H3) Hcall Hexc.
  destruct o; try discriminate Ho; cbn [encode_object];
    rewrite H1, H2, H3, Hf, Hcall, Hexc; reflexivity.
Qed.

(** C6, as the code has it.  The object returned by the [default] callable
    goes through [encode_object] again with the same parameters, the callable
    included: when it is again of no type the encoder knows, the callable is
    called on it, and so on along the chain [os], once per object and in
    order, until an object [r] of another kind is returned, which is then
    encoded.  No EncodeError is raised for an object that the callable
    returns and that is again of no known type. *)
Theorem encode_object_fallback_chain (h : host) (w : interp) (params : EncodingParams)
  (turns : nat) (f o r : pyobj) (os : list pyobj) (depth depth' : nat)
  (st st' : enc_state) :
  fallback params = Some f ->
  resolves w f depth o st os depth' r st' ->
  encode_object h w params turns depth o st = encode_object h w params turns depth' r st'
  /\ calls st' = calls st ++ os
  /\ depth = (length os + depth')%nat
  /\ Forall (fun x => opaque x = true) os.
Proof.
  intros Hf Hres.
  induction Hres as [depth r st
                    | depth o o' st st1 st2 os depth' r st' Ho Hdecl Hcall Hexc Hres IH].
  - rewrite app_nil_r. repeat split. constructor.
  - destruct IH as (IHenc & IHcalls & IHdepth & IHall).
    rewrite (encode_object_resolve h w params turns depth f o o' st st1 st2
               Hf Ho Hdecl Hcall Hexc).
    split; [exact IHenc|]. split; [|split].
    + rewrite IHcalls, (PyObject_CallObject_calls w f o depth st1 st2 o' Hcall).
      destruct Hdecl as (sa & sb & H1 & H2 & H3).
      pose proof (PyObject_IsInstance_calls w o TDateTime (S depth) st) as Hc1.
      pose proof (PyObject_IsInstance_calls w o TDate (S depth) sa) as Hc2.
      pose proof (PyObject_IsInstance_calls w o TTime (S depth) sb) as Hc3.
      rewrite H1 in Hc1. rewrite H2 in Hc2. rewrite H3 in Hc3.
      cbn [snd] in Hc1, Hc2, Hc3.
      rewrite Hc3, Hc2, Hc1, <- app_assoc. reflexivity.
    + cbn [length]. lia.
    + constructor; assumption.
Qed.

(** A callable that maps the instance 10 to the instance 11 and the instance
    11 to a string; it runs when the recursion guard allows it a frame. *)
Definition chain_call (f arg : pyobj) : pycode pyobj :=
  fun depth st =>
    match depth, arg with
    | O, _ => (None, PyErr_SetString (recursion_error "") st)
    | _, PyInstance 10 _ => (Some (PyInstance 11 false), st)
    | _, PyInstance 11 _ => (Some (PyString (bytes_of "x")), st)
    | _, _ => (None, PyErr_SetString (PyExc_TypeError "unexpected argument") st)
    end.

Definition chain_interp : interp := with_call chain_call interp0.

Definition chain_params : EncodingParams :=
  mkParams (Some (PyInstance 1 true)) [] [] [].

Definition chain_end : enc_state :=
  mkState ∅ None [] [PyInstance 10 false; PyInstance 11 false].

Lemma chain_resolves :
  resolves chain_interp (PyInstance 1 true) 100 (PyInstance 10 false) st0
    [PyInstance 10 false; PyInstance 11 false] 98 (PyString (bytes_of "x")) chain_end.
Proof.
  eapply (resolves_call _ _ 99 _ (PyInstance 11 false) st0 st0
            (mkState ∅ None [] [PyInstance 10 false]));
    [reflexivity | exists st0, st0; repeat split | reflexivity | reflexivity |].
  eapply (resolves_call _ _ 98 _ (PyString (bytes_of "x")) _ _ chain_end);
    [reflexivity | eexists _, _; repeat split | reflexivity | reflexivity |].
  apply resolves_done.
Qed.

Lemma encode_object_fallback_chain_witness :
  fallback chain_params = Some (PyInstance 1 true) /\
  resolves chain_interp (PyInstance 1 true) 100 (PyInstance 10 false) st0
    [PyInstance 10 false; PyInstance 11 false] 98 (PyString (bytes_of "x")) chain_end /\
  encode_object host0 chain_interp chain_params 100 100 (PyInstance 10 false) st0
  = encode_object host0 chain_interp chain_params 100 98 (PyString (bytes_of "x")) chain_end /\
  calls chain_end = calls st0 ++ [PyInstance 10 false; PyInstance 11 false] /\
  100%nat = (length [PyInstance 10 false; PyInstance 11 false] + 98)%nat /\
  Forall (fun x => opaque x = true) [PyInstance 10 false; PyInstance 11 false].
Proof.
  split; [reflexivity|]. split; [exact chain_resolves|].
  exact (encode_object_fallback_chain host0 chain_interp chain_params 100
           (PyInstance 1 true) _ _ _ _ _ _ _ eq_refl chain_resolves).
Defined.

(** The claim C6 as stated fails: the callable returns the instance 11, which
    is again of no encodable type; it is passed to the callable as well, and
    the call succeeds instead of raising EncodeError. *)
Lemma fallback_called_on_its_result :
  JSON_encode host0 chain_interp 100 100 (PyInstance 10 false)
    (Some (PyInstance 1 true)) None None None st0
  = (Value (DQUOTE :: bytes_of "x" ++ [DQUOTE]), chain_end) /\
  calls chain_end = [PyInstance 10 false; PyInstance 11 false] /\
  raised (JSON_encode host0 chain_interp 100 100 (PyInstance 10 false)
            (Some (PyInstance 1 true)) None None None st0) = None.
Proof. vm_compute. auto. Qed.

(** ** Tuples and lists *)

Lemma PyString_Join_cons (sep p : bytes) (ps : list bytes) :
  ps <> [] -> PyString_Join sep (p :: ps) = p ++ sep ++ PyString_Join sep ps.
Proof. destruct ps; [congruence | reflexivity]. Qed.

Lemma PyString_Join_prefix (sep o p : bytes) (ps : list bytes) :
  PyString_Join sep ((o ++ p) :: ps) = o ++ PyString_Join sep (p :: ps).
Proof. destruct ps; [reflexivity|]. cbn [PyString_Join]. rewrite <- app_assoc. reflexivity. Qed.

Lemma PyString_Join_suffix (sep c : bytes) (ps : list bytes) :
  ps <> [] ->
  PyString_Join sep (alter (fun p => p ++ c) (length ps - 1)%nat ps)
  = PyString_Join sep ps ++ c.
Proof.
  induction ps as [|p ps IH]; [congruence|]. intros _.
  destruct ps as [|p' ps]; [reflexivity|].
  replace (length (p :: p' :: ps) - 1)%nat with (S (length (p' :: ps) - 1))
    by (cbn [length]; lia).
  change (alter (fun p => p ++ c) (S (length (p' :: ps) - 1)) (p :: p' :: ps))
    with (p :: alter (fun p => p ++ c) (length (p' :: ps) - 1)%nat (p' :: ps)).
  rewrite PyString_Join_cons.
  - rewrite IH by discriminate. rewrite (PyString_Join_cons sep p) by discriminate.
    rewrite <- !app_assoc. reflexivity.
  - destruct (length (p' :: ps) - 1)%nat; discriminate.
Qed.

(** The text of a non-empty sequence: the pieces joined with ", " inside the
    two brackets. *)
Lemma decorate_join (open_ close : bytes) (pieces : list bytes) :
  pieces <> [] ->
  decorate open_ close pieces
  = open_ ++ PyString_Join (bytes_of ", ") pieces ++ close.
Proof.
  intros Hne. unfold decorate. destruct pieces as [|p ps]; [congruence|].
  change (alter (fun p => open_ ++ p) 0%nat (p :: ps)) with ((open_ ++ p) :: ps).
  rewrite PyString_Join_suffix by discriminate.
  rewrite PyString_Join_prefix, <- app_assoc. reflexivity.
Qed.






Section TupleAndList.

Variable enc : pyobj -> enc bytes.
Hypothesis enc_keeps : forall o, keeps (enc o).





Variable l : loc.

(** The elements concerned. *)
Variable P : pyobj -> Prop.

(** Encoding an element leaves the list at [l] as it is. *)
Hypothesis enc_unchanged :
  forall x st, P x -> list_items (snd (enc x st)) l = list_items st l.



(** Encoding an element does not depend on the list at [l] being
    registered. *)
Hypothesis enc_insensitive :
  forall x st, P x -> l ∉ Py_Repr st ->
    enc x (set_Py_Repr (Py_Repr st ++ [l]) st)
    = (fst (enc x st), set_Py_Repr (Py_Repr st ++ [l]) (snd (enc x st))).


End TupleAndList.


Definition pair_list : enc_state := state_of {[ 0%nat := ob_list [PyInt 1; PyNone] ]}.




Example Encode_list_of_two :
  JSON_encode host0 interp0 10 10 (PyRef 0) None None None None pair_list
  = (Value (bytes_of "[1, null]"), pair_list).
Proof. vm_compute. reflexivity. Qed.






(** * Round trip *)

(** ** The text of a byte string

    [encode_string] returns the whole text it has written when the length of
    the text fits an [int]. *)

Lemma encode_string_char_length (c : ascii) : (length (encode_string_char c) <= 6)%nat.
Proof. destruct c as [[] [] [] [] [] [] [] []]; vm_compute; lia. Qed.

Lemma concat_length_bound {A B} (f : A -> list B) (n : nat) (l : list A) :
  (forall x, (length (f x) <= n)%nat) ->
  (length (concat (map f l)) <= n * length l)%nat.
Proof.
  intros Hf. induction l as [|x l IH]; cbn [map concat length]; [lia|].
  rewrite length_app. specialize (Hf x). lia.
Qed.

Lemma int_cast_small (n : Z) : 0 <= n <= INT_MAX -> int_cast n = n.
Proof.
  unfold int_cast, INT_MAX. intros H.
  rewrite Z.mod_small by lia. lia.
Qed.

(** The sizes of a byte string that [encode_string] accepts and writes in
    full: the guard of the function holds, and the text fits an [int]. *)
Definition string_fits (h : host) (s : bytes) : Prop :=
  Z.of_nat (length s) <= (PY_SSIZE_T_MAX h - 2) / 6 /\
  2 + 6 * Z.of_nat (length s) <= INT_MAX.

Lemma encode_string_whole (h : host) (s : bytes) :
  string_fits h s ->
  encode_string h s = Ok (DQUOTE :: concat (map encode_string_char s) ++ [DQUOTE]).
Proof.
  intros [Hguard Hint]. unfold encode_string.
  destruct (_ <? _) eqn:E; [apply Z.ltb_lt in E; lia|]. cbv zeta.
  set (v := DQUOTE :: concat (map encode_string_char s) ++ [DQUOTE]).
  assert (Hlen : (length v <= 2 + 6 * length s)%nat).
  { unfold v. cbn [length]. rewrite length_app. cbn [length].
    pose proof (concat_length_bound encode_string_char 6 s encode_string_char_length). lia. }
  rewrite int_cast_small by lia. unfold _PyString_Resize.
  destruct (_ <? 0) eqn:E0; [apply Z.ltb_lt in E0; lia|].
  rewrite Nat2Z.id, firstn_all. reflexivity.
Qed.

(** ** Escaped text

    The text both string encoders write between the quotes is a sequence of
    three kinds of items: a plain byte, a backslash and an escape letter, and
    a backslash-u escape of four hex digits. *)

Inductive etoken : Type :=
| Plain (c : ascii)
| Simple (e : ascii)
| UEsc (x3 x2 x1 x0 : ascii).

Definition render (t : etoken) : bytes :=
  match t with
  | Plain c => [c]
  | Simple e => [BACKSLASH; e]
  | UEsc x3 x2 x1 x0 => [BACKSLASH; "u"%char; x3; x2; x1; x0]
  end.

Definition plain_ok (c : ascii) : bool :=
  negb (is_char c NUL) && negb (is_char c BACKSLASH) && negb (is_char c DQUOTE)
  && isascii c.

Definition is_hex (c : ascii) : bool :=
  match hex_val c with Some _ => true | None => false end.

Definition tok_ok (t : etoken) : bool :=
  match t with
  | Plain c => plain_ok c
  | Simple e => is_simple_escape e
  | UEsc x3 x2 x1 x0 => is_hex x3 && is_hex x2 && is_hex x1 && is_hex x0
  end.

Definition is_uesc (t : etoken) : bool :=
  match t with UEsc _ _ _ _ => true | _ => false end.

Definition is_simple (t : etoken) : bool :=
  match t with Simple _ => true | _ => false end.

(** The byte a plain or simple item stands for. *)
Definition tok_byte (t : etoken) : ascii :=
  match t with
  | Plain c => c
  | Simple e => match simple_escape e with Some x => x | None => e end
  | UEsc _ _ _ _ => NUL
  end.

(** The 16-bit unit an item stands for. *)
Definition tok_unit (t : etoken) : Z :=
  match t with
  | UEsc x3 x2 x1 x0 => match hex4_val x3 x2 x1 x0 with Some u => u | None => 0 end
  | _ => code (tok_byte t)
  end.

Definition render_all (ts : list etoken) : bytes := concat (map render ts).

Lemma hex_plain (c : ascii) : is_hex c = true -> plain_ok c = true.
Proof.
  destruct c as [[] [] [] [] [] [] [] []]; intros H; try reflexivity; discriminate H.
Qed.

Lemma simple_escape_letter (e : ascii) :
  is_simple_escape e = true ->
  is_char e NUL = false /\ is_char e "u" = false /\
  exists x, simple_escape e = Some x.
Proof.
  destruct e as [[] [] [] [] [] [] [] []]; intros H; try discriminate H;
    (split; [reflexivity | split; [reflexivity | eexists; reflexivity]]).
Qed.

Lemma plain_ok_inv (c : ascii) :
  plain_ok c = true ->
  is_char c NUL = false /\ is_char c BACKSLASH = false /\
  is_char c DQUOTE = false /\ isascii c = true.
Proof.
  unfold plain_ok. intros H.
  apply andb_true_iff in H as [H H4]. apply andb_true_iff in H as [H H3].
  apply andb_true_iff in H as [H1 H2].
  apply negb_true_iff in H1, H2, H3. auto.
Qed.

Lemma scan_string_plain (c : ascii) (p : bytes) (hu se : bool) :
  plain_ok c = true ->
  scan_string (c :: p) false hu se = scan_string p false hu se.
Proof.
  intros H. destruct (plain_ok_inv c H) as (H1 & H2 & H3 & H4).
  cbn [scan_string]. rewrite H1, H2, H3, H4. reflexivity.
Qed.

Lemma scan_string_backslash (p : bytes) (hu se : bool) :
  scan_string (BACKSLASH :: p) false hu se = scan_string p true hu se.
Proof. reflexivity. Qed.

Lemma scan_string_u (p : bytes) (hu se : bool) :
  scan_string ("u"%char :: p) true hu se = scan_string p false true se.
Proof. reflexivity. Qed.

Lemma scan_string_simple (e : ascii) (p : bytes) (hu se : bool) :
  is_simple_escape e = true ->
  scan_string (e :: p) true hu se = scan_string p false hu true.
Proof.
  intros H. destruct (simple_escape_letter e H) as (H1 & H2 & _).
  cbn [scan_string]. rewrite H1, H2, H. reflexivity.
Qed.

(** The scanning loop of [decode_string] over escaped text. *)
Lemma scan_string_tokens (ts : list etoken) (rest : bytes) :
  forall (hu se : bool),
    forallb tok_ok ts = true ->
    scan_string (render_all ts ++ DQUOTE :: rest) false hu se
    = Some (mkScan (DQUOTE :: rest) (hu || existsb is_uesc ts) (se || existsb is_simple ts)).
Proof.
  unfold render_all.
  induction ts as [|t ts IH]; intros hu se Hok.
  - cbn. rewrite !orb_false_r. reflexivity.
  - cbn [forallb] in Hok. apply andb_true_iff in Hok as [Ht Hts].
    cbn [map concat existsb]. rewrite <- app_assoc.
    destruct t as [c | e | x3 x2 x1 x0]; cbn [render app is_uesc is_simple tok_ok] in *.
    + rewrite scan_string_plain by exact Ht. rewrite IH by exact Hts. reflexivity.
    + rewrite scan_string_backslash, scan_string_simple by exact Ht.
      rewrite IH by exact Hts. rewrite orb_true_r. reflexivity.
    + apply andb_true_iff in Ht as [Ht H0]. apply andb_true_iff in Ht as [Ht H1].
      apply andb_true_iff in Ht as [H3 H2].
      rewrite scan_string_backslash, scan_string_u.
      rewrite !scan_string_plain by (apply hex_plain; assumption).
      rewrite IH by exact Hts. rewrite orb_true_r. reflexivity.
Qed.

Lemma unicode_escape_units_tokens (ts : list etoken) :
  forallb tok_ok ts = true ->
  unicode_escape_units (render_all ts) = Ok (map tok_unit ts).
Proof.
  unfold render_all. induction ts as [|t ts IH]; intros Hok; [reflexivity|].
  cbn [forallb] in Hok. apply andb_true_iff in Hok as [Ht Hts].
  cbn [map concat]. specialize (IH Hts).
  destruct t as [c | e | x3 x2 x1 x0]; cbn [render app tok_ok] in *.
  - destruct (plain_ok_inv c Ht) as (_ & H2 & _).
    cbn [unicode_escape_units]. rewrite H2, IH. reflexivity.
  - destruct (simple_escape_letter e Ht) as (_ & H2 & x & Hx).
    cbn [unicode_escape_units]. change (is_char BACKSLASH BACKSLASH) with true.
    cbv iota. rewrite H2, Hx, IH. cbn [res_cons tok_unit tok_byte]. rewrite Hx.
    reflexivity.
  - cbn [unicode_escape_units]. change (is_char BACKSLASH BACKSLASH) with true.
    change (is_char "u" "u") with true. cbv iota.
    unfold is_hex, hex4_val in *. cbn [tok_unit]. unfold hex4_val.
    destruct (hex_val x3), (hex_val x2), (hex_val x1), (hex_val x0);
      try discriminate Ht.
    rewrite IH. reflexivity.
Qed.

Lemma PyString_DecodeEscape_tokens (ts : list etoken) :
  forallb tok_ok ts = true -> existsb is_uesc ts = false ->
  PyString_DecodeEscape (render_all ts) = Ok (map tok_byte ts).
Proof.
  unfold render_all. induction ts as [|t ts IH]; intros Hok Hu; [reflexivity|].
  cbn [forallb] in Hok. apply andb_true_iff in Hok as [Ht Hts].
  cbn [existsb] in Hu. apply orb_false_iff in Hu as [Hu Hus].
  cbn [map concat]. specialize (IH Hts Hus).
  destruct t as [c | e | x3 x2 x1 x0]; cbn [render app tok_ok] in *;
    [| |discriminate Hu].
  - destruct (plain_ok_inv c Ht) as (_ & H2 & _).
    cbn [PyString_DecodeEscape]. rewrite H2, IH. reflexivity.
  - destruct (simple_escape_letter e Ht) as (_ & _ & x & Hx).
    cbn [PyString_DecodeEscape]. change (is_char BACKSLASH BACKSLASH) with true.
    cbv iota. rewrite Hx, IH. cbn [res_cons tok_byte]. rewrite Hx. reflexivity.
Qed.

(** Without escapes the text is the bytes themselves. *)
Lemma render_all_plain (ts : list etoken) :
  existsb is_uesc ts = false -> existsb is_simple ts = false ->
  render_all ts = map tok_byte ts.
Proof.
  unfold render_all. induction ts as [|t ts IH]; intros Hu Hs; [reflexivity|].
  cbn [existsb] in Hu, Hs. apply orb_false_iff in Hu as [Hu Hus].
  apply orb_false_iff in Hs as [Hs Hss].
  destruct t; try discriminate. cbn [map concat render app tok_byte].
  rewrite IH by assumption. reflexivity.
Qed.

(** ** The string encoders write escaped text *)

Definition byte_token (c : ascii) : etoken :=
  if is_char c DQUOTE || is_char c BACKSLASH then Simple c
  else if is_char c "009" then Simple "t"
  else if is_char c "010" then Simple "n"
  else if is_char c "013" then Simple "r"
  else if is_char c "012" then Simple "f"
  else if is_char c "008" then Simple "b"
  else if (code c <? 32) || (127 <=? code c) then
    UEsc "0" "0" (hexdigit (Z.shiftr (code c) 4)) (hexdigit (Z.land (code c) 15))
  else Plain c.

Lemma byte_token_spec (c : ascii) :
  encode_string_char c = render (byte_token c) /\
  tok_ok (byte_token c) = true /\
  tok_unit (byte_token c) = code c /\
  (is_uesc (byte_token c) = false -> tok_byte (byte_token c) = c) /\
  (is_uesc (byte_token c) = false -> isascii c = true).
Proof.
  destruct c as [[] [] [] [] [] [] [] []]; vm_compute;
    (split; [reflexivity|]); (split; [reflexivity|]); (split; [reflexivity|]);
    split; intros H; first [reflexivity | discriminate H].
Qed.

(** The text [encode_string] writes for [s], when [s] is not too long. *)
Definition string_text (s : bytes) : bytes :=
  DQUOTE :: render_all (map byte_token s) ++ [DQUOTE].

Lemma encode_string_text (h : host) (s : bytes) :
  string_fits h s ->
  encode_string h s = Ok (string_text s).
Proof.
  intros H. rewrite (encode_string_whole h s H). unfold string_text, render_all.
  do 4 f_equal. rewrite map_map. apply map_ext. intros c.
  apply byte_token_spec.
Qed.

Lemma byte_tokens_ok (s : bytes) : forallb tok_ok (map byte_token s) = true.
Proof.
  induction s as [|c s IH]; [reflexivity|]. cbn [map forallb].
  rewrite IH, (proj1 (proj2 (byte_token_spec c))). reflexivity.
Qed.

Lemma byte_tokens_units (s : bytes) : map tok_unit (map byte_token s) = map code s.
Proof.
  rewrite map_map. apply map_ext. intros c. apply byte_token_spec.
Qed.

Lemma byte_tokens_bytes (s : bytes) :
  existsb is_uesc (map byte_token s) = false ->
  map tok_byte (map byte_token s) = s /\ forallb isascii s = true.
Proof.
  induction s as [|c s IH]; [split; reflexivity|]. cbn [map existsb forallb].
  intros H. apply orb_false_iff in H as [Hc Hs].
  destruct (byte_token_spec c) as (_ & _ & _ & Hb & Ha).
  destruct (IH Hs) as [IH1 IH2]. rewrite Hb, IH1, Ha, IH2 by exact Hc.
  split; reflexivity.
Qed.

Definition hex_token (n : Z) : etoken :=
  UEsc (hexdigit (Z.land (Z.shiftr n 12) 0x000F)) (hexdigit (Z.land (Z.shiftr n 8) 0x000F))
       (hexdigit (Z.land (Z.shiftr n 4) 0x000F)) (hexdigit (Z.land n 0x000F)).

Definition cp_tokens (wide : bool) (ch : Z) : list etoken :=
  if (ch =? code DQUOTE) || (ch =? code BACKSLASH) then [Simple (chr ch)]
  else if wide && (0x10000 <=? ch) then
    [hex_token (Z.land (Z.shiftr (ch - 0x10000) 10) 0x03FF + 0xD800);
     hex_token (Z.land (ch - 0x10000) 0x03FF + 0xDC00)]
  else if 256 <=? ch then [hex_token ch]
  else if ch =? 9 then [Simple "t"]
  else if ch =? 10 then [Simple "n"]
  else if ch =? 13 then [Simple "r"]
  else if ch =? 12 then [Simple "f"]
  else if ch =? 8 then [Simple "b"]
  else if (ch <? 32) || (127 <=? ch) then
    [UEsc "0" "0" (hexdigit (Z.land (Z.shiftr ch 4) 0x000F))
          (hexdigit (Z.land ch 0x000F))]
  else [Plain (chr ch)].

Lemma encode_unicode_char_tokens (h : host) (ch : Z) :
  encode_unicode_char h ch = render_all (cp_tokens (Py_UNICODE_WIDE h) ch).
Proof.
  unfold encode_unicode_char, cp_tokens, render_all.
  repeat match goal with
         | |- (if ?b then _ else _) = _ => destruct b; [reflexivity|]
         end.
  reflexivity.
Qed.

Lemma hex_val_hexdigit (d : Z) : 0 <= d < 16 -> hex_val (hexdigit d) = Some d.
Proof.
  intros H.
  assert (Hd : d = 0 \/ d = 1 \/ d = 2 \/ d = 3 \/ d = 4 \/ d = 5 \/ d = 6 \/ d = 7 \/
               d = 8 \/ d = 9 \/ d = 10 \/ d = 11 \/ d = 12 \/ d = 13 \/ d = 14 \/ d = 15)
    by lia.
  repeat (destruct Hd as [-> | Hd]; [reflexivity|]). subst d. reflexivity.
Qed.

Lemma land_15_range (x : Z) : 0 <= Z.land x 15 < 16.
Proof. rewrite land_15. apply Z.mod_pos_bound. lia. Qed.

Lemma is_hex_hexdigit (x : Z) : is_hex (hexdigit (Z.land x 15)) = true.
Proof. unfold is_hex. rewrite hex_val_hexdigit by apply land_15_range. reflexivity. Qed.

Lemma hex_token_ok (n : Z) : tok_ok (hex_token n) = true.
Proof. unfold hex_token. cbn [tok_ok]. rewrite !is_hex_hexdigit. reflexivity. Qed.

Lemma hex_token_unit (n : Z) : 0 <= n < 65536 -> tok_unit (hex_token n) = n.
Proof.
  intros H. unfold hex_token. cbn [tok_unit]. unfold hex4_val.
  rewrite !hex_val_hexdigit by apply land_15_range.
  rewrite !land_15, !Z.shiftr_div_pow2 by lia.
  change (2 ^ 12) with 4096. change (2 ^ 8) with 256. change (2 ^ 4) with 16.
  Z.div_mod_to_equations. lia.
Qed.

Lemma code_chr (n : Z) : 0 <= n < 256 -> code (chr n) = n.
Proof.
  intros H. unfold code, chr. rewrite N_ascii_embedding by lia. lia.
Qed.

Lemma chr_code (c : ascii) : chr (code c) = c.
Proof. unfold code, chr. rewrite N2Z.id. apply ascii_N_embedding. Qed.

Lemma code_range (c : ascii) : 0 <= code c < 256.
Proof. unfold code. pose proof (N_ascii_bounded c). lia. Qed.

Lemma plain_ok_printable (c : ascii) :
  (32 <=? code c) && (code c <? 127) && negb (code c =? 34) && negb (code c =? 92) = true ->
  plain_ok c = true.
Proof.
  destruct c as [[] [] [] [] [] [] [] []]; intros H; try reflexivity;
    vm_compute in H; discriminate H.
Qed.

(** The 16-bit units the encoder writes for a code point. *)
Definition units_of (wide : bool) (cp : Z) : list Z :=
  if wide && (0x10000 <=? cp) then [high_surrogate cp; low_surrogate cp] else [cp].

(** A code unit of the build: 21 bits in a wide build, 16 in a narrow one. *)
Definition cp_ok (wide : bool) (cp : Z) : bool :=
  (0 <=? cp) && (cp <? (if wide then 0x110000 else 0x10000)).

Lemma low_surrogate_mask (cp : Z) :
  Z.land (cp - 0x10000) 0x03FF + 0xDC00 = low_surrogate cp.
Proof. unfold low_surrogate. lia. Qed.

Lemma surrogate_ranges (cp : Z) :
  0x10000 <= cp <= 0x10FFFF ->
  0xD800 <= high_surrogate cp <= 0xDBFF /\ 0xDC00 <= low_surrogate cp <= 0xDFFF /\
  0x10000 + 1024 * (high_surrogate cp - 0xD800) + (low_surrogate cp - 0xDC00) = cp.
Proof.
  intros H. unfold high_surrogate, low_surrogate.
  change 0x3FF with (Z.ones 10). rewrite Z.land_ones, Z.shiftr_div_pow2 by lia.
  change (2 ^ 10) with 1024. Z.div_mod_to_equations. lia.
Qed.

Lemma cp_tokens_spec (wide : bool) (cp : Z) :
  cp_ok wide cp = true ->
  forallb tok_ok (cp_tokens wide cp) = true /\
  map tok_unit (cp_tokens wide cp) = units_of wide cp.
Proof.
  unfold cp_ok. intros Hok. apply andb_true_iff in Hok as [H0 H1].
  apply Z.leb_le in H0. apply Z.ltb_lt in H1.
  unfold cp_tokens, units_of. change (code DQUOTE) with 34. change (code BACKSLASH) with 92.
  destruct (cp =? 34) eqn:E34; [apply Z.eqb_eq in E34; subst cp; destruct wide; split; reflexivity|].
  destruct (cp =? 92) eqn:E92; [apply Z.eqb_eq in E92; subst cp; destruct wide; split; reflexivity|].
  cbn [orb]. apply Z.eqb_neq in E34, E92.
  destruct (wide && (0x10000 <=? cp)) eqn:Ew.
  { apply andb_true_iff in Ew as [-> Ew]. apply Z.leb_le in Ew.
    destruct (surrogate_ranges cp ltac:(lia)) as (Hh & Hl & _).
    cbn [forallb map]. rewrite !hex_token_ok.
    rewrite surrogate_high_mask, low_surrogate_mask by lia.
    rewrite !hex_token_unit by lia. split; reflexivity. }
  assert (Hlt : cp < 0x10000).
  { destruct wide; [|exact H1]. cbn [andb] in Ew. apply Z.leb_gt in Ew. exact Ew. }
  destruct (256 <=? cp) eqn:E256.
  { cbn [forallb map]. rewrite hex_token_ok, hex_token_unit by lia. split; reflexivity. }
  apply Z.leb_gt in E256.
  destruct (cp =? 9) eqn:E9; [apply Z.eqb_eq in E9; subst cp; split; reflexivity|].
  destruct (cp =? 10) eqn:E10; [apply Z.eqb_eq in E10; subst cp; split; reflexivity|].
  destruct (cp =? 13) eqn:E13; [apply Z.eqb_eq in E13; subst cp; split; reflexivity|].
  destruct (cp =? 12) eqn:E12; [apply Z.eqb_eq in E12; subst cp; split; reflexivity|].
  destruct (cp =? 8) eqn:E8; [apply Z.eqb_eq in E8; subst cp; split; reflexivity|].
  destruct ((cp <? 32) || (127 <=? cp)) eqn:Ectl.
  - cbn [forallb map tok_ok tok_unit]. rewrite !is_hex_hexdigit. split; [reflexivity|].
    unfold hex4_val. rewrite !hex_val_hexdigit by apply land_15_range.
    change (hex_val "0") with (Some 0).
    rewrite !land_15, !Z.shiftr_div_pow2 by lia. change (2 ^ 4) with 16.
    f_equal. Z.div_mod_to_equations. lia.
  - apply orb_false_iff in Ectl as [E32 E127].
    apply Z.ltb_ge in E32. apply Z.leb_gt in E127.
    cbn [forallb map tok_ok tok_unit tok_byte].
    rewrite code_chr by lia. split; [|reflexivity].
    rewrite plain_ok_printable; [reflexivity|].
    rewrite code_chr by lia.
    apply andb_true_iff; split; [apply andb_true_iff; split;
      [apply andb_true_iff; split|]|].
    + apply Z.leb_le; lia.
    + apply Z.ltb_lt; lia.
    + apply negb_true_iff, Z.eqb_neq; lia.
    + apply negb_true_iff, Z.eqb_neq; lia.
Qed.

Definition unicode_tokens (wide : bool) (u : list Z) : list etoken :=
  concat (map (cp_tokens wide) u).

(** The text [encode_unicode] writes for [u], when [u] is not too long. *)
Definition unicode_text (wide : bool) (u : list Z) : bytes :=
  DQUOTE :: render_all (unicode_tokens wide u) ++ [DQUOTE].

Lemma render_all_app (a b : list etoken) :
  render_all (a ++ b) = render_all a ++ render_all b.
Proof. unfold render_all. rewrite map_app, concat_app. reflexivity. Qed.

Lemma encode_unicode_chars_tokens (h : host) (u : list Z) :
  concat (map (encode_unicode_char h) u)
  = render_all (unicode_tokens (Py_UNICODE_WIDE h) u).
Proof.
  unfold unicode_tokens. induction u as [|cp u IH]; [reflexivity|].
  cbn [map concat]. rewrite render_all_app, <- encode_unicode_char_tokens, IH.
  reflexivity.
Qed.

Lemma encode_unicode_text (h : host) (u : list Z) :
  Z.of_nat (length u) <= (PY_SSIZE_T_MAX h - 2 - 1) / expandsize h ->
  encode_unicode h u = Ok (unicode_text (Py_UNICODE_WIDE h) u).
Proof.
  intros H. unfold encode_unicode, unicode_text.
  destruct (_ <? _) eqn:E; [apply Z.ltb_lt in E; lia|].
  rewrite encode_unicode_chars_tokens. reflexivity.
Qed.

Lemma unicode_tokens_spec (wide : bool) (u : list Z) :
  forallb (cp_ok wide) u = true ->
  forallb tok_ok (unicode_tokens wide u) = true /\
  map tok_unit (unicode_tokens wide u) = concat (map (units_of wide) u).
Proof.
  unfold unicode_tokens. induction u as [|cp u IH]; [split; reflexivity|].
  cbn [forallb map concat]. intros H. apply andb_true_iff in H as [Hc Hu].
  destruct (cp_tokens_spec wide cp Hc) as [H1 H2]. destruct (IH Hu) as [H3 H4].
  rewrite forallb_app, map_app, H1, H2, H3, H4. split; reflexivity.
Qed.

(** ** Surrogate pairs *)

(** No high surrogate is followed by a low surrogate. *)
Fixpoint no_pair (u : list Z) : bool :=
  match u with
  | [] => true
  | a :: t =>
      match t with
      | [] => true
      | b :: _ => negb (is_high_surrogate a && is_low_surrogate b) && no_pair t
      end
  end.

(** The Unicode strings the decoder builds: code units of the build and, in
    a wide build, no surrogate pair left unjoined. *)
Definition wf_unicode (wide : bool) (u : list Z) : bool :=
  forallb (cp_ok wide) u && (if wide then no_pair u else true).

Definition all_units (wide : bool) (u : list Z) : list Z :=
  concat (map (units_of wide) u).

Lemma all_units_narrow (u : list Z) : all_units false u = u.
Proof.
  unfold all_units. induction u as [|a t IH]; [reflexivity|].
  cbn [map concat]. rewrite IH. reflexivity.
Qed.

Lemma all_units_cons (wide : bool) (a : Z) (t : list Z) :
  all_units wide (a :: t) = units_of wide a ++ all_units wide t.
Proof. reflexivity. Qed.

Lemma join_surrogates_pair (hi lo : Z) (us : list Z) :
  is_high_surrogate hi && is_low_surrogate lo = true ->
  join_surrogates (hi :: lo :: us)
  = (0x10000 + 1024 * (hi - 0xD800) + (lo - 0xDC00)) :: join_surrogates us.
Proof. intros H. cbn [join_surrogates]. rewrite H. reflexivity. Qed.

Lemma join_surrogates_keep (a b : Z) (us : list Z) :
  is_high_surrogate a && is_low_surrogate b = false ->
  join_surrogates (a :: b :: us) = a :: join_surrogates (b :: us).
Proof. intros H. cbn [join_surrogates]. rewrite H. reflexivity. Qed.

Lemma surrogate_bool (x : Z) :
  (is_high_surrogate x = true <-> 0xD800 <= x <= 0xDBFF) /\
  (is_low_surrogate x = true <-> 0xDC00 <= x <= 0xDFFF).
Proof.
  unfold is_high_surrogate, is_low_surrogate.
  rewrite !andb_true_iff, !Z.leb_le. tauto.
Qed.

Lemma not_low_surrogate (x : Z) : ~ (0xDC00 <= x <= 0xDFFF) -> is_low_surrogate x = false.
Proof.
  intros H. destruct (is_low_surrogate x) eqn:E; [|reflexivity].
  apply surrogate_bool in E. contradiction.
Qed.

(** Joining the units the encoder writes gives the code points back. *)
Lemma join_all_units (u : list Z) :
  forallb (cp_ok true) u = true -> no_pair u = true ->
  join_surrogates (all_units true u) = u.
Proof.
  induction u as [|a t IH]; intros Hok Hnp; [reflexivity|].
  cbn [forallb] in Hok. apply andb_true_iff in Hok as [Ha Ht].
  unfold cp_ok in Ha. apply andb_true_iff in Ha as [Ha0 Ha1].
  apply Z.leb_le in Ha0. apply Z.ltb_lt in Ha1.
  assert (Hnpt : no_pair t = true).
  { cbn [no_pair] in Hnp. destruct t; [reflexivity|].
    apply andb_true_iff in Hnp as [_ H]. exact H. }
  rewrite all_units_cons. unfold units_of at 1. cbn [andb].
  destruct (0x10000 <=? a) eqn:Ea.
  - apply Z.leb_le in Ea. destruct (surrogate_ranges a ltac:(lia)) as (Hh & Hl & Hj).
    cbn [app]. rewrite join_surrogates_pair.
    + rewrite Hj, IH by assumption. reflexivity.
    + apply andb_true_iff. split; apply surrogate_bool; assumption.
  - apply Z.leb_gt in Ea. cbn [app]. destruct t as [|b t']; [reflexivity|].
    specialize (IH Ht Hnpt).
    cbn [forallb] in Ht. apply andb_true_iff in Ht as [Hb _].
    unfold cp_ok in Hb. apply andb_true_iff in Hb as [Hb0 Hb1].
    apply Z.leb_le in Hb0. apply Z.ltb_lt in Hb1.
    cbn [no_pair] in Hnp. apply andb_true_iff in Hnp as [Hab _].
    apply negb_true_iff in Hab.
    rewrite all_units_cons in *. unfold units_of in *. cbn [andb] in *.
    destruct (0x10000 <=? b) eqn:Eb; cbn [app] in *.
    + apply Z.leb_le in Eb. destruct (surrogate_ranges b ltac:(lia)) as (Hh & _).
      rewrite join_surrogates_keep, IH; [reflexivity|].
      rewrite (not_low_surrogate (high_surrogate b)) by lia. apply andb_false_r.
    + rewrite join_surrogates_keep, IH; [reflexivity | exact Hab].
Qed.

Lemma join_surrogates_wf_aux (n : nat) :
  forall us : list Z,
    (length us <= n)%nat ->
    Forall (fun x => 0 <= x < 65536) us ->
    forallb (cp_ok true) (join_surrogates us) = true /\
    no_pair (join_surrogates us) = true /\
    (is_low_surrogate (hd 0 (join_surrogates us)) = true ->
     is_low_surrogate (hd 0 us) = true).
Proof.
  induction n as [|n IH]; intros us Hlen Hus.
  - destruct us; [repeat split; auto | cbn in Hlen; lia].
  - destruct us as [|a us1]; [repeat split; auto|].
    inversion Hus as [|? ? Ha Hus1]; subst.
    destruct us1 as [|b us2].
    + cbn [join_surrogates forallb no_pair hd]. unfold cp_ok.
      assert ((0 <=? a) && (a <? 1114112) = true) as ->
        by (apply andb_true_iff; split; [apply Z.leb_le | apply Z.ltb_lt]; lia).
      auto.
    + inversion Hus1 as [|? ? Hb Hus2]; subst.
      destruct (is_high_surrogate a && is_low_surrogate b) eqn:E.
      * rewrite join_surrogates_pair by exact E.
        apply andb_true_iff in E as [Eh El].
        apply surrogate_bool in Eh. apply surrogate_bool in El.
        destruct (IH us2 ltac:(cbn [length] in *; lia) Hus2) as (H1 & H2 & H3).
        set (cp := 0x10000 + 1024 * (a - 0xD800) + (b - 0xDC00)) in *.
        assert (Hcp : 0x10000 <= cp <= 0x10FFFF) by (unfold cp; lia).
        cbn [forallb hd]. rewrite H1. unfold cp_ok at 1.
        assert ((0 <=? cp) && (cp <? 1114112) = true) as ->
          by (apply andb_true_iff; split; [apply Z.leb_le | apply Z.ltb_lt]; lia).
        split; [reflexivity|]. split.
        -- cbn [no_pair]. destruct (join_surrogates us2) as [|c r] eqn:Ej; [reflexivity|].
           rewrite H2, andb_true_r. apply negb_true_iff.
           destruct (is_high_surrogate cp) eqn:Ec; [|reflexivity].
           apply surrogate_bool in Ec. lia.
        -- intros Hlow. apply surrogate_bool in Hlow. lia.
      * rewrite join_surrogates_keep by exact E.
        destruct (IH (b :: us2) ltac:(cbn [length] in *; lia) Hus1) as (H1 & H2 & H3).
        cbn [forallb hd]. rewrite H1. unfold cp_ok at 1.
        assert ((0 <=? a) && (a <? 1114112) = true) as ->
          by (apply andb_true_iff; split; [apply Z.leb_le | apply Z.ltb_lt]; lia).
        split; [reflexivity|]. split; [|auto].
        cbn [no_pair]. destruct (join_surrogates (b :: us2)) as [|c r] eqn:Ej;
          [reflexivity|].
        rewrite H2, andb_true_r. apply negb_true_iff.
        destruct (is_high_surrogate a) eqn:Eh; [|reflexivity]. cbn [andb] in *.
        destruct (is_low_surrogate c) eqn:Ec; [|reflexivity].
        cbn [hd] in H3. rewrite (H3 Ec) in E. discriminate E.
Qed.

Lemma unicode_escape_units_range (s : bytes) (us : list Z) :
  unicode_escape_units s = Ok us -> Forall (fun x => 0 <= x < 65536) us.
Proof.
  assert (Hlen : forall n (s : bytes) us, (length s <= n)%nat ->
            unicode_escape_units s = Ok us -> Forall (fun x => 0 <= x < 65536) us).
  { clear. induction n as [|n IH]; intros s us Hn H.
    - destruct s; [injection H as <-; constructor | cbn in Hn; lia].
    - assert (Hcons : forall (x : Z) (s' : bytes) us,
                (length s' <= n)%nat -> 0 <= x < 65536 ->
                res_cons x (unicode_escape_units s') = Ok us ->
                Forall (fun y => 0 <= y < 65536) us).
      { intros x s' us' Hs' Hx Hr.
        destruct (unicode_escape_units s') as [l|] eqn:E; [|discriminate Hr].
        injection Hr as <-. constructor; [exact Hx | eapply IH; eauto]. }
      assert (Hc : forall c : ascii, 0 <= code c < 65536)
        by (intros c; pose proof (code_range c); lia).
      destruct s as [|c s1]; [injection H as <-; constructor|].
      cbn [unicode_escape_units] in H. cbn [length] in Hn.
      destruct (is_char c BACKSLASH);
        [|apply (Hcons (code c) s1 us); [lia | apply Hc | exact H]].
      destruct s1 as [|e s2]; [discriminate H|]. cbn [length] in Hn.
      destruct (is_char e "u").
      + destruct s2 as [|x3 [|x2 [|x1 [|x0 s3]]]]; try discriminate H.
        destruct (hex4_val x3 x2 x1 x0) as [u|] eqn:Eh; [|discriminate H].
        apply (Hcons u s3 us); [cbn [length] in Hn; lia| |exact H].
        unfold hex4_val in Eh.
        assert (Hv : forall x v, hex_val x = Some v -> 0 <= v < 16).
        { intros x v Hx. unfold hex_val in Hx. pose proof (code_range x).
          repeat match type of Hx with
                 | (if ?b then _ else _) = _ =>
                     let E := fresh in destruct b eqn:E;
                     [apply andb_true_iff in E as [?%Z.leb_le ?%Z.leb_le]|]
                 end; try discriminate Hx; injection Hx as <-; lia. }
        destruct (hex_val x3) eqn:E3, (hex_val x2) eqn:E2, (hex_val x1) eqn:E1,
                 (hex_val x0) eqn:E0; try discriminate Eh.
        injection Eh as <-.
        pose proof (Hv _ _ E3). pose proof (Hv _ _ E2).
        pose proof (Hv _ _ E1). pose proof (Hv _ _ E0). lia.
      + destruct (simple_escape e) as [x|].
        * apply (Hcons (code x) s2 us); [lia | apply Hc | exact H].
        * destruct (unicode_escape_units s2) as [l|] eqn:E; [|discriminate H].
          injection H as <-. constructor; [apply Hc|].
          constructor; [apply Hc|]. eapply IH; eauto. lia. }
  intros H. eapply Hlen; eauto.
Qed.

(** Every Unicode string the Unicode-escape decoder returns is well formed. *)
Lemma PyUnicode_DecodeUnicodeEscape_wf (wide : bool) (s : bytes) (u : list Z) :
  PyUnicode_DecodeUnicodeEscape wide s = Ok u -> wf_unicode wide u = true.
Proof.
  unfold PyUnicode_DecodeUnicodeEscape.
  destruct (unicode_escape_units s) as [us|] eqn:E; [|discriminate].
  intros [= <-]. apply unicode_escape_units_range in E.
  unfold wf_unicode. destruct wide.
  - destruct (join_surrogates_wf_aux (length us) us (le_n _) E) as (H1 & H2 & _).
    rewrite H1, H2. reflexivity.
  - rewrite andb_true_r. apply forallb_forall. intros x Hx.
    rewrite Forall_forall in E. apply list_elem_of_In in Hx. specialize (E x Hx).
    unfold cp_ok. apply andb_true_iff; split; [apply Z.leb_le | apply Z.ltb_lt]; lia.
Qed.

(** ** Integers *)

Lemma digit_char_spec (d : Z) :
  0 <= d < 10 ->
  isdigit (digit_char d) = true /\ digit_val (digit_char d) = d /\
  (is_char (digit_char d) "0" = true <-> d = 0).
Proof.
  intros H.
  assert (Hd : d = 0 \/ d = 1 \/ d = 2 \/ d = 3 \/ d = 4 \/ d = 5 \/ d = 6 \/ d = 7 \/
               d = 8 \/ d = 9) by lia.
  repeat (destruct Hd as [-> | Hd];
          [split; [reflexivity|]; split; [reflexivity|];
           split; [try discriminate; reflexivity | try discriminate; reflexivity]|]).
  subst d. split; [reflexivity|]. split; [reflexivity|]. split; discriminate.
Qed.

Lemma parse_digits_snoc (ds : bytes) (c : ascii) :
  parse_digits (ds ++ [c]) = 10 * parse_digits ds + digit_val c.
Proof. unfold parse_digits. rewrite fold_left_app. reflexivity. Qed.

Lemma all_digits_app (a b : bytes) : all_digits (a ++ b) = all_digits a && all_digits b.
Proof. apply forallb_app. Qed.

Lemma pos_digits_spec (fuel : nat) :
  forall (n : Z) (acc : bytes),
    0 < n < 2 ^ Z.of_nat fuel ->
    exists c ds,
      pos_digits fuel n acc = (c :: ds) ++ acc /\
      all_digits (c :: ds) = true /\ is_char c "0" = false /\
      parse_digits (c :: ds) = n.
Proof.
  induction fuel as [|fuel IH]; intros n acc Hn; [cbn in Hn; lia|].
  cbn [pos_digits]. cbv zeta.
  assert (Hmod : 0 <= n mod 10 < 10) by (apply Z.mod_pos_bound; lia).
  destruct (digit_char_spec (n mod 10) Hmod) as (Hd1 & Hd2 & Hd3).
  destruct (n / 10 =? 0) eqn:E.
  - apply Z.eqb_eq in E. exists (digit_char (n mod 10)), [].
    split; [reflexivity|]. split; [cbn; rewrite Hd1; reflexivity|].
    split.
    + destruct (is_char (digit_char (n mod 10)) "0") eqn:E0; [|reflexivity].
      pose proof (proj1 Hd3 eq_refl). Z.div_mod_to_equations. lia.
    + unfold parse_digits. cbn [fold_left]. rewrite Hd2.
      Z.div_mod_to_equations. lia.
  - apply Z.eqb_neq in E.
    assert (Hdiv : 0 < n / 10 < 2 ^ Z.of_nat fuel).
    { rewrite Nat2Z.inj_succ, Z.pow_succ_r in Hn by lia.
      Z.div_mod_to_equations. lia. }
    destruct (IH (n / 10) (digit_char (n mod 10) :: acc) Hdiv)
      as (c & ds & Hp & Hall & Hc & Hparse).
    exists c, (ds ++ [digit_char (n mod 10)]). split; [|split; [|split]].
    + rewrite Hp. cbn [app]. rewrite <- app_assoc. reflexivity.
    + change (c :: ds ++ [digit_char (n mod 10)])
        with ((c :: ds) ++ [digit_char (n mod 10)]).
      rewrite all_digits_app, Hall. cbn. rewrite Hd1. reflexivity.
    + exact Hc.
    + change (c :: ds ++ [digit_char (n mod 10)])
        with ((c :: ds) ++ [digit_char (n mod 10)]).
      rewrite parse_digits_snoc, Hparse, Hd2. Z.div_mod_to_equations. lia.
Qed.

(** The decimal text of a natural number: digits, no leading zero except
    for zero itself, and the digits denote the number. *)
Lemma nat_digits_spec (n : Z) :
  0 <= n ->
  int_part (nat_digits n) /\ parse_digits (nat_digits n) = n.
Proof.
  intros Hn. destruct (Z.eq_dec n 0) as [-> | Hz].
  - split; [left; reflexivity | reflexivity].
  - unfold nat_digits.
    destruct (pos_digits_spec (S (Z.to_nat (Z.log2 n))) n []) as (c & ds & Hp & Hall & Hc & Hv).
    { split; [lia|]. rewrite Nat2Z.inj_succ, Z2Nat.id by apply Z.log2_nonneg.
      apply Z.log2_spec. lia. }
    rewrite Hp, app_nil_r. split; [|exact Hv]. right. exists c, ds.
    cbn [all_digits forallb] in Hall. apply andb_true_iff in Hall as [H1 H2].
    split_and!; auto. apply isdigit_nonzero, Hc.
Qed.

Lemma Z_to_bytes_token (z : Z) :
  exists s i,
    Z_to_bytes z = s ++ i /\ (s = [] \/ s = ["-"%char]) /\ int_part i /\
    PyInt_FromString (Z_to_bytes z) = Some z.
Proof.
  unfold Z_to_bytes. destruct (z <? 0) eqn:E.
  - apply Z.ltb_lt in E. destruct (nat_digits_spec (- z) ltac:(lia)) as [Hi Hv].
    exists ["-"%char], (nat_digits (- z)). split_and!; auto.
    destruct (int_part_digits _ Hi) as (Hne & Hall & _).
    unfold PyInt_FromString. change (is_char "-" "-") with true. cbv iota beta.
    rewrite bool_decide_eq_false_2 by exact Hne. rewrite Hall, Hv. cbn [negb andb].
    f_equal. lia.
  - apply Z.ltb_ge in E. destruct (nat_digits_spec z E) as [Hi Hv].
    exists [], (nat_digits z). split_and!; auto.
    destruct (int_part_digits _ Hi) as (Hne & Hall & Hm & Hp).
    unfold PyInt_FromString. destruct (nat_digits z) as [|c ds] eqn:En; [congruence|].
    cbn [peek] in Hm, Hp. rewrite Hm, Hp.
    rewrite bool_decide_eq_false_2 by exact Hne. rewrite Hall, Hv. reflexivity.
Qed.

(** ** Number tokens are scanned whole *)

Lemma skipDigits_app (ds q : bytes) :
  all_digits ds = true -> isdigit (peek q) = false -> skipDigits (ds ++ q) = q.
Proof.
  intros Hds Hq. induction ds as [|c ds IH]; cbn [app].
  - destruct q as [|c q]; [reflexivity|]. cbn [skipDigits peek] in *. rewrite Hq.
    reflexivity.
  - cbn [all_digits forallb] in Hds. apply andb_true_iff in Hds as [Hc Hds].
    cbn [skipDigits]. rewrite Hc. apply IH, Hds.
Qed.

Definition phase_sign (p : bytes) : bytes :=
  if is_char (peek p) "-" || is_char (peek p) "+" then advance p else p.

Definition phase_int (p1 : bytes) : option bytes :=
  if is_char (peek p1) "0" then
    let p := advance p1 in
    if isdigit (peek p) then None else Some p
  else if isdigit (peek p1) then Some (skipDigits p1)
  else None.

Definition phase_frac (p2 : bytes) : option (bytes * bool) :=
  if is_char (peek p2) "." then
    let p := advance p2 in
    if negb (isdigit (peek p)) then None else Some (skipDigits p, true)
  else Some (p2, false).

Definition phase_exp (p3 : bytes) (fl : bool) : option number_scan :=
  if is_char (peek p3) "e" || is_char (peek p3) "E" then
    let p := advance p3 in
    let p := if is_char (peek p) "+" || is_char (peek p) "-" then advance p else p in
    if negb (isdigit (peek p)) then None
    else Some (mkNumber (skipDigits p) true)
  else Some (mkNumber p3 fl).

Lemma scan_number_phases (p : bytes) :
  scan_number p =
  match phase_int (phase_sign p) with
  | None => None
  | Some p2 =>
      match phase_frac p2 with
      | None => None
      | Some (p3, fl) => phase_exp p3 fl
      end
  end.
Proof. reflexivity. Qed.

Lemma digit_not_special (c : ascii) :
  isdigit c = true ->
  is_char c "-" = false /\ is_char c "+" = false /\ is_char c "." = false /\
  is_char c "e" = false /\ is_char c "E" = false /\ is_char c "I" = false.
Proof.
  destruct c as [[] [] [] [] [] [] [] []]; intros H; try discriminate H; repeat split.
Qed.

Lemma int_part_head (i q : bytes) :
  int_part i -> isdigit (peek (i ++ q)) = true.
Proof. intros [-> | (c & ds & -> & Hc & _)]; [reflexivity | exact Hc]. Qed.

Lemma phase_sign_spec (s q : bytes) :
  sign_part s -> isdigit (peek q) = true -> phase_sign (s ++ q) = q.
Proof.
  intros [-> | [-> | ->]] Hq; try reflexivity.
  unfold phase_sign. cbn [app]. destruct (digit_not_special _ Hq) as (-> & -> & _).
  reflexivity.
Qed.

Lemma phase_int_spec (i q : bytes) :
  int_part i -> isdigit (peek q) = false -> phase_int (i ++ q) = Some q.
Proof.
  intros [-> | (c & ds & -> & Hc & Hnz & Hds)] Hq; unfold phase_int.
  - cbn [app peek advance tail]. change (is_char "0" "0") with true. cbv iota zeta.
    rewrite Hq. reflexivity.
  - cbn [app peek]. assert (is_char c "0" = false) as ->.
    { destruct (is_char c "0") eqn:E; [|reflexivity]. apply is_char_eq in E. contradiction. }
    rewrite Hc. f_equal. cbn [skipDigits]. rewrite Hc. apply skipDigits_app; assumption.
Qed.

Lemma phase_frac_spec (f q : bytes) :
  frac_part f -> isdigit (peek q) = false -> is_char (peek q) "." = false ->
  phase_frac (f ++ q) = Some (q, negb (bool_decide (f = []))).
Proof.
  intros [-> | (ds & -> & Hne & Hds)] Hq Hdot; unfold phase_frac.
  - cbn [app]. rewrite Hdot. reflexivity.
  - cbn [app peek advance tail]. change (is_char "." ".") with true. cbv iota zeta.
    destruct ds as [|c ds]; [congruence|].
    cbn [all_digits forallb] in Hds. apply andb_true_iff in Hds as [Hc Hds].
    cbn [app peek]. rewrite Hc. cbn [negb]. do 2 f_equal.
    change (c :: ds ++ q) with ((c :: ds) ++ q). apply skipDigits_app; [|exact Hq].
    cbn. rewrite Hc, Hds. reflexivity.
Qed.

Lemma phase_exp_spec (e q : bytes) (fl : bool) :
  exp_part e -> isdigit (peek q) = false ->
  is_char (peek q) "e" = false -> is_char (peek q) "E" = false ->
  phase_exp (e ++ q) fl = Some (mkNumber q (fl || negb (bool_decide (e = [])))).
Proof.
  intros [-> | (c & s & ds & -> & Hc & Hs & Hne & Hds)] Hq He HE; unfold phase_exp.
  - cbn [app]. rewrite He, HE. cbn. rewrite orb_false_r. reflexivity.
  - assert (is_char c "e" || is_char c "E" = true) as Hce
      by (destruct Hc as [-> | ->]; reflexivity).
    cbn [app peek advance tail]. rewrite Hce. cbv zeta.
    destruct ds as [|d ds]; [congruence|].
    cbn [all_digits forallb] in Hds. apply andb_true_iff in Hds as [Hd Hds].
    assert (Hskip : skipDigits ((d :: ds) ++ q) = q)
      by (apply skipDigits_app; [cbn; rewrite Hd, Hds; reflexivity | exact Hq]).
    rewrite orb_true_r.
    destruct Hs as [-> | [-> | ->]]; cbn [app peek advance tail].
    + destruct (digit_not_special _ Hd) as (-> & -> & _). cbn [orb peek].
      rewrite Hd. cbn [negb]. cbn [app] in Hskip. rewrite Hskip. reflexivity.
    + change (is_char "-" "+") with false. change (is_char "-" "-") with true.
      cbn [orb peek]. rewrite Hd. cbn [negb]. cbn [app] in Hskip. rewrite Hskip.
      reflexivity.
    + change (is_char "+" "+") with true.
      cbn [orb peek]. rewrite Hd. cbn [negb]. cbn [app] in Hskip. rewrite Hskip.
      reflexivity.
Qed.

(** What may follow a number in the text the encoder writes. *)
Definition ends_number (rest : bytes) : Prop :=
  isdigit (peek rest) = false /\ is_char (peek rest) "." = false /\
  is_char (peek rest) "e" = false /\ is_char (peek rest) "E" = false.

Lemma scan_number_token (tok rest : bytes) :
  number_token tok -> ends_number rest ->
  scan_number (tok ++ rest) = Some (mkNumber rest (contains_float_char tok)).
Proof.
  intros Htok (Hd & Hdot & He & HE). destruct Htok as [s i f e Hs Hi Hf Hexp].
  rewrite (token_float_char s i f e Hs Hi Hf Hexp).
  rewrite scan_number_phases. rewrite <- !app_assoc.
  rewrite phase_sign_spec by (auto using int_part_head).
  assert (Hexp_head : isdigit (peek (e ++ rest)) = false /\
                      is_char (peek (e ++ rest)) "." = false).
  { destruct Hexp as [-> | (c & s' & ds & -> & [-> | ->] & _)]; auto. }
  destruct Hexp_head as [Hx1 Hx2].
  assert (Hfrac_head : isdigit (peek (f ++ e ++ rest)) = false).
  { destruct Hf as [-> | (ds & -> & _)]; auto. }
  rewrite phase_int_spec by assumption.
  rewrite phase_frac_spec by assumption.
  rewrite phase_exp_spec by assumption.
  f_equal. f_equal. rewrite negb_andb. reflexivity.
Qed.

(** ** The text of a value *)

(** The text of a float: the three names, or what the interpreter prints. *)
Definition float_text (h : host) (f : spec_float) : bytes :=
  match f with
  | S754_nan => bytes_of "NaN"
  | S754_infinity false => bytes_of "Infinity"
  | S754_infinity true => bytes_of "-Infinity"
  | _ => float_repr h f
  end.

(** The text of a JSON array with the given pieces. *)
Definition array_text (pieces : list bytes) : bytes :=
  match pieces with
  | [] => bytes_of "[]"
  | _ => bytes_of "[" ++ PyString_Join (bytes_of ", ") pieces ++ bytes_of "]"
  end.

Definition object_text (pieces : list bytes) : bytes :=
  match pieces with
  | [] => bytes_of "{}"
  | _ => bytes_of "{" ++ PyString_Join (bytes_of ", ") pieces ++ bytes_of "}"
  end.

(** The text the encoder writes for a value built by the decoder, when no
    size check fails. *)
Fixpoint value_text (h : host) (v : pyvalue) : bytes :=
  match v with
  | VNone => bytes_of "null"
  | VBool true => bytes_of "true"
  | VBool false => bytes_of "false"
  | VInt z => Z_to_bytes z
  | VFloat f => float_text h f
  | VString s => string_text s
  | VUnicode u => unicode_text (Py_UNICODE_WIDE h) u
  | VList items => array_text (map (value_text h) items)
  | VDict entries =>
      object_text
        (map (fun e => value_text h (fst e) ++ bytes_of ": " ++ value_text h (snd e))
             entries)
  end.

(** Induction on values through lists and dicts. *)
Lemma pyvalue_induction (P : pyvalue -> Prop) :
  P VNone -> (forall b, P (VBool b)) -> (forall z, P (VInt z)) ->
  (forall f, P (VFloat f)) -> (forall s, P (VString s)) -> (forall u, P (VUnicode u)) ->
  (forall items, Forall P items -> P (VList items)) ->
  (forall entries, Forall (fun e => P (fst e) /\ P (snd e)) entries -> P (VDict entries)) ->
  forall v, P v.
Proof.
  intros HN HB HI HF HS HU HL HD.
  fix IH 1. intros v. destruct v as [| b | z | f | s | u | items | entries].
  - exact HN.
  - apply HB.
  - apply HI.
  - apply HF.
  - apply HS.
  - apply HU.
  - apply HL. induction items as [|x xs IHxs]; constructor; [apply IH | exact IHxs].
  - apply HD. induction entries as [|[k x] es IHes]; constructor;
      [split; apply IH | exact IHes].
Qed.

(** Equality of floats with NaN equal to itself and the two zeros equal. *)
Definition float_eq (f1 f2 : spec_float) : Prop :=
  match f1, f2 with
  | S754_nan, S754_nan => True
  | S754_zero _, S754_zero _ => True
  | _, _ => f1 = f2
  end.

(** Equality of values as the interpreter compares them: a [str] equals the
    [unicode] of the same 7-bit characters; lists are compared item by item,
    dicts entry by entry in any order. *)
Inductive value_eq : pyvalue -> pyvalue -> Prop :=
| veq_none : value_eq VNone VNone
| veq_bool (b : bool) : value_eq (VBool b) (VBool b)
| veq_int (z : Z) : value_eq (VInt z) (VInt z)
| veq_float (f f' : spec_float) : float_eq f f' -> value_eq (VFloat f) (VFloat f')
| veq_string (s : bytes) : value_eq (VString s) (VString s)
| veq_unicode (u : list Z) : value_eq (VUnicode u) (VUnicode u)
| veq_string_unicode (s : bytes) :
    forallb isascii s = true -> value_eq (VString s) (VUnicode (map code s))
| veq_unicode_string (s : bytes) :
    forallb isascii s = true -> value_eq (VUnicode (map code s)) (VString s)
| veq_list (xs ys : list pyvalue) :
    Forall2 value_eq xs ys -> value_eq (VList xs) (VList ys)
| veq_dict (es es0 es' : list (pyvalue * pyvalue)) :
    Forall2 (fun e e' => value_eq (fst e) (fst e') /\ value_eq (snd e) (snd e')) es es0 ->
    Permutation es0 es' ->
    value_eq (VDict es) (VDict es').

(** Equality of values kind by kind: as [value_eq], but a byte String is
    never equal to a Unicode String. *)
Inductive struct_eq : pyvalue -> pyvalue -> Prop :=
| seq_none : struct_eq VNone VNone
| seq_bool (b : bool) : struct_eq (VBool b) (VBool b)
| seq_int (z : Z) : struct_eq (VInt z) (VInt z)
| seq_float (f f' : spec_float) : float_eq f f' -> struct_eq (VFloat f) (VFloat f')
| seq_string (s : bytes) : struct_eq (VString s) (VString s)
| seq_unicode (u : list Z) : struct_eq (VUnicode u) (VUnicode u)
| seq_list (xs ys : list pyvalue) :
    Forall2 struct_eq xs ys -> struct_eq (VList xs) (VList ys)
| seq_dict (es es0 es' : list (pyvalue * pyvalue)) :
    Forall2 (fun e e' => struct_eq (fst e) (fst e') /\ struct_eq (snd e) (snd e')) es es0 ->
    Permutation es0 es' ->
    struct_eq (VDict es) (VDict es').

(** The interpreter's float conversions agree on [f]: the text of [f] is a
    number token with a fraction or an exponent, and it converts back to
    [f]. *)
Definition float_roundtrips (h : host) (f : spec_float) : Prop :=
  match f with
  | S754_nan | S754_infinity _ => True
  | _ =>
      number_token (float_repr h f) /\ contains_float_char (float_repr h f) = true /\
      exists f', PyFloat_FromString h (float_repr h f) = Some f' /\ float_eq f' f
  end.

(** The code points of a key: what [PyDict_SetItem] compares. *)
Definition key_norm (k : pyvalue) : list Z :=
  match k with
  | VString s => map code s
  | VUnicode u => u
  | _ => []
  end.

Definition good_key (k : pyvalue) : Prop :=
  match k with
  | VString s => forallb isascii s = true
  | VUnicode _ => True
  | _ => False
  end.

Definition is_key (k : pyvalue) : bool :=
  match k with
  | VString _ | VUnicode _ => true
  | _ => false
  end.

(** No two keys of the entries are the same key for [PyDict_SetItem]. *)
Fixpoint distinct_keys (entries : list (pyvalue * pyvalue)) : bool :=
  match entries with
  | [] => true
  | (k, _) :: rest =>
      forallb (fun e => negb (key_eqb k (fst e))) rest && distinct_keys rest
  end.

(** The values of the round trip: byte Strings are 7-bit, Unicode Strings
    are as the decoder builds them, both within the size the encoder
    accepts, the float conversions agree on the floats, and the keys of a
    dict are strings with different code points. *)
Inductive good (h : host) : pyvalue -> Prop :=
| good_none : good h VNone
| good_bool (b : bool) : good h (VBool b)
| good_int (z : Z) : good h (VInt z)
| good_float (f : spec_float) : float_roundtrips h f -> good h (VFloat f)
| good_string (s : bytes) :
    forallb isascii s = true ->
    string_fits h s ->
    good h (VString s)
| good_unicode (u : list Z) :
    wf_unicode (Py_UNICODE_WIDE h) u = true ->
    Z.of_nat (length u) <= (PY_SSIZE_T_MAX h - 2 - 1) / expandsize h ->
    good h (VUnicode u)
| good_list (items : list pyvalue) : Forall (good h) items -> good h (VList items)
| good_dict (entries : list (pyvalue * pyvalue)) :
    Forall (fun e => is_key (fst e) = true /\ good h (fst e) /\ good h (snd e)) entries ->
    NoDup (map (fun e => key_norm (fst e)) entries) ->
    good h (VDict entries).

(** The nesting of lists and dicts. *)
Fixpoint depth_of (v : pyvalue) : nat :=
  match v with
  | VList items => S (fold_right Nat.max 0%nat (map depth_of items))
  | VDict entries =>
      S (fold_right Nat.max 0%nat
           (map (fun e => Nat.max (depth_of (fst e)) (depth_of (snd e))) entries))
  | _ => 0%nat
  end.

(** *** The text has no NUL byte and starts like a value *)

Definition has_nul (b : bytes) : bool := existsb (fun c => is_char c NUL) b.

Lemma has_nul_app (a b : bytes) : has_nul (a ++ b) = has_nul a || has_nul b.
Proof. apply existsb_app. Qed.

Lemma render_all_no_nul (ts : list etoken) :
  forallb tok_ok ts = true -> has_nul (render_all ts) = false.
Proof.
  unfold render_all. induction ts as [|t ts IH]; intros Hok; [reflexivity|].
  cbn [forallb] in Hok. apply andb_true_iff in Hok as [Ht Hts].
  cbn [map concat]. rewrite has_nul_app, (IH Hts), orb_false_r.
  destruct t as [c | e | x3 x2 x1 x0]; cbn [render tok_ok] in *.
  - destruct (plain_ok_inv c Ht) as (H1 & _). cbn. rewrite H1. reflexivity.
  - destruct (simple_escape_letter e Ht) as (H1 & _). cbn. rewrite H1. reflexivity.
  - apply andb_true_iff in Ht as [Ht H0]. apply andb_true_iff in Ht as [Ht H1].
    apply andb_true_iff in Ht as [H3 H2].
    apply hex_plain, plain_ok_inv in H0 as (H0 & _).
    apply hex_plain, plain_ok_inv in H1 as (H1 & _).
    apply hex_plain, plain_ok_inv in H2 as (H2 & _).
    apply hex_plain, plain_ok_inv in H3 as (H3 & _).
    cbn. rewrite H0, H1, H2, H3. reflexivity.
Qed.

Lemma digits_no_nul (ds : bytes) : all_digits ds = true -> has_nul ds = false.
Proof.
  induction ds as [|c ds IH]; [reflexivity|]. cbn [all_digits forallb has_nul existsb].
  intros H. apply andb_true_iff in H as [Hc Hds]. fold (has_nul ds).
  rewrite (IH Hds), orb_false_r.
  destruct c as [[] [] [] [] [] [] [] []]; try discriminate Hc; reflexivity.
Qed.

Lemma number_token_no_nul (tok : bytes) : number_token tok -> has_nul tok = false.
Proof.
  intros [s i f e Hs Hi Hf He]. rewrite !has_nul_app.
  assert (has_nul s = false) as -> by (destruct Hs as [-> | [-> | ->]]; reflexivity).
  assert (has_nul i = false) as ->
    by (apply digits_no_nul; destruct (int_part_digits i Hi) as (_ & H & _); exact H).
  assert (has_nul f = false) as ->.
  { destruct Hf as [-> | (ds & -> & _ & Hds)]; [reflexivity|].
    cbn [has_nul existsb]. fold (has_nul ds). rewrite digits_no_nul by exact Hds.
    reflexivity. }
  destruct He as [-> | (c & s' & ds & -> & Hc & Hs' & _ & Hds)]; [reflexivity|].
  cbn [has_nul existsb]. fold (has_nul (s' ++ ds)).
  rewrite has_nul_app, (digits_no_nul ds Hds).
  destruct Hc as [-> | ->], Hs' as [-> | [-> | ->]]; reflexivity.
Qed.

Lemma number_token_head (tok q : bytes) :
  number_token tok ->
  exists c t, tok = c :: t /\
              (is_char c "-" || is_char c "+" || isdigit c) = true /\
              (is_char c "-" || is_char c "+" = true -> isdigit (peek (t ++ q)) = true).
Proof.
  intros [s i f e Hs Hi Hf He].
  pose proof (int_part_head i (f ++ e ++ q) Hi) as Hd.
  destruct (int_part_digits i Hi) as (Hne & _ & Hm & Hp).
  destruct Hs as [-> | [-> | ->]]; cbn [app].
  - destruct i as [|c i']; [congruence|]. exists c, (i' ++ f ++ e). split; [reflexivity|].
    cbn [app peek] in *. rewrite Hd, Hm, Hp. split; [reflexivity | discriminate].
  - exists "-"%char, (i ++ f ++ e). split; [reflexivity|]. split; [reflexivity|].
    intros _. rewrite <- !app_assoc. exact Hd.
  - exists "+"%char, (i ++ f ++ e). split; [reflexivity|]. split; [reflexivity|].
    intros _. rewrite <- !app_assoc. exact Hd.
Qed.

Lemma Z_to_bytes_number (z : Z) :
  number_token (Z_to_bytes z) /\ contains_float_char (Z_to_bytes z) = false.
Proof.
  destruct (Z_to_bytes_token z) as (s & i & Heq & Hs & Hi & _).
  assert (Hsign : sign_part s) by (destruct Hs as [-> | ->]; [left | right; left]; reflexivity).
  assert (Htok : Z_to_bytes z = s ++ i ++ [] ++ []) by (rewrite Heq, !app_nil_r; reflexivity).
  rewrite Htok. split.
  - constructor; auto; left; reflexivity.
  - rewrite (token_float_char s i [] [] Hsign Hi); [reflexivity | left | left]; reflexivity.
Qed.

(** The first byte of the text of a value. *)
Definition starts_value (c : ascii) : bool :=
  negb (isspace c) && negb (is_char c NUL) && negb (is_char c "]")
  && negb (is_char c ",") && negb (is_char c "}").

Lemma sign_or_digit_starts (c : ascii) :
  (is_char c "-" || is_char c "+" || isdigit c) = true -> starts_value c = true.
Proof.
  destruct c as [[] [] [] [] [] [] [] []]; intros H; try reflexivity;
    vm_compute in H; discriminate H.
Qed.

Lemma PyString_Join_no_nul (pieces : list bytes) :
  Forall (fun p => has_nul p = false) pieces ->
  has_nul (PyString_Join (bytes_of ", ") pieces) = false.
Proof.
  induction 1 as [|p ps Hp Hps IH]; [reflexivity|].
  destruct ps as [|p' ps]; [exact Hp|].
  rewrite PyString_Join_cons by discriminate.
  rewrite !has_nul_app, Hp, IH. reflexivity.
Qed.

Lemma value_text_head (h : host) (v : pyvalue) :
  good h v -> exists c t, value_text h v = c :: t /\ starts_value c = true.
Proof.
  intros Hg. destruct Hg as [| b | z | f Hf | s _ _ | u _ _ | items _ | entries _ _];
    cbn [value_text].
  - eexists _, _. split; reflexivity.
  - destruct b; eexists _, _; split; reflexivity.
  - destruct (Z_to_bytes_number z) as [Hn _].
    destruct (number_token_head _ [] Hn) as (c & t & -> & Hc & _).
    exists c, t. split; [reflexivity | apply sign_or_digit_starts, Hc].
  - destruct f as [s | [] | | s m e]; cbn [float_text];
      try (eexists _, _; split; reflexivity);
      destruct Hf as (Hn & _);
      destruct (number_token_head _ [] Hn) as (c & t & -> & Hc & _);
      exists c, t; (split; [reflexivity | apply sign_or_digit_starts, Hc]).
  - eexists _, _. split; reflexivity.
  - eexists _, _. split; reflexivity.
  - unfold array_text. destruct (map _ items); eexists _, _; split; reflexivity.
  - unfold object_text. destruct (map _ entries); eexists _, _; split; reflexivity.
Qed.

Lemma unicode_text_no_nul (wide : bool) (u : list Z) :
  wf_unicode wide u = true -> has_nul (unicode_text wide u) = false.
Proof.
  intros H. unfold wf_unicode in H. apply andb_true_iff in H as [H _].
  unfold unicode_text. cbn [has_nul existsb]. fold (has_nul (render_all (unicode_tokens wide u) ++ [DQUOTE])).
  rewrite has_nul_app, render_all_no_nul by (apply unicode_tokens_spec, H).
  reflexivity.
Qed.

Lemma string_text_no_nul (s : bytes) : has_nul (string_text s) = false.
Proof.
  unfold string_text. cbn [has_nul existsb].
  fold (has_nul (render_all (map byte_token s) ++ [DQUOTE])).
  rewrite has_nul_app, render_all_no_nul by apply byte_tokens_ok. reflexivity.
Qed.

Lemma value_text_no_nul (h : host) (v : pyvalue) :
  good h v -> has_nul (value_text h v) = false.
Proof.
  induction v as [| b | z | f | s | u | items IH | entries IH] using pyvalue_induction;
    intros Hg; cbn [value_text].
  - reflexivity.
  - destruct b; reflexivity.
  - apply number_token_no_nul, Z_to_bytes_number.
  - inversion Hg as [| | | ? Hf | | | |]; subst.
    destruct f as [s | [] | | s m e]; cbn [float_text]; try reflexivity;
      apply number_token_no_nul, Hf.
  - apply string_text_no_nul.
  - inversion Hg; subst. apply unicode_text_no_nul. assumption.
  - inversion Hg as [| | | | | | ? Hitems |]; subst.
    assert (Hp : Forall (fun p => has_nul p = false) (map (value_text h) items)).
    { rewrite Forall_map. rewrite Forall_forall in *. intros x Hx. apply IH; auto. }
    unfold array_text. destruct (map (value_text h) items) eqn:E; [reflexivity|].
    rewrite <- E in *. rewrite !has_nul_app, PyString_Join_no_nul by exact Hp. reflexivity.
  - inversion Hg as [| | | | | | | ? Hentries _]; subst.
    assert (Hp : Forall (fun p => has_nul p = false)
              (map (fun e => value_text h (fst e) ++ bytes_of ": " ++ value_text h (snd e))
                   entries)).
    { rewrite Forall_map. rewrite Forall_forall in *. intros e He.
      destruct (IH e He) as [IHk IHv]. destruct (Hentries e He) as (_ & Hk & Hv).
      cbv beta. rewrite !has_nul_app, IHk, IHv by assumption. reflexivity. }
    unfold object_text.
    destruct (map _ entries) eqn:E; [reflexivity|].
    rewrite <- E in *. rewrite !has_nul_app, PyString_Join_no_nul by exact Hp. reflexivity.
Qed.

(** ** Decoding the text of a scalar *)

Lemma starts_with_nil (p : bytes) : starts_with [] p = true.
Proof. unfold starts_with. cbn. rewrite bool_decide_eq_true_2; reflexivity. Qed.

Lemma starts_with_cons (c c' : ascii) (word p : bytes) :
  starts_with (c :: word) (c' :: p) = is_char c' c && starts_with word p.
Proof.
  unfold starts_with. cbn [length take]. change (S (length word) <=? S (length p))%nat
    with (length word <=? length p)%nat.
  destruct (length word <=? length p)%nat; [|rewrite andb_false_r; reflexivity].
  cbn [andb]. rewrite andb_true_r || idtac.
  destruct (is_char c' c) eqn:E.
  - apply is_char_eq in E. subst c'. cbn [andb].
    destruct (bool_decide (take (length word) p = word)) eqn:Eb.
    + apply bool_decide_eq_true in Eb. apply bool_decide_eq_true. congruence.
    + apply bool_decide_eq_false in Eb. apply bool_decide_eq_false. congruence.
  - cbn [andb]. apply bool_decide_eq_false. intros H. injection H as H _.
    subst c'. unfold is_char in E. rewrite Ascii.eqb_refl in E. discriminate.
Qed.

Lemma skip_nonspace (s p : bytes) (au : bool) :
  isspace (peek p) = false -> skip (mkJSONData s p au) = mkJSONData s p au.
Proof.
  intros H. unfold skip, set_ptr. cbn [ptr str all_unicode]. f_equal.
  destruct p as [|c p]; [reflexivity|]. cbn [skipSpaces peek] in *. rewrite H.
  reflexivity.
Qed.

Lemma starts_value_inv (c : ascii) :
  starts_value c = true ->
  isspace c = false /\ is_char c NUL = false /\ is_char c "]" = false /\
  is_char c "," = false /\ is_char c "}" = false.
Proof.
  unfold starts_value. rewrite !andb_true_iff, !negb_true_iff. tauto.
Qed.

Section ScalarText.

Variable h : host.

Lemma decode_null_text (depth : nat) (s rest : bytes) (au : bool) :
  decode_json h depth (mkJSONData s (bytes_of "null" ++ rest) au)
  = Ok (VNone, mkJSONData s rest au).
Proof.
  rewrite decode_json_unfold, skip_nonspace by reflexivity. cbv zeta.
  cbn [bytes_of list_ascii_of_string app ptr peek].
  change (is_char "n" NUL) with false. change (is_char "n" "{") with false.
  change (is_char "n" "[") with false. change (is_char "n" DQUOTE) with false.
  change (is_char "n" "t") with false. change (is_char "n" "f") with false.
  change (is_char "n" "n") with true. cbn [orb]. cbv iota.
  unfold decode_null. cbn [ptr bytes_of list_ascii_of_string].
  rewrite !starts_with_cons, starts_with_nil. reflexivity.
Qed.

Lemma decode_bool_text (depth : nat) (s rest : bytes) (au : bool) (b : bool) :
  decode_json h depth
    (mkJSONData s ((if b then bytes_of "true" else bytes_of "false") ++ rest) au)
  = Ok (VBool b, mkJSONData s rest au).
Proof.
  destruct b.
  - rewrite decode_json_unfold, skip_nonspace by reflexivity. cbv zeta.
    cbn [bytes_of list_ascii_of_string app ptr peek].
    change (is_char "t" NUL) with false. change (is_char "t" "{") with false.
    change (is_char "t" "[") with false. change (is_char "t" DQUOTE) with false.
    change (is_char "t" "t") with true. cbn [orb]. cbv iota.
    unfold decode_bool. cbn [ptr bytes_of list_ascii_of_string].
    rewrite !starts_with_cons, starts_with_nil. reflexivity.
  - rewrite decode_json_unfold, skip_nonspace by reflexivity. cbv zeta.
    cbn [bytes_of list_ascii_of_string app ptr peek].
    change (is_char "f" NUL) with false. change (is_char "f" "{") with false.
    change (is_char "f" "[") with false. change (is_char "f" DQUOTE) with false.
    change (is_char "f" "t") with false. change (is_char "f" "f") with true.
    cbn [orb]. cbv iota.
    unfold decode_bool. cbn [ptr bytes_of list_ascii_of_string].
    rewrite !starts_with_cons, starts_with_nil. reflexivity.
Qed.

Lemma decode_nan_text (depth : nat) (s rest : bytes) (au : bool) :
  decode_json h depth (mkJSONData s (bytes_of "NaN" ++ rest) au)
  = Ok (VFloat NAN, mkJSONData s rest au).
Proof.
  rewrite decode_json_unfold, skip_nonspace by reflexivity. cbv zeta.
  cbn [bytes_of list_ascii_of_string app ptr peek].
  change (is_char "N" NUL) with false. change (is_char "N" "{") with false.
  change (is_char "N" "[") with false. change (is_char "N" DQUOTE) with false.
  change (is_char "N" "t") with false. change (is_char "N" "f") with false.
  change (is_char "N" "n") with false. change (is_char "N" "N") with true.
  cbn [orb]. cbv iota.
  unfold decode_nan. cbn [ptr bytes_of list_ascii_of_string].
  rewrite !starts_with_cons, starts_with_nil. reflexivity.
Qed.

Lemma decode_inf_text (depth : nat) (s rest : bytes) (au : bool) (neg : bool) :
  decode_json h depth
    (mkJSONData s ((if neg then bytes_of "-Infinity" else bytes_of "Infinity") ++ rest) au)
  = Ok (VFloat (S754_infinity neg), mkJSONData s rest au).
Proof.
  destruct neg.
  - rewrite decode_json_unfold, skip_nonspace by reflexivity. cbv zeta.
    cbn [bytes_of list_ascii_of_string app ptr peek advance tail].
    change (is_char "-" NUL) with false. change (is_char "-" "{") with false.
    change (is_char "-" "[") with false. change (is_char "-" DQUOTE) with false.
    change (is_char "-" "t") with false. change (is_char "-" "f") with false.
    change (is_char "-" "n") with false. change (is_char "-" "N") with false.
    change (is_char "-" "I") with false. change (is_char "-" "+") with false.
    change (is_char "-" "-") with true. change (is_char "I" "I") with true.
    cbn [orb andb]. cbv iota.
    unfold decode_inf. cbn [ptr bytes_of list_ascii_of_string].
    rewrite !starts_with_cons, starts_with_nil. reflexivity.
  - rewrite decode_json_unfold, skip_nonspace by reflexivity. cbv zeta.
    cbn [bytes_of list_ascii_of_string app ptr peek].
    change (is_char "I" NUL) with false. change (is_char "I" "{") with false.
    change (is_char "I" "[") with false. change (is_char "I" DQUOTE) with false.
    change (is_char "I" "t") with false. change (is_char "I" "f") with false.
    change (is_char "I" "n") with false. change (is_char "I" "N") with false.
    change (is_char "I" "I") with true.
    cbn [orb]. cbv iota.
    unfold decode_inf. cbn [ptr bytes_of list_ascii_of_string].
    rewrite !starts_with_cons, starts_with_nil. reflexivity.
Qed.

Lemma sign_or_digit_dispatch (c : ascii) :
  (is_char c "-" || is_char c "+" || isdigit c) = true ->
  is_char c NUL = false /\ is_char c "{" = false /\ is_char c "[" = false /\
  is_char c DQUOTE = false /\ is_char c "t" = false /\ is_char c "f" = false /\
  is_char c "n" = false /\ is_char c "N" = false /\ is_char c "I" = false /\
  isspace c = false /\ (is_char c "+" || is_char c "-" || isdigit c) = true.
Proof.
  destruct c as [[] [] [] [] [] [] [] []]; intros H;
    try (vm_compute in H; discriminate H); repeat split.
Qed.

(** The dispatcher hands a number token to [decode_number]. *)
Lemma decode_json_number (depth : nat) (s tok rest : bytes) (au : bool) :
  number_token tok ->
  decode_json h depth (mkJSONData s (tok ++ rest) au)
  = decode_number h (mkJSONData s (tok ++ rest) au).
Proof.
  intros Htok. destruct (number_token_head tok rest Htok) as (c & t & -> & Hc & Hnext).
  destruct (sign_or_digit_dispatch c Hc)
    as (H1 & H2 & H3 & H4 & H5 & H6 & H7 & H8 & H9 & H10 & H11).
  rewrite decode_json_unfold, skip_nonspace by exact H10. cbv zeta.
  cbn [app ptr peek advance tail].
  rewrite H1, H2, H3, H4, H5, H6, H7, H8, H9. cbn [orb]. cbv iota.
  destruct (is_char c "+" || is_char c "-") eqn:Es.
  - assert (Hd : isdigit (peek (t ++ rest)) = true).
    { apply Hnext. rewrite orb_comm. exact Es. }
    destruct (digit_not_special _ Hd) as (_ & _ & _ & _ & _ & ->). reflexivity.
  - cbn [andb orb] in *. rewrite H11. reflexivity.
Qed.

Lemma decode_number_token (s tok rest : bytes) (au : bool) :
  number_token tok -> ends_number rest ->
  decode_number h (mkJSONData s (tok ++ rest) au) =
  match (if contains_float_char tok
         then match PyFloat_FromString h tok with
              | Some f => Some (VFloat f)
              | None => None
              end
         else match PyInt_FromString tok with
              | Some z => Some (VInt z)
              | None => None
              end) with
  | Some v => Ok (v, mkJSONData s rest au)
  | None => Err (number_error (mkJSONData s (tok ++ rest) au))
  end.
Proof.
  intros Htok Hend. unfold decode_number. cbn [ptr].
  rewrite (scan_number_token tok rest Htok Hend). cbn [num_ptr is_float].
  rewrite length_app, Nat.add_sub, take_app_length. reflexivity.
Qed.

Lemma decode_int_text (depth : nat) (s rest : bytes) (au : bool) (z : Z) :
  ends_number rest ->
  decode_json h depth (mkJSONData s (Z_to_bytes z ++ rest) au)
  = Ok (VInt z, mkJSONData s rest au).
Proof.
  intros Hend. destruct (Z_to_bytes_number z) as [Htok Hfc].
  rewrite decode_json_number, decode_number_token by assumption.
  rewrite Hfc. destruct (Z_to_bytes_token z) as (_ & _ & _ & _ & _ & ->). reflexivity.
Qed.

Lemma decode_float_text (depth : nat) (s rest : bytes) (au : bool) (f : spec_float) :
  float_roundtrips h f -> ends_number rest ->
  exists f',
    decode_json h depth (mkJSONData s (float_text h f ++ rest) au)
    = Ok (VFloat f', mkJSONData s rest au) /\ float_eq f' f.
Proof.
  intros Hf Hend.
  assert (Hfin : number_token (float_repr h f) /\
                 contains_float_char (float_repr h f) = true /\
                 (exists f', PyFloat_FromString h (float_repr h f) = Some f' /\ float_eq f' f) ->
                 exists f',
                   decode_json h depth (mkJSONData s (float_repr h f ++ rest) au)
                   = Ok (VFloat f', mkJSONData s rest au) /\ float_eq f' f).
  { intros (Htok & Hfc & f' & Hconv & Heq). exists f'. split; [|exact Heq].
    rewrite decode_json_number, decode_number_token by assumption.
    rewrite Hfc, Hconv. reflexivity. }
  destruct f as [sg | sg | | sg m e]; cbn [float_text float_roundtrips] in *.
  - apply Hfin, Hf.
  - exists (S754_infinity sg). split; [|reflexivity].
    destruct sg; [apply (decode_inf_text depth s rest au true)
                 | apply (decode_inf_text depth s rest au false)].
  - exists S754_nan. split; [apply decode_nan_text | exact I].
  - apply Hfin, Hf.
Qed.

End ScalarText.

(** ** Decoding the text of a string *)

Lemma join_surrogates_bytes (us : list Z) :
  Forall (fun x => x < 0xD800) us -> join_surrogates us = us.
Proof.
  induction 1 as [|a us Ha Hus IH]; [reflexivity|].
  destruct us as [|b us']; [reflexivity|].
  rewrite join_surrogates_keep, IH; [reflexivity|].
  unfold is_high_surrogate. destruct (Z.leb_spec 0xD800 a); [lia | reflexivity].
Qed.

Lemma codes_below_surrogates (s : bytes) : Forall (fun x => x < 0xD800) (map code s).
Proof.
  rewrite Forall_map. apply Forall_forall. intros c _. cbv beta.
  pose proof (code_range c). lia.
Qed.

Lemma cp_tokens_plain (wide : bool) (cp : Z) :
  cp_ok wide cp = true -> existsb is_uesc (cp_tokens wide cp) = false ->
  map tok_byte (cp_tokens wide cp) = [chr cp] /\ 0 <= cp < 128.
Proof.
  unfold cp_ok, cp_tokens. intros Hok.
  apply andb_true_iff in Hok as [H0 _]. apply Z.leb_le in H0.
  change (code DQUOTE) with 34. change (code BACKSLASH) with 92.
  destruct (Z.eqb_spec cp 34) as [-> | N34]; [intros _; split; [reflexivity | lia]|].
  destruct (Z.eqb_spec cp 92) as [-> | N92]; [intros _; split; [reflexivity | lia]|].
  cbn [orb].
  destruct (wide && (65536 <=? cp)); [discriminate|].
  destruct (Z.leb_spec 256 cp); [discriminate|].
  destruct (Z.eqb_spec cp 9) as [-> | N9]; [intros _; split; [reflexivity | lia]|].
  destruct (Z.eqb_spec cp 10) as [-> | N10]; [intros _; split; [reflexivity | lia]|].
  destruct (Z.eqb_spec cp 13) as [-> | N13]; [intros _; split; [reflexivity | lia]|].
  destruct (Z.eqb_spec cp 12) as [-> | N12]; [intros _; split; [reflexivity | lia]|].
  destruct (Z.eqb_spec cp 8) as [-> | N8]; [intros _; split; [reflexivity | lia]|].
  destruct (Z.ltb_spec cp 32); [discriminate|].
  destruct (Z.leb_spec 127 cp); [discriminate|].
  intros _. split; [reflexivity | lia].
Qed.

Lemma unicode_tokens_plain (wide : bool) (u : list Z) :
  forallb (cp_ok wide) u = true -> existsb is_uesc (unicode_tokens wide u) = false ->
  exists b, map tok_byte (unicode_tokens wide u) = b /\ u = map code b /\
            forallb isascii b = true.
Proof.
  unfold unicode_tokens. induction u as [|cp u IH]; intros Hok Hno.
  - exists []. repeat split.
  - cbn [forallb] in Hok. apply andb_true_iff in Hok as [Hcp Hu].
    cbn [map concat] in Hno |- *. rewrite existsb_app in Hno.
    apply orb_false_iff in Hno as [Hno1 Hno2].
    destruct (IH Hu Hno2) as (b & Hb & Hub & Hascii).
    destruct (cp_tokens_plain wide cp Hcp Hno1) as [Hbyte Hrange].
    exists (chr cp :: b). rewrite map_app, Hbyte, Hb. split; [reflexivity|].
    cbn [map forallb]. rewrite code_chr by lia. split; [congruence|].
    rewrite Hascii, andb_true_r. unfold isascii. rewrite code_chr by lia.
    apply Z.ltb_lt. lia.
Qed.

Section StringText.

Variable h : host.

Lemma decode_json_string (depth : nat) (s p : bytes) (au : bool) :
  decode_json h depth (mkJSONData s (DQUOTE :: p) au)
  = decode_string h (mkJSONData s (DQUOTE :: p) au).
Proof.
  rewrite decode_json_unfold, skip_nonspace by reflexivity. cbv zeta.
  cbn [ptr peek].
  change (is_char DQUOTE NUL) with false. change (is_char DQUOTE "{") with false.
  change (is_char DQUOTE "[") with false. change (is_char DQUOTE DQUOTE) with true.
  reflexivity.
Qed.

(** [decode_string] on the rendering of escape items between two quotes. *)
Lemma decode_string_tokens (s rest : bytes) (ts : list etoken) (au : bool) :
  forallb tok_ok ts = true ->
  let d := mkJSONData s (DQUOTE :: render_all ts ++ DQUOTE :: rest) au in
  decode_interior h d
    (mkScan (DQUOTE :: rest) (existsb is_uesc ts) (existsb is_simple ts)) (render_all ts)
  = Ok (if existsb is_uesc ts || au
        then VUnicode (if Py_UNICODE_WIDE h then join_surrogates (map tok_unit ts)
                       else map tok_unit ts)
        else VString (map tok_byte ts)) /\
  forall v, decode_interior h d
    (mkScan (DQUOTE :: rest) (existsb is_uesc ts) (existsb is_simple ts)) (render_all ts)
    = Ok v -> decode_string h d = Ok (v, mkJSONData s rest au).
Proof.
  intros Hok d. split.
  - unfold decode_interior. cbn [has_unicode string_escape all_unicode d].
    destruct (existsb is_uesc ts || au) eqn:Eu.
    + unfold PyUnicode_DecodeUnicodeEscape.
      rewrite (unicode_escape_units_tokens ts Hok). reflexivity.
    + apply orb_false_iff in Eu as [Eu _].
      destruct (existsb is_simple ts) eqn:Es.
      * rewrite (PyString_DecodeEscape_tokens ts Hok Eu). reflexivity.
      * rewrite (render_all_plain ts Eu Es). reflexivity.
  - intros v Hv. unfold decode_string. subst d. cbn [ptr advance tail].
    rewrite (scan_string_tokens ts rest false false Hok). cbn [orb scan_ptr].
    replace (length (DQUOTE :: render_all ts ++ DQUOTE :: rest)
             - length (DQUOTE :: rest) - 1)%nat
      with (length (render_all ts)) by (cbn [length]; rewrite length_app; cbn [length]; lia).
    rewrite take_app_length. rewrite Hv. reflexivity.
Qed.

Lemma decode_string_text (depth : nat) (s0 rest s : bytes) (au : bool) :
  forallb isascii s = true ->
  exists v',
    decode_json h depth (mkJSONData s0 (string_text s ++ rest) au)
    = Ok (v', mkJSONData s0 rest au) /\ value_eq v' (VString s).
Proof.
  intros Hascii. unfold string_text. cbn [app]. rewrite <- app_assoc. cbn [app].
  rewrite decode_json_string.
  destruct (decode_string_tokens s0 rest (map byte_token s) au (byte_tokens_ok s))
    as [Hint Hdec].
  eexists. split; [apply Hdec, Hint|].
  destruct (existsb is_uesc (map byte_token s) || au) eqn:Eu.
  - rewrite byte_tokens_units.
    rewrite (join_surrogates_bytes _ (codes_below_surrogates s)).
    destruct (Py_UNICODE_WIDE h); apply veq_unicode_string, Hascii.
  - apply orb_false_iff in Eu as [Eu _].
    destruct (byte_tokens_bytes s Eu) as [-> _]. constructor.
Qed.

Lemma decode_unicode_text (depth : nat) (s0 rest : bytes) (u : list Z) (au : bool) :
  wf_unicode (Py_UNICODE_WIDE h) u = true ->
  exists v',
    decode_json h depth (mkJSONData s0 (unicode_text (Py_UNICODE_WIDE h) u ++ rest) au)
    = Ok (v', mkJSONData s0 rest au) /\ value_eq v' (VUnicode u).
Proof.
  intros Hwf. unfold wf_unicode in Hwf. apply andb_true_iff in Hwf as [Hcp Hpair].
  destruct (unicode_tokens_spec _ u Hcp) as [Hok Hunits].
  unfold unicode_text. cbn [app]. rewrite <- app_assoc. cbn [app].
  rewrite decode_json_string.
  destruct (decode_string_tokens s0 rest (unicode_tokens (Py_UNICODE_WIDE h) u) au Hok)
    as [Hint Hdec].
  eexists. split; [apply Hdec, Hint|].
  destruct (existsb is_uesc (unicode_tokens (Py_UNICODE_WIDE h) u) || au) eqn:Eu.
  - rewrite Hunits. fold (all_units (Py_UNICODE_WIDE h) u).
    destruct (Py_UNICODE_WIDE h).
    + rewrite (join_all_units u Hcp Hpair). constructor.
    + rewrite all_units_narrow. constructor.
  - apply orb_false_iff in Eu as [Eu _].
    destruct (unicode_tokens_plain _ u Hcp Eu) as (b & -> & -> & Hascii).
    apply veq_string_unicode, Hascii.
Qed.

End StringText.

(** ** Decoding the text of a list *)

Lemma PyString_Join_head (sep t : bytes) (c : ascii) (ts : list bytes) :
  exists x, PyString_Join sep ((c :: t) :: ts) = c :: x.
Proof. destruct ts; eexists; reflexivity. Qed.

Lemma ends_number_cons (c : ascii) (rest : bytes) :
  isdigit c = false -> is_char c "." = false -> is_char c "e" = false ->
  is_char c "E" = false -> ends_number (c :: rest).
Proof. intros. repeat split; assumption. Qed.

Lemma skip_space (s p : bytes) (au : bool) :
  skip (mkJSONData s (" "%char :: p) au) = skip (mkJSONData s p au).
Proof. reflexivity. Qed.

Lemma code_inj (a b : ascii) : code a = code b -> a = b.
Proof. intros H. rewrite <- (chr_code a), <- (chr_code b), H. reflexivity. Qed.

Lemma map_code_inj (a b : bytes) : map code a = map code b -> a = b.
Proof.
  revert b. induction a as [|x a IH]; intros [|y b] H; try discriminate H; [reflexivity|].
  cbn [map] in H. injection H as Hx Hab. f_equal; [apply code_inj, Hx | apply IH, Hab].
Qed.

Lemma key_eqb_norm (k1 k2 : pyvalue) :
  good_key k1 -> good_key k2 ->
  key_eqb k1 k2 = bool_decide (key_norm k1 = key_norm k2).
Proof.
  destruct k1 as [| ? | ? | ? | a | u | ? | ?], k2 as [| ? | ? | ? | a' | u' | ? | ?];
    cbn [good_key];
    try contradiction; intros H1 H2; cbn [key_eqb key_norm].
  - apply bool_decide_ext. split; [congruence | apply map_code_inj].
  - rewrite H1. reflexivity.
  - rewrite H2. cbn [andb]. apply bool_decide_ext. split; congruence.
  - reflexivity.
Qed.

Lemma value_eq_key (k' k : pyvalue) :
  value_eq k' k -> good_key k -> good_key k' /\ key_norm k' = key_norm k.
Proof.
  intros H. destruct H; cbn [good_key key_norm]; try tauto; intros _; split;
    auto.
Qed.

Lemma PyDict_SetItem_fresh (acc : list (pyvalue * pyvalue)) (k v : pyvalue) :
  Forall (fun a => key_eqb (fst a) k = false) acc ->
  PyDict_SetItem acc k v = acc ++ [(k, v)].
Proof.
  induction 1 as [|[k0 v0] acc Hk Hacc IH]; [reflexivity|].
  cbn [PyDict_SetItem fst app] in *. rewrite Hk, IH. reflexivity.
Qed.

Lemma good_is_key (h : host) (k : pyvalue) : is_key k = true -> good h k -> good_key k.
Proof.
  intros Hk Hg. destruct Hg; try discriminate Hk; cbn [good_key]; auto.
Qed.

Lemma distinct_keys_norms (es : list (pyvalue * pyvalue)) :
  Forall (fun e => good_key (fst e)) es -> distinct_keys es = true ->
  NoDup (map (fun e => key_norm (fst e)) es).
Proof.
  induction 1 as [|[k v] es Hk Hes IH]; intros Hd; [constructor|].
  cbn [distinct_keys] in Hd. apply andb_true_iff in Hd as [Hfresh Hd].
  cbn [map fst]. constructor; [|apply IH, Hd].
  intros Hin. apply list_elem_of_fmap in Hin as (e & Heq & He).
  rewrite forallb_forall in Hfresh. rewrite Forall_forall in Hes.
  specialize (Hes e He). apply list_elem_of_In in He. specialize (Hfresh e He).
  rewrite (key_eqb_norm k (fst e) Hk Hes) in Hfresh.
  apply negb_true_iff, bool_decide_eq_false in Hfresh. contradiction.
Qed.


Section ContainerText.

Variable decode_item : JSONData -> decoded.

(** The item decoder reads the text [t] as a value equal to [v], whatever
    follows that may follow a value. *)
Definition reads (t : bytes) (v : pyvalue) : Prop :=
  (exists c t', t = c :: t' /\ starts_value c = true) /\
  forall s rest au,
    ends_number rest ->
    exists v', decode_item (mkJSONData s (t ++ rest) au) = Ok (v', mkJSONData s rest au) /\
               value_eq v' v.

Lemma decode_array_loop_done (turns : nat) (start : bytes) (object : list pyvalue)
  (d : JSONData) :
  decode_array_loop decode_item turns start ArrayDone object d = Ok (VList object, d).
Proof. destruct turns; reflexivity. Qed.

Lemma reads_join_head (ts : list bytes) (vs : list pyvalue) (x : bytes) :
  Forall2 reads ts vs -> ts <> [] ->
  exists c y, PyString_Join (bytes_of ", ") ts ++ x = c :: y /\ starts_value c = true.
Proof.
  intros H Hne. destruct H as [|t v ts' vs' Ht _]; [congruence|].
  destruct Ht as [(c & t' & -> & Hc) _].
  destruct (PyString_Join_head (bytes_of ", ") t' c ts') as (y & ->).
  exists c, (y ++ x). split; [reflexivity | exact Hc].
Qed.

Lemma decode_array_items (ts : list bytes) (vs : list pyvalue) :
  Forall2 reads ts vs -> ts <> [] ->
  forall turns start st acc d s rest au,
    st = ArrayItem \/ st = ArrayItem_or_ClosingBracket ->
    skip d = mkJSONData s (PyString_Join (bytes_of ", ") ts ++ "]"%char :: rest) au ->
    (length (PyString_Join (bytes_of ", ") ts ++ "]"%char :: rest) < turns)%nat ->
    exists vs',
      decode_array_loop decode_item turns start st acc d
      = Ok (VList (acc ++ vs'), mkJSONData s rest au) /\
      Forall2 value_eq vs' vs.
Proof.
  induction 1 as [|t v ts vs Ht Hts IH];
    intros Hne turns start st acc d s rest au Hst Hskip Hlen; [congruence|].
  destruct Ht as [(c & t' & -> & Hc) Hread].
  destruct (starts_value_inv c Hc) as (Hsp & Hnul & Hbr & Hcomma & _).
  set (rest' := match ts with
                | [] => "]"%char :: rest
                | _ => bytes_of ", " ++ PyString_Join (bytes_of ", ") ts ++ "]"%char :: rest
                end).
  assert (Hjoin : PyString_Join (bytes_of ", ") ((c :: t') :: ts) ++ "]"%char :: rest
                  = (c :: t') ++ rest').
  { subst rest'. destruct ts as [|t2 ts]; [reflexivity|].
    rewrite PyString_Join_cons by discriminate. rewrite <- !app_assoc. reflexivity. }
  rewrite Hjoin in Hskip, Hlen.
  assert (Hend : ends_number rest').
  { subst rest'. destruct ts; apply ends_number_cons; reflexivity. }
  destruct (Hread s rest' au Hend) as (v' & Hdec & Hveq).
  destruct turns as [|turns]; [lia|].
  rewrite decode_array_loop_S, Hskip. cbn [ptr app peek]. rewrite Hnul, Hbr.
  assert (Hitem : (match st with
                   | ArrayItem_or_ClosingBracket | ArrayItem =>
                       array_item decode_item turns start acc
                         (mkJSONData s (c :: t' ++ rest') au)
                   | Comma_or_ClosingBracket =>
                       if is_char c ","
                       then decode_array_loop decode_item turns start ArrayItem acc
                              (next (mkJSONData s (c :: t' ++ rest') au))
                       else Err (JSON_DecodeError
                                   (fmt_pos "expecting ',' or ']' at position "
                                      (offset (mkJSONData s (c :: t' ++ rest') au)
                                         (c :: t' ++ rest'))))
                   | ArrayDone => Ok (VList acc, d)
                   end) = array_item decode_item turns start acc
                            (mkJSONData s (c :: t' ++ rest') au))
    by (destruct Hst as [-> | ->]; reflexivity).
  rewrite Hitem. clear Hitem.
  unfold array_item. cbn [ptr app peek]. rewrite Hcomma, Hbr. cbn [orb].
  change (c :: t' ++ rest') with ((c :: t') ++ rest'). rewrite Hdec.
  assert (Hlen' : (length rest' < turns)%nat).
  { rewrite length_app in Hlen. cbn [length] in Hlen. lia. }
  destruct turns as [|turns]; [lia|].
  rewrite decode_array_loop_S.
  subst rest'. destruct ts as [|t2 ts].
  - rewrite skip_nonspace by reflexivity. cbn [ptr peek].
    change (is_char "]" NUL) with false. change (is_char "]" "]") with true. cbv iota.
    rewrite decode_array_loop_done. exists [v']. split; [reflexivity|].
    inversion Hts; subst. constructor; [exact Hveq | constructor].
  - change (bytes_of ", " ++ ?x) with (","%char :: " "%char :: x) in Hlen' |- *.
    rewrite skip_nonspace by reflexivity. cbn [ptr peek].
    change (is_char "," NUL) with false. change (is_char "," "]") with false.
    change (is_char "," ",") with true. cbv iota.
    destruct (reads_join_head (t2 :: ts) vs ("]"%char :: rest) Hts ltac:(discriminate))
      as (c2 & y & Hhead & Hc2).
    destruct (starts_value_inv c2 Hc2) as (Hsp2 & _).
    destruct (IH ltac:(discriminate) turns start ArrayItem (acc ++ [v'])
                (next (mkJSONData s
                   (","%char :: " "%char ::
                    PyString_Join (bytes_of ", ") (t2 :: ts) ++ "]"%char :: rest) au))
                s rest au) as (vs' & Hloop & Hvs').
    + left; reflexivity.
    + unfold next, set_ptr. cbn [ptr advance tail str all_unicode].
      rewrite skip_space. apply skip_nonspace. rewrite Hhead. exact Hsp2.
    + cbn [length] in Hlen'. lia.
    + rewrite Hloop. exists (v' :: vs'). rewrite <- app_assoc. split; [reflexivity|].
      constructor; assumption.
Qed.

(** [decode_array] on the text of a list. *)
Lemma decode_array_text (ts : list bytes) (vs : list pyvalue) (s rest : bytes) (au : bool) :
  Forall2 reads ts vs ->
  exists vs',
    decode_array decode_item (mkJSONData s (array_text ts ++ rest) au)
    = Ok (VList vs', mkJSONData s rest au) /\
    Forall2 value_eq vs' vs.
Proof.
  intros Hts. unfold decode_array, array_text.
  destruct ts as [|t ts].
  - inversion Hts; subst. exists []. split; [|constructor].
    cbn [ptr bytes_of list_ascii_of_string app length].
    rewrite decode_array_loop_S.
    unfold next, set_ptr. cbn [ptr advance tail str all_unicode].
    rewrite skip_nonspace by reflexivity. cbn [ptr peek].
    change (is_char "]" NUL) with false. change (is_char "]" "]") with true. cbv iota.
    rewrite decode_array_loop_done. reflexivity.
  - cbn [ptr]. rewrite <- !app_assoc.
    change (bytes_of "[" ++ ?x) with ("["%char :: x).
    change (bytes_of "]" ++ rest) with ("]"%char :: rest).
    destruct (reads_join_head (t :: ts) vs ("]"%char :: rest) Hts ltac:(discriminate))
      as (c & y & Hhead & Hc).
    destruct (starts_value_inv c Hc) as (Hsp & _).
    apply (decode_array_items (t :: ts) vs Hts ltac:(discriminate) _ _
             ArrayItem_or_ClosingBracket [] _ s rest au).
    + right; reflexivity.
    + unfold next, set_ptr. cbn [ptr advance tail str all_unicode].
      apply skip_nonspace. rewrite Hhead. exact Hsp.
    + cbn [length]. lia.
Qed.

(** ** Decoding the text of a dict *)

(** The text of an entry: the key is a string, then a colon and the value. *)
Definition pair_reads (p : bytes) (e : pyvalue * pyvalue) : Prop :=
  exists kt vt,
    p = DQUOTE :: kt ++ bytes_of ": " ++ vt /\
    reads (DQUOTE :: kt) (fst e) /\ reads vt (snd e) /\ good_key (fst e).

Definition entry_eq (e' e : pyvalue * pyvalue) : Prop :=
  value_eq (fst e') (fst e) /\ value_eq (snd e') (snd e).

Lemma decode_object_loop_done (turns : nat) (start : bytes)
  (object : list (pyvalue * pyvalue)) (d : JSONData) :
  decode_object_loop decode_item turns start DictionaryDone object d = Ok (VDict object, d).
Proof. destruct turns; reflexivity. Qed.

Lemma pair_reads_join_head (ps : list bytes) (es : list (pyvalue * pyvalue)) (x : bytes) :
  Forall2 pair_reads ps es -> ps <> [] ->
  exists y, PyString_Join (bytes_of ", ") ps ++ x = DQUOTE :: y.
Proof.
  intros H Hne. destruct H as [|p e ps' es' Hp _]; [congruence|].
  destruct Hp as (kt & vt & -> & _).
  destruct (PyString_Join_head (bytes_of ", ") (kt ++ bytes_of ": " ++ vt) DQUOTE ps')
    as (y & ->).
  exists (y ++ x). reflexivity.
Qed.

(** One entry: the key, the colon and the value. *)
Lemma object_pair_text (turns : nat) (start : bytes) (acc : list (pyvalue * pyvalue))
  (e : pyvalue * pyvalue) (kt vt s rest : bytes) (au : bool) :
  reads (DQUOTE :: kt) (fst e) -> reads vt (snd e) -> good_key (fst e) ->
  Forall (fun a => good_key (fst a)) acc ->
  Forall (fun a => key_norm (fst a) <> key_norm (fst e)) acc ->
  ends_number rest ->
  exists e',
    object_pair decode_item turns start acc
      (mkJSONData s ((DQUOTE :: kt ++ bytes_of ": " ++ vt) ++ rest) au)
    = decode_object_loop decode_item turns start Comma_or_ClosingBrace (acc ++ [e'])
        (mkJSONData s rest au) /\
    entry_eq e' e /\ good_key (fst e').
Proof.
  intros [_ Hk] [(c & vt' & -> & Hc) Hv] Hgk Hacc Hfresh Hend.
  destruct (starts_value_inv c Hc) as (Hsp & _ & _ & Hcomma & Hbrace).
  cbn [app]. rewrite <- app_assoc.
  change (bytes_of ": " ++ ?x) with (":"%char :: " "%char :: x).
  destruct (Hk s (":"%char :: " "%char :: (c :: vt') ++ rest) au) as (k' & Hdk & Hkeq);
    [apply ends_number_cons; reflexivity|].
  destruct (Hv s rest au Hend) as (v' & Hdv & Hveq).
  destruct (value_eq_key k' (fst e) Hkeq Hgk) as [Hgk' Hnorm].
  exists (k', v'). split; [|split; [split; assumption | exact Hgk']].
  unfold object_pair. cbn [ptr peek app].
  change (is_char DQUOTE DQUOTE) with true. cbn [negb].
  change (DQUOTE :: kt ++ ":"%char :: " "%char :: c :: vt' ++ rest)
    with ((DQUOTE :: kt) ++ ":"%char :: " "%char :: (c :: vt') ++ rest).
  rewrite Hdk.
  rewrite (skip_nonspace s (":"%char :: " "%char :: (c :: vt') ++ rest) au) by reflexivity.
  cbn [ptr peek]. change (is_char ":" ":") with true. cbn [negb].
  unfold next, set_ptr. cbn [ptr advance tail str all_unicode].
  rewrite skip_space, skip_nonspace by exact Hsp.
  cbn [ptr peek app]. rewrite Hcomma, Hbrace. cbn [orb].
  change (c :: vt' ++ rest) with ((c :: vt') ++ rest). rewrite Hdv.
  rewrite PyDict_SetItem_fresh; [reflexivity|].
  rewrite Forall_forall in *. intros a Ha.
  rewrite (key_eqb_norm (fst a) k' (Hacc a Ha) Hgk').
  apply bool_decide_eq_false. rewrite Hnorm. apply Hfresh, Ha.
Qed.

Lemma decode_object_pairs (ps : list bytes) (es : list (pyvalue * pyvalue)) :
  Forall2 pair_reads ps es -> ps <> [] ->
  forall turns start st acc d s rest au,
    st = DictionaryKey \/ st = DictionaryKey_or_ClosingBrace ->
    Forall (fun a => good_key (fst a)) acc ->
    Forall (fun e => Forall (fun a => key_norm (fst a) <> key_norm (fst e)) acc) es ->
    NoDup (map (fun e => key_norm (fst e)) es) ->
    skip d = mkJSONData s (PyString_Join (bytes_of ", ") ps ++ "}"%char :: rest) au ->
    (length (PyString_Join (bytes_of ", ") ps ++ "}"%char :: rest) < turns)%nat ->
    exists es',
      decode_object_loop decode_item turns start st acc d
      = Ok (VDict (acc ++ es'), mkJSONData s rest au) /\
      Forall2 entry_eq es' es.
Proof.
  induction 1 as [|p e ps es Hp Hps IH];
    intros Hne turns start st acc d s rest au Hst Hacc Hfresh Hnd Hskip Hlen; [congruence|].
  destruct Hp as (kt & vt & -> & Hk & Hv & Hgk).
  set (pt := DQUOTE :: kt ++ bytes_of ": " ++ vt) in *.
  set (rest' := match ps with
                | [] => "}"%char :: rest
                | _ => bytes_of ", " ++ PyString_Join (bytes_of ", ") ps ++ "}"%char :: rest
                end).
  assert (Hjoin : PyString_Join (bytes_of ", ") (pt :: ps) ++ "}"%char :: rest
                  = pt ++ rest').
  { subst rest'. destruct ps as [|p2 ps]; [reflexivity|].
    rewrite PyString_Join_cons by discriminate. rewrite <- !app_assoc. reflexivity. }
  rewrite Hjoin in Hskip, Hlen.
  assert (Hend : ends_number rest').
  { subst rest'. destruct ps; apply ends_number_cons; reflexivity. }
  inversion Hfresh as [|? ? Hfresh_e Hfresh_es]; subst.
  cbn [map] in Hnd. apply NoDup_cons in Hnd as [Hnotin Hnd].
  destruct (object_pair_text (Nat.pred turns) start acc e kt vt s rest' au
              Hk Hv Hgk Hacc Hfresh_e Hend) as (e' & Hpair & Heq & Hgk').
  fold pt in Hpair.
  destruct turns as [|turns]; [lia|]. cbn [Nat.pred] in Hpair.
  assert (Hstep : decode_object_loop decode_item (S turns) start st acc d
                  = object_pair decode_item turns start acc
                      (mkJSONData s (pt ++ rest') au)).
  { rewrite decode_object_loop_S, Hskip. cbn [ptr].
    assert (Hn : is_char (peek (pt ++ rest')) NUL = false) by reflexivity.
    assert (Hb : is_char (peek (pt ++ rest')) "}" = false) by reflexivity.
    rewrite Hn. destruct Hst as [-> | ->]; [reflexivity | rewrite Hb; reflexivity]. }
  rewrite Hstep, Hpair. clear Hstep Hpair.
  assert (Hlen' : (length rest' < turns)%nat).
  { rewrite length_app in Hlen. subst pt. cbn [length] in Hlen. lia. }
  destruct turns as [|turns]; [lia|].
  rewrite decode_object_loop_S.
  subst rest'. destruct ps as [|p2 ps].
  - rewrite skip_nonspace by reflexivity. cbn [ptr peek].
    change (is_char "}" NUL) with false. change (is_char "}" "}") with true. cbv iota.
    rewrite decode_object_loop_done. exists [e']. split; [reflexivity|].
    inversion Hps; subst. constructor; [exact Heq | constructor].
  - change (bytes_of ", " ++ ?x) with (","%char :: " "%char :: x) in Hlen' |- *.
    rewrite skip_nonspace by reflexivity. cbn [ptr peek].
    change (is_char "," NUL) with false. change (is_char "," "}") with false.
    change (is_char "," ",") with true. cbv iota.
    destruct (pair_reads_join_head (p2 :: ps) es ("}"%char :: rest) Hps ltac:(discriminate))
      as (y2 & Hhead).
    destruct (IH ltac:(discriminate) turns start DictionaryKey (acc ++ [e'])
                (next (mkJSONData s
                   (","%char :: " "%char ::
                    PyString_Join (bytes_of ", ") (p2 :: ps) ++ "}"%char :: rest) au))
                s rest au) as (es' & Hloop & Hes').
    + left; reflexivity.
    + apply Forall_app. split; [exact Hacc | constructor; [exact Hgk' | constructor]].
    + apply Forall_forall. intros e2 He2. apply Forall_app. split.
      * exact (proj1 (Forall_forall _ _) Hfresh_es e2 He2).
      * constructor; [|constructor]. destruct Heq as [Hkeq _].
        destruct (value_eq_key _ _ Hkeq Hgk) as [_ ->].
        intros Hsame. apply Hnotin. rewrite Hsame.
        apply (list_elem_of_fmap_2 (fun e => key_norm (fst e))), He2.
    + exact Hnd.
    + unfold next, set_ptr. cbn [ptr advance tail str all_unicode].
      rewrite skip_space. apply skip_nonspace. rewrite Hhead. reflexivity.
    + cbn [length] in Hlen'. lia.
    + rewrite Hloop. exists (e' :: es'). rewrite <- app_assoc. split; [reflexivity|].
      constructor; assumption.
Qed.

(** [decode_object] on the text of a dict. *)
Lemma decode_object_text (ps : list bytes) (es : list (pyvalue * pyvalue))
  (s rest : bytes) (au : bool) :
  Forall2 pair_reads ps es ->
  NoDup (map (fun e => key_norm (fst e)) es) ->
  exists es',
    decode_object decode_item (mkJSONData s (object_text ps ++ rest) au)
    = Ok (VDict es', mkJSONData s rest au) /\
    Forall2 entry_eq es' es.
Proof.
  intros Hps Hnd. unfold decode_object, object_text.
  destruct ps as [|p ps].
  - inversion Hps; subst. exists []. split; [|constructor].
    cbn [ptr bytes_of list_ascii_of_string app length].
    rewrite decode_object_loop_S.
    unfold next, set_ptr. cbn [ptr advance tail str all_unicode].
    rewrite skip_nonspace by reflexivity. cbn [ptr peek].
    change (is_char "}" NUL) with false. change (is_char "}" "}") with true. cbv iota.
    rewrite decode_object_loop_done. reflexivity.
  - cbn [ptr]. rewrite <- !app_assoc.
    change (bytes_of "{" ++ ?x) with ("{"%char :: x).
    change (bytes_of "}" ++ rest) with ("}"%char :: rest).
    destruct (pair_reads_join_head (p :: ps) es ("}"%char :: rest) Hps ltac:(discriminate))
      as (y & Hhead).
    apply (decode_object_pairs (p :: ps) es Hps ltac:(discriminate) _ _
             DictionaryKey_or_ClosingBrace [] _ s rest au).
    + right; reflexivity.
    + constructor.
    + apply Forall_forall. intros e _. constructor.
    + exact Hnd.
    + unfold next, set_ptr. cbn [ptr advance tail str all_unicode].
      apply skip_nonspace. rewrite Hhead. reflexivity.
    + cbn [length]. lia.
Qed.

End ContainerText.

(** ** Decoding the text of a value *)

Lemma depth_of_item (x : pyvalue) (items : list pyvalue) :
  x ∈ items -> (depth_of x <= fold_right Nat.max 0 (map depth_of items))%nat.
Proof.
  induction 1 as [x items | x y items _ IH]; cbn [map fold_right]; lia.
Qed.

Lemma depth_of_entry (e : pyvalue * pyvalue) (entries : list (pyvalue * pyvalue)) :
  e ∈ entries ->
  (Nat.max (depth_of (fst e)) (depth_of (snd e))
   <= fold_right Nat.max 0
        (map (fun e => Nat.max (depth_of (fst e)) (depth_of (snd e))) entries))%nat.
Proof.
  induction 1 as [e entries | e y entries _ IH]; cbn [map fold_right]; lia.
Qed.

Lemma key_text_head (h : host) (k : pyvalue) :
  is_key k = true -> exists kt, value_text h k = DQUOTE :: kt.
Proof.
  destruct k; try discriminate; intros _; eexists; reflexivity.
Qed.

Section ValueText.

Variable h : host.

Lemma decode_json_list (depth : nat) (s p : bytes) (au : bool) :
  decode_json h (S depth) (mkJSONData s ("["%char :: p) au)
  = decode_array (decode_json h depth) (mkJSONData s ("["%char :: p) au).
Proof.
  rewrite decode_json_unfold, skip_nonspace by reflexivity. reflexivity.
Qed.

Lemma decode_json_dict (depth : nat) (s p : bytes) (au : bool) :
  decode_json h (S depth) (mkJSONData s ("{"%char :: p) au)
  = decode_object (decode_json h depth) (mkJSONData s ("{"%char :: p) au).
Proof.
  rewrite decode_json_unfold, skip_nonspace by reflexivity. reflexivity.
Qed.

Lemma array_text_head (ts : list bytes) : exists y, array_text ts = "["%char :: y.
Proof. unfold array_text. destruct ts; eexists; reflexivity. Qed.

Lemma object_text_head (ps : list bytes) : exists y, object_text ps = "{"%char :: y.
Proof. unfold object_text. destruct ps; eexists; reflexivity. Qed.

(** The decoder reads the text of a value back as an equal value. *)
Lemma decode_value_text (v : pyvalue) :
  good h v ->
  forall depth s rest au,
    (depth_of v <= depth)%nat -> ends_number rest ->
    exists v',
      decode_json h depth (mkJSONData s (value_text h v ++ rest) au)
      = Ok (v', mkJSONData s rest au) /\ value_eq v' v.
Proof.
  induction v as [| b | z | f | bs | u | items IH | entries IH] using pyvalue_induction;
    intros Hg depth s rest au Hdepth Hend; cbn [value_text].
  - exists VNone. split; [apply decode_null_text | constructor].
  - exists (VBool b). split; [|constructor].
    destruct b; [apply (decode_bool_text h depth s rest au true)
                | apply (decode_bool_text h depth s rest au false)].
  - exists (VInt z). split; [apply decode_int_text, Hend | constructor].
  - inversion Hg as [| | | ? Hf | | | |]; subst.
    destruct (decode_float_text h depth s rest au f Hf Hend) as (f' & Hdec & Heq).
    exists (VFloat f'). split; [exact Hdec | constructor; exact Heq].
  - inversion Hg; subst. apply decode_string_text. assumption.
  - inversion Hg; subst. apply decode_unicode_text. assumption.
  - inversion Hg as [| | | | | | ? Hitems |]; subst.
    cbn [depth_of] in Hdepth. destruct depth as [|depth]; [lia|].
    assert (Hreads : Forall2 (reads (decode_json h depth)) (map (value_text h) items) items).
    { apply Forall2_fmap_l, Forall_Forall2_diag, Forall_forall. intros x Hx.
      rewrite Forall_forall in IH, Hitems. split.
      - apply value_text_head, Hitems, Hx.
      - intros s' rest' au' Hend'. apply IH; auto.
        pose proof (depth_of_item x items Hx). lia. }
    destruct (array_text_head (map (value_text h) items)) as (y & Hy).
    destruct (decode_array_text (decode_json h depth) _ items s rest au Hreads)
      as (vs' & Hdec & Hvs').
    exists (VList vs'). split; [|constructor; exact Hvs'].
    rewrite <- Hdec. rewrite Hy. cbn [app]. apply decode_json_list.
  - inversion Hg as [| | | | | | | ? Hentries Hdist]; subst.
    cbn [depth_of] in Hdepth. destruct depth as [|depth]; [lia|].
    assert (Hreads : Forall2 (pair_reads (decode_json h depth))
              (map (fun e => value_text h (fst e) ++ bytes_of ": " ++ value_text h (snd e))
                   entries) entries).
    { apply Forall2_fmap_l, Forall_Forall2_diag, Forall_forall. intros e He.
      rewrite Forall_forall in IH, Hentries.
      destruct (IH e He) as [IHk IHv]. destruct (Hentries e He) as (Hkey & Hgk & Hgv).
      pose proof (depth_of_entry e entries He) as Hde.
      destruct (key_text_head h (fst e) Hkey) as (kt & Hkt).
      exists kt, (value_text h (snd e)). rewrite Hkt. split; [reflexivity|].
      rewrite <- Hkt. split; [|split].
      - split; [apply value_text_head, Hgk|].
        intros s' rest' au' Hend'. apply IHk; auto. lia.
      - split; [apply value_text_head, Hgv|].
        intros s' rest' au' Hend'. apply IHv; auto. lia.
      - apply (good_is_key h); assumption. }
    rename Hdist into Hnd.
    destruct (object_text_head
                (map (fun e => value_text h (fst e) ++ bytes_of ": " ++ value_text h (snd e))
                     entries)) as (y & Hy).
    destruct (decode_object_text (decode_json h depth) _ entries s rest au Hreads Hnd)
      as (es' & Hdec & Hes').
    exists (VDict es'). split; [|apply (veq_dict es' entries entries); [exact Hes' | reflexivity]].
    rewrite <- Hdec. rewrite Hy. cbn [app]. apply decode_json_dict.
Qed.

End ValueText.

(** ** The values the decoder builds *)

(** The shape of a decoded value: a Unicode String is a sequence of code
    units of the build with no surrogate pair left in a wide build, and the
    keys of a dict are strings, no two of them the same key. *)
Inductive built (wide : bool) : pyvalue -> Prop :=
| built_none : built wide VNone
| built_bool (b : bool) : built wide (VBool b)
| built_int (z : Z) : built wide (VInt z)
| built_float (f : spec_float) : built wide (VFloat f)
| built_string (s : bytes) : built wide (VString s)
| built_unicode (u : list Z) : wf_unicode wide u = true -> built wide (VUnicode u)
| built_list (items : list pyvalue) : Forall (built wide) items -> built wide (VList items)
| built_dict (entries : list (pyvalue * pyvalue)) :
    Forall (fun e => is_key (fst e) = true /\ built wide (fst e) /\ built wide (snd e))
      entries ->
    distinct_keys entries = true ->
    built wide (VDict entries).

Lemma fold_max_le {A} (f : A -> nat) (l : list A) (n : nat) :
  Forall (fun x => (f x <= n)%nat) l -> (fold_right Nat.max 0 (map f l) <= n)%nat.
Proof. induction 1; cbn [map fold_right]; lia. Qed.

Lemma forallb_SetItem (f : pyvalue -> bool) (es : list (pyvalue * pyvalue))
  (k v : pyvalue) :
  forallb (fun e => f (fst e)) es = true -> f k = true ->
  forallb (fun e => f (fst e)) (PyDict_SetItem es k v) = true.
Proof.
  intros Hes Hk. induction es as [|[k0 v0] es IH]; cbn [PyDict_SetItem forallb fst] in *.
  - rewrite Hk. reflexivity.
  - apply andb_true_iff in Hes as [H0 Hes].
    destruct (key_eqb k0 k); cbn [forallb fst]; rewrite H0; [exact Hes | apply IH, Hes].
Qed.

Lemma PyDict_SetItem_distinct (es : list (pyvalue * pyvalue)) (k v : pyvalue) :
  distinct_keys es = true -> distinct_keys (PyDict_SetItem es k v) = true.
Proof.
  induction es as [|[k0 v0] es IH]; intros Hd; [reflexivity|].
  cbn [distinct_keys] in Hd. apply andb_true_iff in Hd as [Hfresh Hd].
  cbn [PyDict_SetItem]. destruct (key_eqb k0 k) eqn:E; cbn [distinct_keys].
  - rewrite Hfresh, Hd. reflexivity.
  - rewrite (IH Hd), andb_true_r.
    apply (forallb_SetItem (fun x => negb (key_eqb k0 x))); [exact Hfresh|].
    rewrite E. reflexivity.
Qed.

Lemma PyDict_SetItem_Forall (P : pyvalue * pyvalue -> Prop) (Q : pyvalue -> Prop)
  (es : list (pyvalue * pyvalue)) (k v : pyvalue) :
  (forall k0 v0 v1, P (k0, v0) -> Q v1 -> P (k0, v1)) ->
  Forall P es -> P (k, v) -> Q v -> Forall P (PyDict_SetItem es k v).
Proof.
  intros Hrepl Hes Hkv Hv. induction Hes as [|[k0 v0] es H0 Hes IH]; cbn [PyDict_SetItem].
  - constructor; [exact Hkv | constructor].
  - destruct (key_eqb k0 k); constructor; eauto.
Qed.

Section BuiltLoops.

Variable decode_item : JSONData -> decoded.
Variable Q : pyvalue -> Prop.
Hypothesis item_built : forall d v d', decode_item d = Ok (v, d') -> Q v.
Hypothesis item_key :
  forall d v d', is_char (peek (ptr d)) DQUOTE = true ->
                 decode_item d = Ok (v, d') -> is_key v = true.

Lemma decode_array_loop_built (turns : nat) (start : bytes) (st : ArrayState)
  (object : list pyvalue) (d : JSONData) (v : pyvalue) (d' : JSONData) :
  decode_array_loop decode_item turns start st object d = Ok (v, d') ->
  Forall Q object -> exists items, v = VList items /\ Forall Q items.
Proof.
  revert st object d. induction turns as [|turns IH]; intros st object d.
  - destruct st; simpl; try discriminate. intros [= <- <-] Ho. eauto.
  - assert (Hitem : array_item decode_item turns start object (skip d) = Ok (v, d') ->
                    Forall Q object -> exists items, v = VList items /\ Forall Q items).
    { unfold array_item. destruct (_ || _); [discriminate|].
      destruct (decode_item (skip d)) as [[item d1]|] eqn:Ei; [|discriminate].
      intros H Ho. apply (IH _ _ _ H). apply Forall_app. split; [exact Ho|].
      constructor; [eapply item_built; eauto | constructor]. }
    rewrite decode_array_loop_S.
    destruct (is_char (peek (ptr (skip d))) NUL).
    { destruct st; try discriminate. intros [= <- <-] Ho. eauto. }
    destruct st.
    + destruct (is_char (peek (ptr (skip d))) "]"); [apply IH | exact Hitem].
    + destruct (is_char (peek (ptr (skip d))) "]"); [apply IH|].
      destruct (is_char (peek (ptr (skip d))) ","); [apply IH | discriminate].
    + exact Hitem.
    + intros [= <- <-] Ho. eauto.
Qed.

Definition entry_built (e : pyvalue * pyvalue) : Prop :=
  is_key (fst e) = true /\ Q (fst e) /\ Q (snd e).

Lemma decode_object_loop_built (turns : nat) (start : bytes) (st : DictionaryState)
  (object : list (pyvalue * pyvalue)) (d : JSONData) (v : pyvalue) (d' : JSONData) :
  decode_object_loop decode_item turns start st object d = Ok (v, d') ->
  Forall entry_built object -> distinct_keys object = true ->
  exists entries, v = VDict entries /\ Forall entry_built entries /\
                  distinct_keys entries = true.
Proof.
  revert st object d. induction turns as [|turns IH]; intros st object d.
  - destruct st; simpl; try discriminate. intros [= <- <-] Ho Hd. eauto.
  - assert (Hpair : object_pair decode_item turns start object (skip d) = Ok (v, d') ->
                    Forall entry_built object -> distinct_keys object = true ->
                    exists entries, v = VDict entries /\ Forall entry_built entries /\
                                    distinct_keys entries = true).
    { unfold object_pair. destruct (is_char (peek (ptr (skip d))) DQUOTE) eqn:Eq;
        [|discriminate]. cbn [negb].
      destruct (decode_item (skip d)) as [[key d1]|] eqn:Ek; [|discriminate].
      destruct (negb _); [discriminate|].
      destruct (_ || _); [discriminate|].
      destruct (decode_item (skip (next (skip d1)))) as [[value d3]|] eqn:Ev;
        [|discriminate].
      intros H Ho Hd. apply (IH _ _ _ H).
      - apply (PyDict_SetItem_Forall entry_built Q).
        + intros k0 v0 v1 (Hk0 & Hq0 & _) Hq1. repeat split; assumption.
        + exact Ho.
        + repeat split; cbn [fst snd]; eauto.
        + eauto.
      - apply PyDict_SetItem_distinct, Hd. }
    rewrite decode_object_loop_S.
    destruct (is_char (peek (ptr (skip d))) NUL).
    { destruct st; try discriminate. intros [= <- <-] Ho Hd. eauto. }
    destruct st.
    + destruct (is_char (peek (ptr (skip d))) "}"); [apply IH | exact Hpair].
    + destruct (is_char (peek (ptr (skip d))) "}"); [apply IH|].
      destruct (is_char (peek (ptr (skip d))) ","); [apply IH | discriminate].
    + exact Hpair.
    + intros [= <- <-] Ho Hd. eauto.
Qed.

End BuiltLoops.

Section Built.

Variable h : host.

Lemma decode_string_built (d : JSONData) (v : pyvalue) (d' : JSONData) :
  decode_string h d = Ok (v, d') ->
  is_key v = true /\ built (Py_UNICODE_WIDE h) v /\ depth_of v = 0%nat.
Proof.
  unfold decode_string. destruct (scan_string _ _ _ _) as [sc|]; [|discriminate].
  cbv zeta. unfold decode_interior.
  destruct (has_unicode sc || all_unicode d).
  - destruct (PyUnicode_DecodeUnicodeEscape _ _) as [u|e] eqn:E.
    + intros [= <- <-]. repeat split. constructor.
      apply (PyUnicode_DecodeUnicodeEscape_wf _ _ _ E).
    + destruct e; discriminate.
  - destruct (string_escape sc).
    + destruct (PyString_DecodeEscape _) as [b|e].
      * intros [= <- <-]. repeat split. constructor.
      * destruct e; discriminate.
    + intros [= <- <-]. repeat split. constructor.
Qed.

Lemma decode_keyword_built (d : JSONData) (v : pyvalue) (d' : JSONData) :
  decode_bool d = Ok (v, d') \/ decode_null d = Ok (v, d') \/
  decode_nan d = Ok (v, d') \/ decode_inf d = Ok (v, d') \/
  decode_number h d = Ok (v, d') ->
  built (Py_UNICODE_WIDE h) v /\ depth_of v = 0%nat.
Proof.
  unfold decode_bool, decode_null, decode_nan, decode_inf, decode_number.
  intros [H | [H | [H | [H | H]]]]; revert H.
  1-4: repeat match goal with
              | |- context [if ?b then _ else _] => destruct b
              end;
       try discriminate; intros [= <- <-]; split; constructor.
  destruct (scan_number _) as [n|]; [|discriminate].
  cbv zeta. destruct (is_float n).
  - destruct (PyFloat_FromString _ _); [|discriminate].
    intros [= <- <-]; split; constructor.
  - destruct (PyInt_FromString _); [|discriminate].
    intros [= <- <-]; split; constructor.
Qed.

Lemma decode_json_key (depth : nat) (d : JSONData) (v : pyvalue) (d' : JSONData) :
  is_char (peek (ptr d)) DQUOTE = true ->
  decode_json h depth d = Ok (v, d') -> is_key v = true.
Proof.
  intros Hq. destruct d as [s p au]. cbn [ptr] in Hq.
  destruct p as [|c p]; [discriminate Hq|]. cbn [peek] in Hq.
  apply is_char_eq in Hq. subst c.
  rewrite decode_json_string. intros H. apply (decode_string_built _ _ _ H).
Qed.

(** What [decode_json] returns has the shape of a decoded value and is
    nested no deeper than the recursion allows. *)
Lemma decode_json_built (depth : nat) :
  forall d v d',
    decode_json h depth d = Ok (v, d') ->
    built (Py_UNICODE_WIDE h) v /\ (depth_of v <= depth)%nat.
Proof.
  induction depth as [|depth IH]; intros d v d'.
  - apply (decode_json_cases h
             (fun r => r = Ok (v, d') ->
                       built (Py_UNICODE_WIDE h) v /\ (depth_of v <= 0)%nat));
      try discriminate; try (intros; discriminate).
    + intros H. destruct (decode_string_built _ _ _ H) as (_ & Hb & ->). auto.
    + intros H. destruct (decode_keyword_built (skip d) v d') as [Hb ->]; auto.
    + intros H. destruct (decode_keyword_built (skip d) v d') as [Hb ->]; auto.
    + intros H. destruct (decode_keyword_built (skip d) v d') as [Hb ->]; auto.
    + intros H. destruct (decode_keyword_built (skip d) v d') as [Hb ->]; auto.
    + intros H. destruct (decode_keyword_built (skip d) v d') as [Hb ->]; auto 6.
  - set (Q := fun x => built (Py_UNICODE_WIDE h) x /\ (depth_of x <= depth)%nat).
    apply (decode_json_cases h
             (fun r => r = Ok (v, d') ->
                       built (Py_UNICODE_WIDE h) v /\ (depth_of v <= S depth)%nat));
      try discriminate; try (intros; discriminate).
    + intros depth' [= <-] _ H. unfold decode_object in H.
      destruct (decode_object_loop_built (decode_json h depth) Q IH
                  (decode_json_key depth) _ _ _ _ _ _ _ H)
        as (entries & -> & Hes & Hd); [constructor | reflexivity |].
      split.
      * constructor; [|exact Hd]. eapply Forall_impl; [exact Hes|].
        intros e (Hk & [Hbk _] & [Hbv _]). auto.
      * cbn [depth_of]. apply le_n_S, fold_max_le.
        eapply Forall_impl; [exact Hes|]. intros e (_ & [_ Hdk] & [_ Hdv]). lia.
    + intros depth' [= <-] _ H. unfold decode_array in H.
      destruct (decode_array_loop_built (decode_json h depth) Q IH _ _ _ _ _ _ _ H)
        as (items & -> & Hitems); [constructor|].
      split.
      * constructor. eapply Forall_impl; [exact Hitems|]. intros x [Hb _]. exact Hb.
      * cbn [depth_of]. apply le_n_S, fold_max_le.
        eapply Forall_impl; [exact Hitems|]. intros x [_ Hdx]. exact Hdx.
    + intros H. destruct (decode_string_built _ _ _ H) as (_ & Hb & ->). split; [auto | lia].
    + intros H. destruct (decode_keyword_built (skip d) v d') as [Hb ->]; [auto | split; [auto | lia]].
    + intros H. destruct (decode_keyword_built (skip d) v d') as [Hb ->]; [auto | split; [auto | lia]].
    + intros H. destruct (decode_keyword_built (skip d) v d') as [Hb ->]; [auto | split; [auto | lia]].
    + intros H. destruct (decode_keyword_built (skip d) v d') as [Hb ->]; [auto | split; [auto | lia]].
    + intros H. destruct (decode_keyword_built (skip d) v d') as [Hb ->]; [auto 6 | split; [auto | lia]].
Qed.

End Built.

(** ** Encoding a decoded value *)

(** [holds m o v]: the object [o] is the value [v] in the heap [m], the
    dicts listing their entries in the order of [v]. *)
Inductive holds (m : gmap loc heap_obj) : pyobj -> pyvalue -> Prop :=
| holds_none : holds m PyNone VNone
| holds_bool (b : bool) : holds m (PyBool b) (VBool b)
| holds_int (z : Z) : holds m (PyInt z) (VInt z)
| holds_float (f : spec_float) : holds m (PyFloat f) (VFloat f)
| holds_string (s : bytes) : holds m (PyString s) (VString s)
| holds_unicode (u : list Z) : holds m (PyUnicode u) (VUnicode u)
| holds_list (l : loc) (items : list pyobj) (vs : list pyvalue) :
    m !! l = Some (ob_list items) ->
    Forall2 (holds m) items vs ->
    holds m (PyRef l) (VList vs)
| holds_dict (l : loc) (ma_table : list (option (pyobj * pyobj)))
    (es : list (pyvalue * pyvalue)) :
    m !! l = Some (ob_dict ma_table) ->
    Forall2 (fun oe e => holds m (fst oe) (fst e) /\ holds m (snd oe) (snd e))
      (table_entries ma_table) es ->
    holds m (PyRef l) (VDict es).

(** The number of nodes of a value. *)
Fixpoint size (v : pyvalue) : nat :=
  match v with
  | VList items => S (fold_right Nat.add 0%nat (map size items))
  | VDict entries =>
      S (fold_right Nat.add 0%nat (map (fun e => (size (fst e) + size (snd e))%nat) entries))
  | _ => 1%nat
  end.

Lemma size_pos (v : pyvalue) : (0 < size v)%nat.
Proof. destruct v; cbn [size]; lia. Qed.

Lemma size_item (x : pyvalue) (items : list pyvalue) :
  x ∈ items -> (size x < size (VList items))%nat.
Proof.
  cbn [size]. induction 1 as [x items | x y items _ IH]; cbn [map fold_right]; lia.
Qed.

Lemma size_entry (e : pyvalue * pyvalue) (entries : list (pyvalue * pyvalue)) :
  e ∈ entries -> (size (fst e) + size (snd e) < size (VDict entries))%nat.
Proof.
  cbn [size]. induction 1 as [e entries | e y entries _ IH]; cbn [map fold_right]; lia.
Qed.

Lemma size_items (items : list pyvalue) : (length items < size (VList items))%nat.
Proof.
  cbn [size]. induction items as [|x items IH]; cbn [map fold_right length]; [lia|].
  pose proof (size_pos x). lia.
Qed.

Lemma size_entries (entries : list (pyvalue * pyvalue)) :
  (length entries < size (VDict entries))%nat.
Proof.
  cbn [size]. induction entries as [|e entries IH]; cbn [map fold_right length]; [lia|].
  pose proof (size_pos (fst e)). lia.
Qed.

Lemma Forall2_unique {A B} (R : A -> B -> Prop) (xs : list A) (ys ys' : list B) :
  Forall (fun y => forall x y', R x y -> R x y' -> y' = y) ys ->
  Forall2 R xs ys -> Forall2 R xs ys' -> ys' = ys.
Proof.
  intros Hu H. revert ys' Hu. induction H as [|x y xs ys Hxy _ IH]; intros ys' Hu H'.
  - inversion H'; reflexivity.
  - inversion H' as [|? y' ? ys'' Hxy' Hrest]; subst.
    inversion Hu as [|? ? Hy Hys]; subst.
    rewrite (Hy x y' Hxy Hxy'), (IH ys'' Hys Hrest). reflexivity.
Qed.

Lemma holds_fun (m : gmap loc heap_obj) (v : pyvalue) :
  forall o v', holds m o v -> holds m o v' -> v' = v.
Proof.
  induction v as [| b | z | f | s | u | items IH | entries IH] using pyvalue_induction;
    intros o v' H H'; inversion H; subst; inversion H'; subst; try reflexivity;
    try congruence.
  - f_equal.
    match goal with
    | H1 : m !! l = Some (ob_list ?a), H2 : m !! l = Some (ob_list ?b) |- _ =>
        assert (a = b) by congruence; subst
    end.
    eapply Forall2_unique; [|eassumption|eassumption].
    eapply Forall_impl; [exact IH|]. intros y Hy x y'. apply Hy.
  - f_equal.
    match goal with
    | H1 : m !! l = Some (ob_dict ?a), H2 : m !! l = Some (ob_dict ?b) |- _ =>
        assert (a = b) by congruence; subst
    end.
    eapply Forall2_unique; [|eassumption|eassumption].
    eapply Forall_impl; [exact IH|]. intros [k x] [IHk IHx] [ok ox] [k' x'].
    cbn [fst snd]. intros [Hk Hx] [Hk' Hx'].
    rewrite (IHk ok k' Hk Hk'), (IHx ox x' Hx Hx'). reflexivity.
Qed.

(** Every list or dict that is being encoded is larger than [v]: none of
    them is inside [v]. *)
Definition above (st : enc_state) (v : pyvalue) : Prop :=
  forall l v', l ∈ Py_Repr st -> holds (objects st) (PyRef l) v' -> (size v < size v')%nat.

Lemma above_fresh (st : enc_state) (l : loc) (v : pyvalue) :
  above st v -> holds (objects st) (PyRef l) v -> l ∉ Py_Repr st.
Proof. intros Ha Hh Hin. specialize (Ha l v Hin Hh). lia. Qed.

Lemma above_enter (st : enc_state) (l : loc) (v x : pyvalue) :
  above st v -> holds (objects st) (PyRef l) v -> (size x < size v)%nat ->
  above (set_Py_Repr (Py_Repr st ++ [l]) st) x.
Proof.
  intros Ha Hh Hx l' v' Hin Hh'. cbn [Py_Repr objects set_Py_Repr] in Hin, Hh'.
  apply elem_of_app in Hin as [Hin | Hin].
  - specialize (Ha l' v' Hin Hh'). lia.
  - apply list_elem_of_singleton in Hin. subst l'.
    rewrite (holds_fun (objects st) v _ _ Hh Hh'). exact Hx.
Qed.

(** The loop of [encode_list] on a list whose items are encoded without a
    change of the state. *)
Lemma encode_list_loop_texts (rec : pyobj -> enc bytes) (text : pyvalue -> bytes)
  (l : loc) (st : enc_state) (rest : list pyobj) :
  forall turns done acc vs,
    list_items st l = done ++ rest ->
    Forall2 (fun o v => rec o st = (Value (text v), st)) rest vs ->
    (length rest <= turns)%nat ->
    encode_list_loop rec turns l (length done) acc st = (Value (acc ++ map text vs), st).
Proof.
  induction rest as [|x rest IH]; intros turns done acc vs Hitems Hall Hturns.
  - inversion Hall; subst. rewrite app_nil_r in *.
    assert (Hend : list_items st l !! length done = None)
      by (rewrite Hitems; apply lookup_ge_None_2; lia).
    destruct turns; cbn [encode_list_loop]; rewrite Hend; reflexivity.
  - inversion Hall as [|? v ? vs' Hx Hrest]; subst.
    destruct turns as [|turns]; [cbn [length] in Hturns; lia|].
    cbn [encode_list_loop].
    assert (Hat : list_items st l !! length done = Some x).
    { rewrite Hitems. rewrite lookup_app_r by lia.
      replace (length done - length done)%nat with 0%nat by lia. reflexivity. }
    rewrite Hat, Hx.
    replace (S (length done)) with (length (done ++ [x]))
      by (rewrite length_app; cbn [length]; lia).
    rewrite (IH turns (done ++ [x]) (acc ++ [text v]) vs')
      by (first [rewrite Hitems, <- app_assoc; reflexivity | exact Hrest
                | cbn [length] in Hturns; lia]).
    cbn [map]. rewrite <- app_assoc. reflexivity.
Qed.

(** [PyDict_Next] visits the entries of the table in order. *)
Lemma next_entry_spec (slots : list (option (pyobj * pyobj))) :
  forall i,
    match next_entry slots i with
    | Some (i', entry) =>
        exists k, i' = (i + S k)%nat /\
                  table_entries slots = entry :: table_entries (drop (S k) slots)
    | None => table_entries slots = []
    end.
Proof.
  induction slots as [|[entry|] slots IH]; intros i; cbn [next_entry table_entries].
  - reflexivity.
  - exists 0%nat. split; [lia | reflexivity].
  - specialize (IH (S i)). destruct (next_entry slots (S i)) as [[i' entry]|]; [|exact IH].
    destruct IH as (k & -> & Hk). exists (S k). split; [lia | exact Hk].
Qed.

Lemma PyDict_Next_spec (ma_table : list (option (pyobj * pyobj))) (i : nat) :
  match PyDict_Next ma_table i with
  | Some (i', entry) =>
      table_entries (drop i ma_table) = entry :: table_entries (drop i' ma_table)
  | None => table_entries (drop i ma_table) = []
  end.
Proof.
  unfold PyDict_Next. pose proof (next_entry_spec (drop i ma_table) i) as H.
  destruct (next_entry (drop i ma_table) i) as [[i' entry]|]; [|exact H].
  destruct H as (k & -> & Hk). rewrite Hk, drop_drop. reflexivity.
Qed.

(** The loop of [encode_dict] on a dict whose keys and values are encoded
    without a change of the state. *)
Lemma encode_dict_loop_texts (rec : pyobj -> enc bytes) (text : pyvalue -> bytes)
  (l : loc) (st : enc_state) (rest : list (pyobj * pyobj)) :
  forall turns i acc es,
    table_entries (drop i (dict_table st l)) = rest ->
    Forall2 (fun oe e => is_string_key (fst oe) = true /\
                         rec (fst oe) st = (Value (text (fst e)), st) /\
                         rec (snd oe) st = (Value (text (snd e)), st)) rest es ->
    (length rest <= turns)%nat ->
    encode_dict_loop rec turns l i acc st
    = (Value (acc ++ map (fun e => text (fst e) ++ bytes_of ": " ++ text (snd e)) es), st).
Proof.
  induction rest as [|[ok ox] rest IH]; intros turns i acc es Hrest Hall Hturns.
  - inversion Hall; subst. rewrite app_nil_r.
    pose proof (PyDict_Next_spec (dict_table st l) i) as Hnext.
    destruct (PyDict_Next (dict_table st l) i) as [[i' entry]|] eqn:En;
      [rewrite Hrest in Hnext; discriminate Hnext|].
    destruct turns; cbn [encode_dict_loop]; rewrite En; reflexivity.
  - inversion Hall as [|? e ? es' (Hkey & Hk & Hx) Hes]; subst. cbn [fst snd] in *.
    destruct turns as [|turns]; [cbn [length] in Hturns; lia|].
    pose proof (PyDict_Next_spec (dict_table st l) i) as Hnext.
    destruct (PyDict_Next (dict_table st l) i) as [[i' entry]|] eqn:En;
      [|rewrite Hrest in Hnext; discriminate Hnext].
    rewrite Hrest in Hnext. injection Hnext as <- Hrest'.
    cbn [encode_dict_loop]. rewrite En, Hkey. cbn [negb].
    unfold encode_pair. rewrite Hk, Hx.
    rewrite (IH turns i' _ es' (eq_sym Hrest') Hes) by (cbn [length] in Hturns; lia).
    cbn [map]. rewrite <- app_assoc. reflexivity.
Qed.

Lemma holds_key (m : gmap loc heap_obj) (o : pyobj) (k : pyvalue) :
  holds m o k -> is_key k = true -> is_string_key o = true.
Proof. intros H Hk. destruct H; try discriminate Hk; reflexivity. Qed.

Section EncodeHolds.

Variable h : host.
Variable w : interp.
Variable params : EncodingParams.
Variable turns : nat.

(** The encoder writes [value_text h v] for an object that holds [v], and
    leaves the state as it is, when the recursion guard allows one call more
    than the lists and dicts of [v] are nested (the text of an [int] is
    obtained below the guard) and the loops are given a turn for each item of
    a list or dict. *)
Lemma encode_object_holds (v : pyvalue) :
  forall o depth st,
    holds (objects st) o v -> good h v -> (depth_of v < depth)%nat ->
    (size v <= turns)%nat -> above st v ->
    encode_object h w params turns depth o st = (Value (value_text h v), st).
Proof.
  induction v as [| b | z | f | s | u | items IH | entries IH] using pyvalue_induction;
    intros o depth st Hh Hg Hdepth Hturns Hab.
  - inversion Hh; subst. destruct depth; reflexivity.
  - inversion Hh; subst. destruct depth, b; reflexivity.
  - inversion Hh; subst. destruct depth; [lia | reflexivity].
  - inversion Hh; subst. destruct depth; [lia|]. cbn [encode_object].
    destruct f as [sg | [] | | sg m e]; reflexivity.
  - inversion Hh; subst. inversion Hg; subst.
    assert (Henc : encode_object h w params turns depth (PyString s) st
                   = lift (encode_string h s) st) by (destruct depth; reflexivity).
    rewrite Henc. rewrite encode_string_text by assumption. reflexivity.
  - inversion Hh; subst. inversion Hg; subst.
    assert (Henc : encode_object h w params turns depth (PyUnicode u) st
                   = lift (encode_unicode h u) st) by (destruct depth; reflexivity).
    rewrite Henc. rewrite encode_unicode_text by assumption. reflexivity.
  - inversion Hh as [| | | | | | l objs vs Hl Hobjs |]; subst.
    inversion Hg as [| | | | | | ? Hitems |]; subst.
    cbn [depth_of] in Hdepth. destruct depth as [|depth]; [lia|].
    pose proof (above_fresh st l _ Hab Hh) as Hfresh.
    destruct objs as [|o1 objs].
    { inversion Hobjs; subst. apply encode_object_empty_list; assumption. }
    rewrite (encode_object_list h w params turns depth l (o1 :: objs) st Hl Hfresh
               ltac:(discriminate)).
    set (st1 := set_Py_Repr (Py_Repr st ++ [l]) st).
    assert (Hall : forall objs' vs',
              Forall2 (holds (objects st)) objs' vs' -> (forall x, x ∈ vs' -> x ∈ items) ->
              Forall2 (fun o v => encode_object h w params turns depth o st1
                                  = (Value (value_text h v), st1)) objs' vs').
    { induction 1 as [|o' v' objs' vs' Ho' _ IHall]; intros Hsub; constructor.
      - assert (Hin : v' ∈ items) by (apply Hsub; constructor).
        rewrite Forall_forall in IH, Hitems. apply IH; auto.
        + pose proof (depth_of_item v' items Hin). lia.
        + pose proof (size_item v' items Hin). lia.
        + apply (above_enter st l (VList items)); auto. apply size_item, Hin.
      - apply IHall. intros x Hx. apply Hsub. constructor. exact Hx. }
    assert (Hitems1 : list_items st1 l = [] ++ o1 :: objs)
      by (unfold list_items; cbn [objects st1 set_Py_Repr]; rewrite Hl; reflexivity).
    pose proof (Forall2_length _ _ _ Hobjs) as Hlen. pose proof (size_items items) as Hsz.
    pose proof (encode_list_loop_texts _ (value_text h) l st1 (o1 :: objs) turns [] []
                  items Hitems1 (Hall _ _ Hobjs (fun x H => H)) ltac:(lia)) as Hloop.
    cbn [length app] in Hloop. rewrite Hloop.
    cbn [value_text]. rewrite decorate_join.
    + unfold array_text. inversion Hobjs; subst. cbn [map]. destruct st; reflexivity.
    + inversion Hobjs; subst. discriminate.
  - inversion Hh as [| | | | | | | l ma_table es Hl Hobjs]; subst.
    inversion Hg as [| | | | | | | ? Hentries Hnd]; subst.
    cbn [depth_of] in Hdepth. destruct depth as [|depth]; [lia|].
    pose proof (above_fresh st l _ Hab Hh) as Hfresh.
    destruct (table_entries ma_table) as [|o1 objs] eqn:Etable.
    { inversion Hobjs; subst. apply (encode_object_empty_dict h w params turns depth l ma_table);
        assumption. }
    rewrite (encode_object_dict h w params turns depth l ma_table st Hl Hfresh)
      by (rewrite Etable; discriminate).
    set (st1 := set_Py_Repr (Py_Repr st ++ [l]) st).
    assert (Hall : forall objs' es',
              Forall2 (fun oe e => holds (objects st) (fst oe) (fst e) /\
                                   holds (objects st) (snd oe) (snd e))
                objs' es' ->
              (forall x, x ∈ es' -> x ∈ entries) ->
              Forall2 (fun oe e =>
                         is_string_key (fst oe) = true /\
                         encode_object h w params turns depth (fst oe) st1
                         = (Value (value_text h (fst e)), st1) /\
                         encode_object h w params turns depth (snd oe) st1
                         = (Value (value_text h (snd e)), st1)) objs' es').
    { induction 1 as [|oe e objs' es' [Hk Hx] _ IHall]; intros Hsub; constructor.
      - assert (Hin : e ∈ entries) by (apply Hsub; constructor).
        rewrite Forall_forall in IH, Hentries.
        destruct (IH e Hin) as [IHk IHx]. destruct (Hentries e Hin) as (Hkey & Hgk & Hgx).
        pose proof (depth_of_entry e entries Hin) as Hde.
        pose proof (size_entry e entries Hin) as Hse.
        split; [apply (holds_key _ _ _ Hk Hkey)|]. split.
        + apply IHk; auto; [lia | lia|].
          apply (above_enter st l (VDict entries)); auto. lia.
        + apply IHx; auto; [lia | lia|].
          apply (above_enter st l (VDict entries)); auto. lia.
      - apply IHall. intros x Hx'. apply Hsub. constructor. exact Hx'. }
    assert (Htable1 : table_entries (drop 0 (dict_table st1 l)) = o1 :: objs)
      by (unfold dict_table; cbn [objects st1 set_Py_Repr drop]; rewrite Hl; exact Etable).
    pose proof (Forall2_length _ _ _ Hobjs) as Hlen. pose proof (size_entries entries) as Hsz.
    pose proof (encode_dict_loop_texts _ (value_text h) l st1 (o1 :: objs) turns 0%nat []
                  entries Htable1 (Hall _ _ Hobjs (fun x H => H)) ltac:(lia)) as Hloop.
    cbn [app] in Hloop. rewrite Hloop.
    cbn [value_text]. rewrite decorate_join.
    + unfold object_text. inversion Hobjs; subst. cbn [map]. destruct st; reflexivity.
    + inversion Hobjs; subst. discriminate.
Qed.

End EncodeHolds.

(** ** The order of the entries of a dict *)

(** [reordered v0 v]: [v0] is [v] with the entries of its dicts in another
    order.  [PyDict_Next] yields the entries of a dict in the order of the
    hash table, which need not be the order in which the decoder entered
    them. *)
Inductive reordered : pyvalue -> pyvalue -> Prop :=
| ro_none : reordered VNone VNone
| ro_bool (b : bool) : reordered (VBool b) (VBool b)
| ro_int (z : Z) : reordered (VInt z) (VInt z)
| ro_float (f : spec_float) : reordered (VFloat f) (VFloat f)
| ro_string (s : bytes) : reordered (VString s) (VString s)
| ro_unicode (u : list Z) : reordered (VUnicode u) (VUnicode u)
| ro_list (xs ys : list pyvalue) :
    Forall2 reordered xs ys -> reordered (VList xs) (VList ys)
| ro_dict (es es0 es' : list (pyvalue * pyvalue)) :
    Forall2 (fun e e' => reordered (fst e) (fst e') /\ reordered (snd e) (snd e')) es es0 ->
    Permutation es0 es' ->
    reordered (VDict es) (VDict es').

(** [represents m o v]: the object [o] is the value [v] in the heap [m]. *)
Definition represents (m : gmap loc heap_obj) (o : pyobj) (v : pyvalue) : Prop :=
  exists v0, holds m o v0 /\ reordered v0 v.

Lemma reordered_key (k k' : pyvalue) : reordered k k' -> is_key k' = true -> k = k'.
Proof. intros H Hk. destruct H; try discriminate Hk; reflexivity. Qed.

Lemma Forall2_compose {A B C} (R1 : A -> B -> Prop) (R2 : B -> C -> Prop)
  (R3 : A -> C -> Prop) (xs : list A) (ys : list B) (zs : list C) :
  Forall (fun x => forall y z, R1 x y -> R2 y z -> R3 x z) xs ->
  Forall2 R1 xs ys -> Forall2 R2 ys zs -> Forall2 R3 xs zs.
Proof.
  intros Hc H. revert zs Hc. induction H as [|x y xs ys Hxy _ IH]; intros zs Hc H'.
  - inversion H'; constructor.
  - inversion H'; subst. inversion Hc; subst. constructor; eauto.
Qed.

Lemma Forall2_back {A B} (R : A -> B -> Prop) (P : A -> Prop) (Q : B -> Prop)
  (xs : list A) (ys : list B) :
  Forall (fun x => forall y, R x y -> Q y -> P x) xs ->
  Forall2 R xs ys -> Forall Q ys -> Forall P xs.
Proof.
  intros Hc H. revert Hc. induction H as [|x y xs ys Hxy _ IH]; intros Hc Hq.
  - constructor.
  - inversion Hc; subst. inversion Hq; subst. constructor; eauto.
Qed.

Lemma Forall2_permuted {A B} (R : A -> B -> Prop) (xs xs' : list A) :
  Permutation xs xs' ->
  forall ys, Forall2 R xs' ys -> exists ys', Forall2 R xs ys' /\ Permutation ys' ys.
Proof.
  induction 1 as [|x l l' _ IH|x y l|l l' l'' _ IH1 _ IH2]; intros ys H.
  - inversion H; subst. exists []. split; constructor.
  - inversion H as [|? b ? ys1 Hb Hrest]; subst.
    destruct (IH ys1 Hrest) as (ys1' & H1 & Hp).
    exists (b :: ys1'). split; constructor; assumption.
  - inversion H as [|? a ? ys1 Ha Hrest]; subst.
    inversion Hrest as [|? b ? ys2 Hb Hrest']; subst.
    exists (b :: a :: ys2). split; [repeat constructor; assumption | apply perm_swap].
  - destruct (IH2 ys H) as (ys2 & H2 & Hp2).
    destruct (IH1 ys2 H2) as (ys1 & H1 & Hp1).
    exists ys1. split; [exact H1 | etransitivity; eassumption].
Qed.

Lemma fold_max_inv {A} (f : A -> nat) (l : list A) (n : nat) :
  (fold_right Nat.max 0 (map f l) <= n)%nat -> Forall (fun x => (f x <= n)%nat) l.
Proof.
  induction l as [|x l IH]; cbn [map fold_right]; intros H; constructor; [lia|].
  apply IH. lia.
Qed.

Section Reordered.

Variable h : host.

Lemma reordered_good (v0 : pyvalue) :
  forall v, reordered v0 v -> good h v -> good h v0.
Proof.
  induction v0 as [| b | z | f | s | u | items IH | entries IH] using pyvalue_induction;
    intros v Hro Hg; inversion Hro; subst; try exact Hg.
  - inversion Hg as [| | | | | | ? Hys |]; subst. constructor.
    eapply Forall2_back; [|eassumption|exact Hys].
    eapply Forall_impl; [exact IH|]. intros x Hx y. apply Hx.
  - inversion Hg as [| | | | | | | ? Hes' Hnd]; subst.
    match goal with Hp : Permutation _ _ |- _ => rename Hp into Hperm end.
    match goal with HF : Forall2 _ entries _ |- _ => rename HF into Hpairs end.
    assert (Hes0 : Forall (fun e => is_key (fst e) = true /\ good h (fst e) /\ good h (snd e))
                     es0).
    { eapply Permutation_Forall; [symmetry; exact Hperm | exact Hes']. }
    assert (Hnd0 : NoDup (map (fun e => key_norm (fst e)) es0)).
    { eapply NoDup_Permutation_proper; [|exact Hnd]. apply Permutation_map, Hperm. }
    clear Hperm Hes' Hnd Hro Hg.
    assert (Hboth : Forall (fun e => is_key (fst e) = true /\ good h (fst e) /\
                                     good h (snd e)) entries /\
                    map (fun e => key_norm (fst e)) entries
                    = map (fun e => key_norm (fst e)) es0).
    { induction Hpairs as [|e e0 es es0 [Hk Hx] _ IHp]; [split; [constructor | reflexivity]|].
      inversion IH as [|? ? [IHk IHx] IHrest]; subst.
      inversion Hes0 as [|? ? (Hkey & Hgk & Hgx) Hrest0]; subst.
      cbn [map] in Hnd0. apply NoDup_cons in Hnd0 as [_ Hnd0].
      destruct (IHp IHrest Hrest0 Hnd0) as [Hall Hnorms].
      pose proof (reordered_key _ _ Hk Hkey) as Heq.
      split.
      - constructor; [|exact Hall]. rewrite Heq. repeat split; eauto.
      - cbn [map]. rewrite Heq, Hnorms. reflexivity. }
    destruct Hboth as [Hall Hnorms]. constructor; [exact Hall|].
    rewrite Hnorms. exact Hnd0.
Qed.

Lemma reordered_depth (v0 : pyvalue) :
  forall v n, reordered v0 v -> (depth_of v <= n)%nat -> (depth_of v0 <= n)%nat.
Proof.
  induction v0 as [| b | z | f | s | u | items IH | entries IH] using pyvalue_induction;
    intros v n Hro Hd; inversion Hro; subst; try exact Hd.
  - cbn [depth_of] in *. destruct n as [|n]; [lia|]. apply le_n_S, fold_max_le.
    eapply Forall2_back; [|eassumption|apply fold_max_inv; apply le_S_n, Hd].
    eapply Forall_impl; [exact IH|]. intros x Hx y Hxy Hy. cbv beta in *. eauto.
  - cbn [depth_of] in *. destruct n as [|n]; [lia|]. apply le_n_S, fold_max_le.
    match goal with Hp : Permutation _ _ |- _ => rename Hp into Hperm end.
    eapply Forall2_back; [|eassumption|].
    + eapply Forall_impl; [exact IH|]. intros e [IHk IHx] e0 [Hk Hx] He0. cbv beta in *.
      instantiate (1 := fun e0 => (Nat.max (depth_of (fst e0)) (depth_of (snd e0)) <= n)%nat)
        in He0.
      cbv beta in He0.
      pose proof (IHk _ n Hk ltac:(lia)). pose proof (IHx _ n Hx ltac:(lia)). lia.
    + eapply Permutation_Forall; [symmetry; exact Hperm|].
      apply fold_max_inv. apply le_S_n, Hd.
Qed.

End Reordered.

Lemma sum_permuted (xs ys : list nat) :
  Permutation xs ys -> fold_right Nat.add 0%nat xs = fold_right Nat.add 0%nat ys.
Proof. induction 1; cbn [fold_right]; lia. Qed.

Lemma Forall2_map_eq {A B} (f : A -> B) (xs ys : list A) :
  Forall2 (fun x y => f x = f y) xs ys -> map f xs = map f ys.
Proof. induction 1; cbn [map]; congruence. Qed.

Lemma reordered_size (v0 : pyvalue) :
  forall v, reordered v0 v -> size v0 = size v.
Proof.
  induction v0 as [| b | z | f | s | u | items IH | entries IH] using pyvalue_induction;
    intros v Hro; inversion Hro; subst; try reflexivity.
  - cbn [size]. f_equal. f_equal. apply Forall2_map_eq.
    match goal with HF : Forall2 reordered items _ |- _ => rename HF into Hitems end.
    clear Hro. induction Hitems as [|x y xs ys Hxy _ IHi]; constructor.
    + inversion IH; subst. auto.
    + inversion IH; subst. auto.
  - cbn [size]. f_equal.
    match goal with Hp : Permutation _ _ |- _ => rename Hp into Hperm end.
    match goal with HF : Forall2 _ entries _ |- _ => rename HF into Hpairs end.
    rewrite <- (sum_permuted _ _
                  (Permutation_map (fun e => (size (fst e) + size (snd e))%nat) Hperm)).
    f_equal. apply Forall2_map_eq.
    clear Hro Hperm. induction Hpairs as [|e e0 es es0 [Hk Hx] _ IHp]; constructor.
    + inversion IH as [|? ? [IHk IHx] ?]; subst. rewrite (IHk _ Hk), (IHx _ Hx). reflexivity.
    + inversion IH; subst. auto.
Qed.

Lemma value_eq_reordered (v' : pyvalue) :
  forall v0 v, value_eq v' v0 -> reordered v0 v -> value_eq v' v.
Proof.
  induction v' as [| b | z | f | s | u | items IH | entries IH] using pyvalue_induction;
    intros v0 v Heq Hro; inversion Heq; subst; inversion Hro; subst;
    try (constructor; assumption).
  - constructor. eapply Forall2_compose; [|eassumption|eassumption].
    eapply Forall_impl; [exact IH|]. intros x Hx y z'. apply Hx.
  - match goal with
    | Hp : Permutation ?a ?b, HF : Forall2 _ ?b ?c |- _ =>
        destruct (Forall2_permuted _ a b Hp c HF) as (esC & HFC & HpC)
    end.
    eapply veq_dict; [|etransitivity; eassumption].
    eapply Forall2_compose; [|eassumption|exact HFC].
    eapply Forall_impl; [exact IH|].
    intros e [IHk IHx] e1 e2 [Hk1 Hx1] [Hk2 Hx2]. split; eauto.
Qed.

(** ** The round trip *)

(** What the round trip asks of the strings and floats of a value: a byte
    String is 7-bit, a string is within the size [encode_string] or
    [encode_unicode] accepts, the text of a byte String fits an [int], and
    the interpreter prints a finite Float as a number with a fraction or an
    exponent that it reads back as the same Float. *)
Inductive plain (h : host) : pyvalue -> Prop :=
| plain_none : plain h VNone
| plain_bool (b : bool) : plain h (VBool b)
| plain_int (z : Z) : plain h (VInt z)
| plain_float (f : spec_float) : float_roundtrips h f -> plain h (VFloat f)
| plain_string (s : bytes) :
    forallb isascii s = true ->
    string_fits h s ->
    plain h (VString s)
| plain_unicode (u : list Z) :
    Z.of_nat (length u) <= (PY_SSIZE_T_MAX h - 2 - 1) / expandsize h ->
    plain h (VUnicode u)
| plain_list (items : list pyvalue) : Forall (plain h) items -> plain h (VList items)
| plain_dict (entries : list (pyvalue * pyvalue)) :
    Forall (fun e => plain h (fst e) /\ plain h (snd e)) entries ->
    plain h (VDict entries).

Lemma built_plain_good (h : host) (v : pyvalue) :
  built (Py_UNICODE_WIDE h) v -> plain h v -> good h v.
Proof.
  induction v as [| b | z | f | s | u | items IH | entries IH] using pyvalue_induction;
    intros Hb Hp; inversion Hb; subst; inversion Hp; subst; try (constructor; assumption).
  - constructor. rewrite Forall_forall in *. auto.
  - assert (Hall : Forall (fun e => is_key (fst e) = true /\ good h (fst e) /\
                                    good h (snd e)) entries).
    { rewrite Forall_forall in *. intros e He.
      match goal with
      | HB : forall x, x ∈ entries -> is_key _ = true /\ _,
        HP : forall x, x ∈ entries -> plain h _ /\ _ |- _ =>
          destruct (HB e He) as (Hk & Hbk & Hbx); destruct (HP e He) as (Hpk & Hpx)
      end.
      destruct (IH e He) as [IHk IHx]. auto. }
    constructor; [exact Hall|]. apply distinct_keys_norms; [|assumption].
    eapply Forall_impl; [exact Hall|]. intros e (Hk & Hg & _).
    apply (good_is_key h); assumption.
Qed.

(** C1, as amended.  Let [v] be a value that Decode returns, whose byte
    Strings are 7-bit, whose strings are within the sizes the encoder
    accepts and writes in full, and whose finite Floats the interpreter
    prints and reads back ([plain]), and let [o] be [v] as an object of the
    heap.  Then Encode succeeds on [o] and leaves the state as it is, when
    the recursion guard allows it one call more than it allowed Decode (the
    text of an [int] is obtained below the guard) and the loops are given a
    turn for each node of [v]; and Decode on the text it writes, with or
    without [all_unicode], returns a value equal to [v], where a byte String
    equals the Unicode String of the same 7-bit characters, NaN equals NaN,
    the two zeros are equal, and the entries of a dict are compared in any
    order. *)
Theorem Decode_Encode_roundtrip (h : host) (w : interp) (turns depth : nat) (src : bytes)
  (au au' : bool) (v : pyvalue) (o : pyobj) (st : enc_state) :
  JSON_decode h depth src au = Ok v ->
  plain h v ->
  represents (objects st) o v ->
  Py_Repr st = [] ->
  (size v <= turns)%nat ->
  exists text v',
    JSON_encode h w turns (S depth) o None None None None st = (Value text, st) /\
    JSON_decode h depth text au' = Ok v' /\
    value_eq v' v.
Proof.
  intros Hdec Hplain (v0 & Hholds & Hro) Hst Hturns.
  unfold JSON_decode in Hdec.
  destruct (existsb _ src); [discriminate|].
  destruct (decode_json h depth _) as [[v1 d1]|] eqn:Ed; [|discriminate].
  destruct (0 <? _)%nat; [discriminate|]. injection Hdec as ->.
  destruct (decode_json_built h depth _ _ _ Ed) as [Hbuilt Hdepth].
  pose proof (built_plain_good h v Hbuilt Hplain) as Hgood.
  pose proof (reordered_good h v0 v Hro Hgood) as Hgood0.
  pose proof (reordered_depth v0 v depth Hro Hdepth) as Hdepth0.
  exists (value_text h v0).
  destruct (decode_value_text h v0 Hgood0 depth (value_text h v0) [] au' Hdepth0)
    as (v' & Hd & Heq); [repeat split|].
  rewrite app_nil_r in Hd.
  exists v'. split; [|split].
  - unfold JSON_encode.
    apply encode_object_holds; auto.
    + lia.
    + rewrite (reordered_size v0 v Hro). exact Hturns.
    + intros l x Hin. rewrite Hst in Hin. inversion Hin.
  - unfold JSON_decode. fold (has_nul (value_text h v0)).
    rewrite (value_text_no_nul h v0 Hgood0), Hd. reflexivity.
  - apply (value_eq_reordered v' v0 v Heq Hro).
Qed.

(** A dict of a list and a null, the list at address 1 and the dict at
    address 0, whose table yields the key [n] before the key [k] and has an
    unused slot between them. *)
Definition roundtrip_heap : enc_state :=
  state_of (<[ 0%nat := ob_dict [Some (PyString (bytes_of "n"), PyNone);
                                 None;
                                 Some (PyString (bytes_of "k"), PyRef 1)] ]>
            {[ 1%nat := ob_list [PyInt 1; PyFloat (S754_zero false);
                                 PyUnicode [97; 233]] ]}).

Definition roundtrip_source : bytes :=
  bytes_of "{" ++ q "k" ++ bytes_of ": [1, 0.0, " ++ q "a\u00e9" ++ bytes_of "], "
  ++ q "n" ++ bytes_of ":null}".

Definition roundtrip_value : pyvalue :=
  VDict [(VString (bytes_of "k"),
          VList [VInt 1; VFloat (S754_zero false); VUnicode [97; 233]]);
         (VString (bytes_of "n"), VNone)].

Lemma float_roundtrips_zero : float_roundtrips host0 (S754_zero false).
Proof.
  split; [|split].
  - apply (number_token_intro [] ["0"%char] ["."%char; "0"%char] []).
    + left; reflexivity.
    + left; reflexivity.
    + right. exists ["0"%char]. split; [reflexivity|]. split; [discriminate | reflexivity].
    + left; reflexivity.
  - reflexivity.
  - exists (S754_zero false). split; [reflexivity | exact I].
Qed.

Lemma roundtrip_value_plain : plain host0 roundtrip_value.
Proof.
  assert (Hsize : forall n : nat, (n <= 10)%nat ->
            Z.of_nat n <= (PY_SSIZE_T_MAX host0 - 2) / 6 /\
            2 + 6 * Z.of_nat n <= INT_MAX /\
            Z.of_nat n <= (PY_SSIZE_T_MAX host0 - 2 - 1) / expandsize host0).
  { intros n Hn. apply Nat2Z.inj_le in Hn.
    split; [|split].
    - eapply Z.le_trans; [exact Hn | apply Z.leb_le; vm_compute; reflexivity].
    - unfold INT_MAX. lia.
    - eapply Z.le_trans; [exact Hn | apply Z.leb_le; vm_compute; reflexivity]. }
  assert (Hstr : forall s : bytes, (length s <= 10)%nat -> forallb isascii s = true ->
                               plain host0 (VString s)).
  { intros s Hlen Hascii. apply plain_string; [exact Hascii|].
    destruct (Hsize _ Hlen) as (H1 & H2 & _). split; assumption. }
  unfold roundtrip_value. apply plain_dict.
  constructor; [split | constructor; [split | constructor]].
  - apply Hstr; [cbn; lia | reflexivity].
  - apply plain_list.
    constructor; [apply plain_int|].
    constructor; [apply plain_float, float_roundtrips_zero|].
    constructor; [apply plain_unicode, Hsize; cbn; lia | constructor].
  - apply Hstr; [cbn; lia | reflexivity].
  - apply plain_none.
Qed.

Lemma roundtrip_heap_represents :
  represents (objects roundtrip_heap) (PyRef 0) roundtrip_value.
Proof.
  exists (VDict [(VString (bytes_of "n"), VNone);
                 (VString (bytes_of "k"),
                  VList [VInt 1; VFloat (S754_zero false); VUnicode [97; 233]])]).
  split.
  - eapply holds_dict; [vm_compute; reflexivity|]. cbn [table_entries].
    constructor; [split; constructor|].
    constructor; [split; [constructor|] | constructor].
    eapply holds_list; [vm_compute; reflexivity|].
    constructor; [constructor|]. constructor; [constructor|].
    constructor; [constructor | constructor].
  - eapply ro_dict; [|apply perm_swap].
    constructor; [split; constructor|].
    constructor; [split; [constructor|] | constructor].
    apply ro_list.
    constructor; [constructor|]. constructor; [constructor|].
    constructor; [constructor | constructor].
Qed.

Lemma Decode_Encode_roundtrip_witness :
  JSON_decode host0 10 roundtrip_source false = Ok roundtrip_value /\
  plain host0 roundtrip_value /\
  represents (objects roundtrip_heap) (PyRef 0) roundtrip_value /\
  Py_Repr roundtrip_heap = [] /\
  (size roundtrip_value <= 10)%nat /\
  exists text v',
    JSON_encode host0 interp0 10 11 (PyRef 0) None None None None roundtrip_heap
    = (Value text, roundtrip_heap) /\
    JSON_decode host0 10 text false = Ok v' /\
    value_eq v' roundtrip_value.
Proof.
  assert (H1 : JSON_decode host0 10 roundtrip_source false = Ok roundtrip_value)
    by (vm_compute; reflexivity).
  assert (H5 : (size roundtrip_value <= 10)%nat) by (vm_compute; lia).
  exact (conj H1 (conj roundtrip_value_plain (conj roundtrip_heap_represents (conj eq_refl
           (conj H5
              (Decode_Encode_roundtrip host0 interp0 10 10 roundtrip_source false false
                 roundtrip_value (PyRef 0) roundtrip_heap H1 roundtrip_value_plain
                 roundtrip_heap_represents eq_refl H5)))))).
Defined.

Example Encode_roundtrip_heap :
  JSON_encode host0 interp0 10 11 (PyRef 0) None None None None roundtrip_heap
  = (Value (bytes_of "{" ++ q "n" ++ bytes_of ": null, " ++ q "k" ++ bytes_of ": [1, 0.0, "
         ++ q "a\u00e9" ++ bytes_of "]}"), roundtrip_heap).
Proof. vm_compute. reflexivity. Qed.

(** The claim as the specification states it fails: the decoder returns a
    byte String wherever it can, so the Unicode String it builds from an
    escaped ASCII letter comes back from the round trip as a byte String. *)
Lemma roundtrip_changes_string_kind :
  JSON_decode host0 10 (q "\u0041") false = Ok (VUnicode [65]) /\
  represents (objects st0) (PyUnicode [65]) (VUnicode [65]) /\
  JSON_encode host0 interp0 10 11 (PyUnicode [65]) None None None None st0
  = (Value (q "A"), st0) /\
  JSON_decode host0 10 (q "A") false = Ok (VString (bytes_of "A")) /\
  ~ struct_eq (VString (bytes_of "A")) (VUnicode [65]).
Proof.
  split; [vm_compute; reflexivity|].
  split; [exists (VUnicode [65]); split; constructor|].
  split; [vm_compute; reflexivity|].
  split; [vm_compute; reflexivity|]. intros H. inversion H.
Qed.

(** The byte String that the decoder returns for an escaped non-ASCII byte
    (quote, backslash, the byte 0xE9, quote) is outside the round trip: it
    is written with a [\u00e9] escape and read back as a Unicode String,
    which the interpreter does not find equal to a byte String that is not
    7-bit. *)
Example Roundtrip_escaped_non_ascii :
  let v := VString [BACKSLASH; "233"%char] in
  JSON_decode host0 10 [DQUOTE; BACKSLASH; "233"%char; DQUOTE] false = Ok v /\
  JSON_encode host0 interp0 10 11 (PyString [BACKSLASH; "233"%char]) None None None None st0
  = (Value (DQUOTE :: BACKSLASH :: BACKSLASH :: bytes_of "\u00e9" ++ [DQUOTE]), st0) /\
  JSON_decode host0 10 (DQUOTE :: BACKSLASH :: BACKSLASH :: bytes_of "\u00e9" ++ [DQUOTE])
    false = Ok (VUnicode [92; 233]) /\
  ~ value_eq (VUnicode [92; 233]) v.
Proof.
  cbv zeta. split; [vm_compute; reflexivity|]. split; [vm_compute; reflexivity|].
  split; [vm_compute; reflexivity|].
  intros H. inversion H as [| | | | | | |s Hascii Hs Hv| |]; subst.
  vm_compute in Hascii. discriminate Hascii.
Qed.

(** * Further properties of the decoder *)

(** ** Invariants of the loops *)

Section DecodeInvariant.

Variable decode_item : JSONData -> decoded.
(** what holds of the cursor *)
Variable I : JSONData -> Prop.
(** what holds of the values *)
Variable Q : pyvalue -> Prop.
(** what holds of the errors *)
Variable E : pyerr -> Prop.

Definition upholds (r : decoded) : Prop :=
  match r with
  | Ok (v, d') => Q v /\ I d'
  | Err e => E e
  end.

Hypothesis I_set_ptr : forall d p, I d -> I (set_ptr d p).
Hypothesis E_decode : forall msg, E (JSON_DecodeError msg).
Hypothesis E_exhausted : E loop_exhausted.
Hypothesis item_upholds : forall d, I d -> upholds (decode_item d).

Definition upholds_list (r : decoded) : Prop :=
  match r with
  | Ok (v, d') => (exists items, v = VList items /\ Forall Q items) /\ I d'
  | Err e => E e
  end.

Lemma decode_array_loop_upholds (turns : nat) :
  forall start st object d,
    I d -> Forall Q object ->
    upholds_list (decode_array_loop decode_item turns start st object d).
Proof.
  induction turns as [|turns IH]; intros start st object d Hd Ho.
  - destruct st; cbn; eauto.
  - assert (Hs : I (skip d)) by (apply I_set_ptr, Hd).
    assert (Hn : I (next (skip d))) by (apply I_set_ptr, Hs).
    assert (Hitem : upholds_list (array_item decode_item turns start object (skip d))).
    { unfold array_item. destruct (_ || _); [apply E_decode|].
      pose proof (item_upholds (skip d) Hs) as Hi.
      destruct (decode_item (skip d)) as [[item d1]|e]; [|exact Hi].
      destruct Hi as [Hq Hd1]. apply IH; [exact Hd1|].
      apply Forall_app. split; [exact Ho | constructor; [exact Hq | constructor]]. }
    rewrite decode_array_loop_S.
    destruct (is_char (peek (ptr (skip d))) NUL).
    { destruct st; cbn; eauto. }
    destruct st.
    + destruct (is_char (peek (ptr (skip d))) "]"); [apply IH; assumption | exact Hitem].
    + destruct (is_char (peek (ptr (skip d))) "]"); [apply IH; assumption|].
      destruct (is_char (peek (ptr (skip d))) ","); [apply IH; assumption | apply E_decode].
    + exact Hitem.
    + cbn. eauto.
Qed.

Definition upholds_dict (r : decoded) : Prop :=
  match r with
  | Ok (v, d') =>
      (exists entries, v = VDict entries /\
                       Forall (fun e => Q (fst e) /\ Q (snd e)) entries) /\ I d'
  | Err e => E e
  end.

Lemma decode_object_loop_upholds (turns : nat) :
  forall start st object d,
    I d -> Forall (fun e => Q (fst e) /\ Q (snd e)) object ->
    upholds_dict (decode_object_loop decode_item turns start st object d).
Proof.
  induction turns as [|turns IH]; intros start st object d Hd Ho.
  - destruct st; cbn; eauto.
  - assert (Hs : I (skip d)) by (apply I_set_ptr, Hd).
    assert (Hn : I (next (skip d))) by (apply I_set_ptr, Hs).
    assert (Hpair : upholds_dict (object_pair decode_item turns start object (skip d))).
    { unfold object_pair. destruct (negb _); [apply E_decode|].
      pose proof (item_upholds (skip d) Hs) as Hk.
      destruct (decode_item (skip d)) as [[key d1]|e]; [|exact Hk].
      destruct Hk as [Hqk Hd1].
      destruct (negb _); [apply E_decode|].
      destruct (_ || _); [apply E_decode|].
      assert (Hd2 : I (skip (next (skip d1)))) by (repeat apply I_set_ptr; exact Hd1).
      pose proof (item_upholds _ Hd2) as Hv.
      destruct (decode_item (skip (next (skip d1)))) as [[value d3]|e]; [|exact Hv].
      destruct Hv as [Hqv Hd3]. apply IH; [exact Hd3|].
      apply (PyDict_SetItem_Forall (fun e => Q (fst e) /\ Q (snd e)) Q); auto.
      intros k0 v0 v1 [Hk0 _] Hv1. split; assumption. }
    rewrite decode_object_loop_S.
    destruct (is_char (peek (ptr (skip d))) NUL).
    { destruct st; cbn; eauto. }
    destruct st.
    + destruct (is_char (peek (ptr (skip d))) "}"); [apply IH; assumption | exact Hpair].
    + destruct (is_char (peek (ptr (skip d))) "}"); [apply IH; assumption|].
      destruct (is_char (peek (ptr (skip d))) ","); [apply IH; assumption | apply E_decode].
    + exact Hpair.
    + cbn. eauto.
Qed.

End DecodeInvariant.

Section DecodeJsonInvariant.

Variable h : host.
Variable I : JSONData -> Prop.
Variable Q : pyvalue -> Prop.
Variable E : pyerr -> Prop.

Hypothesis I_set_ptr : forall d p, I d -> I (set_ptr d p).
Hypothesis E_decode : forall msg, E (JSON_DecodeError msg).
Hypothesis E_exhausted : E loop_exhausted.
Hypothesis E_recursion : forall where_, E (recursion_error where_).
Hypothesis Q_none : Q VNone.
Hypothesis Q_bool : forall b, Q (VBool b).
Hypothesis Q_int : forall z, Q (VInt z).
Hypothesis Q_float : forall f, Q (VFloat f).
Hypothesis Q_unicode : forall u, Q (VUnicode u).
Hypothesis Q_string : forall d s, I d -> all_unicode d = false -> Q (VString s).
Hypothesis Q_list : forall items, Forall Q items -> Q (VList items).
Hypothesis Q_dict :
  forall entries, Forall (fun e => Q (fst e) /\ Q (snd e)) entries -> Q (VDict entries).

Lemma decode_string_upholds (d : JSONData) : I d -> upholds I Q E (decode_string h d).
Proof.
  intros Hd. unfold decode_string.
  destruct (scan_string _ _ _ _) as [sc|]; [|apply E_decode].
  cbv zeta. unfold decode_interior.
  destruct (all_unicode d) eqn:Eau.
  - rewrite orb_true_r.
    destruct (PyUnicode_DecodeUnicodeEscape _ _) as [u|e].
    + split; [apply Q_unicode | apply I_set_ptr, Hd].
    + destruct e; apply E_decode.
  - rewrite orb_false_r. destruct (has_unicode sc).
    + destruct (PyUnicode_DecodeUnicodeEscape _ _) as [u|e].
      * split; [apply Q_unicode | apply I_set_ptr, Hd].
      * destruct e; apply E_decode.
    + destruct (string_escape sc).
      * destruct (PyString_DecodeEscape _) as [b|e].
        -- split; [apply (Q_string d); assumption | apply I_set_ptr, Hd].
        -- destruct e; apply E_decode.
      * split; [apply (Q_string d); assumption | apply I_set_ptr, Hd].
Qed.

Lemma decode_scalars_uphold (d : JSONData) :
  I d ->
  upholds I Q E (decode_bool d) /\ upholds I Q E (decode_null d) /\
  upholds I Q E (decode_nan d) /\ upholds I Q E (decode_inf d) /\
  upholds I Q E (decode_number h d).
Proof.
  intros Hd. unfold decode_bool, decode_null, decode_nan, decode_inf, cannot_parse.
  split_and!;
    repeat match goal with
           | |- upholds _ _ _ (if ?b then _ else _) => destruct b
           end;
    try apply E_decode; try (split; [auto | apply I_set_ptr, Hd]).
  unfold decode_number, number_error. destruct (scan_number _) as [n|]; [|apply E_decode].
  cbv zeta. destruct (is_float n).
  - destruct (PyFloat_FromString _ _); [|apply E_decode].
    split; [apply Q_float | apply I_set_ptr, Hd].
  - destruct (PyInt_FromString _); [|apply E_decode].
    split; [apply Q_int | apply I_set_ptr, Hd].
Qed.

Lemma decode_json_upholds (depth : nat) :
  forall d, I d -> upholds I Q E (decode_json h depth d).
Proof.
  induction depth as [|depth IH]; intros d Hd;
    (assert (Hs : I (skip d)) by (apply I_set_ptr, Hd));
    destruct (decode_scalars_uphold (skip d) Hs) as (Hb & Hn & Hnan & Hinf & Hnum);
    pose proof (decode_string_upholds (skip d) Hs) as Hstr;
    apply (decode_json_cases h (upholds I Q E)); try assumption;
    try (intros; discriminate); try (intros; apply E_decode);
    try (intros; apply E_recursion).
  - intros depth' [= <-] _. unfold decode_object.
    pose proof (decode_object_loop_upholds (decode_json h depth) I Q E I_set_ptr
                  E_decode E_exhausted IH (S (length (ptr (skip d)))) (ptr (skip d))
                  DictionaryKey_or_ClosingBrace [] (next (skip d))
                  (I_set_ptr _ _ Hs) (Forall_nil_2 _)) as Hl.
    destruct (decode_object_loop _ _ _ _ _ _) as [[v d']|e]; [|exact Hl].
    destruct Hl as [(entries & -> & Hes) Hd']. split; [apply Q_dict, Hes | exact Hd'].
  - intros depth' [= <-] _. unfold decode_array.
    pose proof (decode_array_loop_upholds (decode_json h depth) I Q E I_set_ptr
                  E_decode E_exhausted IH (S (length (ptr (skip d)))) (ptr (skip d))
                  ArrayItem_or_ClosingBracket [] (next (skip d))
                  (I_set_ptr _ _ Hs) (Forall_nil_2 _)) as Hl.
    destruct (decode_array_loop _ _ _ _ _ _) as [[v d']|e]; [|exact Hl].
    destruct Hl as [(items & -> & Hitems) Hd']. split; [apply Q_list, Hitems | exact Hd'].
Qed.

End DecodeJsonInvariant.

(** ** What Decode raises *)

(** [cjson.decode] fails in three ways only: the interpreter refuses a
    string with a NUL byte (TypeError), the recursion guard refuses a nested
    array or object (RuntimeError), and everything else is a DecodeError. *)
Definition decode_failure (e : pyerr) : Prop :=
  e = PyExc_TypeError "expected string without null bytes" \/
  (exists msg, e = JSON_DecodeError msg) \/
  (exists where_, e = recursion_error where_).

(** X1.  Whatever the input, a failure of [JSON_decode] is the TypeError for
    a NUL byte, a DecodeError, or the RuntimeError of the recursion guard:
    the errors of the string and number conversions of the interpreter never
    come out as they are. *)
Theorem JSON_decode_error_kinds (h : host) (depth : nat) (s : bytes) (au : bool) :
  match JSON_decode h depth s au with
  | Ok _ => True
  | Err e => decode_failure e
  end.
Proof.
  unfold JSON_decode. destruct (existsb _ s); [left; reflexivity|].
  set (d := mkJSONData s s au).
  assert (Hinv : upholds (fun _ => True) (fun _ => True)
                   (fun e => decode_failure e \/ e = loop_exhausted)
                   (decode_json h depth d)).
  { apply decode_json_upholds; cbv beta; auto;
      try (intros; left; right; left; eauto; fail);
      try (intros; left; right; right; eauto; fail). }
  pose proof (decode_json_not_exhausted h depth d) as Hne.
  destruct (decode_json h depth d) as [[v d']|e].
  - destruct (0 <? _)%nat; [right; left; eauto | exact I].
  - destruct Hinv as [Hf | ->]; [exact Hf | congruence].
Qed.

(** ** The option all_unicode *)

(** No byte String occurs in the value. *)
Fixpoint no_bytes (v : pyvalue) : bool :=
  match v with
  | VString _ => false
  | VList items => forallb no_bytes items
  | VDict entries => forallb (fun e => no_bytes (fst e) && no_bytes (snd e)) entries
  | _ => true
  end.

(** X2.  With [all_unicode] set, every string of the decoded value, at any
    depth and keys included, is a Unicode String. *)
Theorem JSON_decode_all_unicode (h : host) (depth : nat) (s : bytes) (v : pyvalue) :
  JSON_decode h depth s true = Ok v -> no_bytes v = true.
Proof.
  unfold JSON_decode. destruct (existsb _ s); [discriminate|].
  set (d := mkJSONData s s true).
  assert (Hinv : upholds (fun d => all_unicode d = true) (fun v => no_bytes v = true)
                   (fun _ => True) (decode_json h depth d)).
  { apply decode_json_upholds; cbv beta; auto.
    - intros d0 s0 H1 H2. congruence.
    - intros items H. cbn [no_bytes]. apply forallb_forall. intros x Hx.
      rewrite Forall_forall in H. apply H, list_elem_of_In, Hx.
    - intros entries H. cbn [no_bytes]. apply forallb_forall. intros x Hx.
      rewrite Forall_forall in H. apply list_elem_of_In in Hx.
      destruct (H x Hx) as [-> ->]. reflexivity. }
  destruct (decode_json h depth d) as [[v0 d']|e]; [|discriminate].
  destruct (0 <? _)%nat; [discriminate|]. intros [= <-]. apply Hinv.
Qed.

Lemma JSON_decode_all_unicode_witness :
  JSON_decode host0 10 (bytes_of "{" ++ q "a" ++ bytes_of ": [" ++ q "b" ++ bytes_of "]}") true
  = Ok (VDict [(VUnicode [97], VList [VUnicode [98]])]) /\
  no_bytes (VDict [(VUnicode [97], VList [VUnicode [98]])]) = true.
Proof.
  assert (H : JSON_decode host0 10
                (bytes_of "{" ++ q "a" ++ bytes_of ": [" ++ q "b" ++ bytes_of "]}") true
              = Ok (VDict [(VUnicode [97], VList [VUnicode [98]])]))
    by (vm_compute; reflexivity).
  exact (conj H (JSON_decode_all_unicode host0 10 _ _ H)).
Defined.

(** ** The shape of a decoded value *)

(** X3.  In a value that [JSON_decode] returns, the keys of every dict are
    strings, no two keys of a dict are the same key, every Unicode String is
    made of code units of the build, and lists and dicts are nested no deeper
    than the recursion guard allowed. *)
Theorem JSON_decode_shape (h : host) (depth : nat) (s : bytes) (au : bool) (v : pyvalue) :
  JSON_decode h depth s au = Ok v ->
  built (Py_UNICODE_WIDE h) v /\ (depth_of v <= depth)%nat.
Proof.
  unfold JSON_decode. destruct (existsb _ s); [discriminate|].
  destruct (decode_json h depth _) as [[v0 d']|e] eqn:Ed; [|discriminate].
  destruct (0 <? _)%nat; [discriminate|]. intros [= <-].
  apply (decode_json_built h depth _ _ _ Ed).
Qed.

Lemma JSON_decode_shape_witness :
  JSON_decode host0 2
    (bytes_of "{" ++ q "a" ++ bytes_of ": [1], " ++ q "a" ++ bytes_of ": [2]}") false
  = Ok (VDict [(VString (bytes_of "a"), VList [VInt 2])]) /\
  built true (VDict [(VString (bytes_of "a"), VList [VInt 2])]) /\
  (depth_of (VDict [(VString (bytes_of "a"), VList [VInt 2])]) <= 2)%nat.
Proof.
  assert (H : JSON_decode host0 2
                (bytes_of "{" ++ q "a" ++ bytes_of ": [1], " ++ q "a" ++ bytes_of ": [2]}")
                false
              = Ok (VDict [(VString (bytes_of "a"), VList [VInt 2])]))
    by (vm_compute; reflexivity).
  exact (conj H (JSON_decode_shape host0 2 _ false _ H)).
Defined.

(** ** The first byte decides *)

(** The values that the text starting with the byte [c] can denote. *)
Definition first_byte_of (c : ascii) (v : pyvalue) : bool :=
  match v with
  | VDict _ => is_char c "{"
  | VList _ => is_char c "["
  | VString _ | VUnicode _ => is_char c DQUOTE
  | VBool true => is_char c "t"
  | VBool false => is_char c "f"
  | VNone => is_char c "n"
  | VInt _ => is_char c "+" || is_char c "-" || isdigit c
  | VFloat _ =>
      is_char c "N" || is_char c "I" || is_char c "+" || is_char c "-" || isdigit c
  end.

Lemma starts_with_head (word p : bytes) (c : ascii) :
  starts_with (c :: word) p = true -> peek p = c.
Proof.
  destruct p as [|c' p]; [discriminate|]. rewrite starts_with_cons.
  intros H. apply andb_true_iff in H as [H _]. apply is_char_eq in H. exact H.
Qed.

(** X4.  [decode_json] chooses the decoder by the first byte after the
    blanks, and the decoder it chooses returns one kind of value: a dict
    after an opening brace, a list after an opening bracket, a string after a
    double quote, [True] after [t], [False] after [f], [None] after [n], and
    a number after [N], [I], a sign or a digit, an Integer only after a sign
    or a digit. *)
Theorem decode_json_first_byte (h : host) (depth : nat) (d : JSONData) (v : pyvalue)
  (d' : JSONData) :
  decode_json h depth d = Ok (v, d') ->
  first_byte_of (peek (skipSpaces (ptr d))) v = true.
Proof.
  rewrite decode_json_unfold. cbv zeta.
  change (ptr (skip d)) with (skipSpaces (ptr d)).
  set (c := peek (skipSpaces (ptr d))).
  assert (Hkw : forall word c0 x d0,
            (if starts_with (c0 :: word) (ptr (skip d)) then Ok (x, d0)
             else Err (cannot_parse (skip d))) = Ok (v, d') ->
            v = x /\ c = c0).
  { intros word c0 x d0 H. destruct (starts_with _ _) eqn:Es; [|discriminate].
    injection H as <- _. split; [reflexivity | apply (starts_with_head _ _ _ Es)]. }
  destruct (is_char c NUL); [discriminate|].
  destruct (is_char c "{") eqn:Eo.
  { destruct depth as [|depth]; [discriminate|]. unfold decode_object. intros H.
    pose proof (decode_object_loop_upholds (decode_json h depth) (fun _ => True)
                  (fun _ => True) (fun _ => True) (fun _ _ _ => I) (fun _ => I) I
                  ltac:(intros d0 _; destruct (decode_json h depth d0) as [[]|]; cbn; auto)
                  (S (length (ptr (skip d)))) (ptr (skip d))
                  DictionaryKey_or_ClosingBrace [] (next (skip d)) I (Forall_nil_2 _)) as Hl.
    rewrite H in Hl. destruct Hl as [(entries & -> & _) _]. exact Eo. }
  destruct (is_char c "[") eqn:Ea.
  { destruct depth as [|depth]; [discriminate|]. unfold decode_array. intros H.
    pose proof (decode_array_loop_upholds (decode_json h depth) (fun _ => True)
                  (fun _ => True) (fun _ => True) (fun _ _ _ => I) (fun _ => I) I
                  ltac:(intros d0 _; destruct (decode_json h depth d0) as [[]|]; cbn; auto)
                  (S (length (ptr (skip d)))) (ptr (skip d))
                  ArrayItem_or_ClosingBracket [] (next (skip d)) I (Forall_nil_2 _)) as Hl.
    rewrite H in Hl. destruct Hl as [(items & -> & _) _]. exact Ea. }
  destruct (is_char c DQUOTE) eqn:Eq.
  { intros H. destruct (decode_string_built h _ _ _ H) as (Hk & _).
    destruct v; try discriminate Hk; exact Eq. }
  destruct (is_char c "t" || is_char c "f") eqn:Etf.
  { unfold decode_bool. destruct (starts_with (bytes_of "true") _) eqn:Et.
    - intros [= <- _]. cbn [first_byte_of].
      apply (starts_with_head _ _ _) in Et. change (peek (ptr (skip d))) with c in Et. rewrite Et. reflexivity.
    - intros H. destruct (Hkw _ _ _ _ H) as [-> ->]. reflexivity. }
  destruct (is_char c "n").
  { unfold decode_null. intros H. destruct (Hkw _ _ _ _ H) as [-> ->]. reflexivity. }
  destruct (is_char c "N") eqn:EN.
  { unfold decode_nan. intros H. destruct (Hkw _ _ _ _ H) as [-> ->]. reflexivity. }
  assert (Hinf : decode_inf (skip d) = Ok (v, d') ->
                 exists f, v = VFloat f /\
                           (is_char c "I" || is_char c "+" || is_char c "-") = true).
  { unfold decode_inf. destruct (starts_with (bytes_of "Infinity") _) eqn:E1.
    { intros [= <- _]. eexists; split; [reflexivity|].
      apply (starts_with_head _ _ _) in E1. change (peek (ptr (skip d))) with c in E1. rewrite E1. reflexivity. }
    destruct (starts_with (bytes_of "+Infinity") _) eqn:E2.
    { intros [= <- _]. eexists; split; [reflexivity|].
      apply (starts_with_head _ _ _) in E2. change (peek (ptr (skip d))) with c in E2. rewrite E2. reflexivity. }
    intros H. destruct (Hkw _ _ _ _ H) as [-> ->]. eexists; split; reflexivity. }
  assert (Hfloat : forall f, v = VFloat f ->
            (is_char c "I" || is_char c "+" || is_char c "-") = true ->
            first_byte_of c v = true).
  { intros f -> Hc. cbn [first_byte_of]. rewrite EN. cbn [orb].
    destruct (is_char c "I"); [reflexivity|]. cbn [orb] in *.
    rewrite Hc. reflexivity. }
  destruct (is_char c "I") eqn:EI.
  { intros H. destruct (Hinf H) as (f & Hf & Hc). apply (Hfloat f Hf Hc). }
  destruct ((is_char c "+" || is_char c "-") && _) eqn:Esign.
  { intros H. destruct (Hinf H) as (f & Hf & Hc). apply (Hfloat f Hf Hc). }
  destruct (is_char c "+" || is_char c "-" || isdigit c) eqn:Enum; [|discriminate].
  unfold decode_number. destruct (scan_number _) as [n|]; [|discriminate].
  cbv zeta. destruct (is_float n).
  - destruct (PyFloat_FromString _ _); [|discriminate]. intros [= <- _].
    cbn [first_byte_of]. rewrite EN, EI. exact Enum.
  - destruct (PyInt_FromString _); [|discriminate]. intros [= <- _]. exact Enum.
Qed.

Lemma decode_json_first_byte_witness :
  decode_json host0 10 (mkJSONData (bytes_of "  [1]") (bytes_of "  [1]") false)
  = Ok (VList [VInt 1], mkJSONData (bytes_of "  [1]") [] false) /\
  first_byte_of (peek (skipSpaces (bytes_of "  [1]"))) (VList [VInt 1]) = true.
Proof.
  assert (H : decode_json host0 10 (mkJSONData (bytes_of "  [1]") (bytes_of "  [1]") false)
              = Ok (VList [VInt 1], mkJSONData (bytes_of "  [1]") [] false))
    by (vm_compute; reflexivity).
  exact (conj H (decode_json_first_byte host0 10 _ _ _ H)).
Defined.

(** ** Blank input and unterminated strings *)

Lemma isspace_not_nul (c : ascii) : isspace c = true -> is_char c NUL = false.
Proof. destruct c as [[] [] [] [] [] [] [] []]; intros H; try reflexivity; discriminate H. Qed.

Lemma spaces_no_nul (ws : bytes) : forallb isspace ws = true -> has_nul ws = false.
Proof.
  induction ws as [|c ws IH]; [reflexivity|]. cbn [forallb has_nul existsb].
  intros H. apply andb_true_iff in H as [Hc Hws]. fold (has_nul ws).
  rewrite (isspace_not_nul c Hc), (IH Hws). reflexivity.
Qed.

Lemma skipSpaces_spaces (ws p : bytes) :
  forallb isspace ws = true -> skipSpaces (ws ++ p) = skipSpaces p.
Proof.
  induction ws as [|c ws IH]; [reflexivity|]. cbn [forallb app skipSpaces].
  intros H. apply andb_true_iff in H as [Hc Hws]. rewrite Hc. apply IH, Hws.
Qed.

(** X5.  An input that is empty or holds blanks only is refused with the
    DecodeError "empty JSON description". *)
Theorem JSON_decode_blank (h : host) (depth : nat) (ws : bytes) (au : bool) :
  forallb isspace ws = true ->
  JSON_decode h depth ws au = Err (JSON_DecodeError "empty JSON description").
Proof.
  intros Hws. unfold JSON_decode. fold (has_nul ws). rewrite (spaces_no_nul ws Hws).
  assert (Hs : skipSpaces ws = []).
  { pose proof (skipSpaces_spaces ws [] Hws) as H. rewrite app_nil_r in H. exact H. }
  rewrite decode_json_unfold. cbv zeta. unfold skip, set_ptr. cbn [ptr].
  rewrite Hs. reflexivity.
Qed.

Lemma JSON_decode_blank_witness :
  forallb isspace (bytes_of "   ") = true /\
  JSON_decode host0 10 (bytes_of "   ") false
  = Err (JSON_DecodeError "empty JSON description").
Proof.
  exact (conj eq_refl (JSON_decode_blank host0 10 (bytes_of "   ") false eq_refl)).
Defined.

Lemma scan_string_no_quote (body : bytes) :
  forall esc hu se,
    existsb (fun c => is_char c DQUOTE) (plain_bytes esc body) = false ->
    scan_string body esc hu se = None.
Proof.
  induction body as [|c body IH]; intros esc hu se H; [reflexivity|].
  cbn [scan_string]. destruct (is_char c NUL); [reflexivity|].
  cbn [plain_bytes] in H. destruct esc; cbn [negb].
  - destruct (is_char c "u"); [apply IH, H|].
    destruct (is_simple_escape c); apply IH, H.
  - destruct (is_char c BACKSLASH); [apply IH, H|].
    cbn [existsb] in H. apply orb_false_iff in H as [Hq H]. rewrite Hq.
    destruct (negb (isascii c)); apply IH, H.
Qed.

Lemma decode_json_skip (h : host) (depth : nat) (d : JSONData) :
  decode_json h depth d = decode_json h depth (skip d).
Proof.
  rewrite (decode_json_unfold h depth d), (decode_json_unfold h depth (skip d)).
  assert (Hs : skip (skip d) = skip d).
  { unfold skip, set_ptr. cbn [ptr str all_unicode]. f_equal.
    pose proof (skipSpaces_head (ptr d)) as Hhead.
    destruct (skipSpaces (ptr d)) as [|c p]; [reflexivity|].
    cbn [skipSpaces peek] in *. rewrite Hhead. reflexivity. }
  rewrite Hs. reflexivity.
Qed.

(** X6.  A string token whose closing double quote is missing (every double
    quote that follows the opening one is escaped) is refused with the
    DecodeError "unterminated string starting at position N", where N is the
    offset of the opening double quote. *)
Theorem JSON_decode_unterminated_string (h : host) (depth : nat) (ws body : bytes)
  (au : bool) :
  forallb isspace ws = true ->
  has_nul body = false ->
  existsb (fun c => is_char c DQUOTE) (plain_bytes false body) = false ->
  JSON_decode h depth (ws ++ DQUOTE :: body) au
  = Err (JSON_DecodeError
           (fmt_pos "unterminated string starting at position " (length ws))).
Proof.
  intros Hws Hnul Hq. unfold JSON_decode. fold (has_nul (ws ++ DQUOTE :: body)).
  rewrite has_nul_app, (spaces_no_nul ws Hws). cbn [has_nul existsb orb].
  fold (has_nul body). rewrite Hnul. change (is_char DQUOTE NUL) with false. cbn [orb].
  rewrite decode_json_skip. unfold skip, set_ptr. cbn [ptr str all_unicode].
  rewrite (skipSpaces_spaces ws _ Hws). cbn [skipSpaces]. change (isspace DQUOTE) with false.
  cbv iota. rewrite decode_json_string. unfold decode_string. cbn [ptr advance tail].
  rewrite (scan_string_no_quote body false false false Hq).
  unfold offset. cbn [str ptr]. do 3 f_equal.
  rewrite length_app. cbn [length]. lia.
Qed.

Lemma JSON_decode_unterminated_string_witness :
  forallb isspace (bytes_of " ") = true /\
  has_nul (bytes_of "ab\" ++ [DQUOTE]) = false /\
  existsb (fun c => is_char c DQUOTE) (plain_bytes false (bytes_of "ab\" ++ [DQUOTE]))
  = false /\
  JSON_decode host0 10 (bytes_of " " ++ DQUOTE :: bytes_of "ab\" ++ [DQUOTE]) false
  = Err (JSON_DecodeError "unterminated string starting at position 1").
Proof.
  exact (conj eq_refl (conj eq_refl (conj eq_refl
           (JSON_decode_unterminated_string host0 10 (bytes_of " ")
              (bytes_of "ab\" ++ [DQUOTE]) false eq_refl eq_refl eq_refl)))).
Defined.

(** ** The cursor *)

(** X7.  A successful [decode_json] leaves the buffer and the option as they
    are and moves the cursor forward, by at least one byte and never past the
    end: the new cursor is a proper suffix of the old one. *)
Theorem decode_json_consumes (h : host) (depth : nat) (d : JSONData) (v : pyvalue)
  (d' : JSONData) :
  decode_json h depth d = Ok (v, d') ->
  str d' = str d /\ all_unicode d' = all_unicode d /\
  exists consumed, consumed <> [] /\ ptr d = consumed ++ ptr d'.
Proof. intros H. exact (decode_json_moved h depth d v d' H). Qed.

Lemma decode_json_consumes_witness :
  decode_json host0 10 (mkJSONData (bytes_of "[1] x") (bytes_of "[1] x") false)
  = Ok (VList [VInt 1], mkJSONData (bytes_of "[1] x") (bytes_of " x") false) /\
  exists consumed, consumed <> [] /\ bytes_of "[1] x" = consumed ++ bytes_of " x".
Proof.
  assert (H : decode_json host0 10 (mkJSONData (bytes_of "[1] x") (bytes_of "[1] x") false)
              = Ok (VList [VInt 1], mkJSONData (bytes_of "[1] x") (bytes_of " x") false))
    by (vm_compute; reflexivity).
  exact (conj H (proj2 (proj2 (decode_json_consumes host0 10 _ _ _ H)))).
Defined.

(** * Further properties of the encoder *)

(** ** The size of the text of a string *)

(** The escaped text that [encode_string] writes into its buffer. *)
Definition escaped (s : bytes) : bytes :=
  DQUOTE :: concat (map encode_string_char s) ++ [DQUOTE].

Lemma escaped_length (s : bytes) : (2 <= length (escaped s) <= 2 + 6 * length s)%nat.
Proof.
  unfold escaped. cbn [length]. rewrite length_app. cbn [length].
  pose proof (concat_length_bound encode_string_char 6 s encode_string_char_length).
  lia.
Qed.

(** X8.  When [encode_string] returns a text, the size [2 + 6 * size] of the
    buffer is no more than PY_SSIZE_T_MAX, the escaped text between its
    quotes fits the buffer, and the result is the start of that text, cut at
    the length converted to [int]: the whole text when its length is no more
    than INT_MAX. *)
Theorem encode_string_fits (h : host) (s out : bytes) :
  encode_string h s = Ok out ->
  2 + 6 * Z.of_nat (length s) <= PY_SSIZE_T_MAX h /\
  (length (escaped s) <= 2 + 6 * length s)%nat /\
  out = take (Z.to_nat (int_cast (Z.of_nat (length (escaped s))))) (escaped s) /\
  (Z.of_nat (length (escaped s)) <= INT_MAX -> out = escaped s).
Proof.
  unfold encode_string. destruct (_ <? _) eqn:Eguard; [discriminate|].
  cbv zeta. fold (escaped s). unfold _PyString_Resize.
  destruct (_ <? 0) eqn:Eneg; [discriminate|].
  intros [= <-]. apply Z.ltb_ge in Eguard.
  split; [pose proof (Z.mul_div_le (PY_SSIZE_T_MAX h - 2) 6 ltac:(lia)); lia|].
  split; [apply escaped_length|]. split; [reflexivity|].
  intros Hint. rewrite int_cast_small by (split; [apply Nat2Z.is_nonneg | exact Hint]).
  rewrite Nat2Z.id. exact (firstn_all (escaped s)).
Qed.

Lemma encode_string_fits_witness :
  encode_string host0 (bytes_of "a" ++ ["010"%char; "233"%char])
  = Ok (DQUOTE :: bytes_of "a\n\u00e9" ++ [DQUOTE]) /\
  DQUOTE :: bytes_of "a\n\u00e9" ++ [DQUOTE]
  = escaped (bytes_of "a" ++ ["010"%char; "233"%char]).
Proof.
  assert (H : encode_string host0 (bytes_of "a" ++ ["010"%char; "233"%char])
              = Ok (DQUOTE :: bytes_of "a\n\u00e9" ++ [DQUOTE]))
    by (vm_compute; reflexivity).
  split; [exact H|].
  apply (encode_string_fits host0 _ _ H). vm_compute. discriminate.
Defined.

(** A text of more than INT_MAX bytes: the length converted to [int] is
    negative, [_PyString_Resize] refuses it, and [encode_string] returns the
    NULL that it left in [v], with a SystemError set. *)
Lemma escaped_control_length (n : nat) :
  Z.of_nat (length (escaped (repeat "001"%char n))) = 2 + 6 * Z.of_nat n.
Proof.
  unfold escaped. cbn [length]. rewrite length_app. cbn [length].
  assert (H : length (concat (map encode_string_char (repeat "001"%char n))) = (6 * n)%nat).
  { induction n as [|n IH]; [reflexivity|].
    assert (Hc : length (encode_string_char "001"%char) = 6%nat) by reflexivity.
    cbn [repeat map concat]. rewrite length_app, IH, Hc. lia. }
  rewrite H. lia.
Qed.

Example Encode_string_over_int (h : host) (n : nat) :
  Z.of_nat n <= (PY_SSIZE_T_MAX h - 2) / 6 ->
  2 ^ 31 <= 2 + 6 * Z.of_nat n < 2 ^ 32 ->
  encode_string h (repeat "001"%char n)
  = Err (PyExc_SystemError "bad argument to internal function").
Proof.
  intros Hguard Hsize. unfold encode_string.
  destruct (_ <? _) eqn:E; [apply Z.ltb_lt in E; rewrite repeat_length in E; lia|].
  cbv zeta. fold (escaped (repeat "001"%char n)). rewrite escaped_control_length.
  unfold _PyString_Resize, int_cast.
  replace ((2 + 6 * Z.of_nat n + 2 ^ 31) mod 2 ^ 32)
    with (2 + 6 * Z.of_nat n + 2 ^ 31 - 2 ^ 32).
  2:{ apply Z.mod_unique with (q := 1); lia. }
  destruct (_ <? 0) eqn:E0; [reflexivity|]. apply Z.ltb_ge in E0. lia.
Qed.

Example Encode_string_over_int_host0 :
  encode_string host0 (repeat "001"%char (Z.to_nat 357913941))
  = Err (PyExc_SystemError "bad argument to internal function").
Proof.
  apply Encode_string_over_int; rewrite Z2Nat.id by lia.
  - change (PY_SSIZE_T_MAX host0) with (2 ^ 63 - 1). apply Z.div_le_lower_bound; lia.
  - lia.
Qed.

Lemma encode_unicode_char_length (h : host) (ch : Z) :
  Z.of_nat (length (encode_unicode_char h ch)) <= expandsize h.
Proof.
  unfold encode_unicode_char, expandsize.
  destruct (_ || _); [destruct (Py_UNICODE_WIDE h); cbn; lia|].
  destruct (Py_UNICODE_WIDE h); cbn [andb].
  - destruct (65536 <=? ch); [cbn; lia|].
    repeat match goal with
           | |- context [if ?b then _ else _] => destruct b; [cbn; lia|]
           end.
    cbn; lia.
  - repeat match goal with
           | |- context [if ?b then _ else _] => destruct b; [cbn; lia|]
           end.
    cbn; lia.
Qed.

Lemma concat_length_boundZ {A B} (f : A -> list B) (n : Z) (l : list A) :
  (forall x, Z.of_nat (length (f x)) <= n) ->
  Z.of_nat (length (concat (map f l))) <= n * Z.of_nat (length l).
Proof.
  intros Hf. induction l as [|x l IH]; cbn [map concat length]; [lia|].
  rewrite length_app. specialize (Hf x). lia.
Qed.

(** X9.  The text that [encode_unicode] returns fits the buffer of
    [2 + expandsize * size + 1] bytes that it allocates, with the byte for
    the final NUL to spare, and that size is no more than PY_SSIZE_T_MAX;
    [expandsize] is 12 in a wide build, where a character may take two
    escapes, and 6 in a narrow one. *)
Theorem encode_unicode_fits (h : host) (u : list Z) (out : bytes) :
  encode_unicode h u = Ok out ->
  2 <= Z.of_nat (length out) <= 2 + expandsize h * Z.of_nat (length u) /\
  2 + expandsize h * Z.of_nat (length u) + 1 <= PY_SSIZE_T_MAX h.
Proof.
  unfold encode_unicode. destruct (_ <? _) eqn:Eguard; [discriminate|].
  intros [= <-]. apply Z.ltb_ge in Eguard.
  assert (Hpos : 0 < expandsize h) by (unfold expandsize; destruct (Py_UNICODE_WIDE h); lia).
  split.
  - cbn [length]. rewrite length_app. cbn [length].
    pose proof (concat_length_boundZ (encode_unicode_char h) (expandsize h) u
                  (encode_unicode_char_length h)).
    lia.
  - pose proof (Z.mul_div_le (PY_SSIZE_T_MAX h - 2 - 1) (expandsize h) Hpos). nia.
Qed.

Lemma encode_unicode_fits_witness :
  encode_unicode host0 [0x1D11E; 97]
  = Ok (DQUOTE :: bytes_of "\ud834\udd1ea" ++ [DQUOTE]) /\
  2 <= Z.of_nat (length (DQUOTE :: bytes_of "\ud834\udd1ea" ++ [DQUOTE]))
    <= 2 + expandsize host0 * 2.
Proof.
  assert (H : encode_unicode host0 [0x1D11E; 97]
              = Ok (DQUOTE :: bytes_of "\ud834\udd1ea" ++ [DQUOTE]))
    by (vm_compute; reflexivity).
  exact (conj H (proj1 (encode_unicode_fits host0 _ _ H))).
Defined.

(** ** The calls of the default callable *)

Definition is_instance (o : pyobj) : bool :=
  match o with
  | PyInstance _ _ => true
  | _ => false
  end.

Section Calls.

Variable h : host.
Variable w : interp.
Variable params : EncodingParams.

(** [m] only adds calls on objects of no known kind to the log, and none
    without a [default]. *)
Definition logs {R} (m : enc_state -> R * enc_state) : Prop :=
  forall st, exists new,
    calls (snd (m st)) = calls st ++ new /\ forallb is_instance new = true /\
    (fallback params = None -> new = []).

Lemma logs_quiet {R} (m : enc_state -> R * enc_state) :
  (forall st, calls (snd (m st)) = calls st) -> logs m.
Proof.
  intros H st. exists []. rewrite app_nil_r. split; [apply H | split; reflexivity].
Qed.

Lemma logs_untouched {R} (m : enc_state -> R * enc_state) : untouched m -> logs m.
Proof. intros H. apply logs_quiet. intros st. apply H. Qed.

Lemma logs_seq {R B} (m : enc_state -> R * enc_state)
  (k : R -> enc_state -> B * enc_state) :
  logs m -> (forall r, logs (k r)) -> logs (fun st => let (r, st') := m st in k r st').
Proof.
  intros Hm Hk st. destruct (Hm st) as (new1 & H1 & Hi1 & Hn1).
  destruct (m st) as [r st1]. cbn [snd] in *.
  destruct (Hk r st1) as (new2 & H2 & Hi2 & Hn2). exists (new1 ++ new2).
  rewrite H2, H1, app_assoc, forallb_app, Hi1, Hi2. split; [reflexivity|].
  split; [reflexivity|]. intros Hf. rewrite (Hn1 Hf), (Hn2 Hf). reflexivity.
Qed.

Lemma logs_bind {A B} (m : enc A) (k : A -> enc B) :
  logs m -> (forall a, logs (k a)) -> logs (bind m k).
Proof.
  intros Hm Hk. unfold bind. apply logs_seq; [exact Hm|].
  intros [a| |why]; [apply Hk | |]; apply logs_quiet; reflexivity.
Qed.

Section Containers.

Variable rec : pyobj -> enc bytes.
Hypothesis rec_logs : forall o, logs (rec o).

Lemma encode_items_logs (items : list pyobj) : logs (encode_items rec items).
Proof.
  induction items as [|x xs IH]; cbn [encode_items].
  - apply logs_quiet. reflexivity.
  - apply logs_bind; [apply rec_logs|]. intros s.
    apply logs_bind; [exact IH|]. intros pieces. apply logs_quiet. reflexivity.
Qed.

Lemma encode_tuple_logs (items : list pyobj) : logs (encode_tuple rec items).
Proof.
  unfold encode_tuple. destruct (bool_decide (items = [])); [apply logs_quiet; reflexivity|].
  apply logs_bind; [apply encode_items_logs|]. intros pieces.
  apply logs_quiet. reflexivity.
Qed.

Lemma encode_list_loop_logs (turns : nat) (l : loc) :
  forall i pieces, logs (encode_list_loop rec turns l i pieces).
Proof.
  induction turns as [|turns IH]; intros i pieces.
  - apply logs_quiet. intros st. cbn [encode_list_loop].
    destruct (list_items st l !! i); reflexivity.
  - intros st. cbn [encode_list_loop].
    destruct (list_items st l !! i) as [item|]; [|apply (logs_quiet (ret pieces)); reflexivity].
    apply (logs_seq (rec item)
             (fun r st => match r with
                          | Value s => encode_list_loop rec turns l (S i) (pieces ++ [s]) st
                          | Null => (Null, st)
                          | Stuck why => (Stuck why, st)
                          end)); [apply rec_logs|].
    intros [s| |why]; [apply IH | |]; apply logs_quiet; reflexivity.
Qed.

(** The body of [encode_list] and of [encode_dict] between [Py_ReprEnter]
    and [Py_ReprLeave]. *)
Lemma entered_logs (l : loc) (body : enc bytes) (e : pyerr) :
  logs body ->
  logs (fun st =>
          let (i, st) := Py_ReprEnter l st in
          if negb (i =? 0) then (Null, PyErr_SetString e st)
          else let (result, st) := body st in (result, Py_ReprLeave l st)).
Proof.
  intros Hbody st. unfold Py_ReprEnter.
  destruct (bool_decide (l ∈ Py_Repr st)); cbn [Z.eqb negb].
  - exists []. rewrite app_nil_r. auto.
  - destruct (Hbody (set_Py_Repr (Py_Repr st ++ [l]) st)) as (new & Hc & Hi & Hn).
    destruct (body _) as [r st1]. exists new. cbn [snd] in *. auto.
Qed.

Lemma encode_list_logs (turns : nat) (l : loc) : logs (encode_list rec turns l).
Proof.
  apply (entered_logs l
           (fun st => (if bool_decide (list_items st l = []) then ret (bytes_of "[]")
                       else let* pieces := encode_list_loop rec turns l 0 [] in
                            ret (decorate (bytes_of "[") (bytes_of "]") pieces)) st)).
  intros st. destruct (bool_decide _); [apply (logs_quiet (ret (bytes_of "[]"))); reflexivity|].
  apply logs_bind; [apply encode_list_loop_logs|].
  intros pieces. apply logs_quiet. reflexivity.
Qed.

Lemma encode_pair_logs (key value : pyobj) : logs (encode_pair rec key value).
Proof.
  intros st. unfold encode_pair.
  destruct (rec_logs key st) as (new1 & H1 & Hi1 & Hn1).
  destruct (rec key st) as [s st1]. cbn [snd] in *.
  destruct (rec_logs value st1) as (new2 & H2 & Hi2 & Hn2).
  destruct (rec value st1) as [v st2]. cbn [snd] in *.
  assert (Hst : calls st2 = calls st ++ new1 ++ new2)
    by (rewrite H2, H1, app_assoc; reflexivity).
  assert (Hall : forallb is_instance (new1 ++ new2) = true)
    by (rewrite forallb_app, Hi1, Hi2; reflexivity).
  assert (Hnone : fallback params = None -> new1 ++ new2 = [])
    by (intros Hf; rewrite (Hn1 Hf), (Hn2 Hf); reflexivity).
  destruct s as [s| |?].
  - destruct v as [v| |?]; exists (new1 ++ new2); cbn [snd]; auto.
  - destruct v as [v| |?]; exists (new1 ++ new2); cbn [snd]; auto.
  - exists new1. cbn [snd]. auto.
Qed.

Lemma encode_dict_loop_logs (turns : nat) (l : loc) :
  forall i pieces, logs (encode_dict_loop rec turns l i pieces).
Proof.
  induction turns as [|turns IH]; intros i pieces.
  - apply logs_quiet. intros st. cbn [encode_dict_loop].
    destruct (PyDict_Next (dict_table st l) i) as [[i' [key value]]|]; reflexivity.
  - intros st. cbn [encode_dict_loop].
    destruct (PyDict_Next (dict_table st l) i) as [[i' [key value]]|];
      [|apply (logs_quiet (ret pieces)); reflexivity].
    destruct (negb (is_string_key key)).
    { exists []. rewrite app_nil_r. auto. }
    apply (logs_seq (encode_pair rec key value)
             (fun r st => match r with
                          | Value s => encode_dict_loop rec turns l i' (pieces ++ [s]) st
                          | Null => (Null, st)
                          | Stuck why => (Stuck why, st)
                          end)); [apply encode_pair_logs|].
    intros [s| |why]; [apply IH | |]; apply logs_quiet; reflexivity.
Qed.

Lemma encode_dict_logs (turns : nat) (l : loc) : logs (encode_dict rec turns l).
Proof.
  apply (entered_logs l
           (fun st => (if bool_decide (table_entries (dict_table st l) = [])
                       then ret (bytes_of "{}")
                       else let* pieces := encode_dict_loop rec turns l 0 [] in
                            ret (decorate (bytes_of "{") (bytes_of "}") pieces)) st)).
  intros st. destruct (bool_decide _); [apply (logs_quiet (ret (bytes_of "{}"))); reflexivity|].
  apply logs_bind; [apply encode_dict_loop_logs|].
  intros pieces. apply logs_quiet. reflexivity.
Qed.

End Containers.

(** The call of the callable adds its argument to the log, or nothing. *)
Lemma PyObject_CallObject_logged (f o : pyobj) (depth : nat) (st : enc_state) :
  let st' := snd (PyObject_CallObject w f o depth st) in
  calls st' = calls st \/ calls st' = calls st ++ [o].
Proof.
  unfold PyObject_CallObject. destruct f; try (left; reflexivity).
  destruct callable; [|left; reflexivity]. destruct depth; [left; reflexivity|].
  pose proof (untouched_run (tp_call w (PyInstance id true) o) depth (log_call o st))
    as [_ H].
  destruct (run _ depth (log_call o st)) as [r st']. cbn [snd] in *.
  right. destruct r, (curexc st'); exact H.
Qed.

(** The arm of [encode_object] that ends in the call of [default], for an
    object that is of none of the three types. *)
Definition encode_other (turns depth : nat) (o : pyobj) : enc bytes :=
  match fallback params with
  | Some f =>
      match depth with
      | O => raise (recursion_error " while encoding a non-primitive Python object")
      | S depth' =>
          fun st =>
            let (resolve, st) := PyObject_CallObject w f o depth' st in
            match curexc st with
            | Some _ => (Null, st)
            | None =>
                match resolve with
                | Some resolve => encode_object h w params turns depth' resolve st
                | None => (Stuck undefined, st)
                end
            end
      end
  | None => raise_encoding_error w o depth
  end.

Lemma encode_object_other (turns depth : nat) (o : pyobj) :
  is_instance o = true \/ (exists kind id truth, o = PyTemporal kind id truth) ->
  encode_object h w params turns depth o
  = fun st =>
      let (is_datetime, st) := PyObject_IsInstance w o TDateTime depth st in
      if is_datetime then encode_datetime h w o (fmt_datetime params) depth st
      else
        let (is_date, st) := PyObject_IsInstance w o TDate depth st in
        if is_date then encode_datetime h w o (fmt_date params) depth st
        else
          let (is_time, st) := PyObject_IsInstance w o TTime depth st in
          if is_time then encode_datetime h w o (fmt_time params) depth st
          else encode_other turns depth o st.
Proof.
  intros [Ho | (kind & id & truth & ->)]; [destruct o; try discriminate Ho|];
    unfold encode_other; destruct depth; cbn [encode_object];
    destruct (fallback params); reflexivity.
Qed.

Lemma encode_object_logs (turns depth : nat) :
  forall o, logs (encode_object h w params turns depth o).
Proof.
  assert (Hscalar : forall depth o,
            match o with
            | PyRef _ | PyTuple _ | PyTemporal _ _ _ | PyInstance _ _ => True
            | _ => untouched (encode_object h w params turns depth o)
            end).
  { intros d o. destruct o; try exact I; destruct d; cbn [encode_object];
      try apply untouched_ret; try apply untouched_lift; try apply encode_float_untouched;
      try apply PyObject_Str_untouched; try apply encode_number_untouched;
      destruct b; apply untouched_ret. }
  assert (Hother : forall depth o,
            (forall depth', depth = S depth' ->
               forall r, logs (encode_object h w params turns depth' r)) ->
            is_instance o = true -> logs (encode_other turns depth o)).
  { intros d o IH Ho. unfold encode_other.
    destruct (fallback params) as [f|] eqn:Ef;
      [|apply logs_untouched, raise_encoding_error_untouched].
    destruct d as [|d]; [apply logs_quiet; reflexivity|].
    intros st. pose proof (PyObject_CallObject_logged f o d st) as Hc.
    destruct (PyObject_CallObject w f o d st) as [resolve st1]. cbn [snd] in Hc.
    assert (Hfirst : exists new, calls st1 = calls st ++ new /\
                                 forallb is_instance new = true /\
                                 (fallback params = None -> new = [])).
    { destruct Hc as [Hc | Hc].
      - exists []. rewrite app_nil_r. auto.
      - exists [o]. cbn [forallb]. rewrite Ho. split; [exact Hc|]. split; [reflexivity|].
        intros Hn. rewrite Ef in Hn. discriminate Hn. }
    destruct (curexc st1); [exact Hfirst|]. destruct resolve as [r|]; [|exact Hfirst].
    destruct Hfirst as (new1 & H1 & Hi1 & Hn1).
    destruct (IH d eq_refl r st1) as (new2 & H2 & Hi2 & Hn2). exists (new1 ++ new2).
    rewrite H2, H1, app_assoc, forallb_app, Hi1, Hi2. split; [reflexivity|].
    split; [reflexivity|]. intros Hf. rewrite (Hn1 Hf), (Hn2 Hf). reflexivity. }
  assert (Hchecks : forall depth o,
            (forall depth', depth = S depth' ->
               forall r, logs (encode_object h w params turns depth' r)) ->
            match o with
            | PyTemporal _ _ _ | PyInstance _ _ => logs (encode_object h w params turns depth o)
            | _ => True
            end).
  { intros d o IH.
    assert (Hslow : forall type (k : bool -> enc bytes),
              (forall b, logs (k b)) ->
              logs (fun st => let (b, st) := PyObject_IsInstance w o type d st in k b st)).
    { intros type k Hk.
      apply (logs_seq (PyObject_IsInstance w o type d) k);
        [apply logs_untouched, PyObject_IsInstance_untouched | exact Hk]. }
    destruct o; try exact I.
    - (* an object of one of the three types: its own type is recognized *)
      rewrite encode_object_other by (right; eauto).
      destruct kind.
      + intros st. cbn [PyObject_IsInstance temporal_eqb].
        apply (logs_untouched _ (encode_datetime_untouched h w _ _ d)).
      + apply (Hslow TDateTime (fun b st => if b then _ else _)).
        intros [|]; [apply logs_untouched, encode_datetime_untouched|].
        intros st. cbn [PyObject_IsInstance temporal_eqb].
        apply (logs_untouched _ (encode_datetime_untouched h w _ _ d)).
      + apply (Hslow TDateTime (fun b st => if b then _ else _)).
        intros [|]; [apply logs_untouched, encode_datetime_untouched|].
        apply (Hslow TDate (fun b st => if b then _ else _)).
        intros [|]; [apply logs_untouched, encode_datetime_untouched|].
        intros st. cbn [PyObject_IsInstance temporal_eqb].
        apply (logs_untouched _ (encode_datetime_untouched h w _ _ d)).
    - rewrite encode_object_other by (left; reflexivity).
      apply (Hslow TDateTime (fun b st => if b then _ else _)).
      intros [|]; [apply logs_untouched, encode_datetime_untouched|].
      apply (Hslow TDate (fun b st => if b then _ else _)).
      intros [|]; [apply logs_untouched, encode_datetime_untouched|].
      apply (Hslow TTime (fun b st => if b then _ else _)).
      intros [|]; [apply logs_untouched, encode_datetime_untouched|].
      apply Hother; [exact IH | reflexivity]. }
  induction depth as [|depth IH]; intros o.
  - pose proof (Hscalar 0%nat o) as Hs. pose proof (Hchecks 0%nat o) as Ho.
    destruct o; try (apply logs_untouched; exact Hs); try (apply Ho; intros; discriminate).
    + apply logs_quiet. intros st. cbn [encode_object].
      destruct (objects st !! l) as [[]|]; reflexivity.
    + apply logs_quiet. reflexivity.
  - pose proof (Hscalar (S depth) o) as Hs. pose proof (Hchecks (S depth) o) as Ho.
    destruct o; try (apply logs_untouched; exact Hs);
      try (apply Ho; intros depth' [= <-]; exact IH).
    + intros st. cbn [encode_object]. destruct (objects st !! l) as [[]|].
      * apply encode_list_logs, IH.
      * apply encode_dict_logs, IH.
      * exists []. rewrite app_nil_r. auto.
    + apply encode_tuple_logs, IH.
Qed.

End Calls.

(** X13.  The [default] callable is only called for objects that the
    encoder cannot encode otherwise: every call that an encoding adds to the
    log has an argument of no known kind, never a string, number, list,
    tuple, dict, date or time; and without [default] nothing is called. *)
Theorem default_called_on_unknown (h : host) (w : interp) (params : EncodingParams)
  (turns depth : nat) (o : pyobj) (st : enc_state) :
  exists new,
    calls (snd (encode_object h w params turns depth o st)) = calls st ++ new /\
    forallb is_instance new = true /\
    (fallback params = None -> new = []).
Proof. apply encode_object_logs. Qed.
(** ** Byte strings come back as their code points *)

(** The bytes that [encode_string] writes as an escape with four hex digits:
    the control characters that have no escape of their own, DEL and the
    bytes above it. *)
Definition needs_u_escape (c : ascii) : bool :=
  ((code c <? 32) || (127 <=? code c))
  && negb (existsb (is_char c) ["009"; "010"; "013"; "012"; "008"]%char).

Lemma byte_token_uesc (c : ascii) : is_uesc (byte_token c) = needs_u_escape c.
Proof. destruct c as [[] [] [] [] [] [] [] []]; vm_compute; reflexivity. Qed.

Lemma byte_tokens_uesc (s : bytes) :
  existsb is_uesc (map byte_token s) = existsb needs_u_escape s.
Proof.
  induction s as [|c s IH]; [reflexivity|]. cbn [map existsb].
  rewrite IH, byte_token_uesc. reflexivity.
Qed.

Lemma JSON_decode_string_text (h : host) (depth : nat) (s : bytes) (au : bool) :
  JSON_decode h depth (string_text s) au
  = Ok (if existsb needs_u_escape s || au then VUnicode (map code s) else VString s).
Proof.
  destruct (decode_string_tokens h (string_text s) [] (map byte_token s) au
              (byte_tokens_ok s)) as [Hint Hdec].
  specialize (Hdec _ Hint).
  assert (Hjson : forall v,
            decode_string h (mkJSONData (string_text s)
                               (DQUOTE :: render_all (map byte_token s) ++ [DQUOTE]) au)
            = Ok (v, mkJSONData (string_text s) [] au) ->
            JSON_decode h depth (string_text s) au = Ok v).
  { intros v Hv. unfold JSON_decode. fold (has_nul (string_text s)).
    rewrite string_text_no_nul.
    change (mkJSONData (string_text s) (string_text s) au)
      with (mkJSONData (string_text s)
              (DQUOTE :: render_all (map byte_token s) ++ [DQUOTE]) au).
    rewrite decode_json_string, Hv. reflexivity. }
  rewrite (Hjson _ Hdec), byte_tokens_uesc. f_equal.
  destruct (existsb needs_u_escape s || au) eqn:Eu.
  - rewrite byte_tokens_units, (join_surrogates_bytes _ (codes_below_surrogates s)).
    destruct (Py_UNICODE_WIDE h); reflexivity.
  - apply orb_false_iff in Eu as [Eu _]. rewrite <- byte_tokens_uesc in Eu.
    destruct (byte_tokens_bytes s Eu) as [-> _]. reflexivity.
Qed.

(** X14.  A byte string whose text fits an [int] is encoded, and
    [JSON_decode] reads the text back as the same bytes when no byte is
    written as an escape with four hex digits and [all_unicode] is not set;
    otherwise it reads it back as the Unicode String whose code points are
    the values of the bytes (a byte above 127 is read as the Latin-1
    character). *)
Theorem encode_string_decodes (h : host) (depth : nat) (s : bytes) (au : bool) :
  string_fits h s ->
  exists out,
    encode_string h s = Ok out /\
    JSON_decode h depth out au
    = Ok (if existsb needs_u_escape s || au then VUnicode (map code s) else VString s).
Proof.
  intros H. exists (string_text s). split; [apply encode_string_text, H|].
  apply JSON_decode_string_text.
Qed.

Lemma encode_string_decodes_witness :
  exists out,
    encode_string host0 ["a"%char; "233"%char] = Ok out /\
    JSON_decode host0 0 out false = Ok (VUnicode [97; 233]).
Proof.
  apply (encode_string_decodes host0 0 ["a"%char; "233"%char] false).
  split; vm_compute; discriminate.
Defined.

Example Decode_encoded_strings :
  (encode_string host0 (bytes_of "a b") = Ok (q "a b") /\
   JSON_decode host0 0 (q "a b") false = Ok (VString (bytes_of "a b"))) /\
  (encode_string host0 ["001"%char] = Ok (DQUOTE :: encode_string_char "001" ++ [DQUOTE]) /\
   JSON_decode host0 0 (DQUOTE :: encode_string_char "001" ++ [DQUOTE]) false
   = Ok (VUnicode [1])).
Proof. repeat split; vm_compute; reflexivity. Qed.
(** ** The keys of a dict *)

Lemma table_entries_drop (ma_table : list (option (pyobj * pyobj))) :
  forall i entry, entry ∈ table_entries (drop i ma_table) -> entry ∈ table_entries ma_table.
Proof.
  induction ma_table as [|slot rest IH]; intros [|i] entry H; try exact H.
  - cbn [drop] in H. specialize (IH i entry H).
    destruct slot; cbn [table_entries]; [right|]; exact IH.
Qed.

Section BadKey.

Variable rec : pyobj -> enc bytes.
Variable l : loc.
Variable ma_table : list (option (pyobj * pyobj)).

(** The encoding of a key or of a value of the table leaves the dict at [l]
    as it is. *)
Hypothesis rec_stable :
  forall k v st, (k, v) ∈ table_entries ma_table ->
    dict_table (snd (rec k st)) l = dict_table st l /\
    dict_table (snd (rec v st)) l = dict_table st l.

Variables key value : pyobj.
Hypothesis bad_key : is_string_key key = false.

Lemma encode_pair_stable (k v : pyobj) (st : enc_state) :
  (k, v) ∈ table_entries ma_table ->
  dict_table (snd (encode_pair rec k v st)) l = dict_table st l.
Proof.
  intros Hin. unfold encode_pair.
  pose proof (proj1 (rec_stable k v st Hin)) as Hk.
  destruct (rec k st) as [s st1]. cbn [snd] in Hk.
  pose proof (proj2 (rec_stable k v st1 Hin)) as Hv.
  destruct (rec v st1) as [t st2]. cbn [snd] in Hv.
  destruct s as [s| |?]; [| |exact Hk]; destruct t as [t| |?]; cbn [snd]; congruence.
Qed.

Lemma encode_dict_loop_bad_key (turns : nat) :
  forall i pieces st,
    dict_table st l = ma_table ->
    (key, value) ∈ table_entries (drop i ma_table) ->
    forall result, fst (encode_dict_loop rec turns l i pieces st) <> Value result.
Proof.
  induction turns as [|turns IH]; intros i pieces st Htable Hin result;
    cbn [encode_dict_loop]; rewrite Htable;
    pose proof (PyDict_Next_spec ma_table i) as Hnext;
    destruct (PyDict_Next ma_table i) as [[i' [k v]]|];
    try (rewrite Hnext in Hin; inversion Hin; fail); try discriminate.
  assert (Hkv : (k, v) ∈ table_entries ma_table).
  { apply (table_entries_drop ma_table i). rewrite Hnext. left. }
  rewrite Hnext in Hin. destruct (is_string_key k) eqn:Ek; cbn [negb]; [|discriminate].
  apply elem_of_cons in Hin as [Hin | Hin]; [congruence|].
  pose proof (encode_pair_stable k v st Hkv) as Hst.
  destruct (encode_pair rec k v st) as [[s| |why] st1]; cbn [snd] in Hst; try discriminate.
  apply IH; [congruence | exact Hin].
Qed.

Lemma encode_dict_bad_key (turns : nat) (st : enc_state) :
  dict_table st l = ma_table ->
  (key, value) ∈ table_entries ma_table ->
  forall result, fst (encode_dict rec turns l st) <> Value result.
Proof.
  intros Htable Hin result. unfold encode_dict, Py_ReprEnter.
  destruct (bool_decide (l ∈ Py_Repr st)); cbn [Z.eqb negb]; [discriminate|].
  change (dict_table (set_Py_Repr (Py_Repr st ++ [l]) st) l) with (dict_table st l).
  rewrite Htable.
  rewrite bool_decide_eq_false_2 by (intros E; rewrite E in Hin; inversion Hin).
  unfold bind.
  pose proof (encode_dict_loop_bad_key turns 0 [] (set_Py_Repr (Py_Repr st ++ [l]) st)
                Htable Hin) as Hloop.
  destruct (encode_dict_loop rec turns l 0 [] _) as [[pieces| |why] st1];
    cbn [fst] in *; [|discriminate..].
  exfalso. exact (Hloop pieces eq_refl).
Qed.

End BadKey.

(** [returns_a_value r]: the outcome [r] is an object, not NULL. *)
Definition returns_a_value {A} (r : outcome A) : bool :=
  match r with
  | Value _ => true
  | _ => false
  end.

(** X12.  A dict that has a key which is neither a [str] nor a [unicode]
    object is not encoded, whatever the other entries, the recursion depth
    and the [default] callable, as long as the encoding of its keys and
    values leaves the dict itself as it is: [encode_object] returns no
    text. *)
Theorem encode_dict_string_keys (h : host) (w : interp) (params : EncodingParams)
  (turns depth : nat) (l : loc) (ma_table : list (option (pyobj * pyobj)))
  (key value : pyobj) (st : enc_state) :
  objects st !! l = Some (ob_dict ma_table) ->
  (key, value) ∈ table_entries ma_table -> is_string_key key = false ->
  (forall k v o st',
     (k, v) ∈ table_entries ma_table -> o = k \/ o = v ->
     dict_table (snd (encode_object h w params turns (pred depth) o st')) l
     = dict_table st' l) ->
  returns_a_value (fst (encode_object h w params turns depth (PyRef l) st)) = false.
Proof.
  intros Hl Hin Hkey Hstable.
  destruct depth as [|depth]; cbn [encode_object]; rewrite Hl; [reflexivity|].
  assert (Htable : dict_table st l = ma_table)
    by (unfold dict_table; rewrite Hl; reflexivity).
  assert (Hstable' : forall k v st', (k, v) ∈ table_entries ma_table ->
            dict_table (snd (encode_object h w params turns depth k st')) l
            = dict_table st' l /\
            dict_table (snd (encode_object h w params turns depth v st')) l
            = dict_table st' l)
    by (intros k v st' Hkv; split; apply (Hstable k v); auto).
  pose proof (encode_dict_bad_key (encode_object h w params turns depth) l ma_table
                Hstable' key value Hkey turns st Htable Hin) as Hbad.
  destruct (fst (encode_dict _ turns l st)) as [text| |why]; [|reflexivity..].
  exfalso. exact (Hbad text eq_refl).
Qed.

(** The dict [{"a": "x", 2: "b"}] at address 0, in a table of four slots. *)
Definition int_key_dict : enc_state :=
  state_of {[ 0%nat := ob_dict [Some (PyString (bytes_of "a"), PyString (bytes_of "x")); None;
                                Some (PyInt 2, PyString (bytes_of "b")); None] ]}.

Lemma encode_object_zero_objects (turns : nat) (o : pyobj) (st : enc_state) :
  objects (snd (encode_object host0 interp0 params0 turns 0 o st)) = objects st.
Proof.
  destruct o; cbn [encode_object]; try reflexivity.
  - destruct b; reflexivity.
  - destruct (encode_string host0 s); reflexivity.
  - destruct (encode_unicode host0 u); reflexivity.
  - destruct f as [| [] | |]; reflexivity.
  - destruct (objects st !! l) as [[]|]; reflexivity.
  - destruct f as [| [] | |]; reflexivity.
  - destruct kind; reflexivity.
Qed.

Lemma encode_dict_string_keys_witness :
  returns_a_value (fst (encode_object host0 interp0 params0 5 1 (PyRef 0) int_key_dict))
  = false.
Proof.
  apply (encode_dict_string_keys host0 interp0 params0 5 1 0%nat
           [Some (PyString (bytes_of "a"), PyString (bytes_of "x")); None;
            Some (PyInt 2, PyString (bytes_of "b")); None]
           (PyInt 2) (PyString (bytes_of "b")) int_key_dict).
  - apply lookup_singleton_eq.
  - apply list_elem_of_In. right. left. reflexivity.
  - reflexivity.
  - intros k v o st' _ _. unfold dict_table. cbn [pred].
    rewrite encode_object_zero_objects. reflexivity.
Defined.

Example Encode_int_key :
  JSON_encode host0 interp0 5 5 (PyRef 0) None None None None int_key_dict
  = (Null, PyErr_SetString
             (JSON_EncodeError "JSON encodable dictionaries must have string/unicode keys")
             int_key_dict).
Proof. vm_compute. reflexivity. Qed.
(** ** The text is printable ASCII *)

(** The bytes from the space to the tilde. *)
Definition printable (c : ascii) : bool := (32 <=? code c) && (code c <? 127).

Lemma printable_app (a b : bytes) :
  forallb printable (a ++ b) = forallb printable a && forallb printable b.
Proof. apply forallb_app. Qed.

Lemma printable_concat {A} (f : A -> bytes) (l : list A) :
  (forall x, forallb printable (f x) = true) ->
  forallb printable (concat (map f l)) = true.
Proof.
  intros Hf. induction l as [|x l IH]; [reflexivity|].
  cbn [map concat]. rewrite printable_app, Hf, IH. reflexivity.
Qed.

Lemma encode_string_char_printable (c : ascii) :
  forallb printable (encode_string_char c) = true.
Proof. destruct c as [[] [] [] [] [] [] [] []]; vm_compute; reflexivity. Qed.

Lemma hexdigit_printable (x : Z) : printable (hexdigit (Z.land x 15)) = true.
Proof.
  pose proof (land_15_range x) as H.
  assert (Hd : Z.land x 15 = 0 \/ Z.land x 15 = 1 \/ Z.land x 15 = 2 \/ Z.land x 15 = 3 \/
               Z.land x 15 = 4 \/ Z.land x 15 = 5 \/ Z.land x 15 = 6 \/ Z.land x 15 = 7 \/
               Z.land x 15 = 8 \/ Z.land x 15 = 9 \/ Z.land x 15 = 10 \/
               Z.land x 15 = 11 \/ Z.land x 15 = 12 \/ Z.land x 15 = 13 \/
               Z.land x 15 = 14 \/ Z.land x 15 = 15) by lia.
  repeat (destruct Hd as [-> | Hd]; [reflexivity|]). rewrite Hd. reflexivity.
Qed.

Lemma encode_unicode_char_printable (h : host) (ch : Z) :
  forallb printable (encode_unicode_char h ch) = true.
Proof.
  unfold encode_unicode_char. change (code DQUOTE) with 34. change (code BACKSLASH) with 92.
  destruct (Z.eqb_spec ch 34) as [-> | N34]; [reflexivity|].
  destruct (Z.eqb_spec ch 92) as [-> | N92]; [reflexivity|].
  cbn [orb].
  destruct (Py_UNICODE_WIDE h && (65536 <=? ch)).
  { cbv zeta. cbn [forallb]. change 0x000F with 15.
    rewrite !hexdigit_printable. reflexivity. }
  destruct (256 <=? ch).
  { cbn [forallb]. change 0x000F with 15. rewrite !hexdigit_printable. reflexivity. }
  destruct (ch =? 9); [reflexivity|]. destruct (ch =? 10); [reflexivity|].
  destruct (ch =? 13); [reflexivity|]. destruct (ch =? 12); [reflexivity|].
  destruct (ch =? 8); [reflexivity|].
  destruct (Z.ltb_spec ch 32); cbn [orb].
  { cbn [forallb]. change 0x000F with 15. rewrite !hexdigit_printable. reflexivity. }
  destruct (Z.leb_spec 127 ch).
  { cbn [forallb]. change 0x000F with 15. rewrite !hexdigit_printable. reflexivity. }
  cbn [forallb]. unfold printable. rewrite code_chr by lia. rewrite andb_true_r.
  apply andb_true_iff. split; [apply Z.leb_le | apply Z.ltb_lt]; lia.
Qed.

Lemma digits_printable (ds : bytes) : all_digits ds = true -> forallb printable ds = true.
Proof.
  induction ds as [|c ds IH]; [reflexivity|]. cbn [all_digits forallb].
  intros H. apply andb_true_iff in H as [Hc Hds]. rewrite (IH Hds), andb_true_r.
  destruct c as [[] [] [] [] [] [] [] []]; try discriminate Hc; reflexivity.
Qed.

Lemma Z_to_bytes_printable (z : Z) : forallb printable (Z_to_bytes z) = true.
Proof.
  destruct (Z_to_bytes_token z) as (s & i & -> & Hs & Hi & _).
  destruct (int_part_digits i Hi) as (_ & Hall & _).
  rewrite printable_app, (digits_printable i Hall).
  destruct Hs as [-> | ->]; reflexivity.
Qed.

Lemma PyString_Join_printable (pieces : list bytes) :
  Forall (fun p => forallb printable p = true) pieces ->
  forallb printable (PyString_Join (bytes_of ", ") pieces) = true.
Proof.
  induction 1 as [|p ps Hp Hps IH]; [reflexivity|].
  destruct ps as [|p' ps]; [exact Hp|].
  rewrite PyString_Join_cons by discriminate.
  rewrite !printable_app, Hp, IH. reflexivity.
Qed.

Lemma decorate_printable (open_ close : bytes) (pieces : list bytes) :
  forallb printable open_ = true -> forallb printable close = true ->
  Forall (fun p => forallb printable p = true) pieces ->
  forallb printable (decorate open_ close pieces) = true.
Proof.
  intros Ho Hc Hp. destruct pieces as [|p ps]; [reflexivity|].
  rewrite decorate_join by discriminate.
  rewrite !printable_app, Ho, Hc, (PyString_Join_printable _ Hp). reflexivity.
Qed.

Lemma printable_take (n : nat) (s : bytes) :
  forallb printable s = true -> forallb printable (take n s) = true.
Proof.
  revert n. induction s as [|c s IH]; intros [|n] H; try reflexivity.
  cbn [take forallb firstn] in *. apply andb_true_iff in H as [Hc Hs].
  rewrite Hc, (IH n Hs). reflexivity.
Qed.

Lemma encode_string_printable (h : host) (s out : bytes) :
  encode_string h s = Ok out -> forallb printable out = true.
Proof.
  unfold encode_string, _PyString_Resize. destruct (_ <? _); [discriminate|].
  cbv zeta. destruct (_ <? 0); [discriminate|]. intros [= <-].
  apply printable_take. cbn [forallb]. rewrite printable_app.
  rewrite (printable_concat _ s encode_string_char_printable). reflexivity.
Qed.

Lemma encode_unicode_printable (h : host) (u : list Z) (out : bytes) :
  encode_unicode h u = Ok out -> forallb printable out = true.
Proof.
  unfold encode_unicode. destruct (_ <? _); [discriminate|].
  intros [= <-]. cbn [forallb]. rewrite printable_app.
  rewrite (printable_concat _ u (encode_unicode_char_printable h)). reflexivity.
Qed.

(** [meets R m]: a value that [m] returns is in [R]. *)
Definition meets {A} (R : A -> Prop) (m : enc A) : Prop :=
  forall st, match fst (m st) with Value a => R a | _ => True end.

Lemma meets_ret {A} (R : A -> Prop) (a : A) : R a -> meets R (ret a).
Proof. intros H st. exact H. Qed.

Lemma meets_raise {A} (R : A -> Prop) (e : pyerr) : meets R (raise e).
Proof. intros st. exact I. Qed.

Lemma meets_bind {A B} (R : A -> Prop) (Q : B -> Prop) (m : enc A) (k : A -> enc B) :
  meets R m -> (forall a, R a -> meets Q (k a)) -> meets Q (bind m k).
Proof.
  intros Hm Hk st. unfold bind. specialize (Hm st).
  destruct (m st) as [[a| |why] st1]; cbn [fst] in *; try exact I.
  apply Hk, Hm.
Qed.

Section Printable.

Variable h : host.
Variable w : interp.
Variable params : EncodingParams.
Variable turns : nat.

Definition text (out : bytes) : Prop := forallb printable out = true.

(** The texts that come from the interpreter: the [repr] of a [float], the
    [repr] of an instance of a subclass of [float], and the [str] of an
    object that is not an [int] itself. *)
Hypothesis float_repr_text : forall f, text (float_repr h f).
Hypothesis PyObject_Repr_text :
  forall o depth st,
    match fst (PyObject_Repr w o depth st) with Some s => text s | None => True end.
Hypothesis tp_str_text :
  forall o depth st,
    match fst (tp_str w o depth st) with Some s => text s | None => True end.

Lemma raise_encoding_error_meets (o : pyobj) (depth : nat) :
  meets text (raise_encoding_error w o depth).
Proof.
  intros st. unfold raise_encoding_error.
  destruct (run _ depth st) as [[repr|] st1]; exact I.
Qed.

Lemma encode_float_meets (o : pyobj) (depth : nat) : meets text (encode_float h w o depth).
Proof.
  intros st. unfold encode_float. destruct o; try exact I.
  - destruct f as [| [] | |]; try reflexivity; apply float_repr_text.
  - pose proof (PyObject_Repr_text (PySubFloat id f) depth st) as Hr.
    destruct f as [| [] | |]; try reflexivity; cbv beta; unfold run;
      destruct (PyObject_Repr w _ depth st) as [[repr|] st1]; try exact I; exact Hr.
Qed.

Lemma PyObject_Str_meets (o : pyobj) (depth : nat) : meets text (PyObject_Str w o depth).
Proof.
  intros st. unfold PyObject_Str. destruct depth as [|depth]; [exact I|].
  pose proof (tp_str_text o depth st) as Hs.
  destruct o; try apply Z_to_bytes_printable; cbv beta;
    unfold run; destruct (tp_str w _ depth st) as [[out|] st1]; try exact I; exact Hs.
Qed.

Lemma encode_number_meets (o : pyobj) (depth : nat) :
  meets text (encode_number h w o depth).
Proof.
  intros st. unfold encode_number.
  destruct (run (PyNumber_Float w o) depth st) as [[decimal|] st1].
  - destruct (run (PyNumber_Long w decimal) depth st1) as [[integer|] st2];
      [|apply encode_float_meets].
    destruct (run (PyObject_Cmp w integer decimal) depth st2) as [[cmp|] st3];
      [|apply encode_float_meets].
    destruct (cmp =? 0); [apply PyObject_Str_meets | apply encode_float_meets].
  - destruct (run (PyNumber_Long w o) depth st1) as [[integer|] st2];
      [apply PyObject_Str_meets | apply raise_encoding_error_meets].
Qed.

Lemma encode_datetime_meets (o : pyobj) (fmt : bytes) (depth : nat) :
  meets text (encode_datetime h w o fmt depth).
Proof.
  intros st. unfold encode_datetime.
  destruct (run (strftime w o fmt) depth st) as [[value|] st1];
    [|apply raise_encoding_error_meets].
  destruct value; try exact I.
  destruct (encode_string h s) as [out|e] eqn:E; [|exact I].
  exact (encode_string_printable h s out E).
Qed.

Section Containers.

Variable rec : pyobj -> enc bytes.
Hypothesis rec_meets : forall o, meets text (rec o).

Lemma encode_items_meet (items : list pyobj) : meets (Forall text) (encode_items rec items).
Proof.
  induction items as [|x xs IH]; cbn [encode_items]; [apply meets_ret; constructor|].
  apply (meets_bind text); [apply rec_meets|]. intros s Hs.
  apply (meets_bind (Forall text)); [exact IH|]. intros pieces Hp.
  apply meets_ret. constructor; assumption.
Qed.

Lemma encode_tuple_meets (items : list pyobj) : meets text (encode_tuple rec items).
Proof.
  unfold encode_tuple. destruct (bool_decide _); [apply meets_ret; reflexivity|].
  apply (meets_bind (Forall text)); [apply encode_items_meet|]. intros pieces Hp.
  apply meets_ret. apply decorate_printable; [reflexivity | reflexivity | exact Hp].
Qed.

Lemma encode_list_loop_meets (l : loc) (n : nat) :
  forall i pieces, Forall text pieces ->
                   meets (Forall text) (encode_list_loop rec n l i pieces).
Proof.
  induction n as [|n IH]; intros i pieces Hp st; cbn [encode_list_loop];
    destruct (list_items st l !! i) as [item|]; try exact Hp; try exact I.
  pose proof (rec_meets item st) as Hitem.
  destruct (rec item st) as [[s| |why] st1]; cbn [fst] in *; try exact I.
  apply IH. apply Forall_app. split; [exact Hp|]. constructor; [exact Hitem | constructor].
Qed.

Lemma entered_meets (l : loc) (body : enc bytes) (e : pyerr) :
  meets text body ->
  meets text (fun st =>
                let (i, st) := Py_ReprEnter l st in
                if negb (i =? 0) then (Null, PyErr_SetString e st)
                else let (result, st) := body st in (result, Py_ReprLeave l st)).
Proof.
  intros Hbody st. unfold Py_ReprEnter.
  destruct (bool_decide (l ∈ Py_Repr st)); cbn [Z.eqb negb]; [exact I|].
  specialize (Hbody (set_Py_Repr (Py_Repr st ++ [l]) st)).
  destruct (body _) as [r st1]. exact Hbody.
Qed.

Lemma encode_list_meets (l : loc) : meets text (encode_list rec turns l).
Proof.
  apply (entered_meets l
           (fun st => (if bool_decide (list_items st l = []) then ret (bytes_of "[]")
                       else let* pieces := encode_list_loop rec turns l 0 [] in
                            ret (decorate (bytes_of "[") (bytes_of "]") pieces)) st)).
  intros st. destruct (bool_decide _); [reflexivity|].
  apply (meets_bind (Forall text)); [apply encode_list_loop_meets; constructor|].
  intros pieces Hp. apply meets_ret.
  apply decorate_printable; [reflexivity | reflexivity | exact Hp].
Qed.

Lemma encode_pair_meets (key value : pyobj) : meets text (encode_pair rec key value).
Proof.
  intros st. unfold encode_pair.
  pose proof (rec_meets key st) as Hk. destruct (rec key st) as [s st1].
  pose proof (rec_meets value st1) as Hv. destruct (rec value st1) as [v st2].
  cbn [fst] in *. destruct s as [s| |?], v as [v| |?]; cbn [fst]; try exact I.
  unfold text in *. rewrite !printable_app, Hk, Hv. reflexivity.
Qed.

Lemma encode_dict_loop_meets (l : loc) (n : nat) :
  forall i pieces, Forall text pieces ->
                   meets (Forall text) (encode_dict_loop rec n l i pieces).
Proof.
  induction n as [|n IH]; intros i pieces Hp st; cbn [encode_dict_loop];
    destruct (PyDict_Next (dict_table st l) i) as [[i' [key value]]|];
    try exact Hp; try exact I.
  destruct (negb (is_string_key key)); [exact I|].
  pose proof (encode_pair_meets key value st) as Hpair.
  destruct (encode_pair rec key value st) as [[s| |why] st1]; cbn [fst] in *; try exact I.
  apply IH. apply Forall_app. split; [exact Hp|]. constructor; [exact Hpair | constructor].
Qed.

Lemma encode_dict_meets (l : loc) : meets text (encode_dict rec turns l).
Proof.
  apply (entered_meets l
           (fun st => (if bool_decide (table_entries (dict_table st l) = [])
                       then ret (bytes_of "{}")
                       else let* pieces := encode_dict_loop rec turns l 0 [] in
                            ret (decorate (bytes_of "{") (bytes_of "}") pieces)) st)).
  intros st. destruct (bool_decide _); [reflexivity|].
  apply (meets_bind (Forall text)); [apply encode_dict_loop_meets; constructor|].
  intros pieces Hp. apply meets_ret.
  apply decorate_printable; [reflexivity | reflexivity | exact Hp].
Qed.

End Containers.

Lemma encode_object_meets (depth : nat) :
  forall o, meets text (encode_object h w params turns depth o).
Proof.
  assert (Hscalar : forall depth o,
            match o with
            | PyRef _ | PyTuple _ | PyTemporal _ _ _ | PyInstance _ _ => True
            | _ => meets text (encode_object h w params turns depth o)
            end).
  { intros d o. destruct o; try exact I; destruct d; cbn [encode_object];
      try (apply meets_ret; reflexivity); try apply encode_float_meets;
      try apply PyObject_Str_meets; try apply encode_number_meets;
      try (destruct b; apply meets_ret; reflexivity);
      intros st; unfold lift;
      match goal with
      | |- context [encode_string h ?s] =>
          destruct (encode_string h s) eqn:E;
          [exact (encode_string_printable h s _ E) | exact I]
      | |- context [encode_unicode h ?u] =>
          destruct (encode_unicode h u) eqn:E;
          [exact (encode_unicode_printable h u _ E) | exact I]
      end. }
  assert (Hother : forall depth o,
            (forall depth', depth = S depth' ->
               forall r, meets text (encode_object h w params turns depth' r)) ->
            is_instance o = true \/ (exists kind id truth, o = PyTemporal kind id truth) ->
            meets text (encode_object h w params turns depth o)).
  { intros d o IH Ho. rewrite (encode_object_other h w params turns d o Ho). intros st.
    destruct (PyObject_IsInstance w o TDateTime d st) as [[|] st1];
      [apply encode_datetime_meets|].
    destruct (PyObject_IsInstance w o TDate d st1) as [[|] st2];
      [apply encode_datetime_meets|].
    destruct (PyObject_IsInstance w o TTime d st2) as [[|] st3];
      [apply encode_datetime_meets|].
    unfold encode_other. destruct (fallback params) as [f|];
      [|apply raise_encoding_error_meets].
    destruct d as [|d]; [exact I|].
    destruct (PyObject_CallObject w f o d st3) as [resolve st4].
    destruct (curexc st4); [exact I|]. destruct resolve as [r|]; [|exact I].
    apply (IH d eq_refl). }
  induction depth as [|depth IH]; intros o.
  - pose proof (Hscalar 0%nat o) as Hs. pose proof (Hother 0%nat o) as Ho.
    destruct o; try exact Hs;
      try (apply Ho; [intros; discriminate | first [left; reflexivity | right; do 3 eexists; reflexivity]]).
    + intros st. cbn [encode_object]. destruct (objects st !! l) as [[]|]; exact I.
    + apply meets_raise.
  - pose proof (Hscalar (S depth) o) as Hs. pose proof (Hother (S depth) o) as Ho.
    destruct o; try exact Hs;
      try (apply Ho; [intros depth' [= <-]; exact IH
                     | first [left; reflexivity | right; do 3 eexists; reflexivity]]).
    + intros st. cbn [encode_object]. destruct (objects st !! l) as [[]|]; [| |exact I].
      * apply encode_list_meets, IH.
      * apply encode_dict_meets, IH.
    + apply encode_tuple_meets, IH.
Qed.

End Printable.

(** X10.  When the texts that the interpreter writes for numbers are
    printable ASCII (the [repr] of a [float] and of an instance of a subclass
    of [float], the [str] of an instance of a subclass of [int] or [long] and
    of what [long()] returns), every text that [JSON_encode] returns is
    printable ASCII: whatever the strings of the object hold and whatever
    [default] and [strftime] return, no byte of the text is a control
    character, a NUL or a byte above 126. *)
Theorem JSON_encode_printable (h : host) (w : interp) (turns depth : nat) (o : pyobj)
  (default : option pyobj) (fmt_datetime fmt_date fmt_time : option bytes)
  (st st' : enc_state) (out : bytes) :
  (forall f, forallb printable (float_repr h f) = true) ->
  (forall o depth st,
     match fst (PyObject_Repr w o depth st) with
     | Some s => forallb printable s = true
     | None => True
     end) ->
  (forall o depth st,
     match fst (tp_str w o depth st) with
     | Some s => forallb printable s = true
     | None => True
     end) ->
  JSON_encode h w turns depth o default fmt_datetime fmt_date fmt_time st = (Value out, st') ->
  forallb printable out = true.
Proof.
  intros Hfloat Hrepr Hstr. unfold JSON_encode.
  match goal with
  | |- (let (fallback, st) := ?x in _) = _ -> _ => destruct x as [fallback st1]
  end.
  match goal with
  | |- context [match ?x with Some _ => _ | None => _ end] => destruct x as [f|]
  end.
  { destruct (run (PyObject_Repr w f) depth st1) as [[result|] st2]; discriminate. }
  intros Henc.
  match type of Henc with
  | encode_object h w ?params turns depth o st1 = _ =>
      pose proof (encode_object_meets h w params turns Hfloat Hrepr Hstr depth o st1) as Hm
  end.
  rewrite Henc in Hm. exact Hm.
Qed.

Lemma JSON_encode_printable_witness :
  JSON_encode host0 interp0 10 10
    (PyTuple [PyString ["001"%char; "233"%char]; PyUnicode [0x20AC]; PyFloat (S754_zero false);
              PyInt 12])
    None None None None st0
  = (Value (bytes_of "[" ++ q "\u0001\u00e9" ++ bytes_of ", " ++ q "\u20ac"
            ++ bytes_of ", 0.0, 12]"), st0) /\
  forallb printable (bytes_of "[" ++ q "\u0001\u00e9" ++ bytes_of ", " ++ q "\u20ac"
                     ++ bytes_of ", 0.0, 12]") = true.
Proof.
  assert (H : JSON_encode host0 interp0 10 10
                (PyTuple [PyString ["001"%char; "233"%char]; PyUnicode [0x20AC];
                          PyFloat (S754_zero false); PyInt 12])
                None None None None st0
              = (Value (bytes_of "[" ++ q "\u0001\u00e9" ++ bytes_of ", " ++ q "\u20ac"
                        ++ bytes_of ", 0.0, 12]"), st0))
    by (vm_compute; reflexivity).
  split; [exact H|].
  refine (JSON_encode_printable host0 interp0 10 10 _ None None None None st0 st0 _
            _ _ _ H).
  - intros f. reflexivity.
  - intros o depth st. cbn [PyObject_Repr interp0 fst].
    destruct o; try reflexivity. apply Z_to_bytes_printable.
  - intros o depth st. reflexivity.
Defined.
(** ** Dates and times *)

(** A format argument of [cjson.encode], or the default when it is omitted
    or empty. *)
Definition format_or (fmt : option bytes) (dflt : bytes) : bytes :=
  match fmt with
  | Some s => if bool_decide (s = []) then dflt else s
  | None => dflt
  end.

(** The format that is passed to [strftime] for each kind of object.  The
    default format of a [datetime] is made of the two other formats as C
    strings, that is, of each up to its first NUL. *)
Definition temporal_format (kind : temporal) (fmt_datetime fmt_date fmt_time : option bytes)
  : bytes :=
  let date := format_or fmt_date DEFAULT_DATE_FORMAT in
  let time := format_or fmt_time DEFAULT_TIME_FORMAT in
  match kind with
  | TDateTime => format_or fmt_datetime (c_str date ++ bytes_of " " ++ c_str time)
  | TDate => date
  | TTime => time
  end.






(** The default format of a [datetime] when the format of the date has a
    NUL in it. *)
Example Datetime_format_cut :
  temporal_format TDateTime None (Some (bytes_of "%d" ++ [NUL] ++ bytes_of "%m")) None
  = bytes_of "%d %H:%M:%S" /\
  temporal_format TDate None (Some (bytes_of "%d" ++ [NUL] ++ bytes_of "%m")) None
  = bytes_of "%d" ++ [NUL] ++ bytes_of "%m".
Proof. split; reflexivity. Qed.
